(** * Scheduling and availability engine of the Glisten booking backend

    A shallow embedding of the scheduling code of the backend (the
    duration estimator, the interval construction, the area gate, the
    slot grid of [POST /api/availability], [validateBooking] and the
    per-day loop of [POST /api/date-availability]) and the properties
    its specification states about them.

    Conventions of the embedding.
    - JavaScript numbers that the scheduling code computes with are
      integers and are modelled by [Z].
    - Text is [string]; the characters are read as ASCII, so upper-casing
      and the white-space class act on the ASCII range only.
    - A time text that the engine takes apart is represented by the two
      integers that [split(":").map(Number)] yields from it; the time
      texts the engine writes are [string]s, and [readTimeText] takes
      such a text apart.
    - A date text [YYYY-MM-DD] is represented by the number of the day it
      denotes (days since 1970-01-01), or is marked as not parseable.
    - The outbound calls (booking store, calendar, Distance Matrix) are
      answers of a fixed [world]; every Distance Matrix request that is
      sent is recorded in a log, in the order of the calls.
    - The zone of the server is one fixed offset from UTC.

    Two further embeddings lift these conventions where a property
    depends on them.  [Untyped] embeds the estimator, [validateBooking]
    and the slot enumeration on the values a JSON body can hold (a
    property that is no text, a text without numerals, [NaN]) and is
    shown to agree with the typed embedding on texts and integers;
    [Zoned] embeds the loop over the days of a range for a zone whose
    offset changes, and agrees with the loop here for a fixed offset. *)

From Stdlib Require Import ZArith List String Ascii Bool Lia.
From Stdlib Require Import DecimalString DecimalPos DecimalZ.
From Stdlib Require Import Sorted Permutation.
Import ListNotations.
Open Scope string_scope.
Open Scope list_scope.
Open Scope Z_scope.

(* ------------------------------------------------------------------ *)
(** ** JavaScript text helpers *)

Module JsString.

(** The ASCII members of the class [\s], which [trim] strips too. *)
Definition isSpace (c : ascii) : bool :=
  let n := nat_of_ascii c in
  ((9 <=? n) && (n <=? 13))%nat || (n =? 32)%nat.

Definition upperChar (c : ascii) : ascii :=
  let n := nat_of_ascii c in
  if ((97 <=? n) && (n <=? 122))%nat then ascii_of_nat (n - 32) else c.

Definition lowerChar (c : ascii) : ascii :=
  let n := nat_of_ascii c in
  if ((65 <=? n) && (n <=? 90))%nat then ascii_of_nat (n + 32) else c.

Fixpoint mapChars (f : ascii -> ascii) (s : string) : string :=
  match s with
  | EmptyString => EmptyString
  | String c r => String (f c) (mapChars f r)
  end.

Definition toUpperCase : string -> string := mapChars upperChar.
Definition toLowerCase : string -> string := mapChars lowerChar.

Fixpoint trimStart (s : string) : string :=
  match s with
  | EmptyString => EmptyString
  | String c r => if isSpace c then trimStart r else s
  end.

Fixpoint trimEnd (s : string) : string :=
  match s with
  | EmptyString => EmptyString
  | String c r =>
      match trimEnd r with
      | EmptyString => if isSpace c then EmptyString else String c EmptyString
      | r' => String c r'
      end
  end.

Definition trim (s : string) : string := trimEnd (trimStart s).

(** [s.replace(/\s+/g, "")]: every white-space character is dropped. *)
Fixpoint removeSpaces (s : string) : string :=
  match s with
  | EmptyString => EmptyString
  | String c r => if isSpace c then removeSpaces r else String c (removeSpaces r)
  end.

Definition isEmpty (s : string) : bool :=
  match s with EmptyString => true | _ => false end.

(** Truthiness of a value that is a text or is missing
    ([undefined], [null] and the empty text are falsy). *)
Definition truthy (v : option string) : bool :=
  match v with
  | Some s => negb (isEmpty s)
  | None => false
  end.

(** [v || ""] *)
Definition orEmpty (v : option string) : string :=
  match v with Some s => s | None => "" end.

End JsString.

(* ------------------------------------------------------------------ *)
(** ** Dates and the server clock *)

(** A date text: the day it denotes, or a text [new Date] cannot read. *)
Inductive dateText : Type :=
| DateOf (dayNumber : Z)
| DateInvalid.

Definition dateText_eqb (a b : dateText) : bool :=
  match a, b with
  | DateOf x, DateOf y => x =? y
  | DateInvalid, DateInvalid => true
  | _, _ => false
  end.

(** Day number of a civil date of the Gregorian calendar (used to write
    dates down in examples). *)
Definition daysFromCivil (y m d : Z) : Z :=
  let y' := if m <=? 2 then y - 1 else y in
  let era := y' / 400 in
  let yoe := y' - era * 400 in
  let mp := (m + 9) mod 12 in
  let doy := (153 * mp + 2) / 5 + d - 1 in
  let doe := yoe * 365 + yoe / 4 - yoe / 100 + doy in
  era * 146097 + doe - 719468.

Definition ymd (y m d : Z) : dateText := DateOf (daysFromCivil y m d).

(** The clock of the server: its zone is a fixed offset from UTC (for
    a zone whose offset changes within a range of days see [Zoned]). *)
Module Clock.

Definition minutesPerDay : Z := 1440.

(** A [Date] object: minutes since the epoch (UTC), or Invalid Date. *)
Definition jsDate := option Z.

Section WithZone.
(** Offset of the server's local time, in minutes east of UTC. *)
Variable tz : Z.

(** [new Date(dateStr + "T00:00:00")]: local midnight of that day. *)
Definition localMidnight (s : dateText) : jsDate :=
  match s with
  | DateOf n => Some (n * minutesPerDay - tz)
  | DateInvalid => None
  end.

(** [d.getDay()] of a valid date: 0 = Sunday, ..., 6 = Saturday,
    in local time (1970-01-01 was a Thursday). *)
Definition getDay (t : Z) : Z :=
  ((t + tz) / minutesPerDay + 4) mod 7.

(** [d.getHours() * 60 + d.getMinutes()] *)
Definition localMinuteOfDay (t : Z) : Z := (t + tz) mod minutesPerDay.

(** [d.toISOString().slice(0, 10)]: the date in UTC. *)
Definition isoDate (t : Z) : dateText := DateOf (t / minutesPerDay).

(** [d.setDate(d.getDate() + 1)] *)
Definition nextDay (t : Z) : Z := t + minutesPerDay.

(** Monday to Friday only.  For an Invalid Date [getDay()] is [NaN]
    and both comparisons are false. *)
Definition isWorkingDay (dateStr : dateText) : bool :=
  match localMidnight dateStr with
  | Some d => let day := getDay d in (1 <=? day) && (day <=? 5)
  | None => false
  end.
End WithZone.

End Clock.

(* ------------------------------------------------------------------ *)
(** ** Engine constants *)

Definition WORK_START : Z := 8 * 60 + 30.
Definition WORK_END : Z := 16 * 60 + 30.
Definition TRAVEL_LIMIT_MIN : Z := 20.
Definition BUFFER_AFTER_JOB_MIN : Z := 30.
Definition SLOT_STEP_MIN : Z := 15.

(* ------------------------------------------------------------------ *)
(** ** Texts of times and dates *)

(** A time text that the engine takes apart (the time of a request or
    of a stored booking): the two integers that
    [timeStr.split(":").map(Number)] starts with. *)
Record timeText : Type := HM { hh : Z; mm : Z }.

Definition timeStringToMinutes (timeStr : timeText) : Z :=
  let h := hh timeStr in
  let m := mm timeStr in
  h * 60 + m.

Module TimeFormat.

(** [String(n)] for an integer [n]. *)
Definition numberText (n : Z) : string := NilZero.string_of_int (Z.to_int n).

Fixpoint zeros (count : nat) : string :=
  match count with
  | O => EmptyString
  | S k => String "0" (zeros k)
  end.

(** [s.padStart(width, "0")] *)
Definition padStart (width : nat) (s : string) : string :=
  zeros (width - String.length s) ++ s.

Definition padStart2 : string -> string := padStart 2.

(** [s.split(":")] *)
Fixpoint splitColon (s : string) : list string :=
  match s with
  | EmptyString => [EmptyString]
  | String c r =>
      if Ascii.eqb c ":" then EmptyString :: splitColon r
      else match splitColon r with
           | first :: others => String c first :: others
           | [] => [String c EmptyString]
           end
  end.

(** [Number(s)] when [s] is the decimal numeral of an integer; other
    texts are not covered. *)
Definition numberOfText (s : string) : option Z :=
  option_map Z.of_int (NilZero.int_of_string s).

(** The text holds no colon. *)
Fixpoint noColon (s : string) : bool :=
  match s with
  | EmptyString => true
  | String c r => negb (Ascii.eqb c ":") && noColon r
  end.

End TimeFormat.

(** [Math.floor(mins / 60)] and [mins % 60] (the remainder of JavaScript
    takes the sign of the dividend), each padded to two characters. *)
Definition minutesToTimeString (mins : Z) : string :=
  let h := mins / 60 in
  let m := Z.rem mins 60 in
  TimeFormat.padStart2 (TimeFormat.numberText h) ++ ":"
  ++ TimeFormat.padStart2 (TimeFormat.numberText m).

(** The civil date of a day number, the inverse of [daysFromCivil]. *)
Definition civilFromDays (n : Z) : Z * Z * Z :=
  let z := n + 719468 in
  let era := z / 146097 in
  let doe := z - era * 146097 in
  let yoe := (doe - doe / 1460 + doe / 36524 - doe / 146096) / 365 in
  let doy := doe - (365 * yoe + yoe / 4 - yoe / 100) in
  let mp := (5 * doy + 2) / 153 in
  let d := doy - (153 * mp + 2) / 5 + 1 in
  let m := if mp <? 10 then mp + 3 else mp - 9 in
  let y := yoe + era * 400 + (if m <=? 2 then 1 else 0) in
  (y, m, d).

(** The text [YYYY-MM-DD] of a day of the years 0 to 9999, as
    [toISOString().slice(0, 10)] writes it. *)
Definition dayString (n : Z) : string :=
  let '(y, m, d) := civilFromDays n in
  TimeFormat.padStart 4 (TimeFormat.numberText y) ++ "-"
  ++ TimeFormat.padStart 2 (TimeFormat.numberText m) ++ "-"
  ++ TimeFormat.padStart 2 (TimeFormat.numberText d).

(** A text taken apart as [timeStringToMinutes] does it:
    [split(":").map(Number)], of which the first two numbers count. *)
Definition readTimeText (s : string) : option timeText :=
  match TimeFormat.splitColon s with
  | h :: m :: _ =>
      match TimeFormat.numberOfText h, TimeFormat.numberOfText m with
      | Some h', Some m' => Some (HM h' m')
      | _, _ => None
      end
  | _ => None
  end.

(* ------------------------------------------------------------------ *)
(** ** Service duration logic *)

(** A requested service.  As in the data model, [serviceId] and [size]
    are texts and [quantity] is an integer; each may be missing. *)
Record service : Type := {
  serviceId : option string;
  size : option string;
  quantity : option Z
}.

(** [service.quantity || 1]: a missing quantity and 0 both give 1. *)
Definition quantityOrOne (q : option Z) : Z :=
  match q with
  | Some n => if n =? 0 then 1 else n
  | None => 1
  end.

Definition getServiceDurationMinutes (s : service) : Z :=
  let id := JsString.toLowerCase (JsString.orEmpty (serviceId s)) in
  let size := JsString.toLowerCase (JsString.orEmpty (size s)) in
  let quantity := quantityOrOne (quantity s) in
  let singleDuration :=
    if String.eqb id "basic_wash" then 60
    else if String.eqb id "exterior_detailed" then
      if String.eqb size "small" then 60
      else if String.eqb size "medium" then 75
      else if String.eqb size "large" then 90
      else 60
    else if String.eqb id "full_detailed" then
      if String.eqb size "small" then 75
      else if String.eqb size "medium" then 95
      else if String.eqb size "large" then 120
      else 75
    else 60 in
  singleDuration * quantity.

(** A value handed over as a service list: an array, or anything else. *)
Inductive servicesValue : Type :=
| NotAnArray
| ServiceArray (items : list service).

Definition estimateBookingDurationMinutes (services : servicesValue) : Z :=
  match services with
  | NotAnArray => 60
  | ServiceArray [] => 60
  | ServiceArray items =>
      fold_left (fun total s => total + getServiceDurationMinutes s) items 0
  end.

(** [Array.isArray(services) ? services : []] *)
Definition toServicesArray (services : servicesValue) : servicesValue :=
  match services with
  | ServiceArray items => ServiceArray items
  | NotAnArray => ServiceArray []
  end.

(* ------------------------------------------------------------------ *)
(** ** The collaborators *)

(** A row of the [bookings] table, as the scheduling code reads it.
    [row_services] is the JSON column after [JSON.parse]; [None] stands
    for an empty column, for which the code takes [[]]. *)
Record bookingRow : Type := {
  row_postcode : string;
  row_preferred_date : dateText;
  row_preferred_time : timeText;
  row_services : option servicesValue
}.

(** The [start] or [end] of a calendar event: an instant ([dateTime],
    minutes since the epoch) or, for an all-day event, a day ([date]). *)
Record eventStamp : Type := {
  dateTime : option Z;
  date : option Z
}.

Record calendarEvent : Type := {
  ev_start : option eventStamp;
  ev_end : option eventStamp
}.

(** What [getBusyIntervalsForDate] returns: minutes from midnight. *)
Record calendarBlock : Type := { cb_start : Z; cb_end : Z }.

(** The first element of a Distance Matrix answer. *)
Record dmElement : Type := {
  el_status : string;
  el_duration : option Z   (* [duration.value] in seconds, when it is a number *)
}.

Inductive dmReply : Type :=
| FetchThrows                       (* [fetch], [res.json()] or a field access throws *)
| HttpNotOk                         (* [res.ok] is false *)
| DmBody (status : string) (element : option dmElement).
                                    (* [element]: [rows[0].elements[0]], if there *)

Record world : Type := {
  (** local time of the server, minutes east of UTC *)
  tzOffsetMin : Z;
  (** whether the calendar credentials were initialised *)
  googleAuth : bool;
  (** [calendar.events.list] for the day; [None] when the call rejects *)
  calendarEvents : dateText -> option (list calendarEvent);
  (** [SELECT ... WHERE preferred_date = ? AND status IN ('pending',
      'confirmed') ORDER BY preferred_time ASC] *)
  bookingsForDate : dateText -> list bookingRow;
  (** [SELECT ... WHERE preferred_date BETWEEN ? AND ? AND status IN
      ('pending', 'confirmed')] *)
  bookingsBetween : dateText -> dateText -> list bookingRow;
  (** the Distance Matrix service, by origins and destinations *)
  distanceMatrix : string -> string -> dmReply
}.

(* ------------------------------------------------------------------ *)
(** ** Computations that call the Distance Matrix service *)

Definition dmRequest : Type := (string * string)%type.

(** A result together with the requests sent, oldest first. *)
Definition Io (A : Type) : Type := (A * list dmRequest)%type.

Definition ret {A} (a : A) : Io A := (a, []).

Definition bind {A B} (m : Io A) (k : A -> Io B) : Io B :=
  let (a, sent) := m in
  let (b, sent') := k a in
  (b, sent ++ sent').

Definition send (r : dmRequest) : Io unit := (tt, [r]).

Definition result {A} (m : Io A) : A := fst m.
Definition requests {A} (m : Io A) : list dmRequest := snd m.

Declare Scope io_scope.
Delimit Scope io_scope with io.
Notation "x <- m ;; k" := (bind m (fun x => k))
  (at level 61, m at next level, right associativity) : io_scope.
Notation "m ;;; k" := (bind m (fun _ => k))
  (at level 61, right associativity) : io_scope.
Open Scope io_scope.

(* ------------------------------------------------------------------ *)
(** ** Intervals *)

Record interval : Type := {
  iv_start : Z;
  iv_end : Z;
  iv_postcode : option string      (* [null] for a calendar block *)
}.

(** [Math.max(s, i.start) < Math.min(e, i.end)] *)
Definition overlapsWith (s e : Z) (i : interval) : bool :=
  let latestStart := Z.max s (iv_start i) in
  let earliestEnd := Z.min e (iv_end i) in
  latestStart <? earliestEnd.

(** [Array.prototype.sort] with a comparator: a stable sort; [a] stays
    before [b] unless the comparator is positive. *)
Fixpoint insertBy {A} (cmp : A -> A -> Z) (x : A) (l : list A) : list A :=
  match l with
  | [] => [x]
  | y :: l' => if cmp x y <=? 0 then x :: l else y :: insertBy cmp x l'
  end.

Fixpoint sortBy {A} (cmp : A -> A -> Z) (l : list A) : list A :=
  match l with
  | [] => []
  | x :: l' => insertBy cmp x (sortBy cmp l')
  end.

Definition hasPostcode (i : interval) : bool := JsString.truthy (iv_postcode i).

(** The closest booking that ends at or before [s]. *)
Definition prevOf (bookingIntervals : list interval) (s : Z) : option interval :=
  hd_error
    (sortBy (fun a b => iv_end b - iv_end a)
       (filter (fun i => iv_end i <=? s) bookingIntervals)).

(** The closest booking that starts at or after [e]. *)
Definition nextOf (bookingIntervals : list interval) (e : Z) : option interval :=
  hd_error
    (sortBy (fun a b => iv_start a - iv_start b)
       (filter (fun i => iv_start i >=? e) bookingIntervals)).

(** The interval of a stored booking: duration plus the buffer. *)
Definition bookingInterval (row : bookingRow) : interval :=
  let svc := match row_services row with
             | Some v => v
             | None => ServiceArray []
             end in
  let dur := estimateBookingDurationMinutes svc + BUFFER_AFTER_JOB_MIN in
  let start := timeStringToMinutes (row_preferred_time row) in
  let end_ := start + dur in
  {| iv_start := start; iv_end := end_; iv_postcode := Some (row_postcode row) |}.

(** The interval of a calendar block: no postcode, no extra buffer. *)
Definition calendarInterval (c : calendarBlock) : interval :=
  {| iv_start := cb_start c; iv_end := cb_end c; iv_postcode := None |}.

(** Bookings first, then the calendar blocks. *)
Definition buildIntervals (rows : list bookingRow) (calendarBusy : list calendarBlock)
  : list interval :=
  map bookingInterval rows ++ map calendarInterval calendarBusy.

(* ------------------------------------------------------------------ *)
(** ** The engine, in a fixed world *)

Inductive validationError : Type :=
| MISSING_FIELDS
| OUTSIDE_WORKING_DAYS
| OUTSIDE_WORKING_HOURS
| OUT_OF_AREA_FOR_DAY
| TIME_TAKEN
| TRAVEL_TOO_FAR.

(** [validateBooking] resolves, or throws one of the typed errors. *)
Inductive validation : Type :=
| Accepted
| Rejected (error : validationError).

Record bookingRequest : Type := {
  req_date : option dateText;
  req_postcode : option string;
  req_services : servicesValue;
  req_preferred_time : option timeText
}.

Record availabilityRequest : Type := {
  av_date : option dateText;
  av_postcode : option string;
  av_services : servicesValue
}.

Inductive availabilityResponse : Type :=
| AvailabilityBadRequest                                  (* status 400 *)
| AvailabilitySlots (date : dateText) (slots : list string).

Record dateAvailabilityRequest : Type := {
  da_postcode : option string;
  da_start_date : option dateText;
  da_end_date : option dateText
}.

Record dayAreaResult : Type := {
  day_date : dateText;
  in_area : bool
}.

Inductive dateAvailabilityResponse : Type :=
| DateAvailabilityMissingFields                           (* status 400 *)
| DateAvailabilityDates (postcode : string) (start_date end_date : dateText)
    (dates : list dayAreaResult).

(** The object [byDate]: the rows of a range, grouped by their date. *)
Definition byDateMap : Type := list (dateText * list bookingRow).

Fixpoint byDateGet (m : byDateMap) (k : dateText) : option (list bookingRow) :=
  match m with
  | [] => None
  | (k', rows) :: m' => if dateText_eqb k k' then Some rows else byDateGet m' k
  end.

Fixpoint byDatePush (m : byDateMap) (k : dateText) (row : bookingRow) : byDateMap :=
  match m with
  | [] => [(k, [row])]
  | (k', rows) :: m' =>
      if dateText_eqb k k' then (k', rows ++ [row]) :: m'
      else (k', rows) :: byDatePush m' k row
  end.

Definition groupByDate (rows : list bookingRow) : byDateMap :=
  fold_left (fun byDate row => byDatePush byDate (row_preferred_date row) row) rows [].

Section Engine.

Variable w : world.

Definition isWorkingDay : dateText -> bool := Clock.isWorkingDay (tzOffsetMin w).

(** *** Calendar *)

(** [start.dateTime || (start.date ? start.date + "T00:00:00" : null)] *)
Definition startInstant (s : eventStamp) : option Z :=
  match dateTime s with
  | Some t => Some t
  | None =>
      match date s with
      | Some n => Some (n * Clock.minutesPerDay - tzOffsetMin w)
      | None => None
      end
  end.

(** [end.dateTime || (end.date ? end.date + "T23:59:59" : null)] *)
Definition endInstant (s : eventStamp) : option Z :=
  match dateTime s with
  | Some t => Some t
  | None =>
      match date s with
      | Some n => Some (n * Clock.minutesPerDay + (23 * 60 + 59) - tzOffsetMin w)
      | None => None
      end
  end.

(** One turn of the loop over the events: the block pushed, if any. *)
Definition blockOfEvent (ev : calendarEvent) : option calendarBlock :=
  match ev_start ev, ev_end ev with
  | Some start, Some end_ =>
      match startInstant start, endInstant end_ with
      | Some startDateObj, Some endDateObj =>
          let startMinutes := Clock.localMinuteOfDay (tzOffsetMin w) startDateObj in
          let endMinutes := Clock.localMinuteOfDay (tzOffsetMin w) endDateObj in
          Some {| cb_start := startMinutes; cb_end := endMinutes |}
      | _, _ => None
      end
  | _, _ => None
  end.

Fixpoint blocksOfEvents (events : list calendarEvent) : list calendarBlock :=
  match events with
  | [] => []
  | ev :: events' =>
      match blockOfEvent ev with
      | Some b => b :: blocksOfEvents events'
      | None => blocksOfEvents events'
      end
  end.

(** [None] when the promise rejects: the calendar call fails, or the
    day cannot be turned into the bounds of the query. *)
Definition getBusyIntervalsForDate (dateStr : dateText) : option (list calendarBlock) :=
  if negb (googleAuth w) then Some []
  else
    match Clock.localMidnight (tzOffsetMin w) dateStr with
    | None => None
    | Some _ =>
        match calendarEvents w dateStr with
        | None => None
        | Some events => Some (blocksOfEvents events)
        end
    end.

(** [try { calendarBusy = await getBusyIntervalsForDate(date) } catch { }] *)
Definition loadCalendarBusy (dateStr : dateText) : list calendarBlock :=
  match getBusyIntervalsForDate dateStr with
  | Some blocks => blocks
  | None => []
  end.

(** *** Travel time *)

(** [Math.round(seconds / 60)] on integer seconds. *)
Definition roundMinutes (seconds : Z) : Z := (seconds + 30) / 60.

Definition minutesOfReply (r : dmReply) : Z :=
  match r with
  | FetchThrows => 999
  | HttpNotOk => 999
  | DmBody status element =>
      if negb (String.eqb status "OK") then 999
      else
        match element with
        | None => 999
        | Some el =>
            if negb (String.eqb (el_status el) "OK") then 999
            else
              match el_duration el with
              | None => 999
              | Some seconds => roundMinutes seconds
              end
        end
  end.

Definition getTravelTimeMinutes (fromPostcode toPostcode : option string) : Io Z :=
  match fromPostcode, toPostcode with
  | Some from, Some to =>
      if JsString.isEmpty from || JsString.isEmpty to then ret 999
      else
        let origins := JsString.trim from in
        let destinations := JsString.trim to in
        send (origins, destinations) ;;;
        ret (minutesOfReply (distanceMatrix w origins destinations))
  | _, _ => ret 999
  end.

(** *** Area gate *)

(** The loop over the day's rows; its result is the flag [allFar]. *)
Fixpoint allFarLoop (postcode : option string) (rows : list bookingRow) : Io bool :=
  match rows with
  | [] => ret true
  | row :: rows' =>
      travel <- getTravelTimeMinutes postcode (Some (row_postcode row)) ;;
      if travel <=? TRAVEL_LIMIT_MIN then ret false
      else allFarLoop postcode rows'
  end.

(** [rows.length > 0] and [allFar]: the day is in another area. *)
Definition outOfAreaForDay (postcode : option string) (rows : list bookingRow) : Io bool :=
  match rows with
  | [] => ret false
  | _ => allFarLoop postcode rows
  end.

(** *** validateBooking *)

Definition validateBooking (req : bookingRequest) : Io validation :=
  match req_date req, req_preferred_time req with
  | Some date, Some preferred_time =>
      if negb (JsString.truthy (req_postcode req)) then ret (Rejected MISSING_FIELDS)
      else if negb (isWorkingDay date) then ret (Rejected OUTSIDE_WORKING_DAYS)
      else
        let postcode := req_postcode req in
        let servicesArray := toServicesArray (req_services req) in
        let baseDuration := estimateBookingDurationMinutes servicesArray in
        let requestedDuration := baseDuration + BUFFER_AFTER_JOB_MIN in
        let requestedStart := timeStringToMinutes preferred_time in
        let requestedEnd := requestedStart + requestedDuration in
        if (requestedStart <? WORK_START) || (requestedEnd >? WORK_END)
        then ret (Rejected OUTSIDE_WORKING_HOURS)
        else
          let rows := bookingsForDate w date in
          let calendarBusy := loadCalendarBusy date in
          allFar <- outOfAreaForDay postcode rows ;;
          if allFar then ret (Rejected OUT_OF_AREA_FOR_DAY)
          else
            let intervals := buildIntervals rows calendarBusy in
            if existsb (overlapsWith requestedStart requestedEnd) intervals
            then ret (Rejected TIME_TAKEN)
            else
              let bookingIntervals := filter hasPostcode intervals in
              let prev := prevOf bookingIntervals requestedStart in
              let next := nextOf bookingIntervals requestedEnd in
              prevTooFar <-
                match prev with
                | Some p =>
                    mins <- getTravelTimeMinutes (iv_postcode p) postcode ;;
                    ret (mins >? TRAVEL_LIMIT_MIN)
                | None => ret false
                end ;;
              if prevTooFar then ret (Rejected TRAVEL_TOO_FAR)
              else
                nextTooFar <-
                  match next with
                  | Some n =>
                      mins <- getTravelTimeMinutes postcode (iv_postcode n) ;;
                      ret (mins >? TRAVEL_LIMIT_MIN)
                  | None => ret false
                  end ;;
                if nextTooFar then ret (Rejected TRAVEL_TOO_FAR)
                else ret Accepted
  | _, _ => ret (Rejected MISSING_FIELDS)
  end.

(** *** POST /api/availability *)

Section SlotGrid.
Variable postcode : option string.
Variable intervals : list interval.
Variable requestedDuration : Z.

(** The body of the grid loop for one candidate: [true] when the
    candidate is pushed on [possibleSlots]. *)
Definition candidateOk (candidateStart : Z) : Io bool :=
  let candidateEnd := candidateStart + requestedDuration in
  let overlaps := existsb (overlapsWith candidateStart candidateEnd) intervals in
  if overlaps then ret false
  else
    let bookingIntervals := filter hasPostcode intervals in
    let prev := prevOf bookingIntervals candidateStart in
    let next := nextOf bookingIntervals candidateEnd in
    travelOk <-
      match prev with
      | Some p =>
          mins <- getTravelTimeMinutes (iv_postcode p) postcode ;;
          ret (negb (mins >? TRAVEL_LIMIT_MIN))
      | None => ret true
      end ;;
    travelOk <-
      match next with
      | Some n =>
          if travelOk then
            mins <- getTravelTimeMinutes postcode (iv_postcode n) ;;
            ret (negb (mins >? TRAVEL_LIMIT_MIN))
          else ret travelOk
      | None => ret travelOk
      end ;;
    ret travelOk.

(** The grid loop, from [candidateStart] on; [fuel] bounds the number
    of turns. *)
Fixpoint slotLoop (fuel : nat) (candidateStart : Z) : Io (list string) :=
  match fuel with
  | O => ret []
  | S fuel' =>
      if candidateStart + requestedDuration <=? WORK_END then
        keep <- candidateOk candidateStart ;;
        rest <- slotLoop fuel' (candidateStart + SLOT_STEP_MIN) ;;
        ret (if keep then minutesToTimeString candidateStart :: rest else rest)
      else ret []
  end.

(** The number of grid points from [candidateStart] to the last one
    that still ends by [WORK_END]. *)
Definition gridTurns (candidateStart : Z) : nat :=
  Z.to_nat ((WORK_END - requestedDuration - candidateStart) / SLOT_STEP_MIN + 1).

Definition possibleSlots : Io (list string) :=
  slotLoop (gridTurns WORK_START) WORK_START.
End SlotGrid.

Definition findSlots (req : availabilityRequest) : Io availabilityResponse :=
  match av_date req with
  | Some date =>
      if negb (JsString.truthy (av_postcode req)) then ret AvailabilityBadRequest
      else if negb (isWorkingDay date) then ret (AvailabilitySlots date [])
      else
        let postcode := av_postcode req in
        let servicesArray := toServicesArray (av_services req) in
        let baseDuration := estimateBookingDurationMinutes servicesArray in
        let requestedDuration := baseDuration + BUFFER_AFTER_JOB_MIN in
        let rows := bookingsForDate w date in
        allFar <- outOfAreaForDay postcode rows ;;
        if allFar then ret (AvailabilitySlots date [])
        else
          let calendarBusy := loadCalendarBusy date in
          let intervals := buildIntervals rows calendarBusy in
          slots <- possibleSlots postcode intervals requestedDuration ;;
          ret (AvailabilitySlots date slots)
  | None => ret AvailabilityBadRequest
  end.

(** *** POST /api/date-availability *)

Definition normalizePostcode (postcode : option string) : string :=
  match postcode with
  | None => ""
  | Some p =>
      if JsString.isEmpty p then ""
      else JsString.removeSpaces (JsString.toUpperCase (JsString.trim p))
  end.

Section DayLoop.
Variable normPostcode : string.
Variable byDate : byDateMap.
Variable end_ : Z.

(** The body of the loop over the days, for the date object [d]. *)
Definition dayEntry (d : Z) : Io dayAreaResult :=
  let dStr := Clock.isoDate d in
  let bookingsForDay := match byDateGet byDate dStr with
                        | Some rows => rows
                        | None => []
                        end in
  inArea <-
    (if negb (isWorkingDay dStr) then ret false
     else
       match bookingsForDay with
       | _ :: _ =>
           allFar <- allFarLoop (Some normPostcode) bookingsForDay ;;
           ret (negb allFar)
       | [] => ret true
       end) ;;
  ret {| day_date := dStr; in_area := inArea |}.

Fixpoint dayLoop (fuel : nat) (d : Z) : Io (list dayAreaResult) :=
  match fuel with
  | O => ret []
  | S fuel' =>
      if d <=? end_ then
        entry <- dayEntry d ;;
        rest <- dayLoop fuel' (Clock.nextDay d) ;;
        ret (entry :: rest)
      else ret []
  end.

Definition dayTurns (d : Z) : nat :=
  Z.to_nat ((end_ - d) / Clock.minutesPerDay + 1).
End DayLoop.

Definition rangeAvailability (req : dateAvailabilityRequest) : Io dateAvailabilityResponse :=
  match da_start_date req, da_end_date req with
  | Some start_date, Some end_date =>
      if negb (JsString.truthy (da_postcode req)) then ret DateAvailabilityMissingFields
      else
        let normPostcode := normalizePostcode (da_postcode req) in
        let rows := bookingsBetween w start_date end_date in
        let byDate := groupByDate rows in
        dates <-
          match Clock.localMidnight (tzOffsetMin w) start_date,
                Clock.localMidnight (tzOffsetMin w) end_date with
          | Some start, Some end_ =>
              dayLoop normPostcode byDate end_ (dayTurns end_ start) start
          | _, _ => ret []
          end ;;
        ret (DateAvailabilityDates normPostcode start_date end_date dates)
  | _, _ => ret DateAvailabilityMissingFields
  end.

End Engine.

(* ------------------------------------------------------------------ *)
(** ** Reference notions used in the statements *)

(** Day of the week of a day number: 0 = Sunday, ..., 6 = Saturday. *)
Definition dayOfWeek (n : Z) : Z := (n + 4) mod 7.

Definition isWeekend (s : dateText) : Prop :=
  match s with
  | DateOf n => dayOfWeek n = 0 \/ dayOfWeek n = 6
  | DateInvalid => False
  end.

(** The per-item durations of a list, added up. *)
Definition sumDurations (items : list service) : Z :=
  fold_right (fun s total => getServiceDurationMinutes s + total) 0 items.

(** The service list of a stored booking, as the interval code reads it. *)
Definition storedServices (row : bookingRow) : servicesValue :=
  match row_services row with
  | Some v => v
  | None => ServiceArray []
  end.

Definition knownServiceId (id : string) : bool :=
  String.eqb id "basic_wash" || String.eqb id "exterior_detailed"
  || String.eqb id "full_detailed".

Definition knownSize (size : string) : bool :=
  String.eqb size "small" || String.eqb size "medium" || String.eqb size "large".

(** The quantities of a service list are those of the data model:
    missing, or not negative. *)
Definition plainQuantity (s : service) : Prop :=
  match quantity s with
  | Some q => 0 <= q
  | None => True
  end.

Definition plainServices (v : servicesValue) : Prop :=
  match v with
  | NotAnArray => True
  | ServiceArray items => Forall plainQuantity items
  end.

(** A Distance Matrix answer from which no duration can be read. *)
Definition replyFails (r : dmReply) : bool :=
  match r with
  | FetchThrows | HttpNotOk => true
  | DmBody status element =>
      negb (String.eqb status "OK")
      || match element with
         | None => true
         | Some el =>
             negb (String.eqb (el_status el) "OK")
             || match el_duration el with None => true | Some _ => false end
         end
  end.

(** The value [getTravelTimeMinutes] falls back to. *)
Definition UNKNOWN_TRAVEL : Z := 999.

(** The occupancy test, written out on the rows and the fetched blocks. *)
Definition occupied (rows : list bookingRow) (blocks : list calendarBlock) (s e : Z) : Prop :=
  (exists row, In row rows /\
     let start := timeStringToMinutes (row_preferred_time row) in
     let length := estimateBookingDurationMinutes (storedServices row) + 30 in
     Z.max s start < Z.min e (start + length))
  \/ (exists c, In c blocks /\ Z.max s (cb_start c) < Z.min e (cb_end c)).

(** By how many days the UTC date of a local midnight differs from the
    local date, for a zone [tz] minutes east of UTC. *)
Definition zoneShift (tz : Z) : Z := (- tz) / Clock.minutesPerDay.

(** The days [from], [from + 1], ... ([count] of them). *)
Fixpoint daysFrom (from : Z) (count : nat) : list dateText :=
  match count with
  | O => []
  | S k => DateOf from :: daysFrom (from + 1) k
  end.

(* ------------------------------------------------------------------ *)
(** ** The decisions, read off without the request log *)

Section Decisions.
Variable w : world.

(** The minutes [getTravelTimeMinutes] resolves to. *)
Definition travelMinutes (fromPostcode toPostcode : option string) : Z :=
  result (getTravelTimeMinutes w fromPostcode toPostcode).

(** A booking of the day is within the travel limit of the candidate. *)
Definition nearRow (postcode : option string) (row : bookingRow) : bool :=
  travelMinutes postcode (Some (row_postcode row)) <=? TRAVEL_LIMIT_MIN.

(** The travel check on the neighbours of the candidate [s, e). *)
Definition prevTooFar (postcode : option string) (intervals : list interval) (s : Z) : bool :=
  match prevOf (filter hasPostcode intervals) s with
  | Some p => travelMinutes (iv_postcode p) postcode >? TRAVEL_LIMIT_MIN
  | None => false
  end.

Definition nextTooFar (postcode : option string) (intervals : list interval) (e : Z) : bool :=
  match nextOf (filter hasPostcode intervals) e with
  | Some n => travelMinutes postcode (iv_postcode n) >? TRAVEL_LIMIT_MIN
  | None => false
  end.

(** The query for a journey fails, or resolves to the fallback value. *)
Definition queryUnknown (fromPostcode toPostcode : option string) : Prop :=
  travelMinutes fromPostcode toPostcode = UNKNOWN_TRAVEL
  \/ (exists f t,
        fromPostcode = Some f /\ toPostcode = Some t
        /\ JsString.isEmpty f = false /\ JsString.isEmpty t = false
        /\ replyFails (distanceMatrix w (JsString.trim f) (JsString.trim t)) = true).

(** The candidate [s, e) has a previous or a next booking, and the
    travel query for it is unknown. *)
Definition neighbourUnknown (postcode : option string) (intervals : list interval)
  (s e : Z) : Prop :=
  (exists p, prevOf (filter hasPostcode intervals) s = Some p
             /\ queryUnknown (iv_postcode p) postcode)
  \/ (exists n, nextOf (filter hasPostcode intervals) e = Some n
                /\ queryUnknown postcode (iv_postcode n)).

(** The intervals [validateBooking] and the slot grid test against. *)
Definition dayIntervals (date : dateText) : list interval :=
  buildIntervals (bookingsForDate w date) (loadCalendarBusy w date).

End Decisions.

(** A Distance Matrix request about a journey from or to the postcode
    [p], the postcode being sent as it was given (trimmed by
    [getTravelTimeMinutes], nothing else). *)
Definition aboutPostcode (p : string) (r : dmRequest) : Prop :=
  fst r = JsString.trim p \/ snd r = JsString.trim p.

(** The candidate starts of the grid: [WORK_START] plus a number of steps. *)
Definition onGrid (c : Z) : Prop :=
  exists k, 0 <= k /\ c = WORK_START + k * SLOT_STEP_MIN.


(* ------------------------------------------------------------------ *)
(** ** Further reference notions *)

(** The rows of a result set that are stored for one date, in their
    order. *)
Definition rowsOfDate (day : dateText) (rows : list bookingRow) : list bookingRow :=
  filter (fun r => dateText_eqb (row_preferred_date r) day) rows.

(** The rows stored for day [n] or for a later day. *)
Definition rowsFromDay (n : Z) (rows : list bookingRow) : list bookingRow :=
  filter (fun r => match row_preferred_date r with
                   | DateOf m => n <=? m
                   | DateInvalid => false
                   end) rows.

(** Every character of the text passes the test. *)
Fixpoint allChars (test : ascii -> bool) (s : string) : bool :=
  match s with
  | EmptyString => true
  | String c r => test c && allChars test r
  end.

(** A character of the ASCII range (code below 128), on which
    JavaScript's upper-casing and white-space class are the ones of
    [JsString]. *)
Definition isAscii (c : ascii) : bool := (nat_of_ascii c <? 128)%nat.

(** A lower-case letter of the ASCII range. *)
Definition isLowerLetter (c : ascii) : bool :=
  let n := nat_of_ascii c in ((97 <=? n) && (n <=? 122))%nat.

(** The service with its [serviceId] and [size] in another case. *)
Definition recased (f : string -> string) (s : service) : service :=
  {| serviceId := option_map f (serviceId s);
     size := option_map f (size s);
     quantity := quantity s |}.

(** The service with another quantity. *)
Definition withQuantity (q : option Z) (s : service) : service :=
  {| serviceId := serviceId s; size := size s; quantity := q |}.

(* ------------------------------------------------------------------ *)
(** ** Bookings and their calendar events *)

(** A row of the [bookings] table with the columns the handlers read
    and write.  The date and the time are [None] for an empty text; the
    [services] column holds a JSON array, as both handlers that write it
    make sure. *)
Record booking : Type := {
  b_id : Z;
  b_name : string;
  b_email : option string;
  b_phone : option string;
  b_postcode : string;
  b_car_make : option string;
  b_car_model : option string;
  b_services : list service;
  b_preferred_date : option dateText;
  b_preferred_time : option timeText;
  b_status : string;
  b_calendar_event_id : option string
}.

(** The booking as the scheduling code reads it from the table; the
    date and the time are there. *)
Definition rowOfBooking (date : dateText) (time : timeText) (b : booking) : bookingRow :=
  {| row_postcode := b_postcode b;
     row_preferred_date := date;
     row_preferred_time := time;
     row_services := Some (ServiceArray (b_services b)) |}.

(** [new Date(`${date}T${hh}:${mm}:00`)], the hours and the minutes
    being padded to two digits: an instant of local time, or an Invalid
    Date ([None]) unless the two numbers are a time of day (24:00 is
    read as the midnight that ends the day). *)
Definition localDateTime (tz : Z) (d : dateText) (t : timeText) : option Z :=
  match d with
  | DateOf n =>
      let h := hh t in
      let m := mm t in
      if ((0 <=? h) && (h <=? 23) && (0 <=? m) && (m <=? 59)) || ((h =? 24) && (m =? 0))
      then Some (n * Clock.minutesPerDay + h * 60 + m - tz)
      else None
  | DateInvalid => None
  end.

(** The calls a calendar helper makes, in their order. *)
Inductive calendarCall : Type :=
| EventsDelete (eventId : string)
| EventsInsert (startDateTime endDateTime : Z)
| StoreEventId (bookingId : Z) (eventId : string)
| ClearEventId (bookingId : Z).

(** The event that [events.insert] is given, as [events.list] and
    [events.get] hand it back. *)
Definition timedEvent (startDateTime endDateTime : Z) : calendarEvent :=
  {| ev_start := Some {| dateTime := Some startDateTime; date := None |};
     ev_end := Some {| dateTime := Some endDateTime; date := None |} |}.

Section CalendarHelpers.
Variable w : world.

(** [d.getHours()] and [d.getMinutes()] *)
Definition getHours (d : Z) : Z := Clock.localMinuteOfDay (tzOffsetMin w) d / 60.
Definition getMinutes (d : Z) : Z := Clock.localMinuteOfDay (tzOffsetMin w) d mod 60.

(** [extractDateAndTimeFromEvent(event)]; [None] is [null]. *)
Definition extractDateAndTimeFromEvent (event : option calendarEvent)
  : option (dateText * string) :=
  match event with
  | None => None
  | Some ev =>
      match ev_start ev with
      | None => None
      | Some start =>
          match startInstant w start with
          | None => None
          | Some d =>
              let dateStr := Clock.isoDate d in
              let hh := TimeFormat.padStart2 (TimeFormat.numberText (getHours d)) in
              let mm := TimeFormat.padStart2 (TimeFormat.numberText (getMinutes d)) in
              let timeStr := (hh ++ ":" ++ mm)%string in
              Some (dateStr, timeStr)
          end
      end
  end.

(** [createOrReplaceCalendarEventForBooking(booking)]: the calls made.
    [insertReply] is the answer of [events.insert]: [None] when the call
    rejects, else the [id] of the answer, if any.  A failure of
    [events.delete] is caught on the spot and changes nothing of what
    follows; [toISOString] of an Invalid Date throws, which ends the
    helper after the old event was deleted. *)
Definition createOrReplaceCalendarEventForBooking
  (insertReply : option (option string)) (b : booking) : list calendarCall :=
  if negb (String.eqb (b_status b) "confirmed") then []
  else
    match b_preferred_date b, b_preferred_time b with
    | Some preferred_date, Some preferred_time =>
        if negb (googleAuth w) then []
        else
          let servicesArray := ServiceArray (b_services b) in
          let durationMinutes := estimateBookingDurationMinutes servicesArray in
          let startDateTime :=
            localDateTime (tzOffsetMin w) preferred_date preferred_time in
          let deleted :=
            match b_calendar_event_id b with
            | Some eventId =>
                if JsString.isEmpty eventId then [] else [EventsDelete eventId]
            | None => []
            end in
          deleted ++
          match startDateTime with
          | None => []
          | Some start =>
              let endDateTime := start + durationMinutes in
              EventsInsert start endDateTime ::
              match insertReply with
              | Some (Some eventId) =>
                  if JsString.isEmpty eventId then []
                  else [StoreEventId (b_id b) eventId]
              | _ => []
              end
          end
    | _, _ => []
    end.

(** [deleteCalendarEventForBooking(booking)]: the calls made;
    [deleteOk] tells whether [events.delete] resolves. *)
Definition deleteCalendarEventForBooking (deleteOk : bool) (b : booking)
  : list calendarCall :=
  match b_calendar_event_id b with
  | Some eventId =>
      if JsString.isEmpty eventId then []
      else if negb (googleAuth w) then []
      else if deleteOk then [EventsDelete eventId; ClearEventId (b_id b)]
      else [EventsDelete eventId]
  | None => []
  end.

(** *** Calendar to bookings *)

(** The columns of a booking that the sync job reads and writes. *)
Record syncRow : Type := {
  sr_id : Z;
  sr_status : string;
  sr_calendar_event_id : option string;
  sr_preferred_date : dateText;
  sr_preferred_time : string
}.

(** [events.get] by event id: [None] when the call rejects (the event
    is gone, or any other failure), else [res.data]. *)
Variable eventsGet : string -> option (option calendarEvent).

(** The body of the loop for one row: the new date and time of the
    [UPDATE], if one is run. *)
Definition syncUpdate (row : syncRow) : option (dateText * string) :=
  match sr_calendar_event_id row with
  | None => None
  | Some eventId =>
      if JsString.isEmpty eventId then None
      else
        match eventsGet eventId with
        | None => None
        | Some event =>
            match extractDateAndTimeFromEvent event with
            | None => None
            | Some (newDate, newTime) =>
                let oldDate := sr_preferred_date row in
                let oldTime := sr_preferred_time row in
                if negb (dateText_eqb newDate oldDate) || negb (String.eqb newTime oldTime)
                then Some (newDate, newTime)
                else None
            end
        end
  end.

(** [UPDATE bookings SET preferred_date = ?, preferred_time = ? WHERE id = ?] *)
Definition setDateTime (id : Z) (newDate : dateText) (newTime : string)
  (table : list syncRow) : list syncRow :=
  map (fun r =>
         if sr_id r =? id
         then {| sr_id := sr_id r;
                 sr_status := sr_status r;
                 sr_calendar_event_id := sr_calendar_event_id r;
                 sr_preferred_date := newDate;
                 sr_preferred_time := newTime |}
         else r) table.

(** The loop over the rows read at the start; the table and the count
    of updates are threaded through. *)
Fixpoint syncLoop (rows : list syncRow) (table : list syncRow) (updatedCount : Z)
  : list syncRow * Z :=
  match rows with
  | [] => (table, updatedCount)
  | row :: rows' =>
      match syncUpdate row with
      | Some (newDate, newTime) =>
          syncLoop rows' (setDateTime (sr_id row) newDate newTime table)
            (updatedCount + 1)
      | None => syncLoop rows' table updatedCount
      end
  end.

(** [WHERE status = 'confirmed' AND calendar_event_id IS NOT NULL] *)
Definition syncSelected (r : syncRow) : bool :=
  String.eqb (sr_status r) "confirmed"
  && match sr_calendar_event_id r with Some _ => true | None => false end.

(** [syncConfirmedBookingsFromCalendar()]: the table afterwards and
    the count returned. *)
Definition syncConfirmedBookingsFromCalendar (table : list syncRow)
  : list syncRow * Z :=
  if negb (googleAuth w) then (table, 0)
  else
    let rows := filter syncSelected table in
    syncLoop rows table 0.

End CalendarHelpers.

(** What the sync job makes of one row of the table. *)
Definition syncedRow (w : world) (eventsGet : string -> option (option calendarEvent))
  (r : syncRow) : syncRow :=
  if syncSelected r then
    match syncUpdate w eventsGet r with
    | Some (newDate, newTime) =>
        {| sr_id := sr_id r;
           sr_status := sr_status r;
           sr_calendar_event_id := sr_calendar_event_id r;
           sr_preferred_date := newDate;
           sr_preferred_time := newTime |}
    | None => r
    end
  else r.

(** The row is one the sync job rewrites. *)
Definition syncChanges (w : world) (eventsGet : string -> option (option calendarEvent))
  (r : syncRow) : bool :=
  syncSelected r
  && match syncUpdate w eventsGet r with Some _ => true | None => false end.

(* ------------------------------------------------------------------ *)
(** ** The bookings table and the handlers that write it *)

(** The table, with the counter of [AUTOINCREMENT]: the largest id
    that was given out so far. *)
Record store : Type := {
  st_bookings : list booking;
  st_seq : Z
}.

Definition allowedStatuses : list string :=
  ["pending"; "confirmed"; "declined"; "cancelled"].

(** [list.includes(s)] *)
Definition includes (l : list string) (s : string) : bool :=
  existsb (String.eqb s) l.

(** [v || null] *)
Definition orNull (v : option string) : option string :=
  if JsString.truthy v then v else None.

(** The body of [POST /api/bookings]. *)
Record createRequest : Type := {
  cr_name : option string;
  cr_email : option string;
  cr_phone : option string;
  cr_postcode : option string;
  cr_car_make : option string;
  cr_car_model : option string;
  cr_services : servicesValue;
  cr_preferred_date : option dateText;
  cr_preferred_time : option timeText
}.

Inductive createResponse : Type :=
| CreateRejected (error : validationError)    (* status 400 and the error code *)
| Created (booking_id : Z).

(** The four fields [validateBooking] is called with. *)
Definition validatedFields (req : createRequest) : bookingRequest :=
  {| req_date := cr_preferred_date req;
     req_postcode := cr_postcode req;
     req_services := toServicesArray (cr_services req);
     req_preferred_time := cr_preferred_time req |}.

(** [POST /api/bookings]: the answer and the table afterwards.  The
    status of the new row is the default of the column, its id the next
    of the counter.  (The mail that follows changes nothing here.) *)
Definition createBooking (w : world) (st : store) (req : createRequest)
  : Io (createResponse * store) :=
  match cr_name req, cr_postcode req, cr_preferred_date req, cr_preferred_time req with
  | Some name, Some postcode, Some preferred_date, Some preferred_time =>
      if JsString.isEmpty name || JsString.isEmpty postcode
      then ret (CreateRejected MISSING_FIELDS, st)
      else
        let servicesArray := toServicesArray (cr_services req) in
        outcome <- validateBooking w
                     {| req_date := Some preferred_date;
                        req_postcode := Some postcode;
                        req_services := servicesArray;
                        req_preferred_time := Some preferred_time |} ;;
        match outcome with
        | Rejected error => ret (CreateRejected error, st)
        | Accepted =>
            let lastID := st_seq st + 1 in
            let row :=
              {| b_id := lastID;
                 b_name := name;
                 b_email := orNull (cr_email req);
                 b_phone := orNull (cr_phone req);
                 b_postcode := postcode;
                 b_car_make := orNull (cr_car_make req);
                 b_car_model := orNull (cr_car_model req);
                 b_services := match servicesArray with
                               | ServiceArray items => items
                               | NotAnArray => []
                               end;
                 b_preferred_date := Some preferred_date;
                 b_preferred_time := Some preferred_time;
                 b_status := "pending";
                 b_calendar_event_id := None |} in
            ret (Created lastID,
                 {| st_bookings := st_bookings st ++ [row]; st_seq := lastID |})
        end
  | _, _, _, _ => ret (CreateRejected MISSING_FIELDS, st)
  end.

(** [UPDATE bookings SET status = ? WHERE id = ?] *)
Definition setStatus (id : Z) (status : string) (bookings : list booking) : list booking :=
  map (fun b =>
         if b_id b =? id
         then {| b_id := b_id b;
                 b_name := b_name b;
                 b_email := b_email b;
                 b_phone := b_phone b;
                 b_postcode := b_postcode b;
                 b_car_make := b_car_make b;
                 b_car_model := b_car_model b;
                 b_services := b_services b;
                 b_preferred_date := b_preferred_date b;
                 b_preferred_time := b_preferred_time b;
                 b_status := status;
                 b_calendar_event_id := b_calendar_event_id b |}
         else b) bookings.

(** The calendar helper a handler calls for the row it has updated. *)
Definition calendarCallsFor (w : world) (insertReply : option (option string))
  (deleteOk : bool) (updated : booking) : list calendarCall :=
  if String.eqb (b_status updated) "confirmed"
  then createOrReplaceCalendarEventForBooking w insertReply updated
  else if includes ["declined"; "cancelled"] (b_status updated)
  then deleteCalendarEventForBooking w deleteOk updated
  else [].

Inductive statusResponse : Type :=
| StatusInvalid                                    (* status 400 *)
| StatusNotFound                                   (* status 404 *)
| StatusUpdated (updated : booking) (calls : list calendarCall).

(** [PATCH /api/bookings/:id/status]: the answer, with the calls of the
    calendar helper that is started for the updated row, and the table
    after the [UPDATE].  [status] is [None] for a value that is no
    text. *)
Definition updateBookingStatus (w : world) (insertReply : option (option string))
  (deleteOk : bool) (st : store) (bookingId : Z) (status : option string)
  : statusResponse * store :=
  match status with
  | None => (StatusInvalid, st)
  | Some text =>
      let status := JsString.toLowerCase (JsString.trim text) in
      if negb (includes allowedStatuses status) then (StatusInvalid, st)
      else if negb (existsb (fun b => b_id b =? bookingId) (st_bookings st))
      then (StatusNotFound, st)
      else
        let st' := {| st_bookings := setStatus bookingId status (st_bookings st);
                      st_seq := st_seq st |} in
        match find (fun b => b_id b =? bookingId) (st_bookings st') with
        | None => (StatusNotFound, st')
        | Some updated =>
            (StatusUpdated updated (calendarCallsFor w insertReply deleteOk updated), st')
        end
  end.

(** [DELETE /api/bookings/history]: the count answered and the table
    afterwards. *)
Definition clearHistory (st : store) : Z * store :=
  let deleted := filter (fun b => includes ["confirmed"; "declined"] (b_status b))
                   (st_bookings st) in
  (Z.of_nat (List.length deleted),
   {| st_bookings := filter (fun b => negb (includes ["confirmed"; "declined"] (b_status b)))
                       (st_bookings st);
      st_seq := st_seq st |}).

(** *** The table as the scheduling code reads it *)

(** [status IN ('pending', 'confirmed')] *)
Definition isActive (b : booking) : bool := includes ["pending"; "confirmed"] (b_status b).

(** The rows of the day query, in the order of the table: the active
    bookings of the date (a booking without a time has no row here). *)
Definition activeRows (st : store) (date : dateText) : list bookingRow :=
  flat_map (fun b =>
              match b_preferred_date b, b_preferred_time b with
              | Some d, Some t =>
                  if isActive b && dateText_eqb d date then [rowOfBooking d t b] else []
              | _, _ => []
              end) (st_bookings st).

(** The day query of the world answers from the table; the order is
    that of [ORDER BY preferred_time]. *)
Definition readsStore (w : world) (st : store) : Prop :=
  forall date, Permutation (bookingsForDate w date) (activeRows st date).

(** Two intervals share time. *)
Definition overlap (a b : interval) : Prop :=
  Z.max (iv_start a) (iv_start b) < Z.min (iv_end a) (iv_end b).

(** No two active bookings of a day share time, buffers included. *)
Definition scheduleOk (st : store) : Prop :=
  forall date,
    ForallOrdPairs (fun r1 r2 => ~ overlap (bookingInterval r1) (bookingInterval r2))
      (activeRows st date).

(** The interval of every active booking has its start before its end. *)
Definition properSchedule (st : store) : Prop :=
  forall date,
    Forall (fun r => iv_start (bookingInterval r) < iv_end (bookingInterval r))
      (activeRows st date).

(** The job of [a] begins while the job of [b] is under way, its buffer
    included. *)
Definition startsDuring (a b : interval) : Prop :=
  iv_start b <= iv_start a < iv_end b.

(** No active booking of a day begins while another one is under way. *)
Definition noDoubleBooking (st : store) : Prop :=
  forall date,
    ForallOrdPairs
      (fun r1 r2 => ~ startsDuring (bookingInterval r1) (bookingInterval r2)
                    /\ ~ startsDuring (bookingInterval r2) (bookingInterval r1))
      (activeRows st date).

(** The ids are distinct and none is beyond the counter; every row has
    a date and a time. *)
Definition tableOk (st : store) : Prop :=
  NoDup (map b_id (st_bookings st))
  /\ Forall (fun b => b_id b <= st_seq st
                      /\ b_preferred_date b <> None /\ b_preferred_time b <> None)
       (st_bookings st).

(** The rows one booking contributes to the day query. *)
Definition rowsOn (date : dateText) (b : booking) : list bookingRow :=
  match b_preferred_date b, b_preferred_time b with
  | Some d, Some t =>
      if isActive b && dateText_eqb d date then [rowOfBooking d t b] else []
  | _, _ => []
  end.

(** The two rows differ in nothing but the status. *)
Definition sameButStatus (a b : booking) : Prop :=
  b_id a = b_id b /\ b_name a = b_name b /\ b_email a = b_email b
  /\ b_phone a = b_phone b /\ b_postcode a = b_postcode b
  /\ b_car_make a = b_car_make b /\ b_car_model a = b_car_model b
  /\ b_services a = b_services b /\ b_preferred_date a = b_preferred_date b
  /\ b_preferred_time a = b_preferred_time b
  /\ b_calendar_event_id a = b_calendar_event_id b.

(** The status a [PATCH] of the status asks for, as it is stored. *)
Definition requestedStatus (text : string) : string :=
  JsString.toLowerCase (JsString.trim text).

(* ------------------------------------------------------------------ *)
(** ** Booking numbers and requests to amend *)

(** [`GL-${String(booking.id).padStart(5, "0")}`], the number the
    mails and the calendar event show. *)
Definition bookingNumber (id : Z) : string :=
  ("GL-" ++ TimeFormat.padStart 5 (TimeFormat.numberText id))%string.

Definition isDigit (c : ascii) : bool :=
  let n := nat_of_ascii c in ((48 <=? n) && (n <=? 57))%nat.

Definition digitValue (c : ascii) : Z := Z.of_nat (nat_of_ascii c - 48).

(** The value of the longest prefix of decimal digits; [acc] is the
    value read so far, [None] as long as no digit was read. *)
Fixpoint digitsValue (acc : option Z) (s : string) : option Z :=
  match s with
  | EmptyString => acc
  | String c r =>
      if isDigit c
      then digitsValue (Some (10 * match acc with Some a => a | None => 0 end
                              + digitValue c)) r
      else acc
  end.

(** [parseInt(s, 10)]: leading white space is skipped, a sign is
    taken, then the digits as far as they go; [None] is [NaN]. *)
Definition parseInt10 (s : string) : option Z :=
  match JsString.trimStart s with
  | String "-" r => option_map Z.opp (digitsValue None r)
  | String "+" r => digitsValue None r
  | t => digitsValue None t
  end.

(** [s.startsWith(prefix)] *)
Fixpoint startsWith (prefix s : string) : bool :=
  match prefix with
  | EmptyString => true
  | String a prefix' =>
      match s with
      | EmptyString => false
      | String b s' => Ascii.eqb a b && startsWith prefix' s'
      end
  end.

(** [s.slice(n)] *)
Fixpoint sliceFrom (n : nat) (s : string) : string :=
  match n, s with
  | S k, String _ r => sliceFrom k r
  | _, _ => s
  end.

(** The id that [POST /api/amend-booking] looks up for a reference,
    if it comes to a look-up. *)
Definition referencedId (booking_reference : string) : option Z :=
  let ref := JsString.toUpperCase (JsString.trim booking_reference) in
  if startsWith "GL-" ref then
    let numStr := sliceFrom 3 ref in
    match parseInt10 numStr with
    | Some idNum => if idNum >? 0 then Some idNum else None
    | None => None
    end
  else None.

Record amendRequest : Type := {
  am_booking_reference : option string;
  am_email : option string;
  am_action : option string;
  am_message : option string
}.

(** A row of the table [amend_requests]. *)
Record amendRow : Type := {
  ar_id : Z;
  ar_booking_id : option Z;
  ar_booking_reference : string;
  ar_email : string;
  ar_action : string;
  ar_message : option string;
  ar_status : string;
  ar_processed_at : option Z
}.

Record amendTable : Type := {
  at_rows : list amendRow;
  at_seq : Z
}.

Inductive amendResponse : Type :=
| AmendMissingFields          (* status 400, MISSING_FIELDS *)
| AmendInvalidAction          (* status 400, INVALID_ACTION *)
| AmendReceived (id : Z).

(** [POST /api/amend-booking], for a body whose fields are texts. *)
Definition amendBooking (bookings : list booking) (table : amendTable)
  (req : amendRequest) : amendResponse * amendTable :=
  match am_booking_reference req, am_email req, am_action req with
  | Some booking_reference, Some email, Some action =>
      if JsString.isEmpty booking_reference || JsString.isEmpty email
         || JsString.isEmpty action
      then (AmendMissingFields, table)
      else
        let actionLower := JsString.toLowerCase action in
        if negb (includes ["amend"; "cancel"] actionLower)
        then (AmendInvalidAction, table)
        else
          let bookingId :=
            match referencedId booking_reference with
            | Some idNum =>
                match find (fun b => b_id b =? idNum) bookings with
                | Some booking => Some (b_id booking)
                | None => None
                end
            | None => None
            end in
          let lastID := at_seq table + 1 in
          (AmendReceived lastID,
           {| at_rows := at_rows table
                         ++ [{| ar_id := lastID;
                                ar_booking_id := bookingId;
                                ar_booking_reference := booking_reference;
                                ar_email := email;
                                ar_action := actionLower;
                                ar_message := orNull (am_message req);
                                ar_status := "pending";
                                ar_processed_at := None |}];
              at_seq := lastID |})
  | _, _, _ => (AmendMissingFields, table)
  end.

Inductive amendStatusResponse : Type :=
| AmendStatusInvalid                           (* status 400 *)
| AmendStatusNotFound                          (* status 404 *)
| AmendStatusUpdated (updated : option amendRow).

(** [PATCH /api/amend-requests/:id/status] at the time [now] of the
    table's clock.  The status is compared as it is sent; [None] is a
    value that is no text. *)
Definition updateAmendStatus (now : Z) (table : amendTable) (id : Z)
  (status : option string) : amendStatusResponse * amendTable :=
  match status with
  | None => (AmendStatusInvalid, table)
  | Some status =>
      if negb (includes ["pending"; "processed"] status) then (AmendStatusInvalid, table)
      else
        let processed_at := if String.eqb status "processed" then Some now else None in
        if negb (existsb (fun r => ar_id r =? id) (at_rows table))
        then (AmendStatusNotFound, table)
        else
          let rows :=
            map (fun r =>
                   if ar_id r =? id
                   then {| ar_id := ar_id r;
                           ar_booking_id := ar_booking_id r;
                           ar_booking_reference := ar_booking_reference r;
                           ar_email := ar_email r;
                           ar_action := ar_action r;
                           ar_message := ar_message r;
                           ar_status := status;
                           ar_processed_at := processed_at |}
                   else r) (at_rows table) in
          (AmendStatusUpdated (find (fun r => ar_id r =? id) rows),
           {| at_rows := rows; at_seq := at_seq table |})
  end.

(** The requests that reach the table [amend_requests]. *)
Inductive amendOp : Type :=
| SubmitAmend (bookings : list booking) (req : amendRequest)
| SetAmendStatus (now : Z) (id : Z) (status : option string).

Definition amendStep (table : amendTable) (op : amendOp) : amendTable :=
  match op with
  | SubmitAmend bookings req => snd (amendBooking bookings table req)
  | SetAmendStatus now id status => snd (updateAmendStatus now table id status)
  end.

Definition emptyAmendTable : amendTable := {| at_rows := []; at_seq := 0 |}.

(** The number a decimal numeral denotes, read digit by digit from the
    value [acc] of the digits before it. *)
Fixpoint uintValue (acc : Z) (d : Decimal.uint) : Z :=
  match d with
  | Decimal.Nil => acc
  | Decimal.D0 r => uintValue (10 * acc + 0) r
  | Decimal.D1 r => uintValue (10 * acc + 1) r
  | Decimal.D2 r => uintValue (10 * acc + 2) r
  | Decimal.D3 r => uintValue (10 * acc + 3) r
  | Decimal.D4 r => uintValue (10 * acc + 4) r
  | Decimal.D5 r => uintValue (10 * acc + 5) r
  | Decimal.D6 r => uintValue (10 * acc + 6) r
  | Decimal.D7 r => uintValue (10 * acc + 7) r
  | Decimal.D8 r => uintValue (10 * acc + 8) r
  | Decimal.D9 r => uintValue (10 * acc + 9) r
  end.

(* ------------------------------------------------------------------ *)
(** ** The earlier server: bookings under generated ids *)

Module Legacy.

(** The columns of a booking that the handlers read or change after it
    was stored. *)
Record row : Type := {
  id : string;
  status : string;
  email : string;
  amendNotes : option string
}.

(** The body of [POST /api/bookings]; [services] tells whether the
    field is there. *)
Record createBody : Type := {
  cb_name : option string;
  cb_email : option string;
  cb_phone : option string;
  cb_postcode : option string;
  cb_preferredDate : option string;
  cb_services : bool
}.

Inductive request : Type :=
| Create (body : createBody)
| Amend (bookingId : string) (email action details : option string)
| Confirm (bookingId : string)
| Reject (bookingId : string) (reason : option string).

Inductive response : Type :=
| MissingFields                 (* status 400 *)
| SaveFailed                    (* status 500: the insert was refused *)
| NotFound                      (* status 404 *)
| CreatedAs (bookingId : string)
| Done.                         (* ok: true *)

(** ["GLSTN-" + String(n).padStart(6, "0")] *)
Definition idText (n : Z) : string :=
  ("GLSTN-" ++ TimeFormat.padStart 6 (TimeFormat.numberText n))%string.

(** [generateBookingId]: from the number of rows of the table. *)
Definition generateBookingId (table : list row) : string :=
  let count := Z.of_nat (List.length table) in
  let n := count + 1 in
  idText n.

Definition update (bookingId : string) (change : row -> row) (table : list row)
  : list row :=
  map (fun r => if String.eqb (id r) bookingId then change r else r) table.

(** One request, handled on its own: the answer and the table
    afterwards.  The id is the primary key: an insert under an id that
    is in the table is refused. *)
Definition handle (table : list row) (req : request) : response * list row :=
  match req with
  | Create body =>
      if JsString.truthy (cb_name body) && JsString.truthy (cb_email body)
         && JsString.truthy (cb_phone body) && JsString.truthy (cb_postcode body)
         && JsString.truthy (cb_preferredDate body) && cb_services body
      then
        let bookingId := generateBookingId table in
        if existsb (fun r => String.eqb (id r) bookingId) table
        then (SaveFailed, table)
        else (CreatedAs bookingId,
              table ++ [{| id := bookingId;
                           status := "pending";
                           email := JsString.orEmpty (cb_email body);
                           amendNotes := None |}])
      else (MissingFields, table)
  | Amend bookingId mail action details =>
      if JsString.truthy mail && JsString.truthy action then
        let newStatus :=
          if String.eqb (JsString.orEmpty action) "cancel"
          then "cancel_requested" else "change_requested" in
        match find (fun r => String.eqb (id r) bookingId
                             && String.eqb (email r) (JsString.orEmpty mail)) table with
        | None => (NotFound, table)
        | Some _ =>
            (Done,
             update bookingId
               (fun r => {| id := id r;
                            status := newStatus;
                            email := email r;
                            amendNotes := orNull details |}) table)
        end
      else (MissingFields, table)
  | Confirm bookingId =>
      (Done,
       update bookingId
         (fun r => {| id := id r;
                      status := "confirmed";
                      email := email r;
                      amendNotes := amendNotes r |}) table)
  | Reject bookingId reason =>
      (Done,
       update bookingId
         (fun r => {| id := id r;
                      status := "rejected";
                      email := email r;
                      amendNotes := orNull reason |}) table)
  end.

(** The requests handled one after the other. *)
Fixpoint run (table : list row) (reqs : list request) : list response * list row :=
  match reqs with
  | [] => ([], table)
  | req :: reqs' =>
      let (answer, table') := handle table req in
      let (answers, final) := run table' reqs' in
      (answer :: answers, final)
  end.

Definition isCreated (r : response) : bool :=
  match r with CreatedAs _ => true | _ => false end.

End Legacy.

(* ------------------------------------------------------------------ *)
(** ** Reminders *)

(** The columns of a booking that the reminder job reads and writes.
    [rr_bookingStart] is the instant, in milliseconds, that
    [new Date(`${preferred_date}T${preferred_time}:00`)] reads, and
    [rr_createdAt] the one [parseSqliteDateTime(created_at)] gives;
    [None] is an Invalid Date and, for [rr_createdAt], also a missing
    value. *)
Record reminderRow : Type := {
  rr_id : Z;
  rr_status : string;
  rr_email : option string;
  rr_preferred_date : dateText;
  rr_bookingStart : option Z;
  rr_createdAt : option Z;
  rr_reminder_sent : option Z
}.

Definition msPerMinute : Z := 60 * 1000.
Definition msPerDay : Z := 24 * 60 * 60 * 1000.

(** The date of tomorrow on the local clock, for the instant [now] in
    milliseconds. *)
Definition tomorrowStr (tz now : Z) : dateText :=
  DateOf ((now + tz * msPerMinute) / msPerDay + 1).

(** The [WHERE] clause of the job's query. *)
Definition reminderSelected (tomorrow : dateText) (r : reminderRow) : bool :=
  dateText_eqb (rr_preferred_date r) tomorrow
  && String.eqb (rr_status r) "confirmed"
  && JsString.truthy (rr_email r)
  && match rr_reminder_sent r with
     | None => true
     | Some flag => flag =? 0
     end.

(** The tests of the loop body: [true] when the mail is sent.  A
    comparison with the time of an Invalid Date is false, so such a
    start skips nothing. *)
Definition reminderDue (now : Z) (row : reminderRow) : bool :=
  match rr_createdAt row with
  | None => false
  | Some createdAt =>
      match rr_bookingStart row with
      | None => true
      | Some bookingStart =>
          if bookingStart <=? now then false
          else
            let diffMs := bookingStart - createdAt in
            if diffMs <=? 24 * (1000 * 60 * 60) then false else true
      end
  end.

(** [UPDATE bookings SET reminder_sent = 1 WHERE id = ?] *)
Definition markReminded (id : Z) (table : list reminderRow) : list reminderRow :=
  map (fun r =>
         if rr_id r =? id
         then {| rr_id := rr_id r;
                 rr_status := rr_status r;
                 rr_email := rr_email r;
                 rr_preferred_date := rr_preferred_date r;
                 rr_bookingStart := rr_bookingStart r;
                 rr_createdAt := rr_createdAt r;
                 rr_reminder_sent := Some 1 |}
         else r) table.

(** The loop over the rows read at the start; [mailed] lists the ids
    of the bookings a mail was made for, oldest first. *)
Fixpoint reminderLoop (now : Z) (rows : list reminderRow) (table : list reminderRow)
  (mailed : list Z) : list reminderRow * list Z :=
  match rows with
  | [] => (table, mailed)
  | row :: rows' =>
      if reminderDue now row
      then reminderLoop now rows' (markReminded (rr_id row) table) (mailed ++ [rr_id row])
      else reminderLoop now rows' table mailed
  end.

(** [processBookingReminders()] at the instant [now]: the table
    afterwards and the bookings mailed; the count returned is the
    length of that list. *)
Definition processBookingReminders (tz now : Z) (table : list reminderRow)
  : list reminderRow * list Z :=
  let rows := filter (reminderSelected (tomorrowStr tz now)) table in
  reminderLoop now rows table [].

(** The row is one the job run at [now] mails. *)
Definition reminded (tz now : Z) (r : reminderRow) : bool :=
  reminderSelected (tomorrowStr tz now) r && reminderDue now r.

(** The row with the flag set. *)
Definition remindedRow (r : reminderRow) : reminderRow :=
  {| rr_id := rr_id r;
     rr_status := rr_status r;
     rr_email := rr_email r;
     rr_preferred_date := rr_preferred_date r;
     rr_bookingStart := rr_bookingStart r;
     rr_createdAt := rr_createdAt r;
     rr_reminder_sent := Some 1 |}.
(* ------------------------------------------------------------------ *)
(** ** The engine on the values of a JSON body

    The body of a request is parsed JSON: the service list, its items
    and their properties can be values of any kind, and a text need not
    hold numerals.  This module embeds the same code on such values.
    The definitions above are its restriction to items whose
    [serviceId] and [size] are texts and whose [quantity] is an integer
    (each may be missing), and to time texts of two integer numerals. *)

Module Untyped.

(** A number as the engine meets it: an integer, or [NaN] (fractions
    and the infinities are left out). *)
Inductive number : Type :=
| Num (z : Z)
| NaN.

Definition add (a b : number) : number :=
  match a, b with
  | Num x, Num y => Num (x + y)
  | _, _ => NaN
  end.

Definition sub (a b : number) : number :=
  match a, b with
  | Num x, Num y => Num (x - y)
  | _, _ => NaN
  end.

Definition mul (a b : number) : number :=
  match a, b with
  | Num x, Num y => Num (x * y)
  | _, _ => NaN
  end.

(** [Math.max] and [Math.min]: [NaN] when an argument is [NaN]. *)
Definition max (a b : number) : number :=
  match a, b with
  | Num x, Num y => Num (Z.max x y)
  | _, _ => NaN
  end.

Definition min (a b : number) : number :=
  match a, b with
  | Num x, Num y => Num (Z.min x y)
  | _, _ => NaN
  end.

(** The comparisons: each is false when an operand is [NaN]. *)
Definition ltb (a b : number) : bool :=
  match a, b with
  | Num x, Num y => x <? y
  | _, _ => false
  end.

Definition leb (a b : number) : bool :=
  match a, b with
  | Num x, Num y => x <=? y
  | _, _ => false
  end.

Definition gtb (a b : number) : bool := ltb b a.
Definition geb (a b : number) : bool := leb b a.

(** A call returns, or throws a [TypeError]. *)
Inductive completion (A : Type) : Type :=
| Returns (a : A)
| ThrowsTypeError.

Arguments Returns {A} a.
Arguments ThrowsTypeError {A}.

(** The value of a property that the code reads as a text. *)
Inductive textProperty : Type :=
| FalsyValue                  (* [undefined], [null], [""], [0], [false] *)
| TextValue (s : string)      (* a text *)
| OtherValue.                 (* a number other than 0, [true], an object, an array *)

(** [(v || "").toLowerCase()]: a truthy value that is no text has no
    method [toLowerCase], and the call throws. *)
Definition lowerCased (v : textProperty) : completion string :=
  match v with
  | FalsyValue => Returns (JsString.toLowerCase "")
  | TextValue s => Returns (JsString.toLowerCase s)
  | OtherValue => ThrowsTypeError
  end.

(** The value of [quantity]: falsy, or truthy with the number that the
    product converts it to (the number itself; for a text the number it
    spells, [NaN] when it spells none). *)
Inductive quantityProperty : Type :=
| FalsyQuantity               (* [undefined], [null], [0], [""], [false] *)
| TruthyQuantity (asNumber : number).

(** [service.quantity || 1], as the product reads it. *)
Definition quantityOrOne (q : quantityProperty) : number :=
  match q with
  | FalsyQuantity => Num 1
  | TruthyQuantity n => n
  end.

(** An element of the service list: [null], or a value whose properties
    can be read (of a number, a text or a boolean every property read
    here is [undefined]). *)
Inductive item : Type :=
| NullItem
| Item (serviceId size : textProperty) (quantity : quantityProperty).

(** The table of durations, by the lower-cased [id] and [size]. *)
Definition singleDurationOf (id size : string) : Z :=
  if String.eqb id "basic_wash" then 60
  else if String.eqb id "exterior_detailed" then
    if String.eqb size "small" then 60
    else if String.eqb size "medium" then 75
    else if String.eqb size "large" then 90
    else 60
  else if String.eqb id "full_detailed" then
    if String.eqb size "small" then 75
    else if String.eqb size "medium" then 95
    else if String.eqb size "large" then 120
    else 75
  else 60.

(** Reading [service.serviceId] of [null] throws; so does
    [toLowerCase] on a truthy value that is no text. *)
Definition getServiceDurationMinutes (service : item) : completion number :=
  match service with
  | NullItem => ThrowsTypeError
  | Item serviceId size quantity =>
      match lowerCased serviceId with
      | ThrowsTypeError => ThrowsTypeError
      | Returns id =>
          match lowerCased size with
          | ThrowsTypeError => ThrowsTypeError
          | Returns size =>
              let quantity := quantityOrOne quantity in
              let singleDuration := singleDurationOf id size in
              Returns (mul (Num singleDuration) quantity)
          end
      end
  end.

(** A value handed over as a service list. *)
Inductive serviceList : Type :=
| NotArray
| ArrayOf (items : list item).

(** The loop [for (const s of services) total += ...]. *)
Fixpoint addDurations (total : number) (services : list item) : completion number :=
  match services with
  | [] => Returns total
  | s :: rest =>
      match getServiceDurationMinutes s with
      | ThrowsTypeError => ThrowsTypeError
      | Returns minutes => addDurations (add total minutes) rest
      end
  end.

Definition estimateBookingDurationMinutes (services : serviceList)
  : completion number :=
  match services with
  | NotArray => Returns (Num 60)
  | ArrayOf [] => Returns (Num 60)
  | ArrayOf items => addDurations (Num 0) items
  end.

(** [Array.isArray(services) ? services : []] *)
Definition toServicesArray (services : serviceList) : serviceList :=
  match services with
  | ArrayOf items => ArrayOf items
  | NotArray => ArrayOf []
  end.

(** An item on which the estimator throws. *)
Definition throwsOn (service : item) : Prop :=
  match service with
  | NullItem => True
  | Item serviceId size _ => serviceId = OtherValue \/ size = OtherValue
  end.

(** *** Times, rows and intervals *)

(** The value of [preferred_time] in a body.  A text is given by the
    numbers that [split(":").map(Number)] yields from it: two integers
    for [09:30], the one number 9 for [9], [NaN] for [abc]. *)
Inductive timeProperty : Type :=
| FalsyTime                          (* [undefined], [null], [""], [0], [false] *)
| TimeText (numbers : list number)
| OtherTime.                         (* a truthy value that is no text *)

(** [const [h, m] = timeStr.split(":").map(Number); return h * 60 + m]:
    with fewer than two numbers [m] is [undefined] and the sum [NaN]. *)
Definition timeStringToMinutes (numbers : list number) : number :=
  match numbers with
  | h :: m :: _ => add (mul h (Num 60)) m
  | _ => NaN
  end.

(** A row of the [bookings] table as the scheduling code reads it: the
    columns are texts; [row_services] is the JSON column after
    [JSON.parse], [None] for an empty column. *)
Record row : Type := {
  row_postcode : string;
  row_preferred_time : list number;
  row_services : option serviceList
}.

Record interval : Type := {
  iv_start : number;
  iv_end : number;
  iv_postcode : option string
}.

(** [Math.max(s, i.start) < Math.min(e, i.end)] *)
Definition overlapsWith (s e : number) (i : interval) : bool :=
  let latestStart := max s (iv_start i) in
  let earliestEnd := min e (iv_end i) in
  ltb latestStart earliestEnd.

(** The value of a comparator as [sort] reads it: [NaN] counts as 0. *)
Definition comparatorValue (v : number) : Z :=
  match v with
  | Num z => z
  | NaN => 0
  end.

Definition hasPostcode (i : interval) : bool := JsString.truthy (iv_postcode i).

Definition prevOf (bookingIntervals : list interval) (s : number) : option interval :=
  hd_error
    (sortBy (fun a b => comparatorValue (sub (iv_end b) (iv_end a)))
       (filter (fun i => leb (iv_end i) s) bookingIntervals)).

Definition nextOf (bookingIntervals : list interval) (e : number) : option interval :=
  hd_error
    (sortBy (fun a b => comparatorValue (sub (iv_start a) (iv_start b)))
       (filter (fun i => geb (iv_start i) e) bookingIntervals)).

(** One turn of the loop over the rows: the interval pushed, unless the
    estimator throws. *)
Definition bookingInterval (r : row) : completion interval :=
  let svc := match row_services r with
             | Some v => v
             | None => ArrayOf []
             end in
  match estimateBookingDurationMinutes svc with
  | ThrowsTypeError => ThrowsTypeError
  | Returns minutes =>
      let dur := add minutes (Num BUFFER_AFTER_JOB_MIN) in
      let start := timeStringToMinutes (row_preferred_time r) in
      let end_ := add start dur in
      Returns {| iv_start := start; iv_end := end_; iv_postcode := Some (row_postcode r) |}
  end.

Fixpoint bookingIntervals (rows : list row) : completion (list interval) :=
  match rows with
  | [] => Returns []
  | r :: rest =>
      match bookingInterval r with
      | ThrowsTypeError => ThrowsTypeError
      | Returns i =>
          match bookingIntervals rest with
          | ThrowsTypeError => ThrowsTypeError
          | Returns others => Returns (i :: others)
          end
      end
  end.

Definition calendarInterval (c : calendarBlock) : interval :=
  {| iv_start := Num (cb_start c); iv_end := Num (cb_end c); iv_postcode := None |}.

Definition buildIntervals (rows : list row) (calendarBusy : list calendarBlock)
  : completion (list interval) :=
  match bookingIntervals rows with
  | ThrowsTypeError => ThrowsTypeError
  | Returns fromRows => Returns (fromRows ++ map calendarInterval calendarBusy)
  end.

(** *** The two handlers *)

Record bookingRequest : Type := {
  req_date : option dateText;
  req_postcode : option string;
  req_services : serviceList;
  req_preferred_time : timeProperty
}.

Record availabilityRequest : Type := {
  av_date : option dateText;
  av_postcode : option string;
  av_services : serviceList
}.

Section Engine.

Variable w : world.

(** The rows of the day query, by the date asked for. *)
Variable rowsFor : dateText -> list row.

Fixpoint allFarLoop (postcode : option string) (rows : list row) : Io bool :=
  match rows with
  | [] => ret true
  | r :: rows' =>
      travel <- getTravelTimeMinutes w postcode (Some (row_postcode r)) ;;
      if travel <=? TRAVEL_LIMIT_MIN then ret false
      else allFarLoop postcode rows'
  end.

Definition outOfAreaForDay (postcode : option string) (rows : list row) : Io bool :=
  match rows with
  | [] => ret false
  | _ => allFarLoop postcode rows
  end.

(** The travel checks on the previous and the next booking. *)
Definition neighbourChecks (postcode : option string) (intervals : list interval)
  (requestedStart requestedEnd : number) : Io validation :=
  let bookingIntervals := filter hasPostcode intervals in
  let prev := prevOf bookingIntervals requestedStart in
  let next := nextOf bookingIntervals requestedEnd in
  prevTooFar <-
    match prev with
    | Some p =>
        mins <- getTravelTimeMinutes w (iv_postcode p) postcode ;;
        ret (mins >? TRAVEL_LIMIT_MIN)
    | None => ret false
    end ;;
  if prevTooFar then ret (Rejected TRAVEL_TOO_FAR)
  else
    nextTooFar <-
      match next with
      | Some n =>
          mins <- getTravelTimeMinutes w postcode (iv_postcode n) ;;
          ret (mins >? TRAVEL_LIMIT_MIN)
      | None => ret false
      end ;;
    if nextTooFar then ret (Rejected TRAVEL_TOO_FAR)
    else ret Accepted.

(** [validateBooking]: it resolves ([Accepted]), throws one of the
    typed errors, or throws a [TypeError]. *)
Definition validateBooking (req : bookingRequest) : Io (completion validation) :=
  match req_date req with
  | None => ret (Returns (Rejected MISSING_FIELDS))
  | Some date =>
      if negb (JsString.truthy (req_postcode req))
      then ret (Returns (Rejected MISSING_FIELDS))
      else
        match req_preferred_time req with
        | FalsyTime => ret (Returns (Rejected MISSING_FIELDS))
        | preferred_time =>
            if negb (isWorkingDay w date)
            then ret (Returns (Rejected OUTSIDE_WORKING_DAYS))
            else
              let postcode := req_postcode req in
              let servicesArray := toServicesArray (req_services req) in
              match estimateBookingDurationMinutes servicesArray with
              | ThrowsTypeError => ret ThrowsTypeError
              | Returns baseDuration =>
                  let requestedDuration := add baseDuration (Num BUFFER_AFTER_JOB_MIN) in
                  match preferred_time with
                  | TimeText numbers =>
                      let requestedStart := timeStringToMinutes numbers in
                      let requestedEnd := add requestedStart requestedDuration in
                      if ltb requestedStart (Num WORK_START)
                         || gtb requestedEnd (Num WORK_END)
                      then ret (Returns (Rejected OUTSIDE_WORKING_HOURS))
                      else
                        let rows := rowsFor date in
                        let calendarBusy := loadCalendarBusy w date in
                        allFar <- outOfAreaForDay postcode rows ;;
                        if allFar then ret (Returns (Rejected OUT_OF_AREA_FOR_DAY))
                        else
                          match buildIntervals rows calendarBusy with
                          | ThrowsTypeError => ret ThrowsTypeError
                          | Returns intervals =>
                              if existsb (overlapsWith requestedStart requestedEnd)
                                   intervals
                              then ret (Returns (Rejected TIME_TAKEN))
                              else
                                outcome <- neighbourChecks postcode intervals
                                             requestedStart requestedEnd ;;
                                ret (Returns outcome)
                          end
                  | _ => ret ThrowsTypeError     (* [timeStr.split] is no function *)
                  end
              end
        end
  end.

Section SlotGrid.
Variable postcode : option string.
Variable intervals : list interval.
Variable requestedDuration : number.

Definition candidateOk (candidateStart : Z) : Io bool :=
  let candidateEnd := add (Num candidateStart) requestedDuration in
  let overlaps := existsb (overlapsWith (Num candidateStart) candidateEnd) intervals in
  if overlaps then ret false
  else
    let bookingIntervals := filter hasPostcode intervals in
    let prev := prevOf bookingIntervals (Num candidateStart) in
    let next := nextOf bookingIntervals candidateEnd in
    travelOk <-
      match prev with
      | Some p =>
          mins <- getTravelTimeMinutes w (iv_postcode p) postcode ;;
          ret (negb (mins >? TRAVEL_LIMIT_MIN))
      | None => ret true
      end ;;
    travelOk <-
      match next with
      | Some n =>
          if travelOk then
            mins <- getTravelTimeMinutes w postcode (iv_postcode n) ;;
            ret (negb (mins >? TRAVEL_LIMIT_MIN))
          else ret travelOk
      | None => ret travelOk
      end ;;
    ret travelOk.

Fixpoint slotLoop (fuel : nat) (candidateStart : Z) : Io (list string) :=
  match fuel with
  | O => ret []
  | S fuel' =>
      if leb (add (Num candidateStart) requestedDuration) (Num WORK_END) then
        keep <- candidateOk candidateStart ;;
        rest <- slotLoop fuel' (candidateStart + SLOT_STEP_MIN) ;;
        ret (if keep then minutesToTimeString candidateStart :: rest else rest)
      else ret []
  end.

(** With a duration of [NaN] the test of the loop is false at once. *)
Definition possibleSlots : Io (list string) :=
  match requestedDuration with
  | Num minutes => slotLoop (gridTurns minutes WORK_START) WORK_START
  | NaN => slotLoop 1 WORK_START
  end.
End SlotGrid.

(** [POST /api/availability]; a [TypeError] is answered with status 500. *)
Definition findSlots (req : availabilityRequest) : Io (completion availabilityResponse) :=
  match av_date req with
  | Some date =>
      if negb (JsString.truthy (av_postcode req)) then ret (Returns AvailabilityBadRequest)
      else if negb (isWorkingDay w date) then ret (Returns (AvailabilitySlots date []))
      else
        let postcode := av_postcode req in
        let servicesArray := toServicesArray (av_services req) in
        match estimateBookingDurationMinutes servicesArray with
        | ThrowsTypeError => ret ThrowsTypeError
        | Returns baseDuration =>
            let requestedDuration := add baseDuration (Num BUFFER_AFTER_JOB_MIN) in
            let rows := rowsFor date in
            allFar <- outOfAreaForDay postcode rows ;;
            if allFar then ret (Returns (AvailabilitySlots date []))
            else
              let calendarBusy := loadCalendarBusy w date in
              match buildIntervals rows calendarBusy with
              | ThrowsTypeError => ret ThrowsTypeError
              | Returns intervals =>
                  slots <- possibleSlots postcode intervals requestedDuration ;;
                  ret (Returns (AvailabilitySlots date slots))
              end
        end
  | None => ret (Returns AvailabilityBadRequest)
  end.

End Engine.

End Untyped.

(** *** The typed values among these *)

Module Lift.

Definition ofText (v : option string) : Untyped.textProperty :=
  match v with
  | Some s => Untyped.TextValue s
  | None => Untyped.FalsyValue
  end.

Definition ofQuantity (q : option Z) : Untyped.quantityProperty :=
  match q with
  | Some n => if n =? 0 then Untyped.FalsyQuantity
              else Untyped.TruthyQuantity (Untyped.Num n)
  | None => Untyped.FalsyQuantity
  end.

Definition ofService (s : service) : Untyped.item :=
  Untyped.Item (ofText (serviceId s)) (ofText (size s)) (ofQuantity (quantity s)).

Definition ofServices (v : servicesValue) : Untyped.serviceList :=
  match v with
  | NotAnArray => Untyped.NotArray
  | ServiceArray items => Untyped.ArrayOf (map ofService items)
  end.

(** The text of a time of two integer numerals. *)
Definition ofTime (t : timeText) : list Untyped.number :=
  [Untyped.Num (hh t); Untyped.Num (mm t)].

Definition ofRow (r : bookingRow) : Untyped.row :=
  {| Untyped.row_postcode := row_postcode r;
     Untyped.row_preferred_time := ofTime (row_preferred_time r);
     Untyped.row_services := option_map ofServices (row_services r) |}.

Definition ofInterval (i : interval) : Untyped.interval :=
  {| Untyped.iv_start := Untyped.Num (iv_start i);
     Untyped.iv_end := Untyped.Num (iv_end i);
     Untyped.iv_postcode := iv_postcode i |}.

Definition ofRequest (req : bookingRequest) : Untyped.bookingRequest :=
  {| Untyped.req_date := req_date req;
     Untyped.req_postcode := req_postcode req;
     Untyped.req_services := ofServices (req_services req);
     Untyped.req_preferred_time :=
       match req_preferred_time req with
       | Some t => Untyped.TimeText (ofTime t)
       | None => Untyped.FalsyTime
       end |}.

Definition ofAvailability (req : availabilityRequest) : Untyped.availabilityRequest :=
  {| Untyped.av_date := av_date req;
     Untyped.av_postcode := av_postcode req;
     Untyped.av_services := ofServices (av_services req) |}.

(** The day query of a world whose table holds typed rows. *)
Definition rowsOf (w : world) (date : dateText) : list Untyped.row :=
  map ofRow (bookingsForDate w date).

(** A computation that returns, seen as one that might throw. *)
Definition returning {A} (m : Io A) : Io (Untyped.completion A) :=
  (Untyped.Returns (fst m), snd m).

End Lift.

(* ------------------------------------------------------------------ *)
(** ** A server zone whose offset changes

    [Clock] reads the zone of the server as one fixed offset.  The loop
    over the days of [POST /api/date-availability] moves its date object
    with [setDate], which keeps the local time of day and so reads the
    offset at both days.  This section embeds that loop for a zone whose
    offset may change (summer time); with a fixed offset it is the loop
    above. *)

Record zone : Type := {
  (** the offset in force at an instant (minutes since the epoch, UTC),
      in minutes east of UTC *)
  offsetAt : Z -> Z;
  (** the offset by which a local date and time is read; for a local
      time that a change of the offset skips or repeats, the offset
      before the change *)
  offsetOfLocal : Z -> Z
}.

Definition fixedZone (tz : Z) : zone :=
  {| offsetAt := fun _ => tz; offsetOfLocal := fun _ => tz |}.

(** The offset of the zone is [tz] for the instants and the local times
    from [from] to [to]. *)
Definition steadyBetween (z : zone) (tz from to : Z) : Prop :=
  forall x, from <= x <= to -> offsetAt z x = tz /\ offsetOfLocal z x = tz.

(** The world [w] with the server's fixed offset set to [tz]. *)
Definition atOffset (tz : Z) (w : world) : world :=
  {| tzOffsetMin := tz;
     googleAuth := googleAuth w;
     calendarEvents := calendarEvents w;
     bookingsForDate := bookingsForDate w;
     bookingsBetween := bookingsBetween w;
     distanceMatrix := distanceMatrix w |}.

Module Zoned.

Section WithZone.
Variable z : zone.

(** The local time value of an instant. *)
Definition localTime (t : Z) : Z := t + offsetAt z t.

(** The instant of a local date and time. *)
Definition utcOfLocal (local : Z) : Z := local - offsetOfLocal z local.

(** [new Date(dateStr + "T00:00:00")]: local midnight of that day. *)
Definition localMidnight (s : dateText) : Clock.jsDate :=
  match s with
  | DateOf n => Some (utcOfLocal (n * Clock.minutesPerDay))
  | DateInvalid => None
  end.

(** [d.getDay()], in local time. *)
Definition getDay (t : Z) : Z :=
  (localTime t / Clock.minutesPerDay + 4) mod 7.

(** [d.setDate(d.getDate() + 1)]: the same local time of day on the
    next local day, read as a local time. *)
Definition nextDay (t : Z) : Z :=
  utcOfLocal (localTime t + Clock.minutesPerDay).

Definition isWorkingDay (dateStr : dateText) : bool :=
  match localMidnight dateStr with
  | Some d => let day := getDay d in (1 <=? day) && (day <=? 5)
  | None => false
  end.

Variable w : world.

Section DayLoop.
Variable normPostcode : string.
Variable byDate : byDateMap.
Variable end_ : Z.

Definition dayEntry (d : Z) : Io dayAreaResult :=
  let dStr := Clock.isoDate d in
  let bookingsForDay := match byDateGet byDate dStr with
                        | Some rows => rows
                        | None => []
                        end in
  inArea <-
    (if negb (isWorkingDay dStr) then ret false
     else
       match bookingsForDay with
       | _ :: _ =>
           allFar <- allFarLoop w (Some normPostcode) bookingsForDay ;;
           ret (negb allFar)
       | [] => ret true
       end) ;;
  ret {| day_date := dStr; in_area := inArea |}.

Fixpoint dayLoop (fuel : nat) (d : Z) : Io (list dayAreaResult) :=
  match fuel with
  | O => ret []
  | S fuel' =>
      if d <=? end_ then
        entry <- dayEntry d ;;
        rest <- dayLoop fuel' (nextDay d) ;;
        ret (entry :: rest)
      else ret []
  end.
End DayLoop.

(** The loop leaves by its test [d <= end]; as long as [setDate] moves
    the date forward, the minutes from [start] to [end] bound the number
    of its turns. *)
Definition rangeAvailability (req : dateAvailabilityRequest) : Io dateAvailabilityResponse :=
  match da_start_date req, da_end_date req with
  | Some start_date, Some end_date =>
      if negb (JsString.truthy (da_postcode req)) then ret DateAvailabilityMissingFields
      else
        let normPostcode := normalizePostcode (da_postcode req) in
        let rows := bookingsBetween w start_date end_date in
        let byDate := groupByDate rows in
        dates <-
          match localMidnight start_date, localMidnight end_date with
          | Some start, Some end_ =>
              dayLoop normPostcode byDate end_ (Z.to_nat (end_ - start + 1)) start
          | _, _ => ret []
          end ;;
        ret (DateAvailabilityDates normPostcode start_date end_date dates)
  | _, _ => ret DateAvailabilityMissingFields
  end.

End WithZone.

End Zoned.

(** London around the change to summer time of 31 March 2024: the
    offset is 0 until 01:00 UTC of that day and 60 minutes from then on;
    the local times from 01:00 to 02:00 of that day are skipped. *)
Definition londonSpringChange : Z := daysFromCivil 2024 3 31 * 1440 + 60.

Definition londonSpring2024 : zone :=
  {| offsetAt := fun t => if t <? londonSpringChange then 0 else 60;
     offsetOfLocal := fun local =>
       if local <? londonSpringChange + 60 then 0 else 60 |}.

(** The range from Friday 29 March to Tuesday 2 April 2024. *)
Definition overSpringChange : dateAvailabilityRequest :=
  {| da_postcode := Some "AB1";
     da_start_date := Some (ymd 2024 3 29);
     da_end_date := Some (ymd 2024 4 2) |}.

(* ------------------------------------------------------------------ *)
(** ** Concrete worlds and requests *)

Definition basicWash : service :=
  {| serviceId := Some "basic_wash"; size := None; quantity := None |}.

Definition saturday : dateText := ymd 2024 6 8.
Definition sunday : dateText := ymd 2024 6 9.
Definition monday : dateText := ymd 2024 6 10.

(** A Distance Matrix answer with a duration of [seconds]. *)
Definition dmOk (seconds : Z) : dmReply :=
  DmBody "OK" (Some {| el_status := "OK"; el_duration := Some seconds |}).

(** One booking on Monday at 09:00, a 60-minute service at AB1. *)
Definition bookingAtNine : bookingRow :=
  {| row_postcode := "AB1";
     row_preferred_date := monday;
     row_preferred_time := HM 9 0;
     row_services := Some (ServiceArray [basicWash]) |}.

(** The scenario of the specification: that booking, no calendar,
    every travel time 0. *)
Definition scenarioWorld : world :=
  {| tzOffsetMin := 0;
     googleAuth := false;
     calendarEvents := fun _ => Some [];
     bookingsForDate := fun d => if dateText_eqb d monday then [bookingAtNine] else [];
     bookingsBetween := fun _ _ => [bookingAtNine];
     distanceMatrix := fun _ _ => dmOk 0 |}.

Definition scenarioRequest : availabilityRequest :=
  {| av_date := Some monday;
     av_postcode := Some "AB1";
     av_services := ServiceArray [basicWash] |}.

Definition tuesday : dateText := ymd 2024 6 11.

(** A calendar event from 16:00 on Monday to 09:00 on Tuesday. *)
Definition overnightEvent : calendarEvent :=
  {| ev_start := Some {| dateTime := Some (daysFromCivil 2024 6 10 * 1440 + 16 * 60);
                         date := None |};
     ev_end := Some {| dateTime := Some (daysFromCivil 2024 6 11 * 1440 + 9 * 60);
                       date := None |} |}.

(** The calendar lists that event for the two days it touches; no
    booking is stored. *)
Definition overnightWorld : world :=
  {| tzOffsetMin := 0;
     googleAuth := true;
     calendarEvents := fun d =>
       if dateText_eqb d monday || dateText_eqb d tuesday
       then Some [overnightEvent] else Some [];
     bookingsForDate := fun _ => [];
     bookingsBetween := fun _ _ => [];
     distanceMatrix := fun _ _ => dmOk 0 |}.

(** The same calendar with the event ending at 23:00 on Monday. *)
Definition eveningEvent : calendarEvent :=
  {| ev_start := Some {| dateTime := Some (daysFromCivil 2024 6 10 * 1440 + 16 * 60);
                         date := None |};
     ev_end := Some {| dateTime := Some (daysFromCivil 2024 6 10 * 1440 + 23 * 60);
                       date := None |} |}.

Definition eveningWorld : world :=
  {| tzOffsetMin := 0;
     googleAuth := true;
     calendarEvents := fun d =>
       if dateText_eqb d monday then Some [eveningEvent] else Some [];
     bookingsForDate := fun _ => [];
     bookingsBetween := fun _ _ => [];
     distanceMatrix := fun _ _ => dmOk 0 |}.

(** A stored booking at 09:00 on Monday whose one service has the
    quantity -1, and the table that holds it. *)
Definition negativeQuantityRow : bookingRow :=
  {| row_postcode := "AB1";
     row_preferred_date := monday;
     row_preferred_time := HM 9 0;
     row_services :=
       Some (ServiceArray [{| serviceId := Some "basic_wash"; size := None;
                              quantity := Some (-1) |}]) |}.

Definition negativeQuantityWorld : world :=
  {| tzOffsetMin := 0;
     googleAuth := false;
     calendarEvents := fun _ => Some [];
     bookingsForDate := fun d =>
       if dateText_eqb d monday then [negativeQuantityRow] else [];
     bookingsBetween := fun _ _ => [negativeQuantityRow];
     distanceMatrix := fun _ _ => dmOk 0 |}.

(** A request at AB1 for one basic wash, and the question for the slots
    of a day for the same job. *)
Definition washAt (date : dateText) (time : timeText) : bookingRequest :=
  {| req_date := Some date;
     req_postcode := Some "AB1";
     req_services := ServiceArray [basicWash];
     req_preferred_time := Some time |}.

Definition washOn (date : dateText) : availabilityRequest :=
  {| av_date := Some date;
     av_postcode := Some "AB1";
     av_services := ServiceArray [basicWash] |}.

(** Every candidate of the grid for a job of 60 minutes: 08:30 to 15:00. *)
Definition fullGrid : list string :=
  ["08:30"; "08:45"; "09:00"; "09:15"; "09:30"; "09:45"; "10:00"; "10:15";
   "10:30"; "10:45"; "11:00"; "11:15"; "11:30"; "11:45"; "12:00"; "12:15";
   "12:30"; "12:45"; "13:00"; "13:15"; "13:30"; "13:45"; "14:00"; "14:15";
   "14:30"; "14:45"; "15:00"].

(** One basic wash as an item of a JSON body, and the same with the
    quantity given as a text that spells no number ([abc], say). *)
Definition basicWashItem : Untyped.item :=
  Untyped.Item (Untyped.TextValue "basic_wash") Untyped.FalsyValue Untyped.FalsyQuantity.

Definition washOfTextQuantity : Untyped.item :=
  Untyped.Item (Untyped.TextValue "basic_wash") Untyped.FalsyValue
    (Untyped.TruthyQuantity Untyped.NaN).

(** A row stored with the time text [9]. *)
Definition rowAtTextNine : Untyped.row :=
  {| Untyped.row_postcode := "AB1";
     Untyped.row_preferred_time := [Untyped.Num 9];
     Untyped.row_services := Some (Untyped.ArrayOf [basicWashItem]) |}.

(** A request for Monday at AB1 whose time is the text [9]: one number,
    no minutes. *)
Definition nineWithoutMinutes : Untyped.bookingRequest :=
  {| Untyped.req_date := Some monday;
     Untyped.req_postcode := Some "AB1";
     Untyped.req_services := Untyped.ArrayOf [basicWashItem];
     Untyped.req_preferred_time := Untyped.TimeText [Untyped.Num 9] |}.

(** A request for Monday 09:00 and the question for the slots of that
    Monday, for a wash whose quantity spells no number. *)
Definition textQuantityAtNine : Untyped.bookingRequest :=
  {| Untyped.req_date := Some monday;
     Untyped.req_postcode := Some "AB1";
     Untyped.req_services := Untyped.ArrayOf [washOfTextQuantity];
     Untyped.req_preferred_time := Untyped.TimeText [Untyped.Num 9; Untyped.Num 0] |}.

Definition textQuantitySlots : Untyped.availabilityRequest :=
  {| Untyped.av_date := Some monday;
     Untyped.av_postcode := Some "AB1";
     Untyped.av_services := Untyped.ArrayOf [washOfTextQuantity] |}.

(** A server whose local time is one hour ahead of UTC (British Summer
    Time), with no bookings stored. *)
Definition summerTimeWorld : world :=
  {| tzOffsetMin := 60;
     googleAuth := false;
     calendarEvents := fun _ => Some [];
     bookingsForDate := fun _ => [];
     bookingsBetween := fun _ _ => [];
     distanceMatrix := fun _ _ => dmOk 0 |}.

(** A Distance Matrix service that knows the postcode only as [AB1]. *)
Definition exactPostcodeWorld : world :=
  {| tzOffsetMin := 0;
     googleAuth := false;
     calendarEvents := fun _ => Some [];
     bookingsForDate := fun d => if dateText_eqb d monday then [bookingAtNine] else [];
     bookingsBetween := fun _ _ => [bookingAtNine];
     distanceMatrix := fun origins destinations =>
       if String.eqb origins "AB1" && String.eqb destinations "AB1"
       then dmOk 0 else DmBody "OK" (Some {| el_status := "NOT_FOUND";
                                              el_duration := None |}) |}.

(** [validateBooking] asked again with the postcode normalised. *)
Definition withNormalizedPostcode (req : bookingRequest) : bookingRequest :=
  {| req_date := req_date req;
     req_postcode := Some (normalizePostcode (req_postcode req));
     req_services := req_services req;
     req_preferred_time := req_preferred_time req |}.

(** A booking at AB1 at 09:00 and a Distance Matrix service that only
    answers for journeys that start at AB2. *)
Definition oneWayWorld : world :=
  {| tzOffsetMin := 0;
     googleAuth := false;
     calendarEvents := fun _ => Some [];
     bookingsForDate := fun d => if dateText_eqb d monday then [bookingAtNine] else [];
     bookingsBetween := fun _ _ => [bookingAtNine];
     distanceMatrix := fun origins _ =>
       if String.eqb origins "AB2" then dmOk 0 else FetchThrows |}.

Definition oneWayRequest : bookingRequest :=
  {| req_date := Some monday;
     req_postcode := Some "AB2";
     req_services := ServiceArray [basicWash];
     req_preferred_time := Some (HM 10 30) |}.

(** The grid candidates from 08:30 through 10:15. *)
Definition earlyCandidates : list Z :=
  [8 * 60 + 30; 8 * 60 + 45; 9 * 60; 9 * 60 + 15; 9 * 60 + 30; 9 * 60 + 45;
   10 * 60; 10 * 60 + 15].

(** The slots from 10:30 to 15:00, a quarter of an hour apart. *)
Definition scenarioSlots : list string :=
  ["10:30"; "10:45"; "11:00"; "11:15"; "11:30"; "11:45"; "12:00"; "12:15";
   "12:30"; "12:45"; "13:00"; "13:15"; "13:30"; "13:45"; "14:00"; "14:15";
   "14:30"; "14:45"; "15:00"].

(** A request for a Saturday that carries no postcode. *)
Definition saturdayWithoutPostcode : bookingRequest :=
  {| req_date := Some saturday;
     req_postcode := None;
     req_services := ServiceArray [basicWash];
     req_preferred_time := Some (HM 10 0) |}.

Definition saturdayRequest : bookingRequest :=
  {| req_date := Some saturday;
     req_postcode := Some "AB1";
     req_services := ServiceArray [basicWash];
     req_preferred_time := Some (HM 10 0) |}.

Definition mondayOnly (postcode : string) : dateAvailabilityRequest :=
  {| da_postcode := Some postcode;
     da_start_date := Some monday;
     da_end_date := Some monday |}.

Definition lowerCaseRequest : bookingRequest :=
  {| req_date := Some monday;
     req_postcode := Some "ab1";
     req_services := ServiceArray [basicWash];
     req_preferred_time := Some (HM 10 30) |}.

Definition lowerCaseAvailability : availabilityRequest :=
  {| av_date := Some monday;
     av_postcode := Some "ab1";
     av_services := ServiceArray [basicWash] |}.

(** [POST /api/availability] asked again with the postcode normalised. *)
Definition availabilityNormalized (req : availabilityRequest) : availabilityRequest :=
  {| av_date := av_date req;
     av_postcode := Some (normalizePostcode (av_postcode req));
     av_services := av_services req |}.

(** [POST /api/date-availability] asked again with the postcode normalised. *)
Definition rangeNormalized (req : dateAvailabilityRequest) : dateAvailabilityRequest :=
  {| da_postcode := Some (normalizePostcode (da_postcode req));
     da_start_date := da_start_date req;
     da_end_date := da_end_date req |}.


(** An all-day event on Monday. *)
Definition mondayAllDay : calendarEvent :=
  {| ev_start := Some {| dateTime := None; date := Some (daysFromCivil 2024 6 10) |};
     ev_end := Some {| dateTime := None; date := Some (daysFromCivil 2024 6 10) |} |}.

(** The booking at 09:00 on Monday, confirmed, with a calendar event. *)
Definition confirmedAtNine : booking :=
  {| b_id := 7;
     b_name := "Ada";
     b_email := Some "ada@example.org";
     b_phone := None;
     b_postcode := "AB1";
     b_car_make := None;
     b_car_model := None;
     b_services := [basicWash];
     b_preferred_date := Some monday;
     b_preferred_time := Some (HM 9 0);
     b_status := "confirmed";
     b_calendar_event_id := Some "ev7" |}.

(** A server in British Summer Time whose calendar is configured. *)
Definition summerCalendarWorld : world :=
  {| tzOffsetMin := 60;
     googleAuth := true;
     calendarEvents := fun _ => Some [];
     bookingsForDate := fun _ => [];
     bookingsBetween := fun _ _ => [];
     distanceMatrix := fun _ _ => dmOk 0 |}.

(** Two rows of the table as the sync job sees them: the event of the
    first was moved to 11:15, the second is still pending. *)
Definition syncTable : list syncRow :=
  [ {| sr_id := 7; sr_status := "confirmed"; sr_calendar_event_id := Some "ev7";
       sr_preferred_date := monday; sr_preferred_time := "09:00" |};
    {| sr_id := 8; sr_status := "pending"; sr_calendar_event_id := None;
       sr_preferred_date := monday; sr_preferred_time := "13:00" |} ].

Definition movedEvents (eventId : string) : option (option calendarEvent) :=
  if String.eqb eventId "ev7"
  then Some (Some (timedEvent (daysFromCivil 2024 6 10 * 1440 + 11 * 60 + 15 - 60)
                              (daysFromCivil 2024 6 10 * 1440 + 12 * 60 + 15 - 60)))
  else None.

(** The table of the scenario: the booking at 09:00 on Monday. *)
Definition scenarioStore : store :=
  {| st_bookings := [confirmedAtNine]; st_seq := 7 |}.

(** A request for 10:30 on that Monday, by a customer at AB1. *)
Definition createAtHalfPastTen : createRequest :=
  {| cr_name := Some "Grace";
     cr_email := Some "";
     cr_phone := None;
     cr_postcode := Some "AB1";
     cr_car_make := None;
     cr_car_model := None;
     cr_services := ServiceArray [basicWash];
     cr_preferred_date := Some monday;
     cr_preferred_time := Some (HM 10 30) |}.

(** A request for 09:00 on that Monday, the time of the booking in the
    table, for a basic wash with the quantity -1. *)
Definition createNegativeAtNine : createRequest :=
  {| cr_name := Some "Grace";
     cr_email := Some "";
     cr_phone := None;
     cr_postcode := Some "AB1";
     cr_car_make := None;
     cr_car_model := None;
     cr_services := ServiceArray [{| serviceId := Some "basic_wash"; size := None;
                                     quantity := Some (-1) |}];
     cr_preferred_date := Some monday;
     cr_preferred_time := Some (HM 9 0) |}.

(** A customer asks to cancel the booking of the scenario and types
    the number in lower case, with a space behind it. *)
Definition cancelRequest : amendRequest :=
  {| am_booking_reference := Some "gl-00007 ";
     am_email := Some "ada@example.org";
     am_action := Some "Cancel";
     am_message := None |}.

(** Sunday 9 June 2024, 09:00 UTC, in milliseconds, and a booking for
    the Monday at 09:00 that was made four days before. *)
Definition sundayMorning : Z := (daysFromCivil 2024 6 9 * 1440 + 9 * 60) * 60000.

Definition reminderTable : list reminderRow :=
  [ {| rr_id := 7; rr_status := "confirmed"; rr_email := Some "ada@example.org";
       rr_preferred_date := monday;
       rr_bookingStart := Some ((daysFromCivil 2024 6 10 * 1440 + 9 * 60) * 60000);
       rr_createdAt := Some ((daysFromCivil 2024 6 6 * 1440 + 12 * 60) * 60000);
       rr_reminder_sent := Some 0 |} ].

(** The weekend of the scenario, asked for by a customer at AB1. *)
Definition weekendRange : dateAvailabilityRequest :=
  {| da_postcode := Some "AB1";
     da_start_date := Some saturday;
     da_end_date := Some sunday |}.

(** A world without bookings and without a calendar, on UTC. *)
Definition emptyWorld : world :=
  {| tzOffsetMin := 0;
     googleAuth := false;
     calendarEvents := fun _ => Some [];
     bookingsForDate := fun _ => [];
     bookingsBetween := fun _ _ => [];
     distanceMatrix := fun _ _ => dmOk 0 |}.
(* ------------------------------------------------------------------ *)
(** ** Basic facts *)

Lemma result_ret {A} (a : A) : result (ret a) = a.
Proof. reflexivity. Qed.

Lemma result_bind {A B} (m : Io A) (k : A -> Io B) :
  result (bind m k) = result (k (result m)).
Proof.
  unfold bind, result. destruct m as [a sent]. simpl.
  destruct (k a). reflexivity.
Qed.

Lemma requests_ret {A} (a : A) : requests (ret a) = [].
Proof. reflexivity. Qed.

Lemma requests_bind {A B} (m : Io A) (k : A -> Io B) :
  requests (bind m k) = requests m ++ requests (k (result m)).
Proof.
  unfold bind, result, requests. destruct m as [a sent]. simpl.
  destruct (k a). reflexivity.
Qed.

Lemma io_eq {A} (m m' : Io A) :
  result m = result m' -> requests m = requests m' -> m = m'.
Proof.
  destruct m, m'. unfold result, requests. simpl. congruence.
Qed.

Lemma bind_ret_l {A B} (a : A) (k : A -> Io B) : bind (ret a) k = k a.
Proof. unfold bind, ret. destruct (k a). reflexivity. Qed.

Lemma bind_assoc {A B C} (m : Io A) (k : A -> Io B) (h : B -> Io C) :
  bind (bind m k) h = bind m (fun a => bind (k a) h).
Proof.
  unfold bind. destruct m as [a s1]. destruct (k a) as [b s2].
  destruct (h b) as [c s3]. now rewrite app_assoc.
Qed.

Create Rewrite HintDb io.
#[local] Hint Rewrite @result_ret @result_bind @requests_ret @requests_bind
  @app_nil_r : io.

(** *** Durations *)

Lemma fold_left_add_shift (f : service -> Z) items acc :
  fold_left (fun total s => total + f s) items acc
  = acc + fold_left (fun total s => total + f s) items 0.
Proof.
  revert acc. induction items as [|x items IH]; intro acc; simpl.
  - lia.
  - rewrite (IH (acc + f x)), (IH (f x)). lia.
Qed.

Lemma fold_left_sumDurations items :
  fold_left (fun total s => total + getServiceDurationMinutes s) items 0
  = sumDurations items.
Proof.
  induction items as [|x items IH]; simpl.
  - reflexivity.
  - rewrite fold_left_add_shift, IH. reflexivity.
Qed.

Lemma estimate_nonempty s items :
  estimateBookingDurationMinutes (ServiceArray (s :: items)) = sumDurations (s :: items).
Proof.
  unfold estimateBookingDurationMinutes. apply fold_left_sumDurations.
Qed.

Lemma quantityOrOne_plain s : plainQuantity s -> 1 <= quantityOrOne (quantity s).
Proof.
  unfold plainQuantity, quantityOrOne. destruct (quantity s) as [q|]; [|lia].
  intro H. destruct (Z.eqb_spec q 0); lia.
Qed.

Lemma singleDuration_cases s :
  exists unit, getServiceDurationMinutes s = unit * quantityOrOne (quantity s)
               /\ 60 <= unit <= 120.
Proof.
  unfold getServiceDurationMinutes.
  repeat match goal with
         | |- context [if ?b then _ else _] => destruct b
         end; eexists; (split; [reflexivity | lia]).
Qed.

Lemma serviceDuration_plain s : plainQuantity s -> 60 <= getServiceDurationMinutes s.
Proof.
  intro H. destruct (singleDuration_cases s) as (u & -> & Hu).
  pose proof (quantityOrOne_plain s H). nia.
Qed.

Lemma sumDurations_plain items : Forall plainQuantity items -> 0 <= sumDurations items.
Proof.
  induction 1 as [|s items Hs _ IH]; simpl.
  - lia.
  - pose proof (serviceDuration_plain _ Hs). lia.
Qed.

Lemma estimate_plain v : plainServices v -> 60 <= estimateBookingDurationMinutes v.
Proof.
  destruct v as [|[|s items]]; simpl; try lia.
  intro H. change (fold_left _ items _) with
    (fold_left (fun total s => total + getServiceDurationMinutes s) (s :: items) 0).
  rewrite fold_left_sumDurations. simpl.
  inversion H as [|? ? Hs Hrest]; subst.
  pose proof (serviceDuration_plain _ Hs). pose proof (sumDurations_plain _ Hrest). lia.
Qed.

(* ------------------------------------------------------------------ *)
(** ** Time texts and their two integers *)

Import TimeFormat.

Lemma noColon_uint d : noColon (NilEmpty.string_of_uint d) = true.
Proof. induction d; simpl; auto. Qed.

Lemma noColon_numberText n : noColon (numberText n) = true.
Proof.
  unfold numberText, NilZero.string_of_int, NilZero.string_of_uint.
  destruct (Z.to_int n) as [d|d]; destruct d; simpl; try reflexivity;
    apply noColon_uint.
Qed.

Lemma noColon_padStart2 s : noColon s = true -> noColon (padStart2 s) = true.
Proof. destruct s as [|c [|c' r]]; simpl; auto. Qed.

Lemma padStart2_long c c' r : padStart2 (String c (String c' r)) = String c (String c' r).
Proof. reflexivity. Qed.

Lemma splitColon_noColon s : noColon s = true -> splitColon s = [s].
Proof.
  induction s as [|c r IH]; simpl; [reflexivity|].
  intro H. apply andb_true_iff in H. destruct H as [Hc Hr].
  apply negb_true_iff in Hc. rewrite Hc, (IH Hr). reflexivity.
Qed.

Lemma splitColon_app a b :
  noColon a = true -> noColon b = true -> splitColon (a ++ ":" ++ b) = [a; b].
Proof.
  intros Ha Hb. induction a as [|c r IH]; simpl.
  - now rewrite splitColon_noColon.
  - simpl in Ha. apply andb_true_iff in Ha. destruct Ha as [Hc Hr].
    apply negb_true_iff in Hc. rewrite Hc. simpl in IH. now rewrite (IH Hr).
Qed.

Lemma to_int_not_nil n : Z.to_int n <> Decimal.Pos Decimal.Nil /\ Z.to_int n <> Decimal.Neg Decimal.Nil.
Proof.
  destruct n as [|p|p]; simpl; split; try discriminate;
    intro H; injection H as H; revert H; apply DecimalPos.Unsigned.to_uint_nonnil.
Qed.

Lemma numberOfText_numberText n : numberOfText (numberText n) = Some n.
Proof.
  unfold numberOfText, numberText. destruct (to_int_not_nil n) as [H1 H2].
  rewrite NilZero.isi by assumption. simpl. now rewrite DecimalZ.of_to.
Qed.

Lemma numberOfText_padStart2 n : numberOfText (padStart2 (numberText n)) = Some n.
Proof.
  pose proof (numberOfText_numberText n) as H.
  destruct (numberText n) as [|c [|c' r]] eqn:Hs;
    [discriminate| |rewrite padStart2_long; exact H].
  - change (padStart2 (String c "")) with (String "0" (String c "")).
    unfold numberOfText, NilZero.int_of_string in *.
    destruct (Ascii.eqb_spec c "-") as [->|Hc]; [discriminate|].
    change (Ascii.eqb "0" "-") with false. cbv iota.
    unfold NilZero.uint_of_string in *.
    change (NilEmpty.uint_of_string (String "0" (String c "")))
      with (option_map Decimal.D0 (NilEmpty.uint_of_string (String c ""))).
    destruct (NilEmpty.uint_of_string (String c "")) as [d|]; [|discriminate].
    simpl in *. exact H.
Qed.

Example monday_text : monday = DateOf 19884 /\ dayString 19884 = "2024-06-10".
Proof. split; reflexivity. Qed.

Example leap_day_text :
  dayString (daysFromCivil 2024 2 29) = "2024-02-29"
  /\ dayString (daysFromCivil 2024 2 29 + 1) = "2024-03-01"
  /\ dayString 0 = "1970-01-01".
Proof. repeat split; reflexivity. Qed.

Lemma readTimeText_minutesToTimeString mins :
  readTimeText (minutesToTimeString mins) = Some (HM (mins / 60) (Z.rem mins 60)).
Proof.
  unfold readTimeText, minutesToTimeString. cbv zeta.
  rewrite splitColon_app by (apply noColon_padStart2, noColon_numberText).
  now rewrite !numberOfText_padStart2.
Qed.

(** The text of a slot, taken apart again, gives the minutes back. *)
Lemma timeString_roundtrip mins :
  0 <= mins ->
  option_map timeStringToMinutes (readTimeText (minutesToTimeString mins)) = Some mins.
Proof.
  intro H. rewrite readTimeText_minutesToTimeString. simpl. f_equal.
  unfold timeStringToMinutes. simpl.
  rewrite Z.rem_mod_nonneg by lia. pose proof (Z.div_mod mins 60). lia.
Qed.

Lemma slot_minutes mins :
  0 <= mins -> timeStringToMinutes (HM (mins / 60) (Z.rem mins 60)) = mins.
Proof.
  intro H. unfold timeStringToMinutes. simpl.
  rewrite Z.rem_mod_nonneg by lia. pose proof (Z.div_mod mins 60). lia.
Qed.

Lemma minutesToTimeString_inj a b :
  minutesToTimeString a = minutesToTimeString b -> a = b.
Proof.
  intro H. apply (f_equal readTimeText) in H.
  rewrite !readTimeText_minutesToTimeString in H. injection H as Hq Hr.
  Z.to_euclidean_division_equations. lia.
Qed.

Example half_past_eight_text : minutesToTimeString WORK_START = "08:30".
Proof. reflexivity. Qed.

(* ------------------------------------------------------------------ *)
(** ** The duration estimator *)

Lemma unknown_id_duration s :
  knownServiceId (JsString.toLowerCase (JsString.orEmpty (serviceId s))) = false ->
  getServiceDurationMinutes s = 60 * quantityOrOne (quantity s).
Proof.
  unfold knownServiceId, getServiceDurationMinutes. intro H.
  apply orb_false_elim in H. destruct H as [H H3].
  apply orb_false_elim in H. destruct H as [H1 H2].
  rewrite H1, H2, H3. reflexivity.
Qed.

Lemma unknown_size_duration s :
  knownSize (JsString.toLowerCase (JsString.orEmpty (size s))) = false ->
  let id := JsString.toLowerCase (JsString.orEmpty (serviceId s)) in
  getServiceDurationMinutes s
  = (if String.eqb id "full_detailed" then 75 else 60) * quantityOrOne (quantity s).
Proof.
  unfold knownSize, getServiceDurationMinutes. intro H.
  apply orb_false_elim in H. destruct H as [H H3].
  apply orb_false_elim in H. destruct H as [H1 H2].
  cbv zeta. rewrite H1, H2, H3.
  destruct (String.eqb_spec (JsString.toLowerCase (JsString.orEmpty (serviceId s)))
              "basic_wash") as [E|_].
  - rewrite E. reflexivity.
  - destruct (String.eqb_spec (JsString.toLowerCase (JsString.orEmpty (serviceId s)))
                "exterior_detailed") as [E|_].
    + rewrite E. reflexivity.
    + destruct (String.eqb _ "full_detailed"); reflexivity.
Qed.

(** *** On the values of a JSON body *)

Lemma untyped_service_typed s :
  Untyped.getServiceDurationMinutes (Lift.ofService s)
  = Untyped.Returns (Untyped.Num (getServiceDurationMinutes s)).
Proof.
  unfold Untyped.getServiceDurationMinutes, Lift.ofService, getServiceDurationMinutes.
  assert (Hq : Untyped.quantityOrOne (Lift.ofQuantity (quantity s))
               = Untyped.Num (quantityOrOne (quantity s))).
  { unfold Lift.ofQuantity, quantityOrOne. destruct (quantity s) as [n|]; [|reflexivity].
    destruct (n =? 0); reflexivity. }
  assert (Ht : forall v, Untyped.lowerCased (Lift.ofText v)
                         = Untyped.Returns (JsString.toLowerCase (JsString.orEmpty v)))
    by (intros [t|]; reflexivity).
  rewrite !Ht. cbv zeta. rewrite Hq. reflexivity.
Qed.

Lemma untyped_addDurations_typed items total :
  Untyped.addDurations (Untyped.Num total) (map Lift.ofService items)
  = Untyped.Returns
      (Untyped.Num (fold_left (fun total s => total + getServiceDurationMinutes s)
                      items total)).
Proof.
  revert total. induction items as [|s items IH]; intro total;
    cbn [Untyped.addDurations map fold_left].
  - reflexivity.
  - rewrite untyped_service_typed. cbn [Untyped.add]. apply IH.
Qed.

(** On texts and integers the estimator returns, and returns the value
    computed above. *)
Lemma untyped_estimate_typed v :
  Untyped.estimateBookingDurationMinutes (Lift.ofServices v)
  = Untyped.Returns (Untyped.Num (estimateBookingDurationMinutes v)).
Proof.
  destruct v as [|[|s items]]; try reflexivity.
  exact (untyped_addDurations_typed (s :: items) 0).
Qed.

Lemma untyped_service_throws service :
  Untyped.getServiceDurationMinutes service = Untyped.ThrowsTypeError
  <-> Untyped.throwsOn service.
Proof.
  destruct service as [|id size q]; simpl; [tauto|].
  destruct id, size; simpl; split; intro H;
    try discriminate; try reflexivity; try (now left); try (now right);
    destruct H as [H|H]; discriminate.
Qed.

Lemma untyped_addDurations_throws items total :
  Untyped.addDurations total items = Untyped.ThrowsTypeError
  <-> Exists Untyped.throwsOn items.
Proof.
  revert total. induction items as [|s items IH]; intro total;
    cbn [Untyped.addDurations].
  - split; [discriminate|]. intro H. inversion H.
  - rewrite Exists_cons, <- untyped_service_throws.
    destruct (Untyped.getServiceDurationMinutes s) as [minutes|].
    + rewrite IH. split; [now right|]. intros [H|H]; [discriminate|exact H].
    + split; [now left|reflexivity].
Qed.

(** C8, where the code departs from it: the estimator is not total on
    the service lists a request can carry.  It throws a TypeError on an
    item whose [serviceId] or [size] is a truthy value that is no text
    (the number 5, say: [(5 || "").toLowerCase] is no function) and on
    an item that is [null], and on these only; it does not fall back to
    a default there.  The rest of the claim holds: a missing or an empty
    list gives the fixed default of 60 minutes, not zero; when every
    [serviceId] and [size] is a text or missing the estimator returns
    the sum of the per-item durations, an item whose serviceId is not
    recognised counting 60 minutes per unit and one whose size is not
    recognised the default of its service (60, for a full detail 75). *)
Theorem estimator_throws_on_values_that_are_no_text :
  Untyped.estimateBookingDurationMinutes
    (Untyped.ArrayOf [Untyped.Item Untyped.OtherValue Untyped.FalsyValue
                        Untyped.FalsyQuantity])
  = Untyped.ThrowsTypeError
  /\ Untyped.estimateBookingDurationMinutes
       (Untyped.ArrayOf [Untyped.Item (Untyped.TextValue "basic_wash") Untyped.OtherValue
                           Untyped.FalsyQuantity])
     = Untyped.ThrowsTypeError
  /\ Untyped.estimateBookingDurationMinutes (Untyped.ArrayOf [Untyped.NullItem])
     = Untyped.ThrowsTypeError
  /\ (forall services,
        Untyped.estimateBookingDurationMinutes services = Untyped.ThrowsTypeError
        <-> exists items, services = Untyped.ArrayOf items
                          /\ Exists Untyped.throwsOn items)
  /\ Untyped.estimateBookingDurationMinutes Untyped.NotArray
     = Untyped.Returns (Untyped.Num 60)
  /\ Untyped.estimateBookingDurationMinutes (Untyped.ArrayOf [])
     = Untyped.Returns (Untyped.Num 60)
  /\ (forall v,
        Untyped.estimateBookingDurationMinutes (Lift.ofServices v)
        = Untyped.Returns (Untyped.Num (estimateBookingDurationMinutes v)))
  /\ estimateBookingDurationMinutes NotAnArray = 60
  /\ estimateBookingDurationMinutes (ServiceArray []) = 60
  /\ estimateBookingDurationMinutes (toServicesArray NotAnArray) = 60
  /\ (forall s items,
        estimateBookingDurationMinutes (ServiceArray (s :: items))
        = sumDurations (s :: items))
  /\ (forall s,
        knownServiceId (JsString.toLowerCase (JsString.orEmpty (serviceId s))) = false ->
        getServiceDurationMinutes s = 60 * quantityOrOne (quantity s))
  /\ (forall s,
        knownSize (JsString.toLowerCase (JsString.orEmpty (size s))) = false ->
        getServiceDurationMinutes s
        = (if String.eqb (JsString.toLowerCase (JsString.orEmpty (serviceId s)))
                "full_detailed" then 75 else 60)
          * quantityOrOne (quantity s)).
Proof.
  split; [reflexivity|]. split; [reflexivity|]. split; [reflexivity|].
  split.
  - intros [|[|s items]].
    + split; [discriminate|]. intros (items & H & _). discriminate.
    + split; [discriminate|]. intros (items & H & Hex).
      injection H as <-. inversion Hex.
    + unfold Untyped.estimateBookingDurationMinutes.
      rewrite untyped_addDurations_throws. split.
      * intro H. exists (s :: items). split; [reflexivity|exact H].
      * intros (items' & H & Hex). injection H as <-. exact Hex.
  - split; [reflexivity|]. split; [reflexivity|].
    split; [exact untyped_estimate_typed|].
    split; [reflexivity|]. split; [reflexivity|]. split; [reflexivity|].
    split; [intros s items; apply estimate_nonempty|].
    split; [exact unknown_id_duration|].
    intros s H. exact (unknown_size_duration s H).
Qed.

(* ------------------------------------------------------------------ *)
(** ** Travel time and the area gate *)

Lemma minutesOfReply_fails r : replyFails r = true -> minutesOfReply r = UNKNOWN_TRAVEL.
Proof.
  unfold replyFails, minutesOfReply, UNKNOWN_TRAVEL.
  destruct r as [| |status [el|]]; try reflexivity.
  - destruct (negb (String.eqb status "OK")); [reflexivity|].
    destruct (negb (String.eqb (el_status el) "OK")); [reflexivity|].
    destruct (el_duration el); [discriminate|reflexivity].
  - destruct (negb (String.eqb status "OK")); reflexivity.
Qed.

Lemma travelMinutes_missing w fromPostcode toPostcode :
  JsString.truthy fromPostcode = false \/ JsString.truthy toPostcode = false ->
  travelMinutes w fromPostcode toPostcode = UNKNOWN_TRAVEL.
Proof.
  unfold travelMinutes, getTravelTimeMinutes, JsString.truthy.
  destruct fromPostcode as [f|], toPostcode as [t|]; try reflexivity.
  destruct (JsString.isEmpty f), (JsString.isEmpty t); simpl;
    intros [H|H]; try discriminate; reflexivity.
Qed.

Lemma travelMinutes_reply w f t :
  JsString.isEmpty f = false -> JsString.isEmpty t = false ->
  travelMinutes w (Some f) (Some t)
  = minutesOfReply (distanceMatrix w (JsString.trim f) (JsString.trim t)).
Proof.
  unfold travelMinutes, getTravelTimeMinutes. intros -> ->. reflexivity.
Qed.

Lemma travelMinutes_fails w f t :
  JsString.isEmpty f = false -> JsString.isEmpty t = false ->
  replyFails (distanceMatrix w (JsString.trim f) (JsString.trim t)) = true ->
  travelMinutes w (Some f) (Some t) = UNKNOWN_TRAVEL.
Proof.
  intros Hf Ht H. rewrite travelMinutes_reply by assumption.
  now apply minutesOfReply_fails.
Qed.

Lemma allFarLoop_result w postcode rows :
  result (allFarLoop w postcode rows) = forallb (fun r => negb (nearRow w postcode r)) rows.
Proof.
  induction rows as [|row rows IH]; simpl.
  - reflexivity.
  - rewrite result_bind. unfold nearRow, travelMinutes.
    destruct (_ <=? TRAVEL_LIMIT_MIN); simpl; [reflexivity|exact IH].
Qed.

Lemma outOfAreaForDay_result w postcode rows :
  result (outOfAreaForDay w postcode rows)
  = negb (match rows with [] => true | _ => false end)
    && forallb (fun r => negb (nearRow w postcode r)) rows.
Proof.
  destruct rows as [|row rows]; [reflexivity|].
  unfold outOfAreaForDay. now rewrite allFarLoop_result.
Qed.

(** The loop stops at the first booking within the limit: the rows
    behind it change neither the flag nor the requests sent. *)
Lemma allFarLoop_short_circuit w postcode before row after :
  nearRow w postcode row = true ->
  allFarLoop w postcode (before ++ row :: after) = allFarLoop w postcode (before ++ [row]).
Proof.
  intro Hnear. induction before as [|b before IH]; simpl.
  - unfold nearRow, travelMinutes, result in Hnear.
    destruct (getTravelTimeMinutes w postcode (Some (row_postcode row))) as [mins sent].
    simpl in *. rewrite Hnear. reflexivity.
  - rewrite IH. reflexivity.
Qed.

(* ------------------------------------------------------------------ *)
(** ** The decisions of validateBooking and of the slot grid *)

Lemma dayOfWeek_getDay tz n :
  Clock.getDay tz (n * Clock.minutesPerDay - tz) = dayOfWeek n.
Proof.
  unfold Clock.getDay, dayOfWeek, Clock.minutesPerDay.
  replace (n * 1440 - tz + tz) with (n * 1440) by lia.
  now rewrite Z.div_mul by lia.
Qed.

(** Whether a day is a working day does not depend on the server's zone. *)
Lemma isWorkingDay_dayOfWeek tz n :
  Clock.isWorkingDay tz (DateOf n) = (1 <=? dayOfWeek n) && (dayOfWeek n <=? 5).
Proof.
  unfold Clock.isWorkingDay, Clock.localMidnight. cbv zeta.
  now rewrite dayOfWeek_getDay.
Qed.

Lemma isWorkingDay_weekend w d : isWeekend d -> isWorkingDay w d = false.
Proof.
  unfold isWorkingDay. destruct d as [n|]; simpl; [|reflexivity].
  intro H. rewrite isWorkingDay_dayOfWeek.
  destruct H as [H|H]; rewrite H; reflexivity.
Qed.

(** The outcome of [validateBooking] once the fields are present. *)
Lemma validateBooking_result w req date preferred_time :
  req_date req = Some date ->
  req_preferred_time req = Some preferred_time ->
  JsString.truthy (req_postcode req) = true ->
  let postcode := req_postcode req in
  let requestedStart := timeStringToMinutes preferred_time in
  let requestedEnd :=
    requestedStart
    + (estimateBookingDurationMinutes (toServicesArray (req_services req))
       + BUFFER_AFTER_JOB_MIN) in
  result (validateBooking w req)
  = if negb (isWorkingDay w date) then Rejected OUTSIDE_WORKING_DAYS
    else if (requestedStart <? WORK_START) || (requestedEnd >? WORK_END)
    then Rejected OUTSIDE_WORKING_HOURS
    else if result (outOfAreaForDay w postcode (bookingsForDate w date))
    then Rejected OUT_OF_AREA_FOR_DAY
    else if existsb (overlapsWith requestedStart requestedEnd) (dayIntervals w date)
    then Rejected TIME_TAKEN
    else if prevTooFar w postcode (dayIntervals w date) requestedStart
            || nextTooFar w postcode (dayIntervals w date) requestedEnd
    then Rejected TRAVEL_TOO_FAR
    else Accepted.
Proof.
  intros Hd Ht Hp. cbv zeta. unfold validateBooking. rewrite Hd, Ht, Hp. simpl negb.
  cbv iota. destruct (negb (isWorkingDay w date)); [reflexivity|].
  destruct (_ || _); [reflexivity|].
  rewrite result_bind.
  destruct (result (outOfAreaForDay w (req_postcode req) (bookingsForDate w date)));
    [reflexivity|].
  fold (dayIntervals w date).
  destruct (existsb _ (dayIntervals w date)); [reflexivity|].
  rewrite result_bind. unfold prevTooFar, nextTooFar, travelMinutes.
  destruct (prevOf _ _) as [p|].
  - rewrite result_bind, result_ret.
    destruct (_ >? TRAVEL_LIMIT_MIN); [reflexivity|]. simpl orb.
    rewrite result_bind.
    destruct (nextOf _ _) as [n|].
    + rewrite result_bind, result_ret. destruct (_ >? TRAVEL_LIMIT_MIN); reflexivity.
    + reflexivity.
  - rewrite result_ret. simpl orb. rewrite result_bind.
    destruct (nextOf _ _) as [n|].
    + rewrite result_bind, result_ret. destruct (_ >? TRAVEL_LIMIT_MIN); reflexivity.
    + reflexivity.
Qed.

Lemma validateBooking_missing w req :
  req_date req = None \/ req_preferred_time req = None
  \/ JsString.truthy (req_postcode req) = false ->
  result (validateBooking w req) = Rejected MISSING_FIELDS.
Proof.
  unfold validateBooking.
  destruct (req_date req), (req_preferred_time req); try reflexivity.
  intros [H|[H|H]]; try discriminate. rewrite H. reflexivity.
Qed.

(** The decision of the grid loop for one candidate. *)
Lemma candidateOk_result w postcode intervals requestedDuration candidateStart :
  let candidateEnd := candidateStart + requestedDuration in
  result (candidateOk w postcode intervals requestedDuration candidateStart)
  = negb (existsb (overlapsWith candidateStart candidateEnd) intervals)
    && negb (prevTooFar w postcode intervals candidateStart
             || nextTooFar w postcode intervals candidateEnd).
Proof.
  cbv zeta. unfold candidateOk.
  destruct (existsb _ intervals); [reflexivity|]. simpl negb. rewrite andb_true_l.
  rewrite !result_bind, result_ret.
  unfold prevTooFar, nextTooFar, travelMinutes.
  destruct (prevOf _ _) as [p|]; destruct (nextOf _ _) as [n|];
    rewrite ?result_bind, ?result_ret;
    try destruct (result (getTravelTimeMinutes w (iv_postcode p) postcode)
                  >? TRAVEL_LIMIT_MIN);
    simpl; rewrite ?result_bind, ?result_ret; try reflexivity;
    try (destruct (_ >? TRAVEL_LIMIT_MIN); reflexivity).
Qed.

(* ------------------------------------------------------------------ *)
(** ** The slot grid *)

(** Arithmetic over the engine's constants. *)
Ltac constants_lia :=
  unfold WORK_START, WORK_END, SLOT_STEP_MIN, BUFFER_AFTER_JOB_MIN, TRAVEL_LIMIT_MIN,
    UNKNOWN_TRAVEL in *;
  lia.

Section SlotGridFacts.
Variable w : world.
Variable postcode : option string.
Variable intervals : list interval.
Variable requestedDuration : Z.

Local Abbreviation loop := (slotLoop w postcode intervals requestedDuration).
Local Abbreviation ok c :=
  (result (candidateOk w postcode intervals requestedDuration c)).

(** Every slot of the loop is a candidate of the grid that ends by
    [WORK_END] and passed both tests. *)
Lemma slotLoop_sound fuel candidateStart slot :
  In slot (result (loop fuel candidateStart)) ->
  exists k, 0 <= k
    /\ let c := candidateStart + k * SLOT_STEP_MIN in
       c + requestedDuration <= WORK_END /\ ok c = true
       /\ slot = minutesToTimeString c.
Proof.
  revert candidateStart.
  induction fuel as [|fuel IH]; intros cs; simpl.
  - intros [].
  - destruct (Z.leb_spec (cs + requestedDuration) WORK_END) as [Hle|Hgt];
      [|intros []].
    rewrite !result_bind, result_ret.
    intro Hin.
    assert (Hcases :
      (result (candidateOk w postcode intervals requestedDuration cs) = true
       /\ slot = minutesToTimeString cs)
      \/ In slot (result (slotLoop w postcode intervals requestedDuration fuel
                            (cs + SLOT_STEP_MIN)))).
    { destruct (result (candidateOk w postcode intervals requestedDuration cs)).
      - destruct Hin as [<-|Hin]; [left; split; reflexivity|right; exact Hin].
      - right; exact Hin. }
    destruct Hcases as [[Hok ->]|Hrest].
    + exists 0. cbv zeta. rewrite Z.mul_0_l, Z.add_0_r. repeat split; [lia| |]; assumption.
    + destruct (IH _ Hrest) as (k & Hk & Hc). cbv zeta in Hc.
      exists (k + 1). split; [lia|]. cbv zeta.
      replace (cs + (k + 1) * SLOT_STEP_MIN) with (cs + SLOT_STEP_MIN + k * SLOT_STEP_MIN)
        by lia.
      exact Hc.
Qed.

(** With enough turns, every such candidate is among the slots. *)
Lemma slotLoop_complete fuel candidateStart k :
  0 <= k < Z.of_nat fuel ->
  let c := candidateStart + k * SLOT_STEP_MIN in
  c + requestedDuration <= WORK_END -> ok c = true ->
  In (minutesToTimeString c) (result (loop fuel candidateStart)).
Proof.
  cbv zeta. revert candidateStart k.
  induction fuel as [|fuel IH]; intros cs k Hk Hend Hok.
  - simpl in Hk. lia.
  - simpl. unfold SLOT_STEP_MIN in Hend.
    destruct (Z.leb_spec (cs + requestedDuration) WORK_END) as [Hle|Hgt]; [|lia].
    rewrite !result_bind, result_ret.
    destruct (Z.eq_dec k 0) as [->|Hnz].
    + rewrite Z.mul_0_l, Z.add_0_r in *. rewrite Hok. now left.
    + assert (Hin : In (minutesToTimeString (cs + k * SLOT_STEP_MIN))
                      (result (slotLoop w postcode intervals requestedDuration fuel
                                 (cs + SLOT_STEP_MIN)))).
      { replace (cs + k * SLOT_STEP_MIN)
          with (cs + SLOT_STEP_MIN + (k - 1) * SLOT_STEP_MIN) in * by lia.
        apply IH; [lia| |assumption].
        unfold SLOT_STEP_MIN in *. lia. }
      destruct (result (candidateOk w postcode intervals requestedDuration cs));
        [right|]; exact Hin.
Qed.

(** The loop leaves by its own test within [gridTurns] turns: more
    turns change nothing. *)
Lemma slotLoop_turns fuel extra candidateStart :
  WORK_END - requestedDuration - candidateStart < Z.of_nat fuel * SLOT_STEP_MIN ->
  loop (fuel + extra)%nat candidateStart = loop fuel candidateStart.
Proof.
  revert candidateStart.
  induction fuel as [|fuel IH]; intros cs Hlt.
  - destruct extra as [|extra]; [reflexivity|]. simpl.
    destruct (Z.leb_spec (cs + requestedDuration) WORK_END);
      [constants_lia|reflexivity].
  - simpl. destruct (Z.leb_spec (cs + requestedDuration) WORK_END); [|reflexivity].
    rewrite IH; [reflexivity|]. constants_lia.
Qed.

Lemma gridTurns_enough candidateStart :
  WORK_END - requestedDuration - candidateStart
  < Z.of_nat (gridTurns requestedDuration candidateStart) * SLOT_STEP_MIN.
Proof.
  unfold gridTurns, SLOT_STEP_MIN.
  set (room := WORK_END - requestedDuration - candidateStart).
  pose proof (Z.div_mod room 15). pose proof (Z.mod_pos_bound room 15). lia.
Qed.

Lemma possibleSlots_turns extra :
  slotLoop w postcode intervals requestedDuration
    (gridTurns requestedDuration WORK_START + extra) WORK_START
  = possibleSlots w postcode intervals requestedDuration.
Proof.
  unfold possibleSlots. apply slotLoop_turns, gridTurns_enough.
Qed.

(** The slots are exactly the grid candidates that fit and pass. *)
Lemma possibleSlots_spec slot :
  In slot (result (possibleSlots w postcode intervals requestedDuration))
  <-> exists c, onGrid c /\ c + requestedDuration <= WORK_END /\ ok c = true
                /\ slot = minutesToTimeString c.
Proof.
  unfold possibleSlots. split.
  - intro Hin. apply slotLoop_sound in Hin. destruct Hin as (k & Hk & Hend & Hok & ->).
    eexists. split; [exists k; split; [exact Hk|reflexivity]|].
    repeat split; assumption.
  - intros (c & (k & Hk & ->) & Hend & Hok & ->).
    apply slotLoop_complete; try assumption.
    split; [assumption|].
    pose proof (gridTurns_enough WORK_START) as Hturns.
    unfold SLOT_STEP_MIN in *. lia.
Qed.

End SlotGridFacts.

(** What [POST /api/availability] answers once date and postcode are
    there. *)
Lemma findSlots_result w req date :
  av_date req = Some date ->
  JsString.truthy (av_postcode req) = true ->
  let postcode := av_postcode req in
  let requestedDuration :=
    estimateBookingDurationMinutes (toServicesArray (av_services req))
    + BUFFER_AFTER_JOB_MIN in
  result (findSlots w req)
  = AvailabilitySlots date
      (if negb (isWorkingDay w date) then []
       else if result (outOfAreaForDay w postcode (bookingsForDate w date)) then []
       else result (possibleSlots w postcode (dayIntervals w date) requestedDuration)).
Proof.
  intros Hd Hp. cbv zeta. unfold findSlots. rewrite Hd, Hp. simpl negb. cbv iota.
  destruct (negb (isWorkingDay w date)); [reflexivity|].
  rewrite result_bind.
  destruct (result (outOfAreaForDay w (av_postcode req) (bookingsForDate w date)));
    [reflexivity|].
  rewrite result_bind, result_ret. reflexivity.
Qed.

Lemma findSlots_bad_request w req :
  av_date req = None \/ JsString.truthy (av_postcode req) = false ->
  result (findSlots w req) = AvailabilityBadRequest.
Proof.
  unfold findSlots. destruct (av_date req); [|reflexivity].
  intros [H|H]; [discriminate|]. now rewrite H.
Qed.

(** A slot that [POST /api/availability] lists is a grid candidate that
    passed the gate, the overlap test and the travel test. *)
Lemma findSlots_slot_inv w req date slots slot :
  result (findSlots w req) = AvailabilitySlots date slots ->
  In slot slots ->
  av_date req = Some date
  /\ JsString.truthy (av_postcode req) = true
  /\ isWorkingDay w date = true
  /\ result (outOfAreaForDay w (av_postcode req) (bookingsForDate w date)) = false
  /\ exists c,
       let requestedDuration :=
         estimateBookingDurationMinutes (toServicesArray (av_services req))
         + BUFFER_AFTER_JOB_MIN in
       onGrid c /\ c + requestedDuration <= WORK_END
       /\ result (candidateOk w (av_postcode req) (dayIntervals w date)
                    requestedDuration c) = true
       /\ slot = minutesToTimeString c.
Proof.
  intros Hres Hin.
  destruct (av_date req) as [d|] eqn:Hd;
    [|rewrite findSlots_bad_request in Hres by (now left); discriminate].
  destruct (JsString.truthy (av_postcode req)) eqn:Hp;
    [|rewrite findSlots_bad_request in Hres by (now right); discriminate].
  rewrite (findSlots_result w req d Hd Hp) in Hres. injection Hres as <- <-.
  destruct (isWorkingDay w d); simpl in Hin; [|contradiction].
  destruct (result (outOfAreaForDay w (av_postcode req) (bookingsForDate w d)));
    [contradiction|].
  apply possibleSlots_spec in Hin.
  repeat split; try reflexivity. exact Hin.
Qed.

(* ------------------------------------------------------------------ *)
(** ** Slots and validation agree *)

Lemma onGrid_bounds c : onGrid c -> WORK_START <= c /\ 0 <= c.
Proof. intros (k & Hk & ->). constants_lia. Qed.

(** A listed start, taken apart and asked back, passes every check of
    [validateBooking]. *)
Lemma listed_slot_accepted w date postcode services d slots start :
  result (findSlots w {| av_date := date; av_postcode := postcode;
                         av_services := services |})
  = AvailabilitySlots d slots ->
  In start slots ->
  exists time,
    readTimeText start = Some time
    /\ result (validateBooking w {| req_date := date; req_postcode := postcode;
                                    req_services := services;
                                    req_preferred_time := Some time |})
       = Accepted.
Proof.
  intros Hres Hin.
  destruct (findSlots_slot_inv _ _ _ _ _ Hres Hin)
    as (Hd & Hp & Hwork & Hgate & c & Hgrid & Hend & Hok & ->).
  simpl in Hd, Hp, Hgate, Hend, Hok.
  destruct (onGrid_bounds c Hgrid) as [Hstart Hpos].
  exists (HM (c / 60) (Z.rem c 60)).
  split; [apply readTimeText_minutesToTimeString|].
  pose proof (validateBooking_result w
                {| req_date := date; req_postcode := postcode;
                   req_services := services;
                   req_preferred_time := Some (HM (c / 60) (Z.rem c 60)) |}
                d (HM (c / 60) (Z.rem c 60))) as Hv.
  cbn [req_date req_postcode req_services req_preferred_time] in Hv.
  rewrite (Hv Hd eq_refl Hp). clear Hv.
  rewrite slot_minutes by assumption.
  rewrite Hwork, Hgate. simpl negb. cbv iota.
  replace (c <? WORK_START) with false by (symmetry; apply Z.ltb_ge; assumption).
  replace (_ >? WORK_END) with false
    by (symmetry; rewrite Z.gtb_ltb; apply Z.ltb_ge; assumption).
  simpl orb. cbv iota.
  rewrite candidateOk_result in Hok. apply andb_true_iff in Hok.
  destruct Hok as [Hfree Htravel].
  apply negb_true_iff in Hfree, Htravel. now rewrite Hfree, Htravel.
Qed.

(** C1: every start time that the slot enumeration returns is accepted
    by [validateBooking] for the same date, postcode and services, in the
    same world: the text is taken apart as [timeStringToMinutes] does it
    and, asked back, fails neither with TIME_TAKEN nor with
    TRAVEL_TOO_FAR. *)
Theorem findSlots_start_passes_validate :
  forall w date postcode services d slots start,
    result (findSlots w {| av_date := date; av_postcode := postcode;
                           av_services := services |})
    = AvailabilitySlots d slots ->
    In start slots ->
    exists time,
      readTimeText start = Some time
      /\ let outcome :=
           result (validateBooking w {| req_date := date; req_postcode := postcode;
                                        req_services := services;
                                        req_preferred_time := Some time |}) in
         outcome = Accepted
         /\ outcome <> Rejected TIME_TAKEN
         /\ outcome <> Rejected TRAVEL_TOO_FAR.
Proof.
  intros w date postcode services d slots start Hres Hin.
  destruct (listed_slot_accepted _ _ _ _ _ _ _ Hres Hin) as (time & Hread & Hok).
  exists time. split; [exact Hread|]. cbv zeta. rewrite Hok.
  repeat split; discriminate.
Qed.

(** In the scenario of the specification, 10:30 is listed and accepted. *)
Lemma findSlots_start_passes_validate_scenario :
  exists time,
    readTimeText "10:30" = Some time
    /\ let outcome :=
         result (validateBooking scenarioWorld
                   {| req_date := Some monday; req_postcode := Some "AB1";
                      req_services := ServiceArray [basicWash];
                      req_preferred_time := Some time |}) in
       outcome = Accepted
       /\ outcome <> Rejected TIME_TAKEN
       /\ outcome <> Rejected TRAVEL_TOO_FAR.
Proof.
  eapply (findSlots_start_passes_validate scenarioWorld (Some monday) (Some "AB1")
            (ServiceArray [basicWash])).
  - vm_compute. reflexivity.
  - left. reflexivity.
Defined.

(** C2: working hours 08:30 to 16:30, buffer 30, grid step 15, one
    booking at 09:00 with a 60-minute service at AB1 (it occupies 09:00
    to 10:30), a request for a 60-minute service at AB1, every travel
    time 0: the slots returned start with 10:30 and run to 15:00; 10:30
    is among them and no grid candidate from 08:30 through 10:15 is,
    each of those overlapping the occupied interval. *)
Theorem scenario_slots_from_half_past_ten :
  WORK_START = 8 * 60 + 30 /\ WORK_END = 16 * 60 + 30
  /\ BUFFER_AFTER_JOB_MIN = 30 /\ SLOT_STEP_MIN = 15
  /\ bookingInterval bookingAtNine
     = {| iv_start := 9 * 60; iv_end := 10 * 60 + 30; iv_postcode := Some "AB1" |}
  /\ estimateBookingDurationMinutes (av_services scenarioRequest) = 60
  /\ travelMinutes scenarioWorld (Some "AB1") (Some "AB1") = 0
  /\ result (findSlots scenarioWorld scenarioRequest)
     = AvailabilitySlots monday scenarioSlots
  /\ In "10:30" scenarioSlots
  /\ map minutesToTimeString earlyCandidates
     = ["08:30"; "08:45"; "09:00"; "09:15"; "09:30"; "09:45"; "10:00"; "10:15"]
  /\ Forall (fun c =>
       onGrid c
       /\ overlapsWith c (c + 90) (bookingInterval bookingAtNine) = true
       /\ ~ In (minutesToTimeString c) scenarioSlots) earlyCandidates.
Proof.
  repeat split; try reflexivity.
  - left. reflexivity.
  - unfold earlyCandidates.
    repeat (apply Forall_cons || apply Forall_nil); (split; [|split]);
      try reflexivity;
      try (vm_compute; intuition discriminate).
    + exists 0. vm_compute. intuition discriminate.
    + exists 1. vm_compute. intuition discriminate.
    + exists 2. vm_compute. intuition discriminate.
    + exists 3. vm_compute. intuition discriminate.
    + exists 4. vm_compute. intuition discriminate.
    + exists 5. vm_compute. intuition discriminate.
    + exists 6. vm_compute. intuition discriminate.
    + exists 7. vm_compute. intuition discriminate.
Qed.

(* ------------------------------------------------------------------ *)
(** ** Unknown travel times *)

Lemma queryUnknown_minutes w fromPostcode toPostcode :
  queryUnknown w fromPostcode toPostcode ->
  travelMinutes w fromPostcode toPostcode = UNKNOWN_TRAVEL.
Proof.
  intros [H|(f & t & -> & -> & Hf & Ht & Hfail)]; [exact H|].
  now apply travelMinutes_fails.
Qed.

Lemma neighbourUnknown_tooFar w postcode intervals s e :
  neighbourUnknown w postcode intervals s e ->
  prevTooFar w postcode intervals s || nextTooFar w postcode intervals e = true.
Proof.
  unfold prevTooFar, nextTooFar.
  intros [(p & -> & Hq)|(n & -> & Hq)];
    rewrite (queryUnknown_minutes _ _ _ Hq).
  - reflexivity.
  - apply orb_true_r.
Qed.

(** C3: when the candidate has a previous or a next booking with a
    postcode and the travel query for that neighbour fails or resolves
    to the fallback value 999, the candidate is never accepted: a
    request that reaches the travel check is rejected with
    TRAVEL_TOO_FAR, and the slot enumeration leaves that start out. *)
Theorem unknown_travel_rejects_candidate :
  forall w date postcode services time,
    let s := timeStringToMinutes time in
    let e := s + (estimateBookingDurationMinutes (toServicesArray services)
                  + BUFFER_AFTER_JOB_MIN) in
    neighbourUnknown w postcode (dayIntervals w date) s e ->
    let outcome :=
      result (validateBooking w {| req_date := Some date; req_postcode := postcode;
                                   req_services := services;
                                   req_preferred_time := Some time |}) in
    outcome <> Accepted
    /\ (JsString.truthy postcode = true ->
        isWorkingDay w date = true ->
        WORK_START <= s -> e <= WORK_END ->
        result (outOfAreaForDay w postcode (bookingsForDate w date)) = false ->
        existsb (overlapsWith s e) (dayIntervals w date) = false ->
        outcome = Rejected TRAVEL_TOO_FAR)
    /\ (forall d slots,
          result (findSlots w {| av_date := Some date; av_postcode := postcode;
                                 av_services := services |})
          = AvailabilitySlots d slots ->
          ~ In (minutesToTimeString s) slots).
Proof.
  intros w date postcode services time s e Hunknown. cbv zeta.
  pose proof (neighbourUnknown_tooFar _ _ _ _ _ Hunknown) as Hfar.
  pose proof (validateBooking_result w
                {| req_date := Some date; req_postcode := postcode;
                   req_services := services; req_preferred_time := Some time |}
                date time eq_refl eq_refl) as Hv.
  cbn [req_date req_postcode req_services req_preferred_time] in Hv.
  fold s in Hv. fold e in Hv.
  split; [|split].
  - destruct (JsString.truthy postcode) eqn:Hp.
    + rewrite (Hv eq_refl). rewrite Hfar.
      repeat match goal with
             | |- context [if ?b then _ else _] => destruct b
             end; discriminate.
    + rewrite validateBooking_missing by (right; right; exact Hp). discriminate.
  - intros Hp Hwork Hs He Hgate Hfree.
    rewrite (Hv Hp), Hwork, Hgate, Hfree, Hfar. simpl negb. cbv iota.
    replace (s <? WORK_START) with false by (symmetry; apply Z.ltb_ge; assumption).
    replace (e >? WORK_END) with false
      by (symmetry; rewrite Z.gtb_ltb; apply Z.ltb_ge; assumption).
    reflexivity.
  - intros d slots Hres Hin.
    destruct (findSlots_slot_inv _ _ _ _ _ Hres Hin)
      as (Hd & _ & _ & _ & c & _ & _ & Hok & Heq).
    cbn [av_date av_postcode av_services] in Hd, Hok.
    injection Hd as <-.
    apply minutesToTimeString_inj in Heq. subst c.
    rewrite candidateOk_result in Hok. fold e in Hok.
    rewrite Hfar in Hok. simpl in Hok. rewrite andb_false_r in Hok. discriminate.
Qed.

(** A booking at AB1 until 10:30 and a candidate at AB2 from 10:30: the
    journey from AB1 to AB2 cannot be looked up, so the candidate is
    rejected and 10:30 is not offered. *)
Lemma unknown_travel_rejects_candidate_one_way :
  result (validateBooking oneWayWorld oneWayRequest) = Rejected TRAVEL_TOO_FAR
  /\ forall d slots,
       result (findSlots oneWayWorld
                 {| av_date := Some monday; av_postcode := Some "AB2";
                    av_services := ServiceArray [basicWash] |})
       = AvailabilitySlots d slots ->
       ~ In "10:30" slots.
Proof.
  assert (Hunknown :
    neighbourUnknown oneWayWorld (Some "AB2") (dayIntervals oneWayWorld monday)
      (timeStringToMinutes (HM 10 30))
      (timeStringToMinutes (HM 10 30)
       + (estimateBookingDurationMinutes (toServicesArray (ServiceArray [basicWash]))
          + BUFFER_AFTER_JOB_MIN))).
  { left. exists (bookingInterval bookingAtNine). split; [reflexivity|].
    right. exists "AB1", "AB2". repeat split; reflexivity. }
  destruct (unknown_travel_rejects_candidate oneWayWorld monday (Some "AB2")
              (ServiceArray [basicWash]) (HM 10 30) Hunknown)
    as (_ & Hreject & Hslot).
  split.
  - apply Hreject; try reflexivity; vm_compute; discriminate.
  - exact Hslot.
Defined.

(* ------------------------------------------------------------------ *)
(** ** The area gate in the three handlers *)

(** C4: the gate declares the day out of area exactly when there is a
    booking that day and the travel time from the candidate to every
    booking's postcode is above the limit of 20 minutes (a failed query
    counts 999); with no booking the day is in area and nothing is
    asked; the rows behind the first booking within the limit are
    neither asked about nor change the answer.  Both handlers evaluate
    this gate on the bookings of the day: a request that has its fields,
    falls on a working day and passes the working-hours test is rejected
    by [validateBooking] with OUT_OF_AREA_FOR_DAY exactly when the gate
    says out of area; the slot enumeration returns no slot when the gate
    says so and, on a working day, the slots of the grid when it does
    not. *)
Theorem area_gate_all_far :
  TRAVEL_LIMIT_MIN = 20
  /\ (forall w postcode rows,
        result (outOfAreaForDay w postcode rows) = true
        <-> rows <> []
            /\ Forall (fun row =>
                 TRAVEL_LIMIT_MIN < travelMinutes w postcode (Some (row_postcode row)))
               rows)
  /\ (forall w postcode, outOfAreaForDay w postcode [] = (false, []))
  /\ (forall w postcode before row after,
        travelMinutes w postcode (Some (row_postcode row)) <= TRAVEL_LIMIT_MIN ->
        result (outOfAreaForDay w postcode (before ++ row :: after)) = false
        /\ outOfAreaForDay w postcode (before ++ row :: after)
           = outOfAreaForDay w postcode (before ++ [row]))
  /\ (forall w f t,
        JsString.isEmpty f = false -> JsString.isEmpty t = false ->
        replyFails (distanceMatrix w (JsString.trim f) (JsString.trim t)) = true ->
        TRAVEL_LIMIT_MIN < travelMinutes w (Some f) (Some t))
  /\ (forall w req date,
        result (validateBooking w req) = Rejected OUT_OF_AREA_FOR_DAY ->
        req_date req = Some date ->
        result (outOfAreaForDay w (req_postcode req) (bookingsForDate w date)) = true)
  /\ (forall w req date,
        av_date req = Some date -> JsString.truthy (av_postcode req) = true ->
        result (outOfAreaForDay w (av_postcode req) (bookingsForDate w date)) = true ->
        result (findSlots w req) = AvailabilitySlots date [])
  /\ (forall w req date time,
        req_date req = Some date -> req_preferred_time req = Some time ->
        JsString.truthy (req_postcode req) = true ->
        isWorkingDay w date = true ->
        let requestedStart := timeStringToMinutes time in
        let requestedEnd :=
          requestedStart
          + (estimateBookingDurationMinutes (toServicesArray (req_services req))
             + BUFFER_AFTER_JOB_MIN) in
        (requestedStart <? WORK_START) || (requestedEnd >? WORK_END) = false ->
        (result (validateBooking w req) = Rejected OUT_OF_AREA_FOR_DAY
         <-> result (outOfAreaForDay w (req_postcode req) (bookingsForDate w date))
             = true))
  /\ (forall w req date,
        av_date req = Some date -> JsString.truthy (av_postcode req) = true ->
        isWorkingDay w date = true ->
        result (outOfAreaForDay w (av_postcode req) (bookingsForDate w date)) = false ->
        result (findSlots w req)
        = AvailabilitySlots date
            (result (possibleSlots w (av_postcode req) (dayIntervals w date)
                       (estimateBookingDurationMinutes (toServicesArray (av_services req))
                        + BUFFER_AFTER_JOB_MIN)))).
Proof.
  split; [reflexivity|].
  split; [|split; [|split; [|split; [|split; [|split; [|split]]]]]].
  - intros w postcode rows. rewrite outOfAreaForDay_result, andb_true_iff.
    rewrite forallb_forall, Forall_forall. split.
    + intros [Hne Hall]. split.
      * destruct rows; [discriminate|congruence].
      * intros row Hin. specialize (Hall row Hin). unfold nearRow in Hall.
        apply negb_true_iff, Z.leb_gt in Hall. exact Hall.
    + intros [Hne Hall]. split.
      * destruct rows; [congruence|reflexivity].
      * intros row Hin. unfold nearRow. apply negb_true_iff, Z.leb_gt. auto.
  - reflexivity.
  - intros w postcode before row after Hle.
    assert (Hnear : nearRow w postcode row = true) by (now apply Z.leb_le).
    split.
    + rewrite outOfAreaForDay_result, forallb_app. simpl. rewrite Hnear. simpl.
      now rewrite andb_false_r, andb_false_r.
    + pose proof (allFarLoop_short_circuit w postcode before row after Hnear) as H.
      destruct before; simpl in *; exact H.
  - intros w f t Hf Ht H. rewrite (travelMinutes_fails w f t Hf Ht H).
    reflexivity.
  - intros w req date Hres Hd.
    destruct (req_preferred_time req) as [time|] eqn:Ht;
      [|rewrite validateBooking_missing in Hres by auto; discriminate].
    destruct (JsString.truthy (req_postcode req)) eqn:Hp;
      [|rewrite validateBooking_missing in Hres by auto; discriminate].
    rewrite (validateBooking_result w req date time Hd Ht Hp) in Hres.
    destruct (result (outOfAreaForDay w (req_postcode req) (bookingsForDate w date)));
      [reflexivity|].
    repeat match type of Hres with
           | context [if ?b then _ else _] => destruct b
           end; discriminate.
  - intros w req date Hd Hp Hgate.
    rewrite (findSlots_result w req date Hd Hp), Hgate.
    now destruct (negb (isWorkingDay w date)).
  - intros w req date time Hd Ht Hp Hday requestedStart requestedEnd Hhours.
    subst requestedStart requestedEnd.
    rewrite (validateBooking_result w req date time Hd Ht Hp).
    rewrite Hday, Hhours. simpl negb. cbv iota.
    destruct (result (outOfAreaForDay w (req_postcode req) (bookingsForDate w date))).
    + split; reflexivity.
    + split; [|discriminate].
      repeat match goal with
             | |- context [if ?b then _ else _] => destruct b
             end; discriminate.
  - intros w req date Hd Hp Hday Hgate.
    rewrite (findSlots_result w req date Hd Hp), Hday, Hgate. reflexivity.
Qed.

(** The gate at work: the one booking of the day cannot be reached from
    the postcode as the request spells it, so the day is out of area. *)
Lemma area_gate_all_far_lower_case :
  result (outOfAreaForDay exactPostcodeWorld (Some "ab1") [bookingAtNine]) = true.
Proof.
  destruct area_gate_all_far as (_ & Hgate & _).
  apply Hgate. split; [discriminate|].
  constructor; [|constructor]. vm_compute. reflexivity.
Defined.

(* ------------------------------------------------------------------ *)
(** ** The intervals of a day *)

Lemma bookingInterval_length row :
  iv_start (bookingInterval row) = timeStringToMinutes (row_preferred_time row)
  /\ iv_end (bookingInterval row) - iv_start (bookingInterval row)
     = estimateBookingDurationMinutes (storedServices row) + BUFFER_AFTER_JOB_MIN.
Proof.
  unfold bookingInterval, storedServices. simpl. split; [reflexivity|lia].
Qed.

Lemma overlap_test_occupied rows blocks s e :
  existsb (overlapsWith s e) (buildIntervals rows blocks) = true
  <-> occupied rows blocks s e.
Proof.
  unfold buildIntervals, occupied. rewrite existsb_app, orb_true_iff, !existsb_exists.
  split.
  - intros [(i & Hin & Hov)|(i & Hin & Hov)]; apply in_map_iff in Hin;
      destruct Hin as (x & <- & Hx); apply Z.ltb_lt in Hov.
    + left. exists x. split; [exact Hx|]. cbv zeta.
      unfold bookingInterval, storedServices, BUFFER_AFTER_JOB_MIN in *.
      simpl in Hov. exact Hov.
    + right. exists x. split; [exact Hx|exact Hov].
  - intros [(row & Hin & Hov)|(c & Hin & Hov)].
    + left. exists (bookingInterval row). split; [now apply in_map|].
      apply Z.ltb_lt. exact Hov.
    + right. exists (calendarInterval c). split; [now apply in_map|].
      apply Z.ltb_lt. exact Hov.
Qed.

Lemma validateBooking_time_taken w req date time :
  req_date req = Some date -> req_preferred_time req = Some time ->
  result (validateBooking w req) = Rejected TIME_TAKEN ->
  existsb (overlapsWith (timeStringToMinutes time)
             (timeStringToMinutes time
              + (estimateBookingDurationMinutes (toServicesArray (req_services req))
                 + BUFFER_AFTER_JOB_MIN)))
    (dayIntervals w date) = true.
Proof.
  intros Hd Ht.
  destruct (JsString.truthy (req_postcode req)) eqn:Hp.
  - rewrite (validateBooking_result w req date time Hd Ht Hp).
    destruct (existsb _ (dayIntervals w date)); [reflexivity|].
    repeat match goal with
           | |- context [if ?b then _ else _] => destruct b
           end; discriminate.
  - rewrite validateBooking_missing by (right; right; exact Hp). discriminate.
Qed.



(** *** Inverted ranges *)

Lemma bookingInterval_ordered row :
  plainServices (storedServices row) ->
  iv_start (bookingInterval row) < iv_end (bookingInterval row).
Proof.
  intro H. destruct (bookingInterval_length row) as [_ Hlen].
  pose proof (estimate_plain _ H). constants_lia.
Qed.

(** An interval whose end is not after its start takes part in no
    overlap, whatever the candidate. *)
Lemma inverted_interval_never_overlaps i s e :
  iv_end i <= iv_start i -> overlapsWith s e i = false.
Proof. intro Hinv. unfold overlapsWith. apply Z.ltb_ge. lia. Qed.

(** C7, where the code departs from it: the interval construction
    neither rejects nor clamps a range whose start is not before its
    end.  A calendar event from 16:00 on Monday to 09:00 on Tuesday is
    fetched for both days as the block from minute 960 to minute 540
    and enters the interval list as it is; such an interval overlaps no
    candidate, so the event blocks nothing: on Monday the slot 15:00
    (busy until 16:30) and on Tuesday the slot 08:30 are offered and
    accepted, and every slot of the grid is listed on both days, while
    the same event ending at 23:00 on Monday has 15:00 rejected with
    TIME_TAKEN.  In the
    same way a stored booking at 09:00 with the quantity -1 becomes the
    interval from 540 to 510, and a second booking at 09:00 is
    accepted; a row stored with the time text [9] becomes the interval
    from [NaN] to [NaN]. *)
Theorem inverted_intervals_enter_the_overlap_test :
  loadCalendarBusy overnightWorld monday = [{| cb_start := 960; cb_end := 540 |}]
  /\ loadCalendarBusy overnightWorld tuesday = [{| cb_start := 960; cb_end := 540 |}]
  /\ dayIntervals overnightWorld monday
     = [{| iv_start := 960; iv_end := 540; iv_postcode := None |}]
  /\ ~ (forall i, In i (dayIntervals overnightWorld monday) -> iv_start i < iv_end i)
  /\ result (validateBooking overnightWorld (washAt monday (HM 15 0))) = Accepted
  /\ result (validateBooking eveningWorld (washAt monday (HM 15 0)))
     = Rejected TIME_TAKEN
  /\ result (validateBooking overnightWorld (washAt tuesday (HM 8 30))) = Accepted
  /\ result (findSlots overnightWorld (washOn monday)) = AvailabilitySlots monday fullGrid
  /\ result (findSlots overnightWorld (washOn tuesday)) = AvailabilitySlots tuesday fullGrid
  /\ bookingInterval negativeQuantityRow
     = {| iv_start := 540; iv_end := 510; iv_postcode := Some "AB1" |}
  /\ result (validateBooking negativeQuantityWorld (washAt monday (HM 9 0))) = Accepted
  /\ Untyped.bookingInterval rowAtTextNine
     = Untyped.Returns {| Untyped.iv_start := Untyped.NaN;
                          Untyped.iv_end := Untyped.NaN;
                          Untyped.iv_postcode := Some "AB1" |}
  /\ (forall i s e, iv_end i <= iv_start i -> overlapsWith s e i = false).
Proof.
  split; [reflexivity|]. split; [reflexivity|]. split; [reflexivity|].
  split.
  - intro H.
    specialize (H {| iv_start := 960; iv_end := 540; iv_postcode := None |}
                  (or_introl eq_refl)).
    simpl in H. lia.
  - split; [vm_compute; reflexivity|]. split; [vm_compute; reflexivity|].
    split; [vm_compute; reflexivity|].
    split; [vm_compute; reflexivity|]. split; [vm_compute; reflexivity|].
    split; [reflexivity|]. split; [vm_compute; reflexivity|].
    split; [reflexivity|].
    exact inverted_interval_never_overlaps.
Qed.

(* ------------------------------------------------------------------ *)
(** ** Working days *)

Lemma saturday_is_weekend : isWeekend saturday.
Proof. right. reflexivity. Qed.

(** C5 as stated fails: a Saturday request without a postcode is
    rejected for the missing field, not for the day. *)
Lemma weekend_request_without_postcode :
  ~ (forall w req date,
       req_date req = Some date -> isWeekend date ->
       result (validateBooking w req) = Rejected OUTSIDE_WORKING_DAYS).
Proof.
  intro H.
  specialize (H scenarioWorld saturdayWithoutPostcode saturday eq_refl
                saturday_is_weekend).
  vm_compute in H. discriminate.
Qed.

(** C5, amended: a request for a Saturday or a Sunday that carries a
    postcode and a time is rejected with OUTSIDE_WORKING_DAYS, whatever
    the postcode, the time and the services are; without a postcode or a
    time it is rejected with MISSING_FIELDS, the check that comes
    first. *)
Theorem weekend_rejected_after_field_check :
  forall w req date,
    req_date req = Some date -> isWeekend date ->
    (JsString.truthy (req_postcode req) = true ->
     req_preferred_time req <> None ->
     result (validateBooking w req) = Rejected OUTSIDE_WORKING_DAYS)
    /\ (JsString.truthy (req_postcode req) = false \/ req_preferred_time req = None ->
        result (validateBooking w req) = Rejected MISSING_FIELDS).
Proof.
  intros w req date Hd Hweekend. split.
  - intros Hp Ht. destruct (req_preferred_time req) as [time|] eqn:Htime;
      [|congruence].
    rewrite (validateBooking_result w req date time Hd Htime Hp).
    now rewrite (isWorkingDay_weekend w date Hweekend).
  - intros [H|H]; apply validateBooking_missing; auto.
Qed.

(** A complete request for Saturday 8 June 2024. *)
Lemma weekend_rejected_after_field_check_saturday :
  result (validateBooking scenarioWorld saturdayRequest) = Rejected OUTSIDE_WORKING_DAYS.
Proof.
  apply (weekend_rejected_after_field_check scenarioWorld saturdayRequest saturday
           eq_refl saturday_is_weekend).
  - reflexivity.
  - discriminate.
Defined.

(* ------------------------------------------------------------------ *)
(** ** Normalised postcodes *)

Lemma isSpace_upperChar c : JsString.isSpace (JsString.upperChar c) = JsString.isSpace c.
Proof. destruct c as [[] [] [] [] [] [] [] []]; reflexivity. Qed.

Lemma upperChar_idem c : JsString.upperChar (JsString.upperChar c) = JsString.upperChar c.
Proof. destruct c as [[] [] [] [] [] [] [] []]; reflexivity. Qed.

Lemma removeSpaces_trimStart s :
  JsString.removeSpaces (JsString.trimStart s) = JsString.removeSpaces s.
Proof.
  induction s as [|c s IH]; simpl; [reflexivity|].
  destruct (JsString.isSpace c) eqn:Hc; [exact IH|].
  simpl. now rewrite Hc.
Qed.

Lemma removeSpaces_trimEnd s :
  JsString.removeSpaces (JsString.trimEnd s) = JsString.removeSpaces s.
Proof.
  induction s as [|c s IH]; simpl; [reflexivity|].
  destruct (JsString.trimEnd s) as [|c' s'] eqn:Hend.
  - simpl in IH. rewrite <- IH.
    destruct (JsString.isSpace c) eqn:Hc; simpl; now rewrite ?Hc.
  - change (JsString.removeSpaces (String c (String c' s')))
      with (if JsString.isSpace c then JsString.removeSpaces (String c' s')
            else String c (JsString.removeSpaces (String c' s'))).
    now rewrite IH.
Qed.

Lemma removeSpaces_trim s :
  JsString.removeSpaces (JsString.trim s) = JsString.removeSpaces s.
Proof. unfold JsString.trim. now rewrite removeSpaces_trimEnd, removeSpaces_trimStart. Qed.

Lemma removeSpaces_toUpperCase s :
  JsString.removeSpaces (JsString.toUpperCase s)
  = JsString.toUpperCase (JsString.removeSpaces s).
Proof.
  unfold JsString.toUpperCase.
  induction s as [|c s IH]; simpl; [reflexivity|].
  rewrite isSpace_upperChar.
  destruct (JsString.isSpace c); simpl; now rewrite IH.
Qed.

Lemma removeSpaces_idem s :
  JsString.removeSpaces (JsString.removeSpaces s) = JsString.removeSpaces s.
Proof.
  induction s as [|c s IH]; simpl; [reflexivity|].
  destruct (JsString.isSpace c) eqn:Hc; simpl; [exact IH|].
  now rewrite Hc, IH.
Qed.

Lemma toUpperCase_idem s :
  JsString.toUpperCase (JsString.toUpperCase s) = JsString.toUpperCase s.
Proof.
  unfold JsString.toUpperCase.
  induction s as [|c s IH]; simpl; [reflexivity|].
  now rewrite upperChar_idem, IH.
Qed.

(** The trimming is subsumed by the removal of all white space. *)
Lemma normalizePostcode_text p :
  normalizePostcode (Some p) = JsString.toUpperCase (JsString.removeSpaces p).
Proof.
  unfold normalizePostcode. destruct p as [|c p]; [reflexivity|].
  simpl JsString.isEmpty. cbv iota.
  now rewrite removeSpaces_toUpperCase, removeSpaces_trim.
Qed.

Lemma normalizePostcode_idem p :
  normalizePostcode (Some (normalizePostcode (Some p))) = normalizePostcode (Some p).
Proof.
  rewrite !normalizePostcode_text.
  now rewrite <- removeSpaces_toUpperCase, toUpperCase_idem, removeSpaces_toUpperCase,
    removeSpaces_idem.
Qed.

Lemma truthy_nonempty s : s <> "" -> JsString.truthy (Some s) = true.
Proof. destruct s; [congruence|reflexivity]. Qed.

Lemma normalizePostcode_nonempty p : normalizePostcode (Some p) <> "" -> p <> "".
Proof. intros H ->. now apply H. Qed.

(** Asked with a postcode or with its normal form, the per-day loop is
    the same computation. *)
Lemma rangeAvailability_normalized w p start_date end_date :
  normalizePostcode (Some p) <> "" ->
  rangeAvailability w {| da_postcode := Some p; da_start_date := start_date;
                         da_end_date := end_date |}
  = rangeAvailability w {| da_postcode := Some (normalizePostcode (Some p));
                           da_start_date := start_date; da_end_date := end_date |}.
Proof.
  intro Hne. unfold rangeAvailability.
  cbn [da_postcode da_start_date da_end_date].
  destruct start_date as [s|], end_date as [e|]; try reflexivity.
  rewrite normalizePostcode_idem.
  rewrite (truthy_nonempty _ Hne).
  rewrite (truthy_nonempty _ (normalizePostcode_nonempty _ Hne)).
  reflexivity.
Qed.

#[local] Arguments getTravelTimeMinutes : simpl never.
#[local] Arguments dayEntry : simpl never.
#[local] Arguments normalizePostcode : simpl never.

Lemma trimStart_removeSpaces s :
  JsString.trimStart (JsString.removeSpaces s) = JsString.removeSpaces s.
Proof.
  induction s as [|c s IH]; simpl; [reflexivity|].
  destruct (JsString.isSpace c) eqn:Hc; [exact IH|].
  simpl. now rewrite Hc.
Qed.

Lemma trimEnd_removeSpaces s :
  JsString.trimEnd (JsString.removeSpaces s) = JsString.removeSpaces s.
Proof.
  induction s as [|c s IH]; simpl; [reflexivity|].
  destruct (JsString.isSpace c) eqn:Hc; [exact IH|].
  simpl. rewrite IH. destruct (JsString.removeSpaces s); [now rewrite Hc|reflexivity].
Qed.

(** A normalised postcode is sent to the Distance Matrix service as it is. *)
Lemma trim_normalizePostcode p :
  JsString.trim (normalizePostcode (Some p)) = normalizePostcode (Some p).
Proof.
  rewrite normalizePostcode_text, <- removeSpaces_toUpperCase.
  unfold JsString.trim. now rewrite trimStart_removeSpaces, trimEnd_removeSpaces.
Qed.

Lemma getTravelTimeMinutes_requests w f toPostcode :
  Forall (fun r => fst r = JsString.trim f)
    (requests (getTravelTimeMinutes w (Some f) toPostcode)).
Proof.
  unfold getTravelTimeMinutes. destruct toPostcode as [t|]; [|constructor].
  destruct (JsString.isEmpty f || JsString.isEmpty t); [constructor|].
  rewrite requests_bind. repeat constructor.
Qed.

Lemma allFarLoop_requests w f rows :
  Forall (fun r => fst r = JsString.trim f) (requests (allFarLoop w (Some f) rows)).
Proof.
  induction rows as [|row rows IH]; simpl; [constructor|].
  rewrite requests_bind. apply Forall_app. split.
  - apply getTravelTimeMinutes_requests.
  - destruct (_ <=? TRAVEL_LIMIT_MIN); [constructor|exact IH].
Qed.

Lemma dayEntry_requests w np byDate d :
  Forall (fun r => fst r = JsString.trim np) (requests (dayEntry w np byDate d)).
Proof.
  unfold dayEntry. autorewrite with io.
  destruct (negb _); [constructor|].
  destruct (match byDateGet byDate (Clock.isoDate d) with
            | Some rows => rows | None => [] end) as [|row rows]; [constructor|].
  rewrite requests_bind, requests_ret, app_nil_r. apply allFarLoop_requests.
Qed.

Lemma dayLoop_requests w np byDate end_ fuel d :
  Forall (fun r => fst r = JsString.trim np)
    (requests (dayLoop w np byDate end_ fuel d)).
Proof.
  revert d. induction fuel as [|fuel IH]; intro d; simpl; [constructor|].
  destruct (d <=? end_); [|constructor].
  autorewrite with io. apply Forall_app. split.
  - apply dayEntry_requests.
  - apply IH.
Qed.

(** Every request [POST /api/date-availability] sends has the
    normalised postcode as its origin. *)
Lemma rangeAvailability_requests w req :
  Forall (fun r => fst r = normalizePostcode (da_postcode req))
    (requests (rangeAvailability w req)).
Proof.
  unfold rangeAvailability.
  destruct (da_start_date req) as [s|], (da_end_date req) as [e|]; try constructor.
  destruct (da_postcode req) as [p|] eqn:Hp; [|constructor].
  destruct (negb _); [constructor|].
  rewrite requests_bind, requests_ret, app_nil_r.
  destruct (Clock.localMidnight (tzOffsetMin w) s),
    (Clock.localMidnight (tzOffsetMin w) e); try constructor.
  eapply Forall_impl; [|apply dayLoop_requests].
  intros r Hr. cbv beta in Hr. rewrite Hr. apply trim_normalizePostcode.
Qed.

(** *** The postcode in the requests of the other two handlers *)

Lemma getTravelTimeMinutes_to_requests w fromPostcode t :
  Forall (fun r => snd r = JsString.trim t)
    (requests (getTravelTimeMinutes w fromPostcode (Some t))).
Proof.
  unfold getTravelTimeMinutes. destruct fromPostcode as [f|]; [|constructor].
  destruct (JsString.isEmpty f || JsString.isEmpty t); [constructor|].
  rewrite requests_bind. repeat constructor.
Qed.

Lemma travel_from_aboutPostcode w p toPostcode :
  Forall (aboutPostcode p) (requests (getTravelTimeMinutes w (Some p) toPostcode)).
Proof.
  eapply Forall_impl; [|apply getTravelTimeMinutes_requests]. intros r Hr. now left.
Qed.

Lemma travel_to_aboutPostcode w fromPostcode p :
  Forall (aboutPostcode p) (requests (getTravelTimeMinutes w fromPostcode (Some p))).
Proof.
  eapply Forall_impl; [|apply getTravelTimeMinutes_to_requests]. intros r Hr. now right.
Qed.

Lemma outOfAreaForDay_aboutPostcode w p rows :
  Forall (aboutPostcode p) (requests (outOfAreaForDay w (Some p) rows)).
Proof.
  destruct rows as [|row rows]; [constructor|]. unfold outOfAreaForDay.
  eapply Forall_impl; [|apply allFarLoop_requests]. intros r Hr. now left.
Qed.

(** One step through the requests of a computation of the handlers. *)
Ltac requests_step :=
  match goal with
  | |- Forall _ (requests (bind _ _)) => rewrite requests_bind; apply Forall_app; split
  | |- Forall _ (requests (ret _)) => constructor
  | |- Forall _ (requests (outOfAreaForDay _ _ _)) => apply outOfAreaForDay_aboutPostcode
  | |- Forall _ (requests (getTravelTimeMinutes _ (Some _) _)) => apply travel_from_aboutPostcode
  | |- Forall _ (requests (getTravelTimeMinutes _ _ (Some _))) => apply travel_to_aboutPostcode
  | |- Forall _ (requests (if ?b then _ else _)) => destruct b
  | |- Forall _ (requests (match ?x with Some _ => _ | None => _ end)) => destruct x
  end.

Lemma validateBooking_aboutPostcode w req p :
  req_postcode req = Some p ->
  Forall (aboutPostcode p) (requests (validateBooking w req)).
Proof.
  intro Hp. unfold validateBooking. rewrite Hp.
  destruct (req_date req), (req_preferred_time req); try constructor.
  repeat requests_step.
Qed.

Lemma candidateOk_aboutPostcode w p intervals rd c :
  Forall (aboutPostcode p) (requests (candidateOk w (Some p) intervals rd c)).
Proof.
  unfold candidateOk. repeat requests_step.
Qed.

Lemma slotLoop_aboutPostcode w p intervals rd fuel c :
  Forall (aboutPostcode p) (requests (slotLoop w (Some p) intervals rd fuel c)).
Proof.
  revert c. induction fuel as [|fuel IH]; intro c; cbn [slotLoop]; [constructor|].
  destruct (_ <=? WORK_END); [|constructor].
  rewrite !requests_bind, requests_ret, app_nil_r. apply Forall_app. split.
  - apply candidateOk_aboutPostcode.
  - apply IH.
Qed.

Lemma findSlots_aboutPostcode w req p :
  av_postcode req = Some p ->
  Forall (aboutPostcode p) (requests (findSlots w req)).
Proof.
  intro Hp. unfold findSlots. rewrite Hp.
  destruct (av_date req); [|constructor].
  repeat requests_step. apply slotLoop_aboutPostcode.
Qed.

(** C10 as stated fails for a postcode of blanks only: it passes the
    presence check, while its normal form, the empty text, does not. *)
Lemma blank_postcode_not_invariant :
  ~ (forall w req,
       result (rangeAvailability w req) = result (rangeAvailability w (rangeNormalized req))).
Proof.
  intro H. specialize (H scenarioWorld (mondayOnly " ")).
  vm_compute in H. discriminate.
Qed.

(** C10, amended: [POST /api/date-availability] normalises the postcode
    (trimmed, upper case, all white space removed) before every travel
    query, so for every postcode whose normal form is not empty the
    answer is the one for the normal form; [validateBooking] and the
    slot enumeration hand the postcode on as it came, and their answers
    for a postcode and for its normal form can differ. *)
Theorem range_availability_normalizes_postcode :
  (forall w p start_date end_date,
     normalizePostcode (Some p) <> "" ->
     rangeAvailability w {| da_postcode := Some p; da_start_date := start_date;
                            da_end_date := end_date |}
     = rangeAvailability w {| da_postcode := Some (normalizePostcode (Some p));
                              da_start_date := start_date; da_end_date := end_date |})
  /\ (forall p,
        normalizePostcode (Some p) = JsString.toUpperCase (JsString.removeSpaces p)
        /\ normalizePostcode (Some (normalizePostcode (Some p)))
           = normalizePostcode (Some p))
  /\ (forall w req,
        Forall (fun r => fst r = normalizePostcode (da_postcode req))
          (requests (rangeAvailability w req)))
  /\ (forall w req p,
        req_postcode req = Some p ->
        Forall (aboutPostcode p) (requests (validateBooking w req)))
  /\ (forall w req p,
        av_postcode req = Some p ->
        Forall (aboutPostcode p) (requests (findSlots w req)))
  /\ (validateBooking exactPostcodeWorld lowerCaseRequest
      = (Rejected OUT_OF_AREA_FOR_DAY, [("ab1", "AB1")])
      /\ result (validateBooking exactPostcodeWorld
                   (withNormalizedPostcode lowerCaseRequest)) = Accepted)
  /\ (findSlots exactPostcodeWorld lowerCaseAvailability
      = (AvailabilitySlots monday [], [("ab1", "AB1")])
      /\ result (findSlots exactPostcodeWorld
                   (availabilityNormalized lowerCaseAvailability))
         = AvailabilitySlots monday scenarioSlots).
Proof.
  split; [exact rangeAvailability_normalized|].
  split; [intro p; split; [apply normalizePostcode_text|apply normalizePostcode_idem]|].
  split; [exact rangeAvailability_requests|].
  split; [exact validateBooking_aboutPostcode|].
  split; [exact findSlots_aboutPostcode|].
  split; split; reflexivity.
Qed.

(** The range answer for [" ab1 "] is the one for ["AB1"]. *)
Lemma range_availability_normalizes_postcode_ab1 :
  rangeAvailability scenarioWorld (mondayOnly " ab1 ")
  = rangeAvailability scenarioWorld (mondayOnly "AB1").
Proof.
  apply (proj1 range_availability_normalizes_postcode scenarioWorld " ab1 ").
  vm_compute. discriminate.
Defined.

(* ------------------------------------------------------------------ *)
(** ** The days of a range *)

Lemma dayEntry_date w np byDate d :
  day_date (result (dayEntry w np byDate d)) = Clock.isoDate d.
Proof.
  unfold dayEntry. now autorewrite with io.
Qed.

Lemma dayEntry_not_working w np byDate d :
  isWorkingDay w (Clock.isoDate d) = false ->
  in_area (result (dayEntry w np byDate d)) = false.
Proof.
  intro H. unfold dayEntry. autorewrite with io. now rewrite H.
Qed.

Lemma isoDate_localMidnight tz n :
  Clock.isoDate (n * Clock.minutesPerDay - tz) = DateOf (n + zoneShift tz).
Proof.
  unfold Clock.isoDate, zoneShift, Clock.minutesPerDay. f_equal.
  replace (n * 1440 - tz) with (- tz + n * 1440) by lia.
  rewrite Z.div_add by lia. lia.
Qed.

Section DayLoopFacts.
Variable w : world.
Variable normPostcode : string.
Variable byDate : byDateMap.

Local Abbreviation tz := (tzOffsetMin w).
Local Abbreviation midnight n := (n * Clock.minutesPerDay - tzOffsetMin w).

(** The loop from local midnight of day [s] to local midnight of day
    [e] lists the days one by one, each under its UTC date. *)
Lemma dayLoop_dates e fuel s :
  fuel = Z.to_nat (e - s + 1) ->
  map day_date (result (dayLoop w normPostcode byDate (midnight e) fuel (midnight s)))
  = daysFrom (s + zoneShift tz) fuel.
Proof.
  revert s. induction fuel as [|fuel IH]; intros s Hfuel; [reflexivity|].
  cbn [dayLoop].
  destruct (Z.leb_spec (midnight s) (midnight e)) as [_|Hgt];
    [|unfold Clock.minutesPerDay in Hgt; lia].
  rewrite !result_bind, result_ret. cbn [map daysFrom].
  rewrite dayEntry_date, isoDate_localMidnight. f_equal.
  replace (Clock.nextDay (midnight s)) with (midnight (s + 1))
    by (unfold Clock.nextDay, Clock.minutesPerDay; lia).
  rewrite IH by lia. f_equal. lia.
Qed.

Lemma dayTurns_days e s :
  dayTurns (midnight e) (midnight s) = Z.to_nat (e - s + 1).
Proof.
  unfold dayTurns, Clock.minutesPerDay. f_equal.
  replace (e * 1440 - tz - (s * 1440 - tz)) with ((e - s) * 1440) by lia.
  now rewrite Z.div_mul by lia.
Qed.

(** The loop over the days leaves by its own test: more turns than
    [dayTurns] change nothing. *)
Lemma dayLoop_turns end_ fuel extra d :
  end_ - d < Z.of_nat fuel * Clock.minutesPerDay ->
  dayLoop w normPostcode byDate end_ (fuel + extra) d
  = dayLoop w normPostcode byDate end_ fuel d.
Proof.
  revert d. induction fuel as [|fuel IH]; intros d Hlt.
  - destruct extra as [|extra]; [reflexivity|]. cbn [Nat.add dayLoop].
    destruct (Z.leb_spec d end_); [lia|reflexivity].
  - cbn [Nat.add dayLoop]. destruct (Z.leb_spec d end_); [|reflexivity].
    rewrite IH; [reflexivity|]. unfold Clock.nextDay, Clock.minutesPerDay in *. lia.
Qed.

Lemma dayTurns_enough end_ d :
  end_ - d < Z.of_nat (dayTurns end_ d) * Clock.minutesPerDay.
Proof.
  unfold dayTurns, Clock.minutesPerDay.
  pose proof (Z.div_mod (end_ - d) 1440). pose proof (Z.mod_pos_bound (end_ - d) 1440).
  lia.
Qed.

Lemma dayLoop_not_working end_ fuel d entry :
  In entry (result (dayLoop w normPostcode byDate end_ fuel d)) ->
  isWorkingDay w (day_date entry) = false -> in_area entry = false.
Proof.
  revert d. induction fuel as [|fuel IH]; intro d; cbn [dayLoop]; [intros []|].
  destruct (d <=? end_); [|intros []].
  rewrite !result_bind, result_ret. intros [<-|Hin] Hday.
  - rewrite dayEntry_date in Hday. now apply dayEntry_not_working.
  - exact (IH _ Hin Hday).
Qed.

End DayLoopFacts.

(** The answer of [POST /api/date-availability] for two readable
    dates: one entry per day of the range, dated by the UTC date of the
    day's local midnight, and no working-day entry on a weekend date. *)
Lemma rangeAvailability_days w postcode s e :
  JsString.truthy postcode = true ->
  exists dates,
    result (rangeAvailability w {| da_postcode := postcode;
                                   da_start_date := Some (DateOf s);
                                   da_end_date := Some (DateOf e) |})
    = DateAvailabilityDates (normalizePostcode postcode) (DateOf s) (DateOf e) dates
    /\ map day_date dates
       = daysFrom (s + zoneShift (tzOffsetMin w)) (Z.to_nat (e - s + 1))
    /\ forall entry, In entry dates -> isWeekend (day_date entry) ->
                     in_area entry = false.
Proof.
  intro Hp. unfold rangeAvailability.
  cbn [da_postcode da_start_date da_end_date Clock.localMidnight].
  rewrite Hp. cbn [negb]. rewrite result_bind, result_ret.
  eexists. split; [reflexivity|]. split.
  - rewrite dayTurns_days. now apply dayLoop_dates.
  - intros entry Hin Hweekend.
    apply (dayLoop_not_working _ _ _ _ _ _ _ Hin).
    now apply isWorkingDay_weekend.
Qed.

Lemma zoneShift_west tz : - Clock.minutesPerDay < tz <= 0 -> zoneShift tz = 0.
Proof.
  unfold zoneShift, Clock.minutesPerDay. intro H. apply Z.div_small. lia.
Qed.

Lemma zoneShift_bounds tz :
  - Clock.minutesPerDay < tz < Clock.minutesPerDay -> -1 <= zoneShift tz <= 0.
Proof.
  unfold zoneShift, Clock.minutesPerDay. intro H.
  pose proof (Z.div_mod (- tz) 1440). pose proof (Z.mod_pos_bound (- tz) 1440). lia.
Qed.

Lemma daysFrom_length from count : List.length (daysFrom from count) = count.
Proof.
  revert from. induction count as [|n IH]; intro from; simpl; [reflexivity|].
  now rewrite IH.
Qed.

(** *** A zone whose offset changes *)

Lemma allFarLoop_atOffset tz w postcode rows :
  allFarLoop (atOffset tz w) postcode rows = allFarLoop w postcode rows.
Proof.
  induction rows as [|row rows IH]; [reflexivity|].
  cbn [allFarLoop]. rewrite IH. reflexivity.
Qed.

Section ZonedFacts.
Variable z : zone.
Variable w : world.
Variable tz : Z.
Variable from to : Z.
Hypothesis Hsteady : steadyBetween z tz from to.

Local Abbreviation midnight n := (n * Clock.minutesPerDay - tz).

(** Where the offset is steady, a date is a working day of the zone
    when it is one of the days from Monday to Friday. *)
Lemma zoned_isWorkingDay_steady n :
  from <= n * Clock.minutesPerDay <= to -> from <= midnight n <= to ->
  Zoned.isWorkingDay z (DateOf n) = isWorkingDay (atOffset tz w) (DateOf n).
Proof.
  intros Hlocal Hinstant.
  unfold isWorkingDay. rewrite isWorkingDay_dayOfWeek.
  unfold Zoned.isWorkingDay, Zoned.localMidnight, Zoned.utcOfLocal, Zoned.getDay,
    Zoned.localTime. cbv zeta.
  rewrite (proj2 (Hsteady _ Hlocal)), (proj1 (Hsteady _ Hinstant)).
  unfold dayOfWeek, Clock.minutesPerDay.
  replace (n * 1440 - tz + tz) with (n * 1440) by lia.
  now rewrite Z.div_mul by lia.
Qed.

(** There [setDate] moves local midnight to the next local midnight. *)
Lemma zoned_nextDay_steady n :
  from <= midnight n <= to -> from <= (n + 1) * Clock.minutesPerDay <= to ->
  Zoned.nextDay z (midnight n) = midnight (n + 1).
Proof.
  intros Hinstant Hlocal.
  unfold Zoned.nextDay, Zoned.utcOfLocal, Zoned.localTime.
  rewrite (proj1 (Hsteady _ Hinstant)).
  replace (n * Clock.minutesPerDay - tz + tz + Clock.minutesPerDay)
    with ((n + 1) * Clock.minutesPerDay) by lia.
  now rewrite (proj2 (Hsteady _ Hlocal)).
Qed.

End ZonedFacts.

(** While the offset of the zone stays at [tz], the loop over the days
    is the loop of a server with that fixed offset. *)
Lemma zoned_dayLoop_steady z w tz np byDate s e :
  - Clock.minutesPerDay < tz < Clock.minutesPerDay ->
  steadyBetween z tz ((s - 2) * Clock.minutesPerDay) ((e + 2) * Clock.minutesPerDay) ->
  forall fuel k,
    s <= k ->
    Zoned.dayLoop z w np byDate (e * Clock.minutesPerDay - tz) fuel
      (k * Clock.minutesPerDay - tz)
    = dayLoop (atOffset tz w) np byDate (e * Clock.minutesPerDay - tz) fuel
        (k * Clock.minutesPerDay - tz).
Proof.
  intros Htz Hsteady.
  induction fuel as [|fuel IH]; intros k Hk; [reflexivity|].
  cbn [Zoned.dayLoop dayLoop].
  destruct (Z.leb_spec (k * Clock.minutesPerDay - tz) (e * Clock.minutesPerDay - tz))
    as [Hle|_]; [|reflexivity].
  assert (Hke : k <= e) by (unfold Clock.minutesPerDay in Hle; lia).
  pose proof (zoneShift_bounds tz Htz) as Hshift.
  assert (Hentry : Zoned.dayEntry z w np byDate (k * Clock.minutesPerDay - tz)
                   = dayEntry (atOffset tz w) np byDate (k * Clock.minutesPerDay - tz)).
  { unfold Zoned.dayEntry, dayEntry. rewrite isoDate_localMidnight.
    rewrite (zoned_isWorkingDay_steady z w tz _ _ Hsteady)
      by (unfold Clock.minutesPerDay in *; lia).
    destruct (negb _); [reflexivity|].
    destruct (byDateGet byDate _) as [[|row rows]|]; reflexivity. }
  rewrite Hentry.
  rewrite (zoned_nextDay_steady z tz _ _ Hsteady)
    by (unfold Clock.minutesPerDay in *; lia).
  replace (Clock.nextDay (k * Clock.minutesPerDay - tz))
    with ((k + 1) * Clock.minutesPerDay - tz)
    by (unfold Clock.nextDay, Clock.minutesPerDay; lia).
  rewrite IH by lia. reflexivity.
Qed.

(** So for a range over which the offset does not change, the handler
    answers as on a server with that fixed offset. *)
Lemma zoned_rangeAvailability_steady z w tz postcode s e :
  - Clock.minutesPerDay < tz < Clock.minutesPerDay ->
  steadyBetween z tz ((s - 2) * Clock.minutesPerDay) ((e + 2) * Clock.minutesPerDay) ->
  s <= e ->
  Zoned.rangeAvailability z w {| da_postcode := postcode;
                                 da_start_date := Some (DateOf s);
                                 da_end_date := Some (DateOf e) |}
  = rangeAvailability (atOffset tz w) {| da_postcode := postcode;
                                         da_start_date := Some (DateOf s);
                                         da_end_date := Some (DateOf e) |}.
Proof.
  intros Htz Hsteady Hle.
  unfold Zoned.rangeAvailability, rangeAvailability.
  cbn [da_postcode da_start_date da_end_date Zoned.localMidnight Clock.localMidnight
       atOffset tzOffsetMin bookingsBetween].
  destruct (negb (JsString.truthy postcode)); [reflexivity|].
  unfold Zoned.utcOfLocal.
  rewrite (proj2 (Hsteady (s * Clock.minutesPerDay)
                    ltac:(unfold Clock.minutesPerDay; lia))).
  rewrite (proj2 (Hsteady (e * Clock.minutesPerDay)
                    ltac:(unfold Clock.minutesPerDay; lia))).
  rewrite (zoned_dayLoop_steady z w tz _ _ s e Htz Hsteady) by lia.
  pose proof (dayLoop_turns (atOffset tz w) (normalizePostcode postcode)
                (groupByDate (bookingsBetween w (DateOf s) (DateOf e)))
                (e * Clock.minutesPerDay - tz)
                (dayTurns (e * Clock.minutesPerDay - tz) (s * Clock.minutesPerDay - tz))
                (Z.to_nat (e * Clock.minutesPerDay - tz - (s * Clock.minutesPerDay - tz) + 1)
                 - dayTurns (e * Clock.minutesPerDay - tz) (s * Clock.minutesPerDay - tz))
                (s * Clock.minutesPerDay - tz)
                (dayTurns_enough _ _)) as Hturns.
  replace (dayTurns (e * Clock.minutesPerDay - tz) (s * Clock.minutesPerDay - tz)
           + (Z.to_nat (e * Clock.minutesPerDay - tz - (s * Clock.minutesPerDay - tz) + 1)
              - dayTurns (e * Clock.minutesPerDay - tz) (s * Clock.minutesPerDay - tz)))%nat
    with (Z.to_nat (e * Clock.minutesPerDay - tz - (s * Clock.minutesPerDay - tz) + 1))
    in Hturns.
  - rewrite Hturns. reflexivity.
  - assert (dayTurns (e * Clock.minutesPerDay - tz) (s * Clock.minutesPerDay - tz)
            <= Z.to_nat (e * Clock.minutesPerDay - tz - (s * Clock.minutesPerDay - tz) + 1))%nat;
      [|lia].
    unfold dayTurns, Clock.minutesPerDay.
    replace (e * 1440 - tz - (s * 1440 - tz)) with ((e - s) * 1440) by lia.
    rewrite Z.div_mul by lia. lia.
Qed.

(** With a fixed offset the loop is the one embedded first. *)
Lemma zoned_fixed_agrees w req :
  Zoned.rangeAvailability (fixedZone (tzOffsetMin w)) w req = rangeAvailability w req.
Proof.
  unfold Zoned.rangeAvailability, rangeAvailability.
  destruct (da_start_date req) as [[s|]|], (da_end_date req) as [[e|]|]; try reflexivity.
  destruct (negb (JsString.truthy (da_postcode req))); [reflexivity|].
  cbn [Zoned.localMidnight Clock.localMidnight].
  change (Zoned.utcOfLocal (fixedZone (tzOffsetMin w)) (s * Clock.minutesPerDay))
    with (s * Clock.minutesPerDay - tzOffsetMin w).
  change (Zoned.utcOfLocal (fixedZone (tzOffsetMin w)) (e * Clock.minutesPerDay))
    with (e * Clock.minutesPerDay - tzOffsetMin w).
  set (np := normalizePostcode (da_postcode req)).
  set (byDate := groupByDate (bookingsBetween w (DateOf s) (DateOf e))).
  set (start := s * Clock.minutesPerDay - tzOffsetMin w).
  set (end_ := e * Clock.minutesPerDay - tzOffsetMin w).
  assert (Hloop : forall fuel d,
            Zoned.dayLoop (fixedZone (tzOffsetMin w)) w np byDate end_ fuel d
            = dayLoop w np byDate end_ fuel d).
  { induction fuel as [|fuel IH]; intro d; [reflexivity|].
    cbn [Zoned.dayLoop dayLoop]. destruct (d <=? end_); [|reflexivity].
    replace (Zoned.nextDay (fixedZone (tzOffsetMin w)) d) with (Clock.nextDay d)
      by (unfold Zoned.nextDay, Zoned.utcOfLocal, Zoned.localTime, Clock.nextDay;
          cbn [fixedZone offsetAt offsetOfLocal]; lia).
    rewrite IH. reflexivity. }
  rewrite Hloop.
  assert (Hfuel : (dayTurns end_ start <= Z.to_nat (end_ - start + 1))%nat).
  { unfold dayTurns, Clock.minutesPerDay.
    destruct (Z.le_gt_cases start end_) as [Hle|Hgt].
    - assert ((end_ - start) / 1440 <= end_ - start)
        by (apply Z.div_le_upper_bound; lia).
      lia.
    - assert ((end_ - start) / 1440 < 0) by (apply Z.div_lt_upper_bound; lia).
      lia. }
  pose proof (dayLoop_turns w np byDate end_ (dayTurns end_ start)
                (Z.to_nat (end_ - start + 1) - dayTurns end_ start) start
                (dayTurns_enough _ _)) as Hturns.
  replace (dayTurns end_ start + (Z.to_nat (end_ - start + 1) - dayTurns end_ start))%nat
    with (Z.to_nat (end_ - start + 1)) in Hturns by lia.
  rewrite Hturns. reflexivity.
Qed.

(** X1: on a server whose zone is on UTC, or west of it by less than a
    day, with an offset that does not change over the range (from two
    days before its start to two days after its end), the entries are
    the days of the range, both ends included, in order, and every
    Saturday and Sunday among them is out of area. *)
Theorem rangeAvailability_days_utc z w tz postcode s e :
  - Clock.minutesPerDay < tz <= 0 ->
  steadyBetween z tz ((s - 2) * Clock.minutesPerDay) ((e + 2) * Clock.minutesPerDay) ->
  JsString.truthy postcode = true ->
  s <= e ->
  exists dates,
    result (Zoned.rangeAvailability z w {| da_postcode := postcode;
                                           da_start_date := Some (DateOf s);
                                           da_end_date := Some (DateOf e) |})
    = DateAvailabilityDates (normalizePostcode postcode) (DateOf s) (DateOf e) dates
    /\ map day_date dates = daysFrom s (Z.to_nat (e - s + 1))
    /\ List.length dates = Z.to_nat (e - s + 1)
    /\ forall entry, In entry dates -> isWeekend (day_date entry) ->
                     in_area entry = false.
Proof.
  intros Hzone Hsteady Hp Hle.
  rewrite (zoned_rangeAvailability_steady z w tz postcode s e) by (assumption || lia).
  destruct (rangeAvailability_days (atOffset tz w) postcode s e Hp)
    as (dates & Hres & Hdates & Hwe).
  cbn [atOffset tzOffsetMin] in Hdates.
  rewrite (zoneShift_west _ Hzone), Z.add_0_r in Hdates.
  exists dates. repeat split; try assumption.
  now rewrite <- (length_map day_date), Hdates, daysFrom_length.
Qed.

(** London in February 2024, when its offset is 0: the range from
    Monday 5 to Tuesday 6 February is listed as these two days. *)
Lemma rangeAvailability_days_utc_february :
  exists dates,
    result (Zoned.rangeAvailability londonSpring2024 emptyWorld
              {| da_postcode := Some "AB1";
                 da_start_date := Some (DateOf (daysFromCivil 2024 2 5));
                 da_end_date := Some (DateOf (daysFromCivil 2024 2 6)) |})
    = DateAvailabilityDates "AB1" (DateOf (daysFromCivil 2024 2 5))
        (DateOf (daysFromCivil 2024 2 6)) dates
    /\ map day_date dates = daysFrom (daysFromCivil 2024 2 5) 2
    /\ List.length dates = 2%nat
    /\ forall entry, In entry dates -> isWeekend (day_date entry) ->
                     in_area entry = false.
Proof.
  apply (rangeAvailability_days_utc londonSpring2024 emptyWorld 0 (Some "AB1")
           (daysFromCivil 2024 2 5) (daysFromCivil 2024 2 6)).
  - vm_compute. split; [reflexivity|discriminate].
  - intros x Hx. unfold londonSpring2024, londonSpringChange. cbn [offsetAt offsetOfLocal].
    change (daysFromCivil 2024 2 5) with 19758 in Hx.
    change (daysFromCivil 2024 2 6) with 19759 in Hx.
    change (daysFromCivil 2024 3 31) with 19813.
    unfold Clock.minutesPerDay in Hx.
    destruct (Z.ltb_spec x (19813 * 1440 + 60)); [|lia].
    destruct (Z.ltb_spec x (19813 * 1440 + 60 + 60)); [|lia].
    split; reflexivity.
  - reflexivity.
  - vm_compute. discriminate.
Defined.

(** C9 at a server one hour east of UTC: asked for Monday 10 June 2024
    alone, the answer holds one entry, dated Sunday 9 June and out of
    area, and none for the Monday. *)
Theorem range_dates_one_day_early_east_of_utc :
  monday = DateOf 19884 /\ dayString 19884 = "2024-06-10"
  /\ sunday = DateOf 19883 /\ dayString 19883 = "2024-06-09"
  /\ dayOfWeek 19884 = 1 /\ dayOfWeek 19883 = 0
  /\ tzOffsetMin summerTimeWorld = 60
  /\ result (rangeAvailability summerTimeWorld (mondayOnly "AB1"))
     = DateAvailabilityDates "AB1" monday monday
         [{| day_date := sunday; in_area := false |}]
  /\ result (rangeAvailability scenarioWorld (mondayOnly "AB1"))
     = DateAvailabilityDates "AB1" monday monday
         [{| day_date := monday; in_area := true |}].
Proof. repeat split; reflexivity. Qed.

(* ------------------------------------------------------------------ *)
(** ** Further properties of the handlers *)



(** X4: what [POST /api/date-availability] lists on a server in a zone
    whose offset from UTC does not change over the range (from two days
    before its start to two days after its end), whatever that offset:
    one entry per day of the range, dated by the UTC date of the day's
    local midnight, that is [zoneShift] days off the local date.  With a
    fixed offset the loop is the one of [rangeAvailability].  Across a
    change of the offset the list is another: in London, for 29 March to
    2 April 2024, 31 March is listed twice and 2 April is left out. *)
Theorem range_dates_shifted_by_zone :
  (forall z w tz p s e,
     - Clock.minutesPerDay < tz < Clock.minutesPerDay ->
     steadyBetween z tz ((s - 2) * Clock.minutesPerDay) ((e + 2) * Clock.minutesPerDay) ->
     p <> "" ->
     s <= e ->
     exists dates,
       result (Zoned.rangeAvailability z w {| da_postcode := Some p;
                                              da_start_date := Some (DateOf s);
                                              da_end_date := Some (DateOf e) |})
       = DateAvailabilityDates (normalizePostcode (Some p)) (DateOf s) (DateOf e) dates
       /\ map day_date dates = daysFrom (s + zoneShift tz) (Z.to_nat (e - s + 1))
       /\ forall entry, In entry dates -> isWeekend (day_date entry) ->
                        in_area entry = false)
  /\ (forall w req,
        Zoned.rangeAvailability (fixedZone (tzOffsetMin w)) w req
        = rangeAvailability w req)
  /\ result (Zoned.rangeAvailability londonSpring2024 emptyWorld overSpringChange)
     = DateAvailabilityDates "AB1" (ymd 2024 3 29) (ymd 2024 4 2)
         [ {| day_date := ymd 2024 3 29; in_area := true |};
           {| day_date := ymd 2024 3 30; in_area := false |};
           {| day_date := ymd 2024 3 31; in_area := false |};
           {| day_date := ymd 2024 3 31; in_area := false |};
           {| day_date := ymd 2024 4 1; in_area := true |} ].
Proof.
  split; [|split].
  - intros z w tz p s e Htz Hsteady Hp Hle.
    rewrite (zoned_rangeAvailability_steady z w tz (Some p) s e Htz Hsteady Hle).
    apply (rangeAvailability_days (atOffset tz w)). now apply truthy_nonempty.
  - exact zoned_fixed_agrees.
  - vm_compute. reflexivity.
Qed.

(** London in June 2024, one hour ahead of UTC: Monday 10 and Tuesday
    11 June are listed as Sunday 9 and Monday 10 June. *)
Lemma range_dates_shifted_by_zone_summer :
  exists dates,
    result (Zoned.rangeAvailability londonSpring2024 emptyWorld
              {| da_postcode := Some "AB1";
                 da_start_date := Some (DateOf (daysFromCivil 2024 6 10));
                 da_end_date := Some (DateOf (daysFromCivil 2024 6 11)) |})
    = DateAvailabilityDates (normalizePostcode (Some "AB1"))
        (DateOf (daysFromCivil 2024 6 10)) (DateOf (daysFromCivil 2024 6 11)) dates
    /\ map day_date dates
       = daysFrom (daysFromCivil 2024 6 10 + zoneShift 60) (Z.to_nat (19885 - 19884 + 1))
    /\ forall entry, In entry dates -> isWeekend (day_date entry) ->
                     in_area entry = false.
Proof.
  apply (proj1 range_dates_shifted_by_zone londonSpring2024 emptyWorld 60 "AB1"
           (daysFromCivil 2024 6 10) (daysFromCivil 2024 6 11)).
  - vm_compute. split; reflexivity.
  - intros x Hx. unfold londonSpring2024, londonSpringChange. cbn [offsetAt offsetOfLocal].
    change (daysFromCivil 2024 6 10) with 19884 in Hx.
    change (daysFromCivil 2024 6 11) with 19885 in Hx.
    change (daysFromCivil 2024 3 31) with 19813.
    unfold Clock.minutesPerDay in Hx.
    destruct (Z.ltb_spec x (19813 * 1440 + 60)); [lia|].
    destruct (Z.ltb_spec x (19813 * 1440 + 60 + 60)); [lia|].
    split; reflexivity.
  - discriminate.
  - vm_compute. discriminate.
Defined.

(* ------------------------------------------------------------------ *)
(** ** What an accepted request satisfies *)

Lemma getTravelTimeMinutes_one_request w fromPostcode toPostcode :
  (List.length (requests (getTravelTimeMinutes w fromPostcode toPostcode)) <= 1)%nat.
Proof.
  unfold getTravelTimeMinutes.
  destruct fromPostcode as [f|], toPostcode as [t|]; simpl; try lia.
  destruct (JsString.isEmpty f || JsString.isEmpty t); simpl; lia.
Qed.

Lemma allFarLoop_request_count w postcode rows :
  (List.length (requests (allFarLoop w postcode rows)) <= List.length rows)%nat.
Proof.
  induction rows as [|row rows IH]; cbn [allFarLoop]; [simpl; lia|].
  rewrite requests_bind, length_app.
  pose proof (getTravelTimeMinutes_one_request w postcode (Some (row_postcode row))).
  destruct (_ <=? TRAVEL_LIMIT_MIN); simpl List.length in *; lia.
Qed.

Lemma outOfAreaForDay_request_count w postcode rows :
  (List.length (requests (outOfAreaForDay w postcode rows)) <= List.length rows)%nat.
Proof.
  destruct rows as [|row rows]; [simpl; lia|apply allFarLoop_request_count].
Qed.

Lemma validateBooking_accepted_spec :
  forall w req,
    result (validateBooking w req) = Accepted
    <-> exists date time,
          req_date req = Some date /\ req_preferred_time req = Some time
          /\ JsString.truthy (req_postcode req) = true
          /\ isWorkingDay w date = true
          /\ let s := timeStringToMinutes time in
             let e := s + (estimateBookingDurationMinutes
                             (toServicesArray (req_services req))
                           + BUFFER_AFTER_JOB_MIN) in
             WORK_START <= s /\ e <= WORK_END
             /\ result (outOfAreaForDay w (req_postcode req) (bookingsForDate w date))
                = false
             /\ ~ occupied (bookingsForDate w date) (loadCalendarBusy w date) s e
             /\ prevTooFar w (req_postcode req) (dayIntervals w date) s = false
             /\ nextTooFar w (req_postcode req) (dayIntervals w date) e = false.
Proof.
  intros w req. split.
  - intro Hacc.
    destruct (req_date req) as [date|] eqn:Hd;
      [|rewrite validateBooking_missing in Hacc by auto; discriminate].
    destruct (req_preferred_time req) as [time|] eqn:Ht;
      [|rewrite validateBooking_missing in Hacc by auto; discriminate].
    destruct (JsString.truthy (req_postcode req)) eqn:Hp;
      [|rewrite validateBooking_missing in Hacc by auto; discriminate].
    rewrite (validateBooking_result w req date time Hd Ht Hp) in Hacc.
    exists date, time. cbv zeta.
    destruct (isWorkingDay w date); [|discriminate]. simpl in Hacc.
    destruct (Z.ltb_spec (timeStringToMinutes time) WORK_START); [discriminate|].
    simpl in Hacc. rewrite Z.gtb_ltb in Hacc.
    destruct (Z.ltb_spec WORK_END
                (timeStringToMinutes time
                 + (estimateBookingDurationMinutes (toServicesArray (req_services req))
                    + BUFFER_AFTER_JOB_MIN))); [discriminate|].
    destruct (result (outOfAreaForDay w (req_postcode req) (bookingsForDate w date)));
      [discriminate|].
    destruct (existsb _ (dayIntervals w date)) eqn:Hov; [discriminate|].
    destruct (prevTooFar _ _ _ _); [discriminate|].
    destruct (nextTooFar _ _ _ _); [discriminate|].
    repeat split; try assumption; try reflexivity.
    intro Hocc. apply overlap_test_occupied in Hocc.
    unfold dayIntervals in Hov. congruence.
  - intros (date & time & Hd & Ht & Hp & Hwork & Hs & He & Hgate & Hfree & Hprev & Hnext).
    rewrite (validateBooking_result w req date time Hd Ht Hp).
    rewrite Hwork, Hgate, Hprev, Hnext. simpl negb. cbv iota.
    replace (_ <? WORK_START) with false by (symmetry; apply Z.ltb_ge; assumption).
    replace (_ >? WORK_END) with false
      by (symmetry; rewrite Z.gtb_ltb; apply Z.ltb_ge; assumption).
    simpl orb. cbv iota.
    destruct (existsb _ (dayIntervals w date)) eqn:Hov; [|reflexivity].
    exfalso. apply Hfree. apply overlap_test_occupied. exact Hov.
Qed.

(** *** How many requests a validation sends *)

Lemma bind_request_count {A B} (m : Io A) (k : A -> Io B) a b :
  (List.length (requests m) <= a)%nat ->
  (forall x, (List.length (requests (k x)) <= b)%nat) ->
  (List.length (requests (bind m k)) <= a + b)%nat.
Proof.
  intros Hm Hk. rewrite requests_bind, length_app.
  specialize (Hk (result m)). lia.
Qed.

Lemma neighbour_check_one_request (neighbour : option interval)
      (query : interval -> Io Z) :
  (forall n, (List.length (requests (query n)) <= 1)%nat) ->
  (List.length
     (requests (match neighbour with
                | Some n => mins <- query n ;; ret (mins >? TRAVEL_LIMIT_MIN)
                | None => ret false
                end)) <= 1)%nat.
Proof.
  intro Hq. destruct neighbour as [n|]; [|simpl; lia].
  rewrite requests_bind, length_app. specialize (Hq n). simpl. lia.
Qed.

Lemma validateBooking_request_count w req :
  (List.length (requests (validateBooking w req))
   <= match req_date req with
      | Some date => List.length (bookingsForDate w date) + 2
      | None => 0
      end)%nat.
Proof.
  unfold validateBooking.
  destruct (req_date req) as [date|]; [|simpl; lia].
  destruct (req_preferred_time req) as [time|]; [|simpl; lia].
  destruct (negb _); [simpl; lia|].
  destruct (negb _); [simpl; lia|].
  destruct (_ || _); [simpl; lia|].
  apply bind_request_count; [apply outOfAreaForDay_request_count|].
  intros [|]; [simpl; lia|].
  destruct (existsb _ _); [simpl; lia|].
  apply (bind_request_count _ _ 1 1).
  - apply (neighbour_check_one_request _
             (fun p => getTravelTimeMinutes w (iv_postcode p) (req_postcode req))).
    intro n. apply getTravelTimeMinutes_one_request.
  - intros [|]; [simpl; lia|].
    replace 1%nat with (1 + 0)%nat by lia.
    apply bind_request_count.
    + apply (neighbour_check_one_request _
               (fun n => getTravelTimeMinutes w (req_postcode req) (iv_postcode n))).
      intro n. apply getTravelTimeMinutes_one_request.
    + intros [|]; simpl; lia.
Qed.

Lemma validateBooking_cheap_checks_first w req :
  match result (validateBooking w req) with
  | Rejected MISSING_FIELDS
  | Rejected OUTSIDE_WORKING_DAYS
  | Rejected OUTSIDE_WORKING_HOURS => requests (validateBooking w req) = []
  | _ => True
  end.
Proof.
  unfold validateBooking.
  destruct (req_date req) as [date|]; [|reflexivity].
  destruct (req_preferred_time req) as [time|]; [|reflexivity].
  destruct (negb _); [reflexivity|].
  destruct (negb _); [reflexivity|].
  destruct (_ || _); [reflexivity|].
  rewrite result_bind.
  destruct (result (outOfAreaForDay w (req_postcode req) (bookingsForDate w date)));
    [exact I|].
  destruct (existsb _ _); [exact I|].
  rewrite result_bind.
  match goal with
  | |- context [result ?m] =>
      match type of m with Io bool => destruct (result m) end
  end; [exact I|].
  rewrite result_bind.
  match goal with
  | |- context [result ?m] =>
      match type of m with Io bool => destruct (result m) end
  end; exact I.
Qed.

(** X6: a request that fails the presence check, the working-day
    check or the working-hours check is rejected before any travel time
    is asked for; in any case one validation sends at most one request
    per booking of the day (the area gate) and two more (the previous
    and the next booking). *)
Theorem validateBooking_travel_requests :
  forall w req,
    (forall e,
       result (validateBooking w req) = Rejected e ->
       e = MISSING_FIELDS \/ e = OUTSIDE_WORKING_DAYS \/ e = OUTSIDE_WORKING_HOURS ->
       requests (validateBooking w req) = [])
    /\ (List.length (requests (validateBooking w req))
        <= match req_date req with
           | Some date => List.length (bookingsForDate w date) + 2
           | None => 0
           end)%nat.
Proof.
  intros w req. split; [|apply validateBooking_request_count].
  intros e Hres He. pose proof (validateBooking_cheap_checks_first w req) as H.
  rewrite Hres in H. destruct He as [->|[->| ->]]; exact H.
Qed.

(** *** No double booking *)

Lemma overlapping_booking_occupies rows blocks row s e :
  In row rows ->
  iv_start (bookingInterval row) < iv_end (bookingInterval row) ->
  s < e -> s < iv_end (bookingInterval row) -> iv_start (bookingInterval row) < e ->
  occupied rows blocks s e.
Proof.
  intros Hin Hrow Hreq Hs He. left. exists row. split; [exact Hin|].
  cbv zeta. unfold bookingInterval, storedServices, BUFFER_AFTER_JOB_MIN in *.
  simpl in *. lia.
Qed.

(** X7: a request whose interval (duration plus buffer) meets the
    interval of a booking stored for that day (its duration plus
    buffer) is never accepted by [validateBooking], and its start is
    never among the slots of [POST /api/availability]; in particular
    the start time of a stored booking is never given out again. *)
Theorem no_double_booking :
  forall w date row postcode services time,
    In row (bookingsForDate w date) ->
    let s := timeStringToMinutes time in
    let e := s + (estimateBookingDurationMinutes (toServicesArray services)
                  + BUFFER_AFTER_JOB_MIN) in
    iv_start (bookingInterval row) < iv_end (bookingInterval row) ->
    s < e -> s < iv_end (bookingInterval row) -> iv_start (bookingInterval row) < e ->
    result (validateBooking w {| req_date := Some date; req_postcode := postcode;
                                 req_services := services;
                                 req_preferred_time := Some time |})
    <> Accepted
    /\ forall d slots,
         result (findSlots w {| av_date := Some date; av_postcode := postcode;
                                av_services := services |})
         = AvailabilitySlots d slots ->
         ~ In (minutesToTimeString s) slots.
Proof.
  intros w date row postcode services time Hin s e Hrow Hreq Hs He.
  pose proof (overlapping_booking_occupies _ (loadCalendarBusy w date) _ _ _
                Hin Hrow Hreq Hs He) as Hocc.
  split.
  - intro Hacc. apply validateBooking_accepted_spec in Hacc.
    destruct Hacc as (date' & time' & Hd & Ht & _ & _ & _ & _ & _ & Hfree & _).
    cbn [req_date req_preferred_time req_services] in *.
    injection Hd as <-. injection Ht as <-. exact (Hfree Hocc).
  - intros d slots Hres Hslot.
    destruct (findSlots_slot_inv _ _ _ _ _ Hres Hslot)
      as (Hd & _ & _ & _ & c & _ & _ & Hok & Heq).
    cbn [av_date av_postcode av_services] in Hd, Hok. injection Hd as <-.
    apply minutesToTimeString_inj in Heq. subst c.
    rewrite candidateOk_result in Hok. fold e in Hok.
    apply overlap_test_occupied in Hocc. unfold dayIntervals in Hok.
    rewrite Hocc in Hok. discriminate.
Qed.

(** In the scenario, 09:00, the time of the stored booking, is neither
    accepted nor offered. *)
Lemma no_double_booking_at_nine :
  result (validateBooking scenarioWorld
            {| req_date := Some monday; req_postcode := Some "AB1";
               req_services := ServiceArray [basicWash];
               req_preferred_time := Some (HM 9 0) |})
  <> Accepted
  /\ forall d slots,
       result (findSlots scenarioWorld scenarioRequest) = AvailabilitySlots d slots ->
       ~ In "09:00" slots.
Proof.
  apply (no_double_booking scenarioWorld monday bookingAtNine (Some "AB1")
           (ServiceArray [basicWash]) (HM 9 0)).
  - left. reflexivity.
  - vm_compute. reflexivity.
  - vm_compute. reflexivity.
  - vm_compute. reflexivity.
  - vm_compute. reflexivity.
Defined.
(* ------------------------------------------------------------------ *)
(** ** The handlers on the values of a JSON body

    On requests and rows whose texts hold numerals, the handlers of
    [Untyped] return, and return what the typed handlers return. *)

Lemma bind_returning {A B} (m : Io A) (k : A -> Io B)
      (k' : A -> Io (Untyped.completion B)) :
  (forall a, k' a = Lift.returning (k a)) ->
  bind m k' = Lift.returning (bind m k).
Proof.
  intro H. unfold bind, Lift.returning. destruct m as [a sent].
  rewrite H. unfold Lift.returning. destruct (k a). reflexivity.
Qed.

Lemma returning_bind_ret {A} (m : Io A) :
  bind m (fun a => ret (Untyped.Returns a)) = Lift.returning m.
Proof.
  unfold bind, Lift.returning, ret. destruct m as [a sent]. simpl.
  now rewrite app_nil_r.
Qed.

Lemma filter_of_map {A B} (f : B -> bool) (g : A -> B) l :
  filter f (map g l) = map g (filter (fun a => f (g a)) l).
Proof.
  induction l as [|a l IH]; simpl; [reflexivity|].
  destruct (f (g a)); simpl; now rewrite IH.
Qed.

Lemma insertBy_of_map {A B} (g : A -> B) (cmp : A -> A -> Z) (cmp' : B -> B -> Z) x l :
  (forall a b, cmp' (g a) (g b) = cmp a b) ->
  insertBy cmp' (g x) (map g l) = map g (insertBy cmp x l).
Proof.
  intro H. induction l as [|y l IH]; simpl; [reflexivity|].
  rewrite H. destruct (cmp x y <=? 0); simpl; [reflexivity|now rewrite IH].
Qed.

Lemma sortBy_of_map {A B} (g : A -> B) (cmp : A -> A -> Z) (cmp' : B -> B -> Z) l :
  (forall a b, cmp' (g a) (g b) = cmp a b) ->
  sortBy cmp' (map g l) = map g (sortBy cmp l).
Proof.
  intro H. induction l as [|x l IH]; simpl; [reflexivity|].
  rewrite IH. now apply insertBy_of_map.
Qed.

Lemma hd_error_of_map {A B} (g : A -> B) l :
  hd_error (map g l) = option_map g (hd_error l).
Proof. now destruct l. Qed.

Lemma untyped_time_typed t :
  Untyped.timeStringToMinutes (Lift.ofTime t) = Untyped.Num (timeStringToMinutes t).
Proof. reflexivity. Qed.

Lemma untyped_toServicesArray_typed v :
  Untyped.toServicesArray (Lift.ofServices v) = Lift.ofServices (toServicesArray v).
Proof. now destruct v. Qed.

Lemma untyped_bookingInterval_typed row :
  Untyped.bookingInterval (Lift.ofRow row)
  = Untyped.Returns (Lift.ofInterval (bookingInterval row)).
Proof.
  unfold Untyped.bookingInterval, bookingInterval, Lift.ofRow.
  cbn [Untyped.row_services Untyped.row_preferred_time Untyped.row_postcode].
  replace (match option_map Lift.ofServices (row_services row) with
           | Some v => v
           | None => Untyped.ArrayOf []
           end)
    with (Lift.ofServices (match row_services row with
                           | Some v => v
                           | None => ServiceArray []
                           end))
    by (now destruct (row_services row)).
  rewrite untyped_estimate_typed, untyped_time_typed. reflexivity.
Qed.

Lemma untyped_bookingIntervals_typed rows :
  Untyped.bookingIntervals (map Lift.ofRow rows)
  = Untyped.Returns (map Lift.ofInterval (map bookingInterval rows)).
Proof.
  induction rows as [|row rows IH]; cbn [map Untyped.bookingIntervals]; [reflexivity|].
  now rewrite untyped_bookingInterval_typed, IH.
Qed.

Lemma untyped_buildIntervals_typed rows blocks :
  Untyped.buildIntervals (map Lift.ofRow rows) blocks
  = Untyped.Returns (map Lift.ofInterval (buildIntervals rows blocks)).
Proof.
  unfold Untyped.buildIntervals, buildIntervals.
  rewrite untyped_bookingIntervals_typed, map_app, (map_map calendarInterval).
  reflexivity.
Qed.

Lemma untyped_overlaps_typed s e l :
  existsb (Untyped.overlapsWith (Untyped.Num s) (Untyped.Num e)) (map Lift.ofInterval l)
  = existsb (overlapsWith s e) l.
Proof.
  induction l as [|i l IH]; simpl; [reflexivity|]. now rewrite IH.
Qed.

Lemma untyped_hasPostcode_typed l :
  filter Untyped.hasPostcode (map Lift.ofInterval l)
  = map Lift.ofInterval (filter hasPostcode l).
Proof. rewrite filter_of_map. reflexivity. Qed.

Lemma untyped_prevOf_typed l s :
  Untyped.prevOf (map Lift.ofInterval l) (Untyped.Num s)
  = option_map Lift.ofInterval (prevOf l s).
Proof.
  unfold Untyped.prevOf, prevOf.
  rewrite filter_of_map,
    (sortBy_of_map Lift.ofInterval (fun a b => iv_end b - iv_end a)) by reflexivity.
  apply hd_error_of_map.
Qed.

Lemma untyped_nextOf_typed l e :
  Untyped.nextOf (map Lift.ofInterval l) (Untyped.Num e)
  = option_map Lift.ofInterval (nextOf l e).
Proof.
  unfold Untyped.nextOf, nextOf.
  rewrite filter_of_map,
    (sortBy_of_map Lift.ofInterval (fun a b => iv_start a - iv_start b)) by reflexivity.
  rewrite hd_error_of_map. do 3 f_equal. apply filter_ext. intro i.
  unfold Untyped.geb, Untyped.leb. cbn. symmetry. apply Z.geb_leb.
Qed.

Lemma untyped_allFarLoop_typed w postcode rows :
  Untyped.allFarLoop w postcode (map Lift.ofRow rows) = allFarLoop w postcode rows.
Proof.
  induction rows as [|row rows IH]; cbn [map Untyped.allFarLoop allFarLoop];
    [reflexivity|].
  now rewrite IH.
Qed.

Lemma untyped_outOfAreaForDay_typed w postcode rows :
  Untyped.outOfAreaForDay w postcode (map Lift.ofRow rows)
  = outOfAreaForDay w postcode rows.
Proof.
  destruct rows as [|row rows]; [reflexivity|].
  exact (untyped_allFarLoop_typed w postcode (row :: rows)).
Qed.

(** The typed [validateBooking] from the overlap test on. *)
Lemma untyped_neighbourChecks_typed w postcode l s e :
  Untyped.neighbourChecks w postcode (map Lift.ofInterval l)
    (Untyped.Num s) (Untyped.Num e)
  = (prevTooFar <-
       match prevOf (filter hasPostcode l) s with
       | Some p =>
           mins <- getTravelTimeMinutes w (iv_postcode p) postcode ;;
           ret (mins >? TRAVEL_LIMIT_MIN)
       | None => ret false
       end ;;
     if prevTooFar then ret (Rejected TRAVEL_TOO_FAR)
     else
       nextTooFar <-
         match nextOf (filter hasPostcode l) e with
         | Some n =>
             mins <- getTravelTimeMinutes w postcode (iv_postcode n) ;;
             ret (mins >? TRAVEL_LIMIT_MIN)
         | None => ret false
         end ;;
       if nextTooFar then ret (Rejected TRAVEL_TOO_FAR)
       else ret Accepted).
Proof.
  unfold Untyped.neighbourChecks. cbv zeta.
  rewrite untyped_hasPostcode_typed, untyped_prevOf_typed, untyped_nextOf_typed.
  destruct (prevOf (filter hasPostcode l) s) as [p|];
    destruct (nextOf (filter hasPostcode l) e) as [n|]; reflexivity.
Qed.

(** On a request and a table of texts with numerals, [validateBooking]
    returns, and returns what the typed [validateBooking] returns. *)
Lemma untyped_validateBooking_typed w req :
  Untyped.validateBooking w (Lift.rowsOf w) (Lift.ofRequest req)
  = Lift.returning (validateBooking w req).
Proof.
  unfold Untyped.validateBooking, validateBooking, Lift.ofRequest.
  cbn [Untyped.req_date Untyped.req_postcode Untyped.req_services
       Untyped.req_preferred_time].
  destruct (req_date req) as [date|]; [|now destruct (req_preferred_time req)].
  destruct (req_preferred_time req) as [time|];
    [|now destruct (negb (JsString.truthy (req_postcode req)))].
  destruct (negb (JsString.truthy (req_postcode req))); [reflexivity|].
  destruct (negb (isWorkingDay w date)); [reflexivity|].
  rewrite untyped_toServicesArray_typed, untyped_estimate_typed. cbv zeta.
  rewrite untyped_time_typed.
  cbn [Untyped.add Untyped.ltb Untyped.gtb].
  rewrite <- (Z.gtb_ltb _ WORK_END).
  destruct (_ || _); [reflexivity|].
  unfold Lift.rowsOf. rewrite untyped_outOfAreaForDay_typed.
  apply bind_returning. intros [|]; [reflexivity|].
  rewrite untyped_buildIntervals_typed, untyped_overlaps_typed.
  destruct (existsb _ _); [reflexivity|].
  rewrite untyped_neighbourChecks_typed. apply returning_bind_ret.
Qed.

Lemma untyped_candidateOk_typed w postcode l duration c :
  Untyped.candidateOk w postcode (map Lift.ofInterval l) (Untyped.Num duration) c
  = candidateOk w postcode l duration c.
Proof.
  unfold Untyped.candidateOk, candidateOk. cbv zeta. cbn [Untyped.add].
  rewrite untyped_overlaps_typed.
  destruct (existsb _ l); [reflexivity|].
  rewrite untyped_hasPostcode_typed, untyped_prevOf_typed, untyped_nextOf_typed.
  destruct (prevOf (filter hasPostcode l) c) as [p|];
    destruct (nextOf (filter hasPostcode l) (c + duration)) as [n|]; reflexivity.
Qed.

Lemma untyped_slotLoop_typed w postcode l duration fuel c :
  Untyped.slotLoop w postcode (map Lift.ofInterval l) (Untyped.Num duration) fuel c
  = slotLoop w postcode l duration fuel c.
Proof.
  revert c. induction fuel as [|fuel IH]; intro c; [reflexivity|].
  cbn [Untyped.slotLoop slotLoop Untyped.add Untyped.leb].
  destruct (c + duration <=? WORK_END); [|reflexivity].
  now rewrite untyped_candidateOk_typed, IH.
Qed.

(** Likewise [POST /api/availability]. *)
Lemma untyped_findSlots_typed w req :
  Untyped.findSlots w (Lift.rowsOf w) (Lift.ofAvailability req)
  = Lift.returning (findSlots w req).
Proof.
  unfold Untyped.findSlots, findSlots, Lift.ofAvailability.
  cbn [Untyped.av_date Untyped.av_postcode Untyped.av_services].
  destruct (av_date req) as [date|]; [|reflexivity].
  destruct (negb (JsString.truthy (av_postcode req))); [reflexivity|].
  destruct (negb (isWorkingDay w date)); [reflexivity|].
  rewrite untyped_toServicesArray_typed, untyped_estimate_typed. cbv zeta.
  cbn [Untyped.add].
  unfold Lift.rowsOf. rewrite untyped_outOfAreaForDay_typed.
  apply bind_returning. intros [|]; [reflexivity|].
  rewrite untyped_buildIntervals_typed.
  unfold Untyped.possibleSlots, possibleSlots.
  rewrite untyped_slotLoop_typed.
  unfold bind, Lift.returning, ret.
  destruct (slotLoop _ _ _ _ _ _) as [slots sent]. simpl.
  now rewrite app_nil_r.
Qed.

(** *** A time or a duration that is no number *)

Lemma overlapsWith_nan_start e i : Untyped.overlapsWith Untyped.NaN e i = false.
Proof. reflexivity. Qed.

Lemma overlapsWith_nan_end s i : Untyped.overlapsWith s Untyped.NaN i = false.
Proof. unfold Untyped.overlapsWith. cbv zeta. now destruct (Untyped.max s _). Qed.

Lemma existsb_never {A} (f : A -> bool) l :
  (forall a, f a = false) -> existsb f l = false.
Proof.
  intro H. induction l as [|a l IH]; simpl; [reflexivity|]. now rewrite H, IH.
Qed.

Lemma filter_never {A} (f : A -> bool) l :
  (forall a, f a = false) -> filter f l = [].
Proof.
  intro H. induction l as [|a l IH]; simpl; [reflexivity|]. now rewrite H.
Qed.

Lemma prevOf_nan l : Untyped.prevOf l Untyped.NaN = None.
Proof.
  unfold Untyped.prevOf. rewrite filter_never; [reflexivity|].
  intro i. unfold Untyped.leb. now destruct (Untyped.iv_end i).
Qed.

Lemma nextOf_nan l : Untyped.nextOf l Untyped.NaN = None.
Proof.
  unfold Untyped.nextOf. rewrite filter_never; [reflexivity|].
  intro i. reflexivity.
Qed.

(** A request whose time text gives no number of minutes passes the
    working-hours test, the overlap test and the travel checks. *)
Lemma validateBooking_time_not_a_number w rowsFor date postcode services numbers
      minutes intervals :
  JsString.truthy postcode = true ->
  isWorkingDay w date = true ->
  Untyped.estimateBookingDurationMinutes (Untyped.toServicesArray services)
  = Untyped.Returns minutes ->
  Untyped.timeStringToMinutes numbers = Untyped.NaN ->
  Untyped.buildIntervals (rowsFor date) (loadCalendarBusy w date)
  = Untyped.Returns intervals ->
  result (Untyped.validateBooking w rowsFor
            {| Untyped.req_date := Some date;
               Untyped.req_postcode := postcode;
               Untyped.req_services := services;
               Untyped.req_preferred_time := Untyped.TimeText numbers |})
  = if result (Untyped.outOfAreaForDay w postcode (rowsFor date))
    then Untyped.Returns (Rejected OUT_OF_AREA_FOR_DAY)
    else Untyped.Returns Accepted.
Proof.
  intros Hp Hday Hestimate Htime Hbuild. unfold Untyped.validateBooking.
  cbn [Untyped.req_date Untyped.req_postcode Untyped.req_services
       Untyped.req_preferred_time].
  rewrite Hp, Hday, Hestimate. cbn [negb]. cbv zeta. rewrite Htime.
  cbn [Untyped.add Untyped.ltb Untyped.gtb orb].
  rewrite result_bind.
  destruct (result (Untyped.outOfAreaForDay w postcode (rowsFor date)));
    [reflexivity|].
  rewrite Hbuild.
  rewrite existsb_never by (intro i; apply overlapsWith_nan_start).
  rewrite result_bind, result_ret. f_equal.
  unfold Untyped.neighbourChecks. cbv zeta.
  rewrite prevOf_nan, nextOf_nan. reflexivity.
Qed.

(** With a duration that is no number the slot loop is left at once. *)
Lemma findSlots_duration_not_a_number w rowsFor req date slots :
  Untyped.estimateBookingDurationMinutes (Untyped.toServicesArray (Untyped.av_services req))
  = Untyped.Returns Untyped.NaN ->
  result (Untyped.findSlots w rowsFor req)
  = Untyped.Returns (AvailabilitySlots date slots) ->
  slots = [].
Proof.
  intros Hestimate. unfold Untyped.findSlots.
  destruct (Untyped.av_date req) as [d|]; [|discriminate].
  destruct (negb (JsString.truthy (Untyped.av_postcode req))); [discriminate|].
  destruct (negb (isWorkingDay w d)); [now intros [= _ <-]|].
  rewrite Hestimate. cbv zeta. rewrite result_bind.
  destruct (result (Untyped.outOfAreaForDay w (Untyped.av_postcode req) (rowsFor d)));
    [now intros [= _ <-]|].
  destruct (Untyped.buildIntervals (rowsFor d) (loadCalendarBusy w d)); [|discriminate].
  cbn [Untyped.add Untyped.possibleSlots Untyped.slotLoop Untyped.leb].
  now intros [= _ <-].
Qed.

(** X5: for a request whose time is a text of two integer numerals
    and whose services have texts (or nothing) for [serviceId] and
    [size] and integers (or nothing) for [quantity], on a table of such
    rows, [validateBooking] accepts exactly when date, postcode and time
    are present, the date is a working day, the requested interval
    (duration plus buffer) lies within the working hours, the area gate
    passes, the interval overlaps no booking (with its buffer) and no
    calendar block of the day, and the previous and the next booking are
    within the travel limit.  A time text that gives no number of
    minutes ([9], [abc]) is another matter: every comparison with it is
    false, so the request passes the working-hours test, the overlap
    test and the travel checks, and is accepted as soon as the day is a
    working day and in area; the text [9] is accepted on the Monday of
    the scenario, whose 09:00 is taken. *)
Theorem validateBooking_accepts_iff :
  (forall w req,
     result (Untyped.validateBooking w (Lift.rowsOf w) (Lift.ofRequest req))
     = Untyped.Returns Accepted
     <-> exists date time,
           req_date req = Some date /\ req_preferred_time req = Some time
           /\ JsString.truthy (req_postcode req) = true
           /\ isWorkingDay w date = true
           /\ let s := timeStringToMinutes time in
              let e := s + (estimateBookingDurationMinutes
                              (toServicesArray (req_services req))
                            + BUFFER_AFTER_JOB_MIN) in
              WORK_START <= s /\ e <= WORK_END
              /\ result (outOfAreaForDay w (req_postcode req) (bookingsForDate w date))
                 = false
              /\ ~ occupied (bookingsForDate w date) (loadCalendarBusy w date) s e
              /\ prevTooFar w (req_postcode req) (dayIntervals w date) s = false
              /\ nextTooFar w (req_postcode req) (dayIntervals w date) e = false)
  /\ (forall w rowsFor date postcode services numbers minutes intervals,
        JsString.truthy postcode = true ->
        isWorkingDay w date = true ->
        Untyped.estimateBookingDurationMinutes (Untyped.toServicesArray services)
        = Untyped.Returns minutes ->
        Untyped.timeStringToMinutes numbers = Untyped.NaN ->
        Untyped.buildIntervals (rowsFor date) (loadCalendarBusy w date)
        = Untyped.Returns intervals ->
        result (Untyped.validateBooking w rowsFor
                  {| Untyped.req_date := Some date;
                     Untyped.req_postcode := postcode;
                     Untyped.req_services := services;
                     Untyped.req_preferred_time := Untyped.TimeText numbers |})
        = if result (Untyped.outOfAreaForDay w postcode (rowsFor date))
          then Untyped.Returns (Rejected OUT_OF_AREA_FOR_DAY)
          else Untyped.Returns Accepted)
  /\ result (Untyped.validateBooking scenarioWorld (Lift.rowsOf scenarioWorld)
               nineWithoutMinutes)
     = Untyped.Returns Accepted.
Proof.
  split; [|split].
  - intros w req. rewrite untyped_validateBooking_typed.
    rewrite <- validateBooking_accepted_spec.
    unfold Lift.returning, result. cbn [fst]. split.
    + now intros [= ->].
    + now intros ->.
  - exact validateBooking_time_not_a_number.
  - vm_compute. reflexivity.
Qed.


(* ------------------------------------------------------------------ *)
(** ** The order of the slots *)

Lemma slotLoop_starts w postcode intervals requestedDuration fuel candidateStart :
  exists starts,
    result (slotLoop w postcode intervals requestedDuration fuel candidateStart)
    = map minutesToTimeString starts
    /\ StronglySorted Z.lt starts
    /\ Forall (fun c => candidateStart <= c /\ c + requestedDuration <= WORK_END
                        /\ exists k, 0 <= k /\ c = candidateStart + k * SLOT_STEP_MIN)
         starts
    /\ (List.length starts <= fuel)%nat.
Proof.
  revert candidateStart. induction fuel as [|fuel IH]; intro cs; cbn [slotLoop].
  - exists []. repeat split; constructor.
  - destruct (Z.leb_spec (cs + requestedDuration) WORK_END) as [Hle|_];
      [|exists []; repeat split; try constructor; simpl; lia].
    rewrite !result_bind, result_ret.
    destruct (IH (cs + SLOT_STEP_MIN)) as (starts & Hres & Hsorted & Hall & Hlen).
    assert (Hshift :
      Forall (fun c => cs <= c /\ c + requestedDuration <= WORK_END
                       /\ exists k, 0 <= k /\ c = cs + k * SLOT_STEP_MIN) starts).
    { eapply Forall_impl; [|exact Hall]. intros c (Hc & Hend & k & Hk & ->).
      repeat split; [constants_lia|assumption|].
      exists (k + 1). split; [lia|constants_lia]. }
    destruct (result (candidateOk w postcode intervals requestedDuration cs)).
    + exists (cs :: starts). rewrite Hres. repeat split.
      * constructor; [exact Hsorted|].
        eapply Forall_impl; [|exact Hall]. intros c (Hc & _). constants_lia.
      * constructor; [|exact Hshift].
        repeat split; [lia|assumption|]. exists 0. split; lia.
      * simpl. lia.
    + exists starts. repeat split; try assumption. lia.
Qed.

Lemma sorted_starts_distinct starts :
  StronglySorted Z.lt starts -> NoDup (map minutesToTimeString starts).
Proof.
  induction 1 as [|c starts _ IH Hlt]; simpl; constructor; [|exact IH].
  intro Hin. apply in_map_iff in Hin. destruct Hin as (c' & Heq & Hc').
  apply minutesToTimeString_inj in Heq. subst c'.
  rewrite Forall_forall in Hlt. specialize (Hlt c Hc'). lia.
Qed.

(** X8: the slots of [POST /api/availability] are the texts of start
    times in strictly ascending order, each a grid point at or after
    08:30 whose interval ends by 16:30; no slot is listed twice, and
    there are at most as many as the grid has points. *)
Theorem findSlots_ascending :
  forall w req date slots,
    result (findSlots w req) = AvailabilitySlots date slots ->
    exists starts,
      slots = map minutesToTimeString starts
      /\ StronglySorted Z.lt starts
      /\ Forall (fun c =>
           onGrid c
           /\ c + (estimateBookingDurationMinutes (toServicesArray (av_services req))
                   + BUFFER_AFTER_JOB_MIN) <= WORK_END) starts
      /\ NoDup slots
      /\ (List.length slots
          <= gridTurns (estimateBookingDurationMinutes (toServicesArray (av_services req))
                        + BUFFER_AFTER_JOB_MIN) WORK_START)%nat.
Proof.
  intros w req date slots Hres.
  assert (Hempty : slots = [] ->
    exists starts : list Z,
      slots = map minutesToTimeString starts
      /\ StronglySorted Z.lt starts
      /\ Forall (fun c =>
           onGrid c
           /\ c + (estimateBookingDurationMinutes (toServicesArray (av_services req))
                   + BUFFER_AFTER_JOB_MIN) <= WORK_END) starts
      /\ NoDup slots
      /\ (List.length slots
          <= gridTurns (estimateBookingDurationMinutes
                          (toServicesArray (av_services req))
                        + BUFFER_AFTER_JOB_MIN) WORK_START)%nat).
  { intros ->. exists []. repeat split; try constructor. simpl. lia. }
  destruct (av_date req) as [d|] eqn:Hd;
    [|rewrite findSlots_bad_request in Hres by (now left); discriminate].
  destruct (JsString.truthy (av_postcode req)) eqn:Hp;
    [|rewrite findSlots_bad_request in Hres by (now right); discriminate].
  rewrite (findSlots_result w req d Hd Hp) in Hres. injection Hres as <- <-.
  destruct (negb (isWorkingDay w d)); [now apply Hempty|].
  destruct (result (outOfAreaForDay w (av_postcode req) (bookingsForDate w d)));
    [now apply Hempty|].
  clear Hempty. unfold possibleSlots.
  destruct (slotLoop_starts w (av_postcode req) (dayIntervals w d)
              (estimateBookingDurationMinutes (toServicesArray (av_services req))
               + BUFFER_AFTER_JOB_MIN)
              (gridTurns (estimateBookingDurationMinutes
                            (toServicesArray (av_services req))
                          + BUFFER_AFTER_JOB_MIN) WORK_START)
              WORK_START) as (starts & Hres & Hsorted & Hall & Hlen).
  exists starts. rewrite Hres. repeat split.
  - exact Hsorted.
  - eapply Forall_impl; [|exact Hall]. intros c (_ & Hend & k & Hk & ->).
    split; [exists k; split; [exact Hk|reflexivity]|exact Hend].
  - now apply sorted_starts_distinct.
  - now rewrite length_map.
Qed.

Lemma findSlots_ascending_scenario :
  exists starts,
    scenarioSlots = map minutesToTimeString starts
    /\ StronglySorted Z.lt starts
    /\ Forall (fun c =>
         onGrid c
         /\ c + (estimateBookingDurationMinutes
                   (toServicesArray (av_services scenarioRequest))
                 + BUFFER_AFTER_JOB_MIN) <= WORK_END) starts
    /\ NoDup scenarioSlots
    /\ (List.length scenarioSlots
        <= gridTurns (estimateBookingDurationMinutes
                        (toServicesArray (av_services scenarioRequest))
                      + BUFFER_AFTER_JOB_MIN) WORK_START)%nat.
Proof.
  apply (findSlots_ascending scenarioWorld scenarioRequest monday).
  vm_compute. reflexivity.
Defined.

(* ------------------------------------------------------------------ *)
(** ** The previous and the next booking *)

Section SortHead.
Context {A : Type}.
Variable key : A -> Z.

Lemma insertBy_head (cmp : A -> A -> Z) x l :
  hd_error (insertBy cmp x l)
  = Some (match l with
          | [] => x
          | y :: _ => if cmp x y <=? 0 then x else y
          end).
Proof. destruct l as [|y l]; simpl; [reflexivity|]. now destruct (cmp x y <=? 0). Qed.

(** Sorted by falling key, the head is the first element of greatest
    key. *)
Lemma sortBy_descending_head l :
  match hd_error (sortBy (fun a b => key b - key a) l) with
  | None => l = []
  | Some p =>
      exists before after,
        l = before ++ p :: after
        /\ Forall (fun q => key q < key p) before
        /\ Forall (fun q => key q <= key p) after
  end.
Proof.
  induction l as [|x l IH]; cbn [sortBy]; [reflexivity|].
  rewrite insertBy_head.
  destruct (sortBy (fun a b => key b - key a) l) as [|y sorted]; simpl in IH.
  - subst l. exists [], []. repeat split; constructor.
  - destruct IH as (before & after & -> & Hbefore & Hafter).
    destruct (Z.leb_spec (key y - key x) 0) as [Hle|Hgt].
    + exists [], (before ++ y :: after). repeat split; [constructor|].
      apply Forall_app. split.
      * eapply Forall_impl; [|exact Hbefore]. intros q Hq. cbv beta in Hq. lia.
      * constructor; [lia|].
        eapply Forall_impl; [|exact Hafter]. intros q Hq. cbv beta in Hq. lia.
    + exists (x :: before), after. repeat split; try assumption.
      constructor; [lia|exact Hbefore].
Qed.

(** Sorted by rising key, the head is the first element of least key. *)
Lemma sortBy_ascending_head l :
  match hd_error (sortBy (fun a b => key a - key b) l) with
  | None => l = []
  | Some p =>
      exists before after,
        l = before ++ p :: after
        /\ Forall (fun q => key p < key q) before
        /\ Forall (fun q => key p <= key q) after
  end.
Proof.
  induction l as [|x l IH]; cbn [sortBy]; [reflexivity|].
  rewrite insertBy_head.
  destruct (sortBy (fun a b => key a - key b) l) as [|y sorted]; simpl in IH.
  - subst l. exists [], []. repeat split; constructor.
  - destruct IH as (before & after & -> & Hbefore & Hafter).
    destruct (Z.leb_spec (key x - key y) 0) as [Hle|Hgt].
    + exists [], (before ++ y :: after). repeat split; [constructor|].
      apply Forall_app. split.
      * eapply Forall_impl; [|exact Hbefore]. intros q Hq. cbv beta in Hq. lia.
      * constructor; [lia|].
        eapply Forall_impl; [|exact Hafter]. intros q Hq. cbv beta in Hq. lia.
    + exists (x :: before), after. repeat split; try assumption.
      constructor; [lia|exact Hbefore].
Qed.
End SortHead.

Lemma prevOf_spec bookingIntervals s :
  match prevOf bookingIntervals s with
  | None => forall q, In q bookingIntervals -> s < iv_end q
  | Some p =>
      In p bookingIntervals /\ iv_end p <= s
      /\ forall q, In q bookingIntervals -> iv_end q <= s -> iv_end q <= iv_end p
  end.
Proof.
  unfold prevOf.
  pose proof (sortBy_descending_head iv_end
                (filter (fun i => iv_end i <=? s) bookingIntervals)) as H.
  destruct (hd_error _) as [p|].
  - destruct H as (before & after & Heq & Hbefore & Hafter).
    assert (Hp : In p (filter (fun i => iv_end i <=? s) bookingIntervals))
      by (rewrite Heq; apply in_or_app; right; now left).
    apply filter_In in Hp. destruct Hp as [Hin Hle]. apply Z.leb_le in Hle.
    repeat split; try assumption.
    intros q Hq Hqs.
    assert (Hq' : In q (filter (fun i => iv_end i <=? s) bookingIntervals))
      by (apply filter_In; split; [exact Hq|now apply Z.leb_le]).
    rewrite Heq in Hq'. apply in_app_or in Hq'.
    rewrite Forall_forall in Hbefore, Hafter.
    destruct Hq' as [Hq'|[<-|Hq']]; [specialize (Hbefore q Hq')| |specialize (Hafter q Hq')];
      lia.
  - intros q Hq. destruct (Z.leb_spec (iv_end q) s) as [Hle|Hgt]; [|exact Hgt].
    assert (Hq' : In q (filter (fun i => iv_end i <=? s) bookingIntervals))
      by (apply filter_In; split; [exact Hq|now apply Z.leb_le]).
    rewrite H in Hq'. destruct Hq'.
Qed.

Lemma nextOf_spec bookingIntervals e :
  match nextOf bookingIntervals e with
  | None => forall q, In q bookingIntervals -> iv_start q < e
  | Some n =>
      In n bookingIntervals /\ e <= iv_start n
      /\ forall q, In q bookingIntervals -> e <= iv_start q -> iv_start n <= iv_start q
  end.
Proof.
  unfold nextOf.
  pose proof (sortBy_ascending_head iv_start
                (filter (fun i => iv_start i >=? e) bookingIntervals)) as H.
  destruct (hd_error _) as [n|].
  - destruct H as (before & after & Heq & Hbefore & Hafter).
    assert (Hn : In n (filter (fun i => iv_start i >=? e) bookingIntervals))
      by (rewrite Heq; apply in_or_app; right; now left).
    apply filter_In in Hn. destruct Hn as [Hin Hge]. rewrite Z.geb_leb in Hge.
    apply Z.leb_le in Hge.
    repeat split; try assumption.
    intros q Hq Hqe.
    assert (Hq' : In q (filter (fun i => iv_start i >=? e) bookingIntervals))
      by (apply filter_In; split; [exact Hq|rewrite Z.geb_leb; now apply Z.leb_le]).
    rewrite Heq in Hq'. apply in_app_or in Hq'.
    rewrite Forall_forall in Hbefore, Hafter.
    destruct Hq' as [Hq'|[<-|Hq']]; [specialize (Hbefore q Hq')| |specialize (Hafter q Hq')];
      lia.
  - intros q Hq. destruct (Z.ltb_spec (iv_start q) e) as [Hlt|Hge]; [exact Hlt|].
    assert (Hq' : In q (filter (fun i => iv_start i >=? e) bookingIntervals))
      by (apply filter_In; split; [exact Hq|rewrite Z.geb_leb; now apply Z.leb_le]).
    rewrite H in Hq'. destruct Hq'.
Qed.

(** X9: the previous booking of a candidate that starts at [s] is a
    booking that ends at or before [s] and ends latest among those, and
    there is none exactly when every booking ends after [s]; the next
    booking of a candidate that ends at [e] is a booking that starts at
    or after [e] and starts earliest among those, and there is none
    exactly when every booking starts before [e]. *)
Theorem neighbours_are_closest :
  forall bookingIntervals s e,
    match prevOf bookingIntervals s with
    | None => forall q, In q bookingIntervals -> s < iv_end q
    | Some p =>
        In p bookingIntervals /\ iv_end p <= s
        /\ forall q, In q bookingIntervals -> iv_end q <= s -> iv_end q <= iv_end p
    end
    /\ match nextOf bookingIntervals e with
       | None => forall q, In q bookingIntervals -> iv_start q < e
       | Some n =>
           In n bookingIntervals /\ e <= iv_start n
           /\ forall q, In q bookingIntervals -> e <= iv_start q ->
                        iv_start n <= iv_start q
       end.
Proof.
  intros bookingIntervals s e. split; [apply prevOf_spec|apply nextOf_spec].
Qed.

(* ------------------------------------------------------------------ *)
(** ** Travel times against the limit *)

Lemma roundMinutes_within_limit seconds :
  roundMinutes seconds <= TRAVEL_LIMIT_MIN <-> seconds < 20 * 60 + 30.
Proof.
  unfold roundMinutes, TRAVEL_LIMIT_MIN.
  pose proof (Z.div_mod (seconds + 30) 60). pose proof (Z.mod_pos_bound (seconds + 30) 60).
  lia.
Qed.

Lemma minutesOfReply_within_limit r :
  minutesOfReply r <= TRAVEL_LIMIT_MIN
  <-> exists el seconds,
        r = DmBody "OK" (Some el) /\ el_status el = "OK"
        /\ el_duration el = Some seconds /\ seconds < 20 * 60 + 30.
Proof.
  split.
  - destruct r as [| |status [el|]]; simpl;
      try (unfold TRAVEL_LIMIT_MIN; lia).
    + destruct (String.eqb_spec status "OK") as [->|_]; simpl;
        [|unfold TRAVEL_LIMIT_MIN; lia].
      destruct (String.eqb_spec (el_status el) "OK") as [Hst|_]; simpl;
        [|unfold TRAVEL_LIMIT_MIN; lia].
      destruct (el_duration el) as [seconds|] eqn:Hdur;
        [|unfold TRAVEL_LIMIT_MIN; lia].
      intro H. exists el, seconds. repeat split; try assumption.
      now apply roundMinutes_within_limit.
    + destruct (negb (String.eqb status "OK")); unfold TRAVEL_LIMIT_MIN; lia.
  - intros (el & seconds & -> & Hst & Hdur & Hlt). simpl.
    rewrite Hst, Hdur. simpl. now apply roundMinutes_within_limit.
Qed.

(** X10: for two postcodes that are not empty, [getTravelTimeMinutes]
    sends one request, for the two postcodes trimmed, and its answer is
    within the limit of 20 minutes exactly when the reply and its first
    element have status OK and the duration is below 20 minutes and 30
    seconds (the minutes are rounded to the nearest, halves upwards). *)
Theorem travel_within_limit_iff :
  forall w f t,
    JsString.isEmpty f = false -> JsString.isEmpty t = false ->
    requests (getTravelTimeMinutes w (Some f) (Some t))
    = [(JsString.trim f, JsString.trim t)]
    /\ (travelMinutes w (Some f) (Some t) <= TRAVEL_LIMIT_MIN
        <-> exists el seconds,
              distanceMatrix w (JsString.trim f) (JsString.trim t)
              = DmBody "OK" (Some el)
              /\ el_status el = "OK" /\ el_duration el = Some seconds
              /\ seconds < 20 * 60 + 30).
Proof.
  intros w f t Hf Ht. split.
  - unfold getTravelTimeMinutes. rewrite Hf, Ht. reflexivity.
  - rewrite travelMinutes_reply by assumption. apply minutesOfReply_within_limit.
Qed.

(** In the scenario every drive takes 0 seconds: one request, for the
    trimmed postcodes, and an answer within the limit. *)
Lemma travel_within_limit_iff_scenario :
  requests (getTravelTimeMinutes scenarioWorld (Some " AB1 ") (Some "AB2"))
  = [("AB1", "AB2")]
  /\ travelMinutes scenarioWorld (Some " AB1 ") (Some "AB2") <= TRAVEL_LIMIT_MIN.
Proof.
  destruct (travel_within_limit_iff scenarioWorld " AB1 " "AB2" eq_refl eq_refl)
    as [Hsent Hiff].
  split; [exact Hsent|]. apply Hiff.
  exists {| el_status := "OK"; el_duration := Some 0 |}, 0.
  repeat split; reflexivity.
Defined.

(** X11: a missing or empty postcode on either side is answered with
    the fallback of 999 minutes without any request; every answer of
    [getTravelTimeMinutes] is either that fallback or the rounded
    minutes of a duration the service reported, and no call sends more
    than one request. *)
Theorem travel_fallback_without_request :
  forall w fromPostcode toPostcode,
    (JsString.truthy fromPostcode = false \/ JsString.truthy toPostcode = false ->
     getTravelTimeMinutes w fromPostcode toPostcode = (UNKNOWN_TRAVEL, []))
    /\ (travelMinutes w fromPostcode toPostcode = UNKNOWN_TRAVEL
        \/ exists f t el seconds,
             fromPostcode = Some f /\ toPostcode = Some t
             /\ distanceMatrix w (JsString.trim f) (JsString.trim t)
                = DmBody "OK" (Some el)
             /\ el_duration el = Some seconds
             /\ travelMinutes w fromPostcode toPostcode = roundMinutes seconds)
    /\ (List.length (requests (getTravelTimeMinutes w fromPostcode toPostcode)) <= 1)%nat.
Proof.
  intros w fromPostcode toPostcode. split; [|split].
  - unfold getTravelTimeMinutes, JsString.truthy.
    destruct fromPostcode as [f|], toPostcode as [t|]; try reflexivity;
      destruct (JsString.isEmpty f); try destruct (JsString.isEmpty t);
      simpl; intros [H|H]; try discriminate; reflexivity.
  - destruct fromPostcode as [f|]; [|now left].
    destruct toPostcode as [t|]; [|now left].
    destruct (JsString.isEmpty f) eqn:Hf;
      [left; apply travelMinutes_missing; left; unfold JsString.truthy; now rewrite Hf|].
    destruct (JsString.isEmpty t) eqn:Ht;
      [left; apply travelMinutes_missing; right; unfold JsString.truthy; now rewrite Ht|].
    rewrite travelMinutes_reply by assumption.
    destruct (distanceMatrix w (JsString.trim f) (JsString.trim t))
      as [| |status [el|]] eqn:Hreply; simpl; try (now left).
    + destruct (String.eqb_spec status "OK") as [->|_]; simpl; [|now left].
      destruct (negb (String.eqb (el_status el) "OK")); [now left|].
      destruct (el_duration el) as [seconds|] eqn:Hdur; [|now left].
      right. exists f, t, el, seconds. repeat split; assumption.
    + destruct (negb (String.eqb status "OK")); now left.
  - apply getTravelTimeMinutes_one_request.
Qed.

(* ------------------------------------------------------------------ *)
(** ** The calendar blocks of a day *)

Lemma localMinuteOfDay_bounds tz t :
  0 <= Clock.localMinuteOfDay tz t < Clock.minutesPerDay.
Proof. unfold Clock.localMinuteOfDay, Clock.minutesPerDay. apply Z.mod_pos_bound. lia. Qed.

Lemma blockOfEvent_bounds w ev b :
  blockOfEvent w ev = Some b ->
  0 <= cb_start b < Clock.minutesPerDay /\ 0 <= cb_end b < Clock.minutesPerDay.
Proof.
  unfold blockOfEvent.
  destruct (ev_start ev) as [start|]; [|discriminate].
  destruct (ev_end ev) as [end_|]; [|discriminate].
  destruct (startInstant w start) as [from|]; [|discriminate].
  destruct (endInstant w end_) as [to|]; [|discriminate].
  intros [= <-]. simpl. split; apply localMinuteOfDay_bounds.
Qed.

Lemma blocksOfEvents_bounds w events :
  Forall (fun b => 0 <= cb_start b < Clock.minutesPerDay
                   /\ 0 <= cb_end b < Clock.minutesPerDay)
    (blocksOfEvents w events)
  /\ (List.length (blocksOfEvents w events) <= List.length events)%nat.
Proof.
  induction events as [|ev events [IH IHlen]]; simpl; [split; [constructor|lia]|].
  destruct (blockOfEvent w ev) as [b|] eqn:Hb; [|split; [exact IH|lia]].
  split; [|simpl; lia]. constructor; [|exact IH].
  exact (blockOfEvent_bounds w ev b Hb).
Qed.

Lemma all_day_block w startDay endDay :
  blockOfEvent w {| ev_start := Some {| dateTime := None; date := Some startDay |};
                    ev_end := Some {| dateTime := None; date := Some endDay |} |}
  = Some {| cb_start := 0; cb_end := 23 * 60 + 59 |}.
Proof.
  unfold blockOfEvent, startInstant, endInstant, Clock.localMinuteOfDay,
    Clock.minutesPerDay. simpl. f_equal. f_equal.
  - replace (startDay * 1440 - tzOffsetMin w + tzOffsetMin w) with (0 + startDay * 1440)
      by lia.
    now rewrite Z.mod_add by lia.
  - replace (endDay * 1440 + 1439 - tzOffsetMin w + tzOffsetMin w)
      with (1439 + endDay * 1440) by lia.
    now rewrite Z.mod_add by lia.
Qed.


(* ------------------------------------------------------------------ *)
(** ** The rows of a range, grouped by date *)

Lemma dateText_eqb_eq a b : dateText_eqb a b = true <-> a = b.
Proof.
  destruct a as [x|], b as [y|]; simpl; split; intro H;
    try discriminate; try reflexivity.
  - f_equal. now apply Z.eqb_eq.
  - injection H as ->. apply Z.eqb_refl.
Qed.

Lemma dateText_eqb_refl a : dateText_eqb a a = true.
Proof. now apply dateText_eqb_eq. Qed.

Lemma dateText_eqb_sym a b : dateText_eqb a b = dateText_eqb b a.
Proof.
  destruct a as [x|], b as [y|]; simpl; try reflexivity. apply Z.eqb_sym.
Qed.

Lemma dateText_eqb_trans a b c :
  dateText_eqb a b = true -> dateText_eqb a c = dateText_eqb b c.
Proof. intro H. apply dateText_eqb_eq in H. now subst. Qed.

Lemma byDateGet_push m key row k :
  byDateGet (byDatePush m key row) k
  = if dateText_eqb key k
    then Some (match byDateGet m k with
               | Some rows => rows ++ [row]
               | None => [row]
               end)
    else byDateGet m k.
Proof.
  induction m as [|[k' rows] m IH]; simpl.
  - rewrite (dateText_eqb_sym k key). now destruct (dateText_eqb key k).
  - destruct (dateText_eqb key k') eqn:Hkey; simpl.
    + rewrite (dateText_eqb_trans _ _ k Hkey), (dateText_eqb_sym k k').
      now destruct (dateText_eqb k' k).
    + destruct (dateText_eqb k k') eqn:Hk; [|exact IH].
      apply dateText_eqb_eq in Hk. subst k'. now rewrite Hkey.
Qed.

Lemma byDateGet_fold rows m k :
  byDateGet (fold_left (fun byDate row => byDatePush byDate (row_preferred_date row) row)
               rows m) k
  = match byDateGet m k, rowsOfDate k rows with
    | Some before, more => Some (before ++ more)
    | None, [] => None
    | None, more => Some more
    end.
Proof.
  revert m. induction rows as [|row rows IH]; intro m; simpl.
  - destruct (byDateGet m k); [now rewrite app_nil_r|reflexivity].
  - rewrite IH, byDateGet_push.
    destruct (dateText_eqb (row_preferred_date row) k).
    + destruct (byDateGet m k) as [before|]; [now rewrite <- app_assoc|reflexivity].
    + reflexivity.
Qed.

Lemma byDateGet_groupByDate rows k :
  byDateGet (groupByDate rows) k
  = match rowsOfDate k rows with
    | [] => None
    | more => Some more
    end.
Proof. unfold groupByDate. now rewrite byDateGet_fold. Qed.

Lemma bookingsForDay_rowsOfDate rows k :
  match byDateGet (groupByDate rows) k with
  | Some found => found
  | None => []
  end = rowsOfDate k rows.
Proof. rewrite byDateGet_groupByDate. now destruct (rowsOfDate k rows). Qed.

(** X13: the object [byDate] built from the rows of a range holds,
    under each date, exactly the rows stored for that date, in the
    order of the result set, and has no entry for a date without rows:
    no row is lost, doubled or filed under another date. *)
Theorem groupByDate_lookup :
  forall rows k,
    byDateGet (groupByDate rows) k
    = match rowsOfDate k rows with
      | [] => None
      | more => Some more
      end
    /\ (forall row, In row rows ->
          exists found, byDateGet (groupByDate rows) (row_preferred_date row) = Some found
                        /\ In row found)
    /\ (forall found row, byDateGet (groupByDate rows) k = Some found -> In row found ->
          In row rows /\ row_preferred_date row = k).
Proof.
  intros rows k. split; [apply byDateGet_groupByDate|]. split.
  - intros row Hin. rewrite byDateGet_groupByDate.
    assert (Hrow : In row (rowsOfDate (row_preferred_date row) rows)).
    { apply filter_In. split; [exact Hin|apply dateText_eqb_refl]. }
    destruct (rowsOfDate (row_preferred_date row) rows) as [|r more]; [destruct Hrow|].
    eexists. split; [reflexivity|exact Hrow].
  - intros found row Hget Hin. rewrite byDateGet_groupByDate in Hget.
    assert (Hrow : In row (rowsOfDate k rows)).
    { destruct (rowsOfDate k rows); [discriminate|]. now injection Hget as <-. }
    apply filter_In in Hrow. destruct Hrow as [Hrows Hk].
    split; [exact Hrows|now apply dateText_eqb_eq].
Qed.

(* ------------------------------------------------------------------ *)
(** ** The entries of a range *)

Lemma dayEntry_in_area w np rows d :
  in_area (result (dayEntry w np (groupByDate rows) d))
  = isWorkingDay w (Clock.isoDate d)
    && negb (result (outOfAreaForDay w (Some np) (rowsOfDate (Clock.isoDate d) rows))).
Proof.
  unfold dayEntry. rewrite bookingsForDay_rowsOfDate. autorewrite with io.
  destruct (isWorkingDay w (Clock.isoDate d)); simpl; [|reflexivity].
  destruct (rowsOfDate (Clock.isoDate d) rows) as [|row more]; [reflexivity|].
  unfold outOfAreaForDay. now autorewrite with io.
Qed.

Lemma dayLoop_in_area w np rows end_ fuel d :
  Forall (fun entry =>
            in_area entry
            = isWorkingDay w (day_date entry)
              && negb (result (outOfAreaForDay w (Some np)
                                 (rowsOfDate (day_date entry) rows))))
    (result (dayLoop w np (groupByDate rows) end_ fuel d)).
Proof.
  revert d. induction fuel as [|fuel IH]; intro d; cbn [dayLoop]; [constructor|].
  destruct (d <=? end_); [|constructor].
  rewrite !result_bind, result_ret. constructor; [|apply IH].
  rewrite dayEntry_date. apply dayEntry_in_area.
Qed.

Lemma in_area_near w np rows :
  negb (result (outOfAreaForDay w (Some np) rows)) = true
  <-> rows = []
      \/ exists row, In row rows
                     /\ travelMinutes w (Some np) (Some (row_postcode row))
                        <= TRAVEL_LIMIT_MIN.
Proof.
  rewrite outOfAreaForDay_result. destruct rows as [|r rows].
  - simpl. split; [now left|reflexivity].
  - cbn [negb andb]. rewrite negb_true_iff. split.
    + intro H. right.
      destruct (forallb _ (r :: rows)) eqn:Hall; [discriminate|].
      assert (Hex : existsb (nearRow w (Some np)) (r :: rows) = true).
      { clear H. induction (r :: rows) as [|x l IH]; [discriminate|].
        simpl in *. destruct (nearRow w (Some np) x); [reflexivity|]. simpl in *.
        now apply IH. }
      apply existsb_exists in Hex. destruct Hex as [row [Hin Hnear]].
      exists row. split; [exact Hin|]. unfold nearRow in Hnear. now apply Z.leb_le.
    + intros [Hnil|[row [Hin Hnear]]]; [discriminate|].
      destruct (forallb _ (r :: rows)) eqn:Hall; [|reflexivity].
      rewrite forallb_forall in Hall. specialize (Hall row Hin).
      unfold nearRow in Hall. apply Z.leb_le in Hnear. rewrite Hnear in Hall.
      discriminate.
Qed.

Lemma rangeAvailability_in_area w req np s e dates :
  result (rangeAvailability w req) = DateAvailabilityDates np s e dates ->
  np = normalizePostcode (da_postcode req)
  /\ Forall (fun entry =>
       in_area entry = true
       <-> isWorkingDay w (day_date entry) = true
           /\ (rowsOfDate (day_date entry) (bookingsBetween w s e) = []
               \/ exists row,
                    In row (rowsOfDate (day_date entry) (bookingsBetween w s e))
                    /\ travelMinutes w (Some np) (Some (row_postcode row))
                       <= TRAVEL_LIMIT_MIN)) dates.
Proof.
  unfold rangeAvailability.
  destruct (da_start_date req) as [s'|]; [|discriminate].
  destruct (da_end_date req) as [e'|]; [|discriminate].
  destruct (negb _); [discriminate|].
  rewrite result_bind, result_ret. intros [= <- <- <- <-].
  split; [reflexivity|].
  destruct (Clock.localMidnight (tzOffsetMin w) s'),
    (Clock.localMidnight (tzOffsetMin w) e'); try constructor.
  eapply Forall_impl; [|apply dayLoop_in_area].
  intros entry Hentry. cbv beta in Hentry. rewrite Hentry, andb_true_iff.
  now rewrite in_area_near.
Qed.

(** X14: in the answer of [POST /api/date-availability] a day is
    marked in_area exactly when its date is a working day and either no
    booking of the range is stored for that date or some booking of
    that date is within the travel limit of the normalised postcode;
    the postcode answered is the normalised one. *)
Theorem range_entry_in_area :
  forall w req np s e dates,
    result (rangeAvailability w req) = DateAvailabilityDates np s e dates ->
    np = normalizePostcode (da_postcode req)
    /\ Forall (fun entry =>
         in_area entry = true
         <-> isWorkingDay w (day_date entry) = true
             /\ (rowsOfDate (day_date entry) (bookingsBetween w s e) = []
                 \/ exists row,
                      In row (rowsOfDate (day_date entry) (bookingsBetween w s e))
                      /\ travelMinutes w (Some np) (Some (row_postcode row))
                         <= TRAVEL_LIMIT_MIN)) dates.
Proof. exact rangeAvailability_in_area. Qed.

Lemma range_entry_in_area_monday :
  "AB1" = normalizePostcode (da_postcode (mondayOnly " ab1 "))
  /\ Forall (fun entry =>
       in_area entry = true
       <-> isWorkingDay scenarioWorld (day_date entry) = true
           /\ (rowsOfDate (day_date entry) (bookingsBetween scenarioWorld monday monday)
               = []
               \/ exists row,
                    In row (rowsOfDate (day_date entry)
                              (bookingsBetween scenarioWorld monday monday))
                    /\ travelMinutes scenarioWorld (Some "AB1") (Some (row_postcode row))
                       <= TRAVEL_LIMIT_MIN))
       [{| day_date := monday; in_area := true |}].
Proof.
  apply (range_entry_in_area scenarioWorld (mondayOnly " ab1 ") "AB1" monday monday).
  reflexivity.
Defined.

(* ------------------------------------------------------------------ *)
(** ** The requests of a range *)

Lemma rowsOfDate_rowsFromDay n rows :
  (List.length (rowsOfDate (DateOf n) rows) + List.length (rowsFromDay (n + 1) rows)
   <= List.length (rowsFromDay n rows))%nat.
Proof.
  unfold rowsOfDate, rowsFromDay.
  induction rows as [|row rows IH]; simpl; [lia|].
  destruct (row_preferred_date row) as [m|]; simpl; [|exact IH].
  destruct (Z.eqb_spec m n), (Z.leb_spec (n + 1) m), (Z.leb_spec n m);
    simpl; lia.
Qed.

Lemma rowsFromDay_length n rows :
  (List.length (rowsFromDay n rows) <= List.length rows)%nat.
Proof. apply filter_length_le. Qed.

Lemma dayEntry_request_count w np rows d :
  (List.length (requests (dayEntry w np (groupByDate rows) d))
   <= List.length (rowsOfDate (Clock.isoDate d) rows))%nat.
Proof.
  unfold dayEntry. rewrite bookingsForDay_rowsOfDate. autorewrite with io.
  rewrite ?app_nil_r.
  destruct (negb _); [simpl; lia|].
  destruct (rowsOfDate (Clock.isoDate d) rows) as [|row more] eqn:Hrows; [simpl; lia|].
  autorewrite with io. rewrite ?app_nil_r. apply allFarLoop_request_count.
Qed.

Lemma dayLoop_request_count w np rows end_ fuel d :
  (List.length (requests (dayLoop w np (groupByDate rows) end_ fuel d))
   <= List.length (rowsFromDay (d / Clock.minutesPerDay) rows))%nat.
Proof.
  revert d. induction fuel as [|fuel IH]; intro d; cbn [dayLoop]; [simpl; lia|].
  destruct (d <=? end_); [|simpl; lia].
  autorewrite with io. rewrite ?app_nil_r, length_app.
  pose proof (dayEntry_request_count w np rows d) as Hentry.
  specialize (IH (Clock.nextDay d)).
  replace (Clock.nextDay d / Clock.minutesPerDay) with (d / Clock.minutesPerDay + 1)
    in IH.
  - pose proof (rowsOfDate_rowsFromDay (d / Clock.minutesPerDay) rows) as Hsplit.
    unfold Clock.isoDate in Hentry. lia.
  - unfold Clock.nextDay, Clock.minutesPerDay.
    replace (d + 1440) with (d + 1 * 1440) by lia. now rewrite Z.div_add by lia.
Qed.

(** X15: [POST /api/date-availability] sends at most one Distance
    Matrix request for each booking the range query returned, whatever
    the length of the range, and none at all when a field is missing,
    when a date cannot be read or when the start date lies after the
    end date; in these last two cases the answer lists no day, and
    without a date or without a postcode the answer is the error 400
    for missing fields. *)
Theorem range_requests_bounded :
  forall w req,
    (List.length (requests (rangeAvailability w req))
     <= match da_start_date req, da_end_date req with
        | Some s, Some e => List.length (bookingsBetween w s e)
        | _, _ => 0
        end)%nat
    /\ (forall s e,
          da_start_date req = Some s -> da_end_date req = Some e ->
          JsString.truthy (da_postcode req) = true ->
          match s, e with
          | DateOf a, DateOf b => b < a
          | _, _ => True
          end ->
          rangeAvailability w req
          = (DateAvailabilityDates (normalizePostcode (da_postcode req)) s e [], []))
    /\ (da_start_date req = None \/ da_end_date req = None
        \/ JsString.truthy (da_postcode req) = false ->
        rangeAvailability w req = (DateAvailabilityMissingFields, [])).
Proof.
  intros w req. split; [|split].
  - unfold rangeAvailability.
    destruct (da_start_date req) as [s|]; [|simpl; lia].
    destruct (da_end_date req) as [e|]; [|simpl; lia].
    destruct (negb _); [simpl; lia|].
    autorewrite with io. rewrite ?app_nil_r.
    destruct (Clock.localMidnight (tzOffsetMin w) s) as [start|]; [|simpl; lia].
    destruct (Clock.localMidnight (tzOffsetMin w) e) as [end_|]; [|simpl; lia].
    etransitivity; [apply dayLoop_request_count|apply rowsFromDay_length].
  - intros s e Hs He Hp Hrange. unfold rangeAvailability. rewrite Hs, He, Hp.
    cbn [negb].
    destruct s as [a|], e as [b|]; cbn [Clock.localMidnight]; try reflexivity.
    unfold dayTurns, Clock.minutesPerDay.
    replace (b * 1440 - tzOffsetMin w - (a * 1440 - tzOffsetMin w))
      with (- (a - b) * 1440) by lia.
    rewrite Z.div_mul by lia.
    destruct (Z.to_nat (- (a - b) + 1)) as [|fuel]; [reflexivity|].
    cbn [dayLoop].
    destruct (Z.leb_spec (a * 1440 - tzOffsetMin w) (b * 1440 - tzOffsetMin w));
      [lia|reflexivity].
  - unfold rangeAvailability.
    destruct (da_start_date req) as [s|]; [|reflexivity].
    destruct (da_end_date req) as [e|]; [|reflexivity].
    intros [H|[H|H]]; try discriminate. rewrite H. reflexivity.
Qed.

(* ------------------------------------------------------------------ *)
(** ** The texts of times *)

Lemma length_append a b : String.length (a ++ b) = (String.length a + String.length b)%nat.
Proof. induction a as [|c a IH]; simpl; [reflexivity|now rewrite IH]. Qed.

Lemma two_digits n :
  0 <= n < 100 -> String.length (TimeFormat.padStart2 (TimeFormat.numberText n)) = 2%nat.
Proof.
  intro H. destruct n as [|p|p]; [reflexivity| |lia].
  do 7 (try destruct p as [p|p|]); try lia; reflexivity.
Qed.

Lemma minutesToTimeString_length mins :
  0 <= mins < 100 * 60 -> String.length (minutesToTimeString mins) = 5%nat.
Proof.
  intro H. unfold minutesToTimeString. cbv zeta.
  assert (Hh : 0 <= mins / 60 < 100).
  { split; [apply Z.div_pos; lia|apply Z.div_lt_upper_bound; lia]. }
  assert (Hm : 0 <= Z.rem mins 60 < 100).
  { rewrite Z.rem_mod_nonneg by lia. pose proof (Z.mod_pos_bound mins 60). lia. }
  rewrite !length_append, (two_digits _ Hh), (two_digits _ Hm). reflexivity.
Qed.

(** X16: [minutesToTimeString] and [timeStringToMinutes] are inverse
    to each other on the minutes from 0 on: the text written for such a
    number of minutes, taken apart again, gives the number back, and for
    less than 100 hours it has the five characters of HH:MM; two
    different numbers of minutes never share a text.  Below 0 the two
    do not fit: the hours are rounded down while the remainder keeps the
    sign, so a negative number that is not a whole hour reads back as
    an hour less. *)
Theorem time_text_round_trip :
  forall mins,
    (0 <= mins ->
     option_map timeStringToMinutes (readTimeText (minutesToTimeString mins)) = Some mins)
    /\ (0 <= mins < 100 * 60 -> String.length (minutesToTimeString mins) = 5%nat)
    /\ (forall other, minutesToTimeString mins = minutesToTimeString other -> mins = other)
    /\ (mins < 0 -> mins mod 60 <> 0 ->
        option_map timeStringToMinutes (readTimeText (minutesToTimeString mins))
        = Some (mins - 60)).
Proof.
  intro mins. split; [apply timeString_roundtrip|].
  split; [apply minutesToTimeString_length|].
  split; [intro other; apply minutesToTimeString_inj|].
  intros Hneg Hmod. rewrite readTimeText_minutesToTimeString. simpl. f_equal.
  unfold timeStringToMinutes. simpl.
  Z.to_euclidean_division_equations. lia.
Qed.

(* ------------------------------------------------------------------ *)
(** ** The duration of a service *)

Lemma lowerChar_upperChar c :
  JsString.lowerChar (JsString.upperChar c) = JsString.lowerChar c.
Proof. destruct c as [[] [] [] [] [] [] [] []]; reflexivity. Qed.

Lemma lowerChar_idem c :
  JsString.lowerChar (JsString.lowerChar c) = JsString.lowerChar c.
Proof. destruct c as [[] [] [] [] [] [] [] []]; reflexivity. Qed.

Lemma toLowerCase_toUpperCase s :
  JsString.toLowerCase (JsString.toUpperCase s) = JsString.toLowerCase s.
Proof.
  unfold JsString.toLowerCase, JsString.toUpperCase.
  induction s as [|c r IH]; cbn [JsString.mapChars]; [reflexivity|].
  now rewrite lowerChar_upperChar, IH.
Qed.

Lemma toLowerCase_idem s :
  JsString.toLowerCase (JsString.toLowerCase s) = JsString.toLowerCase s.
Proof.
  unfold JsString.toLowerCase.
  induction s as [|c r IH]; cbn [JsString.mapChars]; [reflexivity|].
  now rewrite lowerChar_idem, IH.
Qed.

Lemma duration_recased f s :
  (forall t, JsString.toLowerCase (f t) = JsString.toLowerCase t) ->
  f "" = "" ->
  getServiceDurationMinutes (recased f s) = getServiceDurationMinutes s.
Proof.
  intros Hf Hempty. unfold getServiceDurationMinutes, recased. cbn [serviceId size quantity].
  assert (H : forall v, JsString.toLowerCase (JsString.orEmpty (option_map f v))
                        = JsString.toLowerCase (JsString.orEmpty v)).
  { intros [t|]; simpl; [apply Hf|reflexivity]. }
  now rewrite !H.
Qed.

Lemma duration_quantity q s :
  q <> 0 ->
  getServiceDurationMinutes (withQuantity (Some q) s)
  = q * getServiceDurationMinutes (withQuantity None s).
Proof.
  intro Hq. unfold getServiceDurationMinutes, withQuantity, quantityOrOne.
  cbn [serviceId size quantity].
  destruct (Z.eqb_spec q 0); [contradiction|]. lia.
Qed.

Lemma duration_upper_bound s :
  plainQuantity s -> getServiceDurationMinutes s <= 120 * quantityOrOne (quantity s).
Proof.
  intro Hplain. pose proof (quantityOrOne_plain s Hplain) as Hq.
  unfold getServiceDurationMinutes. cbv zeta.
  repeat match goal with |- context [if ?b then _ else _] => destruct b end; lia.
Qed.

Lemma sumDurations_app a b : sumDurations (a ++ b) = sumDurations a + sumDurations b.
Proof.
  induction a as [|s a IH]; simpl; [reflexivity|]. rewrite IH. lia.
Qed.

Lemma sumDurations_perm a b : Permutation a b -> sumDurations a = sumDurations b.
Proof.
  induction 1; simpl; lia.
Qed.

Lemma estimate_sum items :
  items <> [] -> estimateBookingDurationMinutes (ServiceArray items) = sumDurations items.
Proof.
  destruct items as [|s items]; [congruence|]. intros _. apply estimate_nonempty.
Qed.

(** X17: the duration of a service does not depend on the case of
    its serviceId and size, and is the duration of one unit times the
    quantity (a quantity of 0 counting as 1); the estimate of a list
    with at least one item does not depend on the order of the items,
    and the estimate of two such lists put together is the sum of their
    estimates.  With quantities that are not negative a service takes
    between 60 and 120 minutes a unit.  The empty list is the exception
    to the sum: it takes the 60 minutes of the default. *)
Theorem duration_case_order_quantity :
  (forall s,
     getServiceDurationMinutes (recased JsString.toUpperCase s)
     = getServiceDurationMinutes s
     /\ getServiceDurationMinutes (recased JsString.toLowerCase s)
        = getServiceDurationMinutes s)
  /\ (forall q s,
        q <> 0 ->
        getServiceDurationMinutes (withQuantity (Some q) s)
        = q * getServiceDurationMinutes (withQuantity None s))
  /\ (forall s,
        getServiceDurationMinutes (withQuantity (Some 0) s)
        = getServiceDurationMinutes (withQuantity None s))
  /\ (forall s,
        plainQuantity s ->
        60 * quantityOrOne (quantity s) <= getServiceDurationMinutes s
        <= 120 * quantityOrOne (quantity s))
  /\ (forall a b,
        a <> [] -> Permutation a b ->
        estimateBookingDurationMinutes (ServiceArray a)
        = estimateBookingDurationMinutes (ServiceArray b))
  /\ (forall a b,
        a <> [] -> b <> [] ->
        estimateBookingDurationMinutes (ServiceArray (a ++ b))
        = estimateBookingDurationMinutes (ServiceArray a)
          + estimateBookingDurationMinutes (ServiceArray b))
  /\ (forall a,
        estimateBookingDurationMinutes (ServiceArray (a ++ []))
        <> estimateBookingDurationMinutes (ServiceArray a)
           + estimateBookingDurationMinutes (ServiceArray [])).
Proof.
  split; [|split; [|split; [|split; [|split; [|split]]]]].
  - intro s. split; apply duration_recased; try reflexivity.
    + apply toLowerCase_toUpperCase.
    + apply toLowerCase_idem.
  - apply duration_quantity.
  - reflexivity.
  - intros s Hplain. split; [|now apply duration_upper_bound].
    pose proof (quantityOrOne_plain s Hplain) as Hq.
    unfold getServiceDurationMinutes. cbv zeta.
    repeat match goal with |- context [if ?b then _ else _] => destruct b end; lia.
  - intros a b Ha Hperm.
    assert (Hb : b <> []).
    { intros ->. apply Permutation_sym, Permutation_nil in Hperm. contradiction. }
    rewrite !estimate_sum by assumption. now apply sumDurations_perm.
  - intros a b Ha Hb.
    assert (Hab : a ++ b <> []).
    { destruct a; [congruence|discriminate]. }
    rewrite !estimate_sum by assumption. apply sumDurations_app.
  - intro a. rewrite app_nil_r. simpl (estimateBookingDurationMinutes (ServiceArray [])).
    lia.
Qed.

(* ------------------------------------------------------------------ *)
(** ** The shape of a normalised postcode *)

Lemma allChars_removeSpaces s :
  allChars (fun c => negb (JsString.isSpace c)) (JsString.removeSpaces s) = true.
Proof.
  induction s as [|c r IH]; simpl; [reflexivity|].
  destruct (JsString.isSpace c) eqn:Hc; simpl; [exact IH|].
  now rewrite Hc.
Qed.

Lemma isLowerLetter_upperChar c : isLowerLetter (JsString.upperChar c) = false.
Proof. destruct c as [[] [] [] [] [] [] [] []]; reflexivity. Qed.

Lemma allChars_upper_removeSpaces s :
  allChars (fun c => negb (isLowerLetter c))
    (JsString.removeSpaces (JsString.toUpperCase s)) = true.
Proof.
  unfold JsString.toUpperCase.
  induction s as [|c r IH]; cbn [JsString.mapChars JsString.removeSpaces];
    [reflexivity|].
  destruct (JsString.isSpace (JsString.upperChar c)); [exact IH|].
  cbn [allChars]. now rewrite isLowerLetter_upperChar, IH.
Qed.

Lemma removeSpaces_length s :
  (String.length (JsString.removeSpaces s) <= String.length s)%nat.
Proof.
  induction s as [|c r IH]; simpl; [lia|].
  destruct (JsString.isSpace c); simpl; lia.
Qed.

Lemma mapChars_length f s : String.length (JsString.mapChars f s) = String.length s.
Proof. induction s as [|c r IH]; simpl; [reflexivity|now rewrite IH]. Qed.

Lemma removeSpaces_empty s :
  JsString.removeSpaces s = "" <-> allChars JsString.isSpace s = true.
Proof.
  induction s as [|c r IH]; simpl; [tauto|].
  destruct (JsString.isSpace c); simpl; [exact IH|]. split; discriminate.
Qed.

Lemma allChars_toUpperCase s :
  allChars JsString.isSpace (JsString.toUpperCase s) = allChars JsString.isSpace s.
Proof.
  unfold JsString.toUpperCase.
  induction s as [|c r IH]; cbn [JsString.mapChars allChars]; [reflexivity|].
  now rewrite isSpace_upperChar, IH.
Qed.

Lemma isAscii_upperChar c : isAscii c = true -> isAscii (JsString.upperChar c) = true.
Proof. destruct c as [[] [] [] [] [] [] [] []]; intro H; try reflexivity; discriminate. Qed.

Lemma allChars_isAscii_normal s :
  allChars isAscii s = true ->
  allChars isAscii (JsString.removeSpaces (JsString.toUpperCase s)) = true.
Proof.
  unfold JsString.toUpperCase.
  induction s as [|c r IH]; cbn [JsString.mapChars JsString.removeSpaces allChars];
    [reflexivity|].
  intro H. apply andb_true_iff in H. destruct H as [Hc Hr].
  destruct (JsString.isSpace (JsString.upperChar c)); [exact (IH Hr)|].
  cbn [allChars]. now rewrite (isAscii_upperChar c Hc), (IH Hr).
Qed.

(** X18: for a postcode of ASCII characters, the normalised postcode
    holds ASCII characters only, no white space and no lower-case
    letter, is never longer than the postcode given, and is left as it
    is by [trim], by upper-casing and by normalising again; it is empty
    exactly when the postcode given is missing or holds white space
    only.  (Outside the ASCII range upper-casing can lengthen a text
    and the white-space class has further members.) *)
Theorem normalizePostcode_shape :
  forall postcode,
    allChars isAscii (JsString.orEmpty postcode) = true ->
    let n := normalizePostcode postcode in
    allChars isAscii n = true
    /\ allChars (fun c => negb (JsString.isSpace c)) n = true
    /\ allChars (fun c => negb (isLowerLetter c)) n = true
    /\ (String.length n <= String.length (JsString.orEmpty postcode))%nat
    /\ JsString.trim n = n
    /\ JsString.toUpperCase n = n
    /\ normalizePostcode (Some n) = n
    /\ (n = "" <-> postcode = None
                   \/ exists p, postcode = Some p /\ allChars JsString.isSpace p = true).
Proof.
  intros [p|] Hascii; cbv zeta.
  2:{ simpl. repeat split; try reflexivity; try lia. intros _. now left. }
  cbn [JsString.orEmpty] in Hascii.
  rewrite normalizePostcode_text, <- removeSpaces_toUpperCase.
  split; [apply allChars_isAscii_normal, Hascii|].
  split; [apply allChars_removeSpaces|].
  split; [apply allChars_upper_removeSpaces|].
  split.
  { etransitivity; [apply removeSpaces_length|].
    unfold JsString.toUpperCase. rewrite mapChars_length. simpl. lia. }
  split.
  { rewrite removeSpaces_toUpperCase, <- normalizePostcode_text.
    apply trim_normalizePostcode. }
  split.
  { rewrite removeSpaces_toUpperCase. apply toUpperCase_idem. }
  split.
  { rewrite removeSpaces_toUpperCase, <- normalizePostcode_text.
    apply normalizePostcode_idem. }
  rewrite removeSpaces_empty, allChars_toUpperCase.
  split.
  - intro H. right. now exists p.
  - intros [H|[p' [[= <-] H]]]; [discriminate|exact H].
Qed.

(** A postcode typed in lower case with blanks becomes [AB12CD]. *)
Lemma normalizePostcode_shape_spaced :
  allChars isAscii " ab1 2cd " = true
  /\ normalizePostcode (Some " ab1 2cd ") = "AB12CD"
  /\ allChars isAscii (normalizePostcode (Some " ab1 2cd ")) = true.
Proof.
  split; [reflexivity|]. split; [reflexivity|].
  pose proof (normalizePostcode_shape (Some " ab1 2cd ") eq_refl) as Hshape.
  cbv zeta in Hshape. exact (proj1 Hshape).
Defined.

(* ------------------------------------------------------------------ *)
(** ** Date and time of a calendar event *)

Lemma hours_minutes_text lm :
  0 <= lm ->
  (TimeFormat.padStart2 (TimeFormat.numberText (lm / 60)) ++ ":"
   ++ TimeFormat.padStart2 (TimeFormat.numberText (lm mod 60)))%string
  = minutesToTimeString lm.
Proof.
  intro H. unfold minutesToTimeString. cbv zeta.
  now rewrite Z.rem_mod_nonneg by lia.
Qed.

Lemma extract_started w ev start d :
  ev_start ev = Some start -> startInstant w start = Some d ->
  extractDateAndTimeFromEvent w (Some ev)
  = Some (DateOf (d / Clock.minutesPerDay),
          minutesToTimeString (Clock.localMinuteOfDay (tzOffsetMin w) d)).
Proof.
  intros Hstart Hd. unfold extractDateAndTimeFromEvent. rewrite Hstart, Hd.
  cbv zeta. unfold getHours, getMinutes.
  rewrite hours_minutes_text by apply localMinuteOfDay_bounds.
  reflexivity.
Qed.

Lemma utc_day_of_instant tz d :
  d / Clock.minutesPerDay
  = (d + tz) / Clock.minutesPerDay
    + (Clock.localMinuteOfDay tz d - tz) / Clock.minutesPerDay.
Proof.
  unfold Clock.localMinuteOfDay, Clock.minutesPerDay.
  pose proof (Z.div_mod (d + tz) 1440).
  replace ((d + tz) mod 1440 - tz) with (d + - ((d + tz) / 1440) * 1440) by lia.
  rewrite Z.div_add by lia. lia.
Qed.

(** X19: for an event with a start, [extractDateAndTimeFromEvent]
    gives the time of the start on the local clock, as a text of five
    characters that reads back as that minute of the day, but the date
    of the start in UTC: the date is the local date of the start exactly
    when the local time is at least the offset of the zone from UTC (and
    less than a day more); east of UTC the start of an all-day event is
    dated one day early. *)
Theorem extract_event_local_time_utc_date :
  forall w ev start d,
    ev_start ev = Some start -> startInstant w start = Some d ->
    let tz := tzOffsetMin w in
    let localDay := (d + tz) / Clock.minutesPerDay in
    let localMinute := Clock.localMinuteOfDay tz d in
    exists dateStr timeStr,
      extractDateAndTimeFromEvent w (Some ev) = Some (DateOf dateStr, timeStr)
      /\ option_map timeStringToMinutes (readTimeText timeStr) = Some localMinute
      /\ String.length timeStr = 5%nat
      /\ (dateStr = localDay <-> tz <= localMinute < tz + Clock.minutesPerDay)
      /\ (0 < tz <= Clock.minutesPerDay -> dateTime start = None ->
          dateStr = localDay - 1 /\ timeStr = "00:00").
Proof.
  intros w ev start d Hstart Hd tz localDay localMinute.
  pose proof (localMinuteOfDay_bounds tz d) as Hlm. fold localMinute in Hlm.
  unfold Clock.minutesPerDay in *.
  exists (d / 1440), (minutesToTimeString localMinute).
  split; [exact (extract_started w ev start d Hstart Hd)|].
  split; [apply timeString_roundtrip; lia|].
  split; [apply minutesToTimeString_length; lia|].
  pose proof (utc_day_of_instant tz d) as Hday.
  fold localMinute localDay in Hday. unfold Clock.minutesPerDay in Hday.
  split.
  - rewrite Hday. split.
    + intro H. assert (H0 : (localMinute - tz) / 1440 = 0) by lia.
      apply Z.div_small_iff in H0; lia.
    + intro H. rewrite (Z.div_small (localMinute - tz) 1440) by lia. lia.
  - intros Htz Hall. unfold startInstant in Hd. rewrite Hall in Hd.
    destruct (date start) as [n|]; [|discriminate]. injection Hd as <-.
    assert (Hzero : localMinute = 0).
    { unfold localMinute, Clock.localMinuteOfDay, Clock.minutesPerDay.
      replace (n * 1440 - tzOffsetMin w + tz) with (0 + n * 1440) by (unfold tz; lia).
      now rewrite Z.mod_add by lia. }
    rewrite Hzero in *. split; [|reflexivity].
    rewrite Hday.
    replace ((0 - tz) / 1440) with (-1); [lia|].
    apply Z.div_unique with (r := 1440 - tz); lia.
Qed.

Lemma extract_event_local_time_utc_date_summer :
  exists dateStr timeStr,
    extractDateAndTimeFromEvent summerCalendarWorld (Some mondayAllDay)
    = Some (DateOf dateStr, timeStr)
    /\ DateOf dateStr = sunday /\ timeStr = "00:00".
Proof.
  destruct (extract_event_local_time_utc_date summerCalendarWorld mondayAllDay
              {| dateTime := None; date := Some (daysFromCivil 2024 6 10) |}
              (daysFromCivil 2024 6 10 * 1440 - 60) eq_refl eq_refl)
    as [dateStr [timeStr [Hextract [_ [_ [_ Hearly]]]]]].
  exists dateStr, timeStr. split; [exact Hextract|].
  destruct Hearly as [Hdate Htime]; [simpl; unfold Clock.minutesPerDay; lia|reflexivity|].
  split; [rewrite Hdate; reflexivity|exact Htime].
Defined.

(* ------------------------------------------------------------------ *)
(** ** The calendar event of a booking *)

Lemma localDateTime_some tz date time start :
  localDateTime tz date time = Some start ->
  exists n,
    date = DateOf n
    /\ start = n * Clock.minutesPerDay + timeStringToMinutes time - tz
    /\ 0 <= timeStringToMinutes time <= Clock.minutesPerDay.
Proof.
  unfold localDateTime, timeStringToMinutes, Clock.minutesPerDay.
  destruct date as [n|]; [|discriminate]. cbv zeta.
  destruct (_ || _) eqn:Hvalid; [|discriminate]. intros [= <-].
  exists n. split; [reflexivity|]. split; [lia|]. lia.
Qed.

Lemma overlapsWith_within s e inner outer :
  iv_start outer <= iv_start inner -> iv_end inner <= iv_end outer ->
  overlapsWith s e inner = true -> overlapsWith s e outer = true.
Proof.
  unfold overlapsWith. cbv zeta. intros Hs He H.
  apply Z.ltb_lt in H. apply Z.ltb_lt. lia.
Qed.

Lemma own_event_spec w insertReply b start end_ :
  In (EventsInsert start end_)
     (createOrReplaceCalendarEventForBooking w insertReply b) ->
  exists n time,
    b_status b = "confirmed" /\ googleAuth w = true
    /\ b_preferred_date b = Some (DateOf n) /\ b_preferred_time b = Some time
    /\ 0 <= timeStringToMinutes time <= Clock.minutesPerDay
    /\ start = n * Clock.minutesPerDay + timeStringToMinutes time - tzOffsetMin w
    /\ end_ = start + estimateBookingDurationMinutes (ServiceArray (b_services b)).
Proof.
  unfold createOrReplaceCalendarEventForBooking.
  destruct (String.eqb_spec (b_status b) "confirmed") as [Hstatus|_]; [|intros []].
  cbn [negb].
  destruct (b_preferred_date b) as [date|]; [|intros []].
  destruct (b_preferred_time b) as [time|]; [|intros []].
  destruct (googleAuth w); [|intros []]. cbn [negb]. cbv zeta.
  intro Hin. apply in_app_or in Hin. destruct Hin as [Hin|Hin].
  { destruct (b_calendar_event_id b) as [eventId|]; [|destruct Hin].
    destruct (JsString.isEmpty eventId); [destruct Hin|].
    destruct Hin as [Hin|[]]. discriminate. }
  destruct (localDateTime (tzOffsetMin w) date time) as [start'|] eqn:Hstart;
    [|destruct Hin].
  destruct (localDateTime_some _ _ _ _ Hstart) as [n [-> [-> Hrange]]].
  destruct Hin as [Hin|Hin].
  - injection Hin as <- <-. exists n, time. repeat split; try assumption; try lia.
  - destruct insertReply as [[eventId|]|]; try destruct Hin.
    destruct (JsString.isEmpty eventId); [destruct Hin|].
    destruct Hin as [Hin|[]]. discriminate.
Qed.

(** X20: the event that [createOrReplaceCalendarEventForBooking]
    inserts belongs to a confirmed booking, starts at the booking's
    local date and time and lasts for the estimated duration, without
    the buffer.  Read back by [getBusyIntervalsForDate], an event that
    ends before midnight is the block from the booking's start to its
    end without the buffer, so it lies within the booking's own
    interval and blocks no candidate that the booking does not block;
    read back by [extractDateAndTimeFromEvent] it has the booking's
    time, and the booking's date as long as the start is not earlier in
    the day than the zone is ahead of UTC. *)
Theorem own_event_within_booking_interval :
  forall w insertReply b start end_,
    In (EventsInsert start end_)
       (createOrReplaceCalendarEventForBooking w insertReply b) ->
    exists n time,
      b_status b = "confirmed"
      /\ b_preferred_date b = Some (DateOf n) /\ b_preferred_time b = Some time
      /\ let T := timeStringToMinutes time in
         let duration := estimateBookingDurationMinutes (ServiceArray (b_services b)) in
         start = n * Clock.minutesPerDay + T - tzOffsetMin w
         /\ end_ = start + duration
         /\ (0 <= duration -> T + duration < Clock.minutesPerDay ->
             blockOfEvent w (timedEvent start end_)
             = Some {| cb_start := T; cb_end := T + duration |}
             /\ forall s e,
                  overlapsWith s e
                    (calendarInterval {| cb_start := T; cb_end := T + duration |}) = true ->
                  overlapsWith s e (bookingInterval (rowOfBooking (DateOf n) time b))
                  = true)
         /\ (T < Clock.minutesPerDay ->
             exists dateStr,
               extractDateAndTimeFromEvent w (Some (timedEvent start end_))
               = Some (DateOf dateStr, minutesToTimeString T)
               /\ (dateStr = n <-> tzOffsetMin w <= T < tzOffsetMin w + Clock.minutesPerDay)).
Proof.
  intros w insertReply b start end_ Hin.
  destruct (own_event_spec w insertReply b start end_ Hin)
    as [n [time [Hstatus [Hauth [Hdate [Htime [Hrange [Hstart Hend]]]]]]]].
  exists n, time. split; [exact Hstatus|]. split; [exact Hdate|]. split; [exact Htime|].
  cbv zeta. split; [exact Hstart|]. split; [exact Hend|].
  set (T := timeStringToMinutes time) in *.
  set (duration := estimateBookingDurationMinutes (ServiceArray (b_services b))) in *.
  unfold Clock.minutesPerDay in *.
  assert (Hlocal : forall x, 0 <= x < 1440 ->
            Clock.localMinuteOfDay (tzOffsetMin w) (n * 1440 + x - tzOffsetMin w) = x).
  { intros x Hx. unfold Clock.localMinuteOfDay, Clock.minutesPerDay.
    replace (n * 1440 + x - tzOffsetMin w + tzOffsetMin w) with (x + n * 1440) by lia.
    rewrite Z.mod_add by lia. now apply Z.mod_small. }
  split.
  - intros Hdur Hday. split.
    + unfold blockOfEvent, timedEvent, startInstant, endInstant. simpl.
      rewrite Hstart, Hend, Hstart.
      replace (n * 1440 + T - tzOffsetMin w + duration)
        with (n * 1440 + (T + duration) - tzOffsetMin w) by lia.
      now rewrite !Hlocal by lia.
    + intros s e.
      apply overlapsWith_within;
        unfold calendarInterval, bookingInterval, rowOfBooking;
        cbn [iv_start iv_end cb_start cb_end row_services row_preferred_time];
        fold T duration; unfold BUFFER_AFTER_JOB_MIN; lia.
  - intro Hday.
    pose proof (extract_started w (timedEvent start end_)
                  {| dateTime := Some start; date := None |} start eq_refl eq_refl)
      as Hextract.
    rewrite Hstart in Hextract at 3. rewrite Hlocal in Hextract by lia.
    exists (start / 1440). split; [exact Hextract|].
    rewrite Hstart.
    replace (n * 1440 + T - tzOffsetMin w) with (T - tzOffsetMin w + n * 1440) by lia.
    rewrite Z.div_add by lia. split.
    + intro H. assert (H0 : (T - tzOffsetMin w) / 1440 = 0) by lia.
      apply Z.div_small_iff in H0; lia.
    + intro H. rewrite (Z.div_small (T - tzOffsetMin w) 1440) by lia. lia.
Qed.

Lemma own_event_within_booking_interval_at_nine :
  exists n time,
    b_status confirmedAtNine = "confirmed"
    /\ b_preferred_date confirmedAtNine = Some (DateOf n)
    /\ b_preferred_time confirmedAtNine = Some time
    /\ blockOfEvent summerCalendarWorld
         (timedEvent (19884 * 1440 + 9 * 60 - 60) (19884 * 1440 + 10 * 60 - 60))
       = Some {| cb_start := 9 * 60; cb_end := 10 * 60 |}.
Proof.
  destruct (own_event_within_booking_interval summerCalendarWorld (Some (Some "ev8"))
              confirmedAtNine (19884 * 1440 + 9 * 60 - 60) (19884 * 1440 + 10 * 60 - 60))
    as [n [time [Hstatus [Hdate [Htime [_ [_ [Hblock _]]]]]]]].
  - right. left. reflexivity.
  - exists n, time. split; [exact Hstatus|]. split; [exact Hdate|].
    split; [exact Htime|].
    assert (Ht : time = HM 9 0) by (simpl in Htime; congruence).
    subst time.
    destruct Hblock as [Hblock _];
      [vm_compute; discriminate|vm_compute; reflexivity|].
    exact Hblock.
Defined.

(* ------------------------------------------------------------------ *)
(** ** Calendar to bookings *)

Section SyncFacts.
Variable w : world.
Variable eventsGet : string -> option (option calendarEvent).

Local Abbreviation updated r :=
  (match syncUpdate w eventsGet r with
   | Some (newDate, newTime) =>
       {| sr_id := sr_id r;
          sr_status := sr_status r;
          sr_calendar_event_id := sr_calendar_event_id r;
          sr_preferred_date := newDate;
          sr_preferred_time := newTime |}
   | None => r
   end).

Local Abbreviation changes r :=
  (match syncUpdate w eventsGet r with Some _ => true | None => false end).

Lemma setDateTime_ids id d t table :
  map sr_id (setDateTime id d t table) = map sr_id table.
Proof.
  unfold setDateTime. rewrite map_map. apply map_ext.
  intro r. now destruct (sr_id r =? id).
Qed.

Lemma same_id_same_row (table : list syncRow) r r' :
  NoDup (map sr_id table) -> In r table -> In r' table -> sr_id r = sr_id r' -> r = r'.
Proof.
  induction table as [|x table IH]; simpl; [intros _ []|].
  intros Hnodup Hr Hr' Hid. inversion Hnodup as [|? ? Hnotin Hrest]; subst.
  destruct Hr as [<-|Hr], Hr' as [<-|Hr'].
  - reflexivity.
  - exfalso. apply Hnotin. rewrite Hid. now apply in_map.
  - exfalso. apply Hnotin. rewrite <- Hid. now apply in_map.
  - now apply IH.
Qed.

Lemma syncLoop_spec rows :
  forall table count,
    NoDup (map sr_id table) -> NoDup (map sr_id rows) -> incl rows table ->
    syncLoop w eventsGet rows table count
    = (map (fun r => if existsb (fun x => sr_id x =? sr_id r) rows then updated r else r)
         table,
       count + Z.of_nat (List.length (filter (fun r => changes r) rows))).
Proof.
  induction rows as [|row rows IH]; intros table count Htable Hrows Hincl.
  - simpl. rewrite map_id. f_equal. lia.
  - cbn [syncLoop]. inversion Hrows as [|? ? Hnotin Hrest]; subst.
    assert (Hrow : In row table) by (apply Hincl; now left).
    assert (Hother : forall r, In r rows -> sr_id r <> sr_id row).
    { intros r Hr Heq. apply Hnotin. rewrite <- Heq. now apply in_map. }
    assert (Hfresh : existsb (fun x => sr_id x =? sr_id row) rows = false).
    { apply not_true_is_false. intro H. apply existsb_exists in H.
      destruct H as [x [Hx Hid]]. apply Z.eqb_eq in Hid. exact (Hother x Hx Hid). }
    destruct (syncUpdate w eventsGet row) as [[newDate newTime]|] eqn:Hupdate.
    + rewrite IH.
      * f_equal.
        -- unfold setDateTime. rewrite map_map. apply map_ext_in.
           intros r Hr. cbn [existsb filter].
           destruct (Z.eqb_spec (sr_id r) (sr_id row)) as [Hid|Hid].
           ++ assert (r = row) by (now apply (same_id_same_row table)). subst r.
              cbn [sr_id]. rewrite Z.eqb_refl, Hfresh. cbn [orb].
              now rewrite Hupdate.
           ++ destruct (Z.eqb_spec (sr_id row) (sr_id r)) as [Hid'|_];
                [congruence|reflexivity].
        -- cbn [filter]. rewrite Hupdate. cbn [List.length]. lia.
      * now rewrite setDateTime_ids.
      * exact Hrest.
      * intros r Hr. unfold setDateTime. apply in_map_iff. exists r.
        split; [|apply Hincl; now right].
        destruct (Z.eqb_spec (sr_id r) (sr_id row)) as [Hid|_]; [|reflexivity].
        exfalso. exact (Hother r Hr Hid).
    + rewrite IH.
      * f_equal.
        -- apply map_ext_in. intros r Hr. cbn [existsb].
           destruct (Z.eqb_spec (sr_id row) (sr_id r)) as [Hid|_]; [|reflexivity].
           assert (r = row) by (apply (same_id_same_row table); auto). subst r.
           rewrite Hfresh, Hupdate. reflexivity.
        -- cbn [filter]. rewrite Hupdate. reflexivity.
      * exact Htable.
      * exact Hrest.
      * intros r Hr. apply Hincl. now right.
Qed.

Lemma NoDup_map_filter {A B} (f : A -> B) (p : A -> bool) l :
  NoDup (map f l) -> NoDup (map f (filter p l)).
Proof.
  induction l as [|x l IH]; simpl; [auto|].
  intro H. inversion H as [|? ? Hnotin Hrest]; subst.
  destruct (p x); [|now apply IH]. simpl. constructor; [|now apply IH].
  intro Hin. apply Hnotin. apply in_map_iff in Hin. destruct Hin as [y [Hy Hin]].
  apply filter_In in Hin. rewrite <- Hy. apply in_map. tauto.
Qed.

Lemma sync_spec table :
  googleAuth w = true -> NoDup (map sr_id table) ->
  syncConfirmedBookingsFromCalendar w eventsGet table
  = (map (syncedRow w eventsGet) table,
     Z.of_nat (List.length (filter (syncChanges w eventsGet) table))).
Proof.
  intros Hauth Hnodup. unfold syncConfirmedBookingsFromCalendar. rewrite Hauth.
  cbn [negb]. rewrite syncLoop_spec.
  - f_equal.
    + apply map_ext_in. intros r Hr. unfold syncedRow.
      destruct (syncSelected r) eqn:Hsel.
      * replace (existsb _ _) with true; [reflexivity|].
        symmetry. apply existsb_exists. exists r. split; [|apply Z.eqb_refl].
        apply filter_In. now split.
      * replace (existsb _ _) with false; [reflexivity|].
        symmetry. apply not_true_is_false. intro H. apply existsb_exists in H.
        destruct H as [x [Hx Hid]]. apply filter_In in Hx. destruct Hx as [Hx Hselx].
        apply Z.eqb_eq in Hid.
        assert (x = r) by (apply (same_id_same_row table); auto). subst x.
        congruence.
    + cbn [Z.add]. f_equal. f_equal. unfold syncChanges.
      induction table as [|r table IH]; [reflexivity|]. simpl.
      inversion Hnodup; subst.
      destruct (syncSelected r); simpl.
      * destruct (syncUpdate w eventsGet r); simpl; now rewrite IH.
      * now apply IH.
  - exact Hnodup.
  - now apply NoDup_map_filter.
  - intros r Hr. apply filter_In in Hr. tauto.
Qed.

Lemma syncUpdate_settled r newDate newTime :
  syncUpdate w eventsGet r = Some (newDate, newTime) ->
  syncUpdate w eventsGet
    {| sr_id := sr_id r;
       sr_status := sr_status r;
       sr_calendar_event_id := sr_calendar_event_id r;
       sr_preferred_date := newDate;
       sr_preferred_time := newTime |} = None.
Proof.
  unfold syncUpdate. cbn [sr_calendar_event_id sr_preferred_date sr_preferred_time].
  destruct (sr_calendar_event_id r) as [eventId|]; [|discriminate].
  destruct (JsString.isEmpty eventId); [discriminate|].
  destruct (eventsGet eventId) as [event|]; [|discriminate].
  destruct (extractDateAndTimeFromEvent w event) as [[d t]|]; [|discriminate].
  cbv zeta. destruct (_ || _); [|discriminate]. intros [= <- <-].
  now rewrite dateText_eqb_refl, String.eqb_refl.
Qed.

Lemma syncedRow_settled r : syncChanges w eventsGet (syncedRow w eventsGet r) = false.
Proof.
  unfold syncChanges, syncedRow.
  destruct (syncSelected r) eqn:Hsel; [|now rewrite Hsel].
  destruct (syncUpdate w eventsGet r) as [[d t]|] eqn:Hupdate.
  - rewrite (syncUpdate_settled r d t Hupdate). apply andb_false_r.
  - rewrite Hupdate. apply andb_false_r.
Qed.

Lemma syncedRow_idem r :
  syncedRow w eventsGet (syncedRow w eventsGet r) = syncedRow w eventsGet r.
Proof.
  pose proof (syncedRow_settled r) as H. unfold syncChanges in H.
  unfold syncedRow at 1.
  destruct (syncSelected (syncedRow w eventsGet r)); [|reflexivity].
  destruct (syncUpdate w eventsGet (syncedRow w eventsGet r)); [discriminate|reflexivity].
Qed.

Lemma syncedRow_keeps r :
  sr_id (syncedRow w eventsGet r) = sr_id r
  /\ sr_status (syncedRow w eventsGet r) = sr_status r
  /\ sr_calendar_event_id (syncedRow w eventsGet r) = sr_calendar_event_id r
  /\ (syncChanges w eventsGet r = false -> syncedRow w eventsGet r = r).
Proof.
  unfold syncedRow, syncChanges. destruct (syncSelected r); [|repeat split].
  destruct (syncUpdate w eventsGet r) as [[d t]|]; repeat split. discriminate.
Qed.

Lemma sync_twice table :
  NoDup (map sr_id table) ->
  let after := syncConfirmedBookingsFromCalendar w eventsGet table in
  syncConfirmedBookingsFromCalendar w eventsGet (fst after) = (fst after, 0)
  /\ map sr_id (fst after) = map sr_id table
  /\ map sr_status (fst after) = map sr_status table
  /\ map sr_calendar_event_id (fst after) = map sr_calendar_event_id table
  /\ 0 <= snd after <= Z.of_nat (List.length (filter syncSelected table))
  /\ (forall r, In r table -> sr_status r <> "confirmed" -> In r (fst after))
  /\ (snd after = 0 -> fst after = table).
Proof.
  intro Hnodup. cbv zeta.
  destruct (googleAuth w) eqn:Hauth.
  2:{ unfold syncConfirmedBookingsFromCalendar. rewrite !Hauth. cbn [negb fst snd].
      rewrite ?Hauth. cbn [negb]. repeat split; try reflexivity; try lia.
      intros r Hr _. exact Hr. }
  rewrite (sync_spec table Hauth Hnodup). cbn [fst snd].
  assert (Hids : map sr_id (map (syncedRow w eventsGet) table) = map sr_id table).
  { rewrite map_map. apply map_ext. intro r. apply syncedRow_keeps. }
  split.
  { rewrite sync_spec; [|exact Hauth|now rewrite Hids]. f_equal.
    - rewrite map_map. apply map_ext. intro r. apply syncedRow_idem.
    - replace (filter _ _) with (@nil syncRow); [reflexivity|].
      symmetry. induction table as [|r table IH]; [reflexivity|].
      inversion Hnodup; subst. simpl. rewrite syncedRow_settled. apply IH; auto.
      simpl in Hids. congruence. }
  split; [exact Hids|].
  split; [rewrite map_map; apply map_ext; intro r; apply syncedRow_keeps|].
  split; [rewrite map_map; apply map_ext; intro r; apply syncedRow_keeps|].
  split.
  { split; [lia|]. apply inj_le. clear. induction table as [|r table IH]; [simpl; lia|].
    simpl. unfold syncChanges at 1. destruct (syncSelected r); simpl; [|exact IH].
    destruct (syncUpdate w eventsGet r); simpl; lia. }
  split.
  { intros r Hr Hstatus. apply in_map_iff. exists r. split; [|exact Hr].
    apply syncedRow_keeps. unfold syncChanges, syncSelected.
    destruct (String.eqb_spec (sr_status r) "confirmed"); [contradiction|reflexivity]. }
  intro Hzero.
  assert (Hnone : filter (syncChanges w eventsGet) table = []).
  { destruct (filter (syncChanges w eventsGet) table); [reflexivity|simpl in Hzero; lia]. }
  rewrite <- (map_id table) at 2. apply map_ext_in. intros r Hr.
  apply syncedRow_keeps. destruct (syncChanges w eventsGet r) eqn:Hc; [|reflexivity].
  assert (In r (filter (syncChanges w eventsGet) table)) by (apply filter_In; auto).
  rewrite Hnone in H. destruct H.
Qed.

End SyncFacts.

(** X21: on a table whose ids are distinct, running
    [syncConfirmedBookingsFromCalendar] again right after a run, the
    calendar being as it was, updates nothing and returns 0.  A run
    keeps the ids, the statuses and the event ids of all rows, leaves
    every booking that is not confirmed as it is, counts at most the
    confirmed bookings that have an event id, and when it returns 0 the
    table is as before. *)
Theorem sync_settles_after_one_run :
  forall w eventsGet table,
    NoDup (map sr_id table) ->
    let after := syncConfirmedBookingsFromCalendar w eventsGet table in
    syncConfirmedBookingsFromCalendar w eventsGet (fst after) = (fst after, 0)
    /\ map sr_id (fst after) = map sr_id table
    /\ map sr_status (fst after) = map sr_status table
    /\ map sr_calendar_event_id (fst after) = map sr_calendar_event_id table
    /\ 0 <= snd after <= Z.of_nat (List.length (filter syncSelected table))
    /\ (forall r, In r table -> sr_status r <> "confirmed" -> In r (fst after))
    /\ (snd after = 0 -> fst after = table).
Proof. exact sync_twice. Qed.

Lemma sync_settles_after_one_run_moved :
  syncConfirmedBookingsFromCalendar summerCalendarWorld movedEvents syncTable
  = ([ {| sr_id := 7; sr_status := "confirmed"; sr_calendar_event_id := Some "ev7";
          sr_preferred_date := monday; sr_preferred_time := "11:15" |};
       {| sr_id := 8; sr_status := "pending"; sr_calendar_event_id := None;
          sr_preferred_date := monday; sr_preferred_time := "13:00" |} ], 1)
  /\ syncConfirmedBookingsFromCalendar summerCalendarWorld movedEvents
       (fst (syncConfirmedBookingsFromCalendar summerCalendarWorld movedEvents syncTable))
     = (fst (syncConfirmedBookingsFromCalendar summerCalendarWorld movedEvents syncTable),
        0).
Proof.
  assert (Hids : NoDup (map sr_id syncTable)).
  { repeat constructor; simpl; intuition discriminate. }
  pose proof (sync_settles_after_one_run summerCalendarWorld movedEvents syncTable Hids)
    as Hrun.
  cbv zeta in Hrun. split; [vm_compute; reflexivity|exact (proj1 Hrun)].
Defined.

(* ------------------------------------------------------------------ *)
(** ** The table under its handlers *)

Lemma FOP_inv {A} (R : A -> A -> Prop) a l :
  ForallOrdPairs R (a :: l) -> Forall (R a) l /\ ForallOrdPairs R l.
Proof. intro H. inversion H; subst. now split. Qed.

Lemma FOP_app {A} (R : A -> A -> Prop) l1 l2 :
  ForallOrdPairs R (l1 ++ l2)
  <-> ForallOrdPairs R l1 /\ ForallOrdPairs R l2
      /\ (forall x y, In x l1 -> In y l2 -> R x y).
Proof.
  induction l1 as [|a l1 IH]; simpl.
  - split; [intro H; repeat split; [constructor|exact H|intros x y []]|tauto].
  - split.
    + intro H. apply FOP_inv in H. destruct H as [Ha H].
      apply IH in H. destruct H as (H1 & H2 & H12).
      apply Forall_app in Ha. destruct Ha as [Ha1 Ha2].
      split; [now constructor|]. split; [exact H2|].
      intros x y [<-|Hx] Hy; [|now apply H12].
      rewrite Forall_forall in Ha2. now apply Ha2.
    + intros (H1 & H2 & H12). apply FOP_inv in H1. destruct H1 as [Ha H1].
      constructor.
      * apply Forall_app. split; [exact Ha|].
        apply Forall_forall. intros y Hy. apply H12; [now left|exact Hy].
      * apply IH. split; [exact H1|]. split; [exact H2|].
        intros x y Hx Hy. apply H12; [now right|exact Hy].
Qed.

Lemma FOP_flat_map_shrink {A B} (R : B -> B -> Prop) (h h' : A -> list B) l :
  (forall a, In a l -> h' a = h a \/ h' a = []) ->
  ForallOrdPairs R (flat_map h l) -> ForallOrdPairs R (flat_map h' l).
Proof.
  induction l as [|a l IH]; simpl; [auto|].
  intros Hsub H. apply FOP_app in H. destruct H as (H1 & H2 & H12).
  assert (Hin : forall y, In y (flat_map h' l) -> In y (flat_map h l)).
  { intros y Hy. apply in_flat_map in Hy. destruct Hy as [x [Hx Hy]].
    apply in_flat_map. exists x. split; [exact Hx|].
    destruct (Hsub x (or_intror Hx)) as [E|E]; rewrite E in Hy; [exact Hy|destruct Hy]. }
  apply FOP_app. destruct (Hsub a (or_introl eq_refl)) as [E|E]; rewrite E.
  - split; [exact H1|]. split; [apply IH; auto|].
    intros x y Hx Hy. apply H12; auto.
  - split; [constructor|]. split; [apply IH; auto|]. intros x y [].
Qed.

Lemma activeRows_rowsOn st date :
  activeRows st date = flat_map (rowsOn date) (st_bookings st).
Proof. reflexivity. Qed.

Lemma overlap_sym a b : overlap a b -> overlap b a.
Proof. unfold overlap. lia. Qed.

Section CreateFacts.
Variable w : world.
Variable st : store.
Variable req : createRequest.

Lemma createBooking_rejected error :
  fst (result (createBooking w st req)) = CreateRejected error ->
  snd (result (createBooking w st req)) = st
  /\ (error = MISSING_FIELDS
      \/ result (validateBooking w (validatedFields req)) = Rejected error).
Proof.
  unfold createBooking, validatedFields.
  destruct (cr_name req) as [name|]; [|intros [= <-]; split; [reflexivity|now left]].
  destruct (cr_postcode req) as [postcode|];
    [|intros [= <-]; split; [reflexivity|now left]].
  destruct (cr_preferred_date req) as [date|];
    [|intros [= <-]; split; [reflexivity|now left]].
  destruct (cr_preferred_time req) as [time|];
    [|intros [= <-]; split; [reflexivity|now left]].
  destruct (_ || _); [intros [= <-]; split; [reflexivity|now left]|].
  cbv zeta. rewrite result_bind.
  destruct (result (validateBooking w _)) as [|e] eqn:Hv.
  - discriminate.
  - intros [= <-]. split; [reflexivity|now right].
Qed.

Lemma createBooking_created id :
  fst (result (createBooking w st req)) = Created id ->
  exists name postcode date time,
    cr_name req = Some name /\ cr_postcode req = Some postcode
    /\ cr_preferred_date req = Some date /\ cr_preferred_time req = Some time
    /\ JsString.isEmpty name = false
    /\ result (validateBooking w (validatedFields req)) = Accepted
    /\ id = st_seq st + 1
    /\ snd (result (createBooking w st req))
       = {| st_bookings :=
              st_bookings st
              ++ [{| b_id := id;
                     b_name := name;
                     b_email := orNull (cr_email req);
                     b_phone := orNull (cr_phone req);
                     b_postcode := postcode;
                     b_car_make := orNull (cr_car_make req);
                     b_car_model := orNull (cr_car_model req);
                     b_services := match toServicesArray (cr_services req) with
                                   | ServiceArray items => items
                                   | NotAnArray => []
                                   end;
                     b_preferred_date := Some date;
                     b_preferred_time := Some time;
                     b_status := "pending";
                     b_calendar_event_id := None |}];
            st_seq := id |}.
Proof.
  unfold createBooking, validatedFields.
  destruct (cr_name req) as [name|]; [|discriminate].
  destruct (cr_postcode req) as [postcode|]; [|discriminate].
  destruct (cr_preferred_date req) as [date|]; [|discriminate].
  destruct (cr_preferred_time req) as [time|]; [|discriminate].
  destruct (JsString.isEmpty name) eqn:Hname; [discriminate|].
  destruct (JsString.isEmpty postcode); [discriminate|].
  cbn [orb]. cbv zeta. rewrite result_bind.
  destruct (result (validateBooking w _)) as [|e] eqn:Hv; [|discriminate].
  intros [= <-]. exists name, postcode, date, time. now repeat split.
Qed.

End CreateFacts.

Lemma toServicesArray_items v :
  ServiceArray (match toServicesArray v with
                | ServiceArray items => items
                | NotAnArray => []
                end) = toServicesArray v.
Proof. now destruct v. Qed.

Lemma createBooking_invariants w st req :
  readsStore w st -> tableOk st -> scheduleOk st ->
  let answer := result (createBooking w st req) in
  tableOk (snd answer) /\ scheduleOk (snd answer)
  /\ match fst answer with
     | Created id =>
         id = st_seq st + 1
         /\ result (validateBooking w (validatedFields req)) = Accepted
         /\ JsString.truthy (cr_name req) = true
         /\ exists new,
              st_bookings (snd answer) = st_bookings st ++ [new]
              /\ b_id new = id /\ b_status new = "pending"
              /\ b_calendar_event_id new = None
              /\ b_preferred_date new = cr_preferred_date req
              /\ b_preferred_time new = cr_preferred_time req
              /\ Some (b_postcode new) = cr_postcode req
              /\ ServiceArray (b_services new) = toServicesArray (cr_services req)
     | CreateRejected error =>
         snd answer = st
         /\ (error = MISSING_FIELDS
             \/ result (validateBooking w (validatedFields req)) = Rejected error)
     end.
Proof.
  intros Hreads [Hnodup Hrows] Hsched. cbv zeta.
  destruct (fst (result (createBooking w st req))) as [error|id] eqn:Hanswer.
  - destruct (createBooking_rejected w st req error Hanswer) as [Hst Hwhy].
    rewrite Hst. split; [now split|]. split; [exact Hsched|]. now split.
  - destruct (createBooking_created w st req id Hanswer)
      as (name & postcode & date & time & Hn & Hp & Hd & Ht & Hname & Hv & Hid & Hst).
    rewrite Hst. clear Hst.
    set (new := {| b_id := id; b_name := name |}) in *.
    split; [|split].
    + split; cbn [st_bookings st_seq].
      * rewrite map_app. cbn [map]. apply NoDup_app_remove_r with (l' := []).
        rewrite app_nil_r.
        assert (Hfresh : ~ In id (map b_id (st_bookings st))).
        { intro Hin. apply in_map_iff in Hin. destruct Hin as [b [Hb Hin]].
          rewrite Forall_forall in Hrows. specialize (Hrows b Hin). lia. }
        clear - Hnodup Hfresh. cbn [b_id].
        induction (map b_id (st_bookings st)) as [|x l IH]; simpl.
        -- constructor; [intros []|constructor].
        -- inversion Hnodup; subst. constructor.
           ++ intro Hin. apply in_app_or in Hin. destruct Hin as [Hin|[Hin|[]]].
              ** contradiction.
              ** apply Hfresh. now left.
           ++ apply IH; [assumption|]. intro Hin. apply Hfresh. now right.
      * apply Forall_app. split.
        -- eapply Forall_impl; [|exact Hrows]. intros b (Hle & Hdate & Htime).
           repeat split; try assumption. lia.
        -- constructor; [|constructor]. cbn. repeat split; try lia; discriminate.
    + intro day. rewrite activeRows_rowsOn. cbn [st_bookings].
      rewrite flat_map_app. apply FOP_app.
      split; [exact (Hsched day)|]. split.
      * cbn [flat_map]. rewrite app_nil_r. unfold rowsOn. cbn.
        destruct (dateText_eqb date day); repeat constructor.
      * intros r1 r2 Hr1 Hr2. cbn [flat_map] in Hr2. rewrite app_nil_r in Hr2.
        unfold rowsOn in Hr2. cbn in Hr2.
        destruct (dateText_eqb date day) eqn:Hday; [|destruct Hr2].
        destruct Hr2 as [<-|[]]. apply dateText_eqb_eq in Hday. subst day.
        apply validateBooking_accepted_spec in Hv.
        destruct Hv as (date' & time' & Hd' & Ht' & _ & _ & _ & _ & _ & Hfree & _).
        unfold validatedFields in Hd', Ht', Hfree. cbn in Hd', Ht', Hfree.
        rewrite Hd in Hd'. rewrite Ht in Ht'. injection Hd' as <-. injection Ht' as <-.
        intro Hov. apply Hfree. left. exists r1. split.
        -- apply (Permutation_in _ (Permutation_sym (Hreads date))). exact Hr1.
        -- cbv zeta. unfold overlap, bookingInterval, rowOfBooking in Hov.
           cbn [iv_start iv_end row_services row_preferred_time b_services] in Hov.
           unfold new in Hov. cbn [b_services] in Hov.
           rewrite toServicesArray_items in Hov.
           unfold storedServices, BUFFER_AFTER_JOB_MIN in *.
           replace (toServicesArray (toServicesArray (cr_services req)))
             with (toServicesArray (cr_services req))
             by (now destruct (cr_services req)).
           lia.
    + split; [exact Hid|]. split; [exact Hv|]. split.
      { rewrite Hn. unfold JsString.truthy. now rewrite Hname. }
      exists new. cbn [st_bookings]. split; [reflexivity|].
      unfold new. cbn. rewrite Hd, Ht, Hp. repeat split.
      apply toServicesArray_items.
Qed.

Lemma scenarioStore_read : readsStore scenarioWorld scenarioStore.
Proof.
  intro date. unfold scenarioWorld. cbn [bookingsForDate].
  destruct (dateText_eqb date monday) eqn:Hdate.
  - apply dateText_eqb_eq in Hdate. subst date. apply Permutation_refl.
  - unfold activeRows, scenarioStore. cbn [st_bookings flat_map].
    unfold confirmedAtNine at 1 2. cbn [b_preferred_date b_preferred_time].
    rewrite (dateText_eqb_sym monday date), Hdate, andb_false_r. apply Permutation_refl.
Qed.

Lemma scenarioStore_ok : tableOk scenarioStore /\ scheduleOk scenarioStore.
Proof.
  split.
  - split; cbn.
    + repeat constructor. intros [].
    + repeat constructor; cbn; try lia; discriminate.
  - intro date. unfold activeRows, scenarioStore. cbn [st_bookings flat_map].
    unfold confirmedAtNine at 1 2. cbn [b_preferred_date b_preferred_time].
    destruct (_ && _); repeat constructor.
Qed.

Lemma scenarioStore_proper : properSchedule scenarioStore.
Proof.
  intro date. unfold activeRows, scenarioStore. cbn [st_bookings flat_map].
  unfold confirmedAtNine at 1 2. cbn [b_preferred_date b_preferred_time].
  destruct (_ && _); repeat constructor.
Qed.

Lemma FOP_impl_in {A} (P R : A -> A -> Prop) l :
  (forall a b, In a l -> In b l -> P a b -> R a b) ->
  ForallOrdPairs P l -> ForallOrdPairs R l.
Proof.
  intros Himpl H. induction H as [|a l Ha Hl IH]; [constructor|].
  constructor.
  - rewrite Forall_forall in *. intros b Hb.
    apply Himpl; [now left|now right|exact (Ha b Hb)].
  - apply IH. intros x y Hx Hy. apply Himpl; now right.
Qed.

(** Intervals that are in order and do not overlap: neither job begins
    while the other is under way. *)
Lemma schedule_no_double st :
  scheduleOk st -> properSchedule st -> noDoubleBooking st.
Proof.
  intros Hsched Hproper date.
  refine (FOP_impl_in _ _ _ _ (Hsched date)).
  intros r1 r2 Hr1 Hr2 Hfree.
  specialize (Hproper date). rewrite Forall_forall in Hproper.
  pose proof (Hproper r1 Hr1). pose proof (Hproper r2 Hr2).
  unfold overlap, startsDuring in *. split; intro; lia.
Qed.

Lemma plainServices_toServicesArray v :
  plainServices v -> plainServices (toServicesArray v).
Proof. destruct v; simpl; [constructor|trivial]. Qed.

Lemma createBooking_proper w st req :
  properSchedule st -> plainServices (cr_services req) ->
  properSchedule (snd (result (createBooking w st req))).
Proof.
  intros Hproper Hplain.
  destruct (fst (result (createBooking w st req))) as [error|id] eqn:Hanswer.
  - destruct (createBooking_rejected w st req error Hanswer) as [Hst _].
    now rewrite Hst.
  - destruct (createBooking_created w st req id Hanswer)
      as (name & postcode & date & time & Hn & Hp & Hd & Ht & Hname & Hv & Hid & Hst).
    rewrite Hst. intro day. rewrite activeRows_rowsOn. cbn [st_bookings].
    rewrite flat_map_app. apply Forall_app. split; [exact (Hproper day)|].
    cbn [flat_map]. rewrite app_nil_r. unfold rowsOn. cbn.
    destruct (dateText_eqb date day); [|constructor].
    constructor; [|constructor].
    apply bookingInterval_ordered. unfold storedServices, rowOfBooking.
    cbn [row_services b_services]. rewrite toServicesArray_items.
    now apply plainServices_toServicesArray.
Qed.



(* ------------------------------------------------------------------ *)
(** ** Changing the status *)

Lemma setStatus_ids id status bookings :
  map b_id (setStatus id status bookings) = map b_id bookings.
Proof.
  unfold setStatus. rewrite map_map. apply map_ext. intro b.
  now destruct (b_id b =? id).
Qed.

Lemma setStatus_find id status bookings :
  existsb (fun b => b_id b =? id) bookings = true ->
  exists old updated,
    find (fun b => b_id b =? id) (setStatus id status bookings) = Some updated
    /\ In old bookings /\ b_id old = id
    /\ b_status updated = status /\ sameButStatus updated old
    /\ In updated (setStatus id status bookings).
Proof.
  induction bookings as [|b bookings IH]; simpl; [discriminate|].
  destruct (Z.eqb_spec (b_id b) id) as [Hid|Hid].
  - intros _. cbn [b_id]. destruct (Z.eqb_spec (b_id b) id); [|contradiction].
    eexists b, _. split; [reflexivity|]. split; [now left|]. split; [exact Hid|].
    split; [reflexivity|]. split; [now repeat split|now left].
  - simpl. intro H. destruct (IH H) as (old & updated & Hfind & Hin & Hold & Hs & Hsame & Hu).
    destruct (Z.eqb_spec (b_id b) id); [contradiction|].
    exists old, updated. split; [exact Hfind|]. split; [now right|].
    split; [exact Hold|]. split; [exact Hs|]. split; [exact Hsame|now right].
Qed.

Lemma setStatus_in id status bookings b :
  In b (setStatus id status bookings)
  <-> (In b bookings /\ b_id b <> id)
      \/ (exists old, In old bookings /\ b_id old = id
                      /\ b_status b = status /\ sameButStatus b old).
Proof.
  unfold setStatus. rewrite in_map_iff. split.
  - intros [x [Hx Hin]]. destruct (Z.eqb_spec (b_id x) id) as [Hid|Hid].
    + right. exists x. subst b. now repeat split.
    + left. subst b. now split.
  - intros [[Hin Hid]|[old [Hin [Hid [Hs Hsame]]]]].
    + exists b. split; [|exact Hin]. destruct (Z.eqb_spec (b_id b) id); [contradiction|].
      reflexivity.
    + exists old. split; [|exact Hin]. destruct (Z.eqb_spec (b_id old) id); [|contradiction].
      destruct b, old. unfold sameButStatus in Hsame. cbn in *.
      destruct Hsame as (? & ? & ? & ? & ? & ? & ? & ? & ? & ? & ?). now subst.
Qed.

Lemma existsb_id_false id (bookings : list booking) :
  existsb (fun b => b_id b =? id) bookings = false ->
  forall b, In b bookings -> b_id b <> id.
Proof.
  intros H b Hin Hid.
  assert (Htrue : existsb (fun b => b_id b =? id) bookings = true).
  { apply existsb_exists. exists b. split; [exact Hin|now apply Z.eqb_eq]. }
  congruence.
Qed.

Lemma includes_In l s : includes l s = true <-> In s l.
Proof.
  unfold includes. rewrite existsb_exists. split.
  - intros [x [Hin Heq]]. apply String.eqb_eq in Heq. now subst.
  - intro Hin. exists s. split; [exact Hin|apply String.eqb_refl].
Qed.

Lemma create_calls_no_clear w insertReply b id :
  ~ In (ClearEventId id) (createOrReplaceCalendarEventForBooking w insertReply b).
Proof.
  unfold createOrReplaceCalendarEventForBooking.
  destruct (negb _); [intros []|].
  destruct (b_preferred_date b); [|intros []].
  destruct (b_preferred_time b); [|intros []].
  destruct (negb _); [intros []|]. cbv zeta.
  intro Hin. apply in_app_or in Hin. destruct Hin as [Hin|Hin].
  - destruct (b_calendar_event_id b) as [eventId|]; [|destruct Hin].
    destruct (JsString.isEmpty eventId); [destruct Hin|].
    destruct Hin as [Hin|[]]. discriminate.
  - destruct (localDateTime _ _ _); [|destruct Hin].
    destruct Hin as [Hin|Hin]; [discriminate|].
    destruct insertReply as [[eventId|]|]; try destruct Hin.
    destruct (JsString.isEmpty eventId); [destruct Hin|].
    destruct Hin as [Hin|[]]. discriminate.
Qed.

Lemma delete_calls_no_insert w deleteOk b s e :
  ~ In (EventsInsert s e) (deleteCalendarEventForBooking w deleteOk b).
Proof.
  unfold deleteCalendarEventForBooking.
  destruct (b_calendar_event_id b) as [eventId|]; [|intros []].
  destruct (JsString.isEmpty eventId); [intros []|].
  destruct (negb _); [intros []|].
  destruct deleteOk; simpl; intuition discriminate.
Qed.

Lemma calendarCallsFor_facts w insertReply deleteOk updated :
  let calls := calendarCallsFor w insertReply deleteOk updated in
  (forall s e, In (EventsInsert s e) calls -> b_status updated = "confirmed")
  /\ (forall id, In (ClearEventId id) calls ->
        id = b_id updated
        /\ (b_status updated = "declined" \/ b_status updated = "cancelled"))
  /\ (b_status updated = "pending" -> calls = []).
Proof.
  cbv zeta. unfold calendarCallsFor.
  destruct (String.eqb_spec (b_status updated) "confirmed") as [Hc|Hc].
  - split; [auto|]. split.
    + intros id Hin. exfalso. exact (create_calls_no_clear _ _ _ _ Hin).
    + intro Hp. rewrite Hp in Hc. discriminate.
  - destruct (includes _ (b_status updated)) eqn:Hinc.
    + apply includes_In in Hinc. split.
      * intros s e Hin. exfalso. exact (delete_calls_no_insert _ _ _ _ _ Hin).
      * split.
        -- intros id Hin. split; [|simpl in Hinc; intuition].
           unfold deleteCalendarEventForBooking in Hin.
           destruct (b_calendar_event_id updated) as [eventId|]; [|destruct Hin].
           destruct (JsString.isEmpty eventId); [destruct Hin|].
           destruct (negb _); [destruct Hin|].
           destruct deleteOk; simpl in Hin; intuition congruence.
        -- intro Hp. rewrite Hp in Hinc. simpl in Hinc. intuition discriminate.
    + split; [intros s e []|]. split; [intros id []|reflexivity].
Qed.

Lemma rowsOn_status date old updated :
  sameButStatus updated old ->
  isActive old = true \/ isActive updated = false ->
  rowsOn date updated = rowsOn date old \/ rowsOn date updated = [].
Proof.
  intros (_ & _ & _ & _ & Hp & _ & _ & Hs & Hd & Ht & _) Hactive.
  unfold rowsOn, rowOfBooking. rewrite Hd, Ht, Hp, Hs.
  destruct (b_preferred_date old) as [d|]; [|now left].
  destruct (b_preferred_time old) as [t|]; [|now left].
  destruct (isActive updated) eqn:Hu.
  - destruct Hactive as [Ho|Ho]; [|discriminate]. rewrite Ho. now left.
  - now right.
Qed.

Lemma flat_map_map {A B C} (g : A -> B) (h : B -> list C) l :
  flat_map h (map g l) = flat_map (fun a => h (g a)) l.
Proof. induction l as [|a l IH]; simpl; [reflexivity|now rewrite IH]. Qed.

Lemma updateBookingStatus_spec w insertReply deleteOk st bookingId status :
  tableOk st ->
  let answer := updateBookingStatus w insertReply deleteOk st bookingId status in
  tableOk (snd answer)
  /\ map b_id (st_bookings (snd answer)) = map b_id (st_bookings st)
  /\ st_seq (snd answer) = st_seq st
  /\ match fst answer with
     | StatusInvalid =>
         snd answer = st
         /\ forall text, status = Some text -> ~ In (requestedStatus text) allowedStatuses
     | StatusNotFound =>
         snd answer = st
         /\ forall b, In b (st_bookings st) -> b_id b <> bookingId
     | StatusUpdated updated calls =>
         exists text old,
           status = Some text /\ In (requestedStatus text) allowedStatuses
           /\ In old (st_bookings st) /\ b_id old = bookingId
           /\ b_status updated = requestedStatus text /\ sameButStatus updated old
           /\ (forall b, In b (st_bookings (snd answer))
                         <-> b = updated \/ (In b (st_bookings st) /\ b_id b <> bookingId))
           /\ (forall s e, In (EventsInsert s e) calls -> b_status updated = "confirmed")
           /\ (forall id, In (ClearEventId id) calls ->
                 id = bookingId
                 /\ (b_status updated = "declined" \/ b_status updated = "cancelled"))
           /\ (b_status updated = "pending" -> calls = [])
     end
  /\ (scheduleOk st ->
      (forall old text,
         In old (st_bookings st) -> b_id old = bookingId -> status = Some text ->
         isActive old = true
         \/ includes ["pending"; "confirmed"] (requestedStatus text) = false) ->
      scheduleOk (snd answer)).
Proof.
  intros [Hnodup Hrows]. cbv zeta. unfold updateBookingStatus.
  destruct status as [text|].
  2:{ cbn. repeat split; auto. discriminate. }
  cbv zeta. fold (requestedStatus text).
  destruct (includes allowedStatuses (requestedStatus text)) eqn:Hallowed; cbn [negb].
  2:{ cbn. repeat split; auto.
      intros text' [= <-] Hin.
      assert (Hinc : includes allowedStatuses (requestedStatus text) = true)
        by (apply includes_In; exact Hin).
      congruence. }
  destruct (existsb (fun b => b_id b =? bookingId) (st_bookings st)) eqn:Hex; cbn [negb].
  2:{ cbn. repeat split; auto. now apply existsb_id_false. }
  destruct (setStatus_find bookingId (requestedStatus text) (st_bookings st) Hex)
    as (old & updated & Hfind & Hold & Hid & Hs & Hsame & Hupd).
  cbn [st_bookings st_seq]. rewrite Hfind. cbn [fst snd st_bookings st_seq].
  assert (Hunique : forall b, In b (setStatus bookingId (requestedStatus text)
                                      (st_bookings st)) ->
                              b_id b = bookingId -> b = updated).
  { intros b Hb Hbid.
    assert (Hnodup' : NoDup (map b_id (setStatus bookingId (requestedStatus text)
                                         (st_bookings st))))
      by now rewrite setStatus_ids.
    clear - Hnodup' Hb Hupd Hbid Hsame Hid.
    assert (Hu : b_id updated = bookingId) by (destruct Hsame as [E _]; congruence).
    induction (setStatus bookingId (requestedStatus text) (st_bookings st))
      as [|x l IH]; [destruct Hb|].
    simpl in Hnodup'. inversion Hnodup' as [|? ? Hnotin Hrest]; subst.
    destruct Hb as [<-|Hb], Hupd as [Hx|Hupd]; try congruence.
    - exfalso. apply Hnotin. rewrite Hbid, <- Hu. now apply in_map.
    - exfalso. apply Hnotin. subst x. rewrite Hu, <- Hbid. now apply in_map.
    - now apply IH. }
  split; [|split; [apply setStatus_ids|split; [reflexivity|split]]].
  - split; cbn [st_bookings st_seq]; [now rewrite setStatus_ids|].
    apply Forall_forall. intros b Hb. rewrite Forall_forall in Hrows.
    apply setStatus_in in Hb.
    destruct Hb as [[Hb _]|[o [Ho [_ [_ Hso]]]]]; [now apply Hrows|].
    specialize (Hrows o Ho).
    destruct Hso as (E1 & _ & _ & _ & _ & _ & _ & _ & E2 & E3 & _).
    rewrite E1, E2, E3. exact Hrows.
  - exists text, old. split; [reflexivity|]. split; [now apply includes_In|].
    split; [exact Hold|]. split; [exact Hid|]. split; [exact Hs|].
    split; [exact Hsame|]. split.
    + intro b. rewrite setStatus_in. split.
      * intros [[Hb Hbid]|[o [Ho [Hoid [Hbs Hbo]]]]]; [right; now split|].
        left. apply Hunique.
        -- apply setStatus_in. right. exists o.
           split; [exact Ho|]. split; [exact Hoid|]. split; [exact Hbs|exact Hbo].
        -- destruct Hbo as [E _]. congruence.
      * intros [->|[Hb Hbid]]; [|left; now split].
        right. exists old.
        split; [exact Hold|]. split; [exact Hid|]. split; [exact Hs|exact Hsame].
    + assert (Hu : b_id updated = bookingId) by (destruct Hsame as [E _]; congruence).
      rewrite <- Hu. apply calendarCallsFor_facts.
  - intros Hsched Hsafe date. rewrite activeRows_rowsOn. cbn [st_bookings].
    unfold setStatus. rewrite flat_map_map.
    apply FOP_flat_map_shrink with (h := rowsOn date); [|exact (Hsched date)].
    intros b Hb. destruct (Z.eqb_spec (b_id b) bookingId) as [Hbid|_]; [|now left].
    apply rowsOn_status; [now repeat split|].
    destruct (Hsafe b text Hb Hbid eq_refl) as [Ha|Ha]; [now left|right].
    unfold isActive. cbn [b_status]. exact Ha.
Qed.

(** Which of the two errors is answered: the status is checked first. *)
Lemma updateBookingStatus_answer w insertReply deleteOk st bookingId status :
  let answer := updateBookingStatus w insertReply deleteOk st bookingId status in
  (fst answer = StatusInvalid
   <-> forall text, status = Some text ->
                    ~ In (requestedStatus text) allowedStatuses)
  /\ (fst answer = StatusNotFound
      <-> (exists text, status = Some text
                        /\ In (requestedStatus text) allowedStatuses)
          /\ forall b, In b (st_bookings st) -> b_id b <> bookingId).
Proof.
  cbv zeta. unfold updateBookingStatus.
  destruct status as [text|].
  2:{ cbn [fst]. split.
      - split; [intros _ text H; discriminate H|reflexivity].
      - split; [discriminate|]. intros [(text & H & _) _]. discriminate H. }
  cbv zeta. fold (requestedStatus text).
  destruct (includes allowedStatuses (requestedStatus text)) eqn:Hallowed; cbn [negb].
  - assert (Hin : In (requestedStatus text) allowedStatuses)
      by (apply includes_In; exact Hallowed).
    destruct (existsb (fun b => b_id b =? bookingId) (st_bookings st)) eqn:Hexists;
      cbn [negb].
    + destruct (setStatus_find bookingId (requestedStatus text) (st_bookings st) Hexists)
        as (old & updated & Hfind & Hold & Hid & _).
      cbn [st_bookings]. rewrite Hfind. cbn [fst]. split.
      * split; [discriminate|]. intro H. elim (H text eq_refl Hin).
      * split; [discriminate|]. intros [_ H]. elim (H old Hold Hid).
    + cbn [fst]. split.
      * split; [discriminate|]. intro H. elim (H text eq_refl Hin).
      * split; [|reflexivity]. intros _. split; [now exists text|].
        now apply existsb_id_false.
  - assert (Hout : ~ In (requestedStatus text) allowedStatuses).
    { intro Hin. apply includes_In in Hin. congruence. }
    cbn [fst]. split.
    + split; [|reflexivity]. intros _ text' [= <-]. exact Hout.
    + split; [discriminate|]. intros [(text' & [= <-] & Hin) _]. contradiction.
Qed.

(** X23: [PATCH /api/bookings/:id/status] answers 400 exactly for a
    status that, trimmed and in lower case, is none of pending,
    confirmed, declined and cancelled, and 404 for an id that no row
    has; in both cases the table stays as it is.  Otherwise the row
    with that id, and no other, gets the status in its trimmed
    lower-case form and keeps every other column; a calendar event is
    only inserted when the new status is confirmed, the event id is
    only cleared for a declined or cancelled booking, and a pending
    status starts no calendar call.  The ids stay distinct.  The
    booking's place in the schedule is not checked again: the
    schedule stays free of overlaps when the booking was active before
    or is not active afterwards.  The status is checked first: the
    answer is 400 exactly when the status is not allowed, whatever the
    id, and 404 exactly when the status is allowed and no row has the
    id. *)
Theorem updateBookingStatus_effect :
  forall w insertReply deleteOk st bookingId status,
    tableOk st ->
    let answer := updateBookingStatus w insertReply deleteOk st bookingId status in
    tableOk (snd answer)
    /\ map b_id (st_bookings (snd answer)) = map b_id (st_bookings st)
    /\ st_seq (snd answer) = st_seq st
    /\ match fst answer with
       | StatusInvalid =>
           snd answer = st
           /\ forall text, status = Some text -> ~ In (requestedStatus text) allowedStatuses
       | StatusNotFound =>
           snd answer = st
           /\ forall b, In b (st_bookings st) -> b_id b <> bookingId
       | StatusUpdated updated calls =>
           exists text old,
             status = Some text /\ In (requestedStatus text) allowedStatuses
             /\ In old (st_bookings st) /\ b_id old = bookingId
             /\ b_status updated = requestedStatus text /\ sameButStatus updated old
             /\ (forall b, In b (st_bookings (snd answer))
                           <-> b = updated
                               \/ (In b (st_bookings st) /\ b_id b <> bookingId))
             /\ (forall s e, In (EventsInsert s e) calls -> b_status updated = "confirmed")
             /\ (forall id, In (ClearEventId id) calls ->
                   id = bookingId
                   /\ (b_status updated = "declined" \/ b_status updated = "cancelled"))
             /\ (b_status updated = "pending" -> calls = [])
       end
    /\ (scheduleOk st ->
        (forall old text,
           In old (st_bookings st) -> b_id old = bookingId -> status = Some text ->
           isActive old = true
           \/ includes ["pending"; "confirmed"] (requestedStatus text) = false) ->
        scheduleOk (snd answer))
    /\ (fst answer = StatusInvalid
        <-> forall text, status = Some text ->
                         ~ In (requestedStatus text) allowedStatuses)
    /\ (fst answer = StatusNotFound
        <-> (exists text, status = Some text
                          /\ In (requestedStatus text) allowedStatuses)
            /\ forall b, In b (st_bookings st) -> b_id b <> bookingId).
Proof.
  intros w insertReply deleteOk st bookingId status Htable.
  pose proof (updateBookingStatus_spec w insertReply deleteOk st bookingId status Htable)
    as Hspec.
  cbv zeta in Hspec |- *. destruct Hspec as (H1 & H2 & H3 & H4 & H5).
  split; [exact H1|]. split; [exact H2|]. split; [exact H3|]. split; [exact H4|].
  split; [exact H5|].
  exact (updateBookingStatus_answer w insertReply deleteOk st bookingId status).
Qed.

Lemma updateBookingStatus_effect_cancel :
  map b_status
    (st_bookings (snd (updateBookingStatus summerCalendarWorld None true scenarioStore 7
                         (Some " Cancelled "))))
  = ["cancelled"]
  /\ tableOk (snd (updateBookingStatus summerCalendarWorld None true scenarioStore 7
                     (Some " Cancelled ")))
  /\ scheduleOk (snd (updateBookingStatus summerCalendarWorld None true scenarioStore 7
                        (Some " Cancelled "))).
Proof.
  pose proof (updateBookingStatus_effect summerCalendarWorld None true scenarioStore 7
                (Some " Cancelled ") (proj1 scenarioStore_ok)) as Hrun.
  cbv zeta in Hrun. destruct Hrun as (Htable & _ & _ & _ & Hsched & _).
  split; [vm_compute; reflexivity|]. split; [exact Htable|].
  apply Hsched; [exact (proj2 scenarioStore_ok)|].
  intros old text _ _ [= <-]. right. vm_compute. reflexivity.
Defined.

(* ------------------------------------------------------------------ *)
(** ** Clearing the history *)

Lemma flat_map_filter {A B} (p : A -> bool) (h : A -> list B) l :
  flat_map h (filter p l) = flat_map (fun a => if p a then h a else []) l.
Proof.
  induction l as [|a l IH]; simpl; [reflexivity|].
  destruct (p a); simpl; now rewrite IH.
Qed.

Lemma filter_split_length {A} (p : A -> bool) l :
  (List.length (filter p l) + List.length (filter (fun a => negb (p a)) l)
   = List.length l)%nat.
Proof.
  induction l as [|a l IH]; simpl; [reflexivity|].
  destruct (p a); simpl; lia.
Qed.

(** X24: [DELETE /api/bookings/history] removes exactly the
    confirmed and the declined bookings and answers their number; the
    pending and the cancelled bookings, and any other, stay as they are
    and in their order (the table afterwards is the table before with
    these rows filtered out).  The counter of the ids is not set back, so a
    booking created afterwards gets an id that no booking had before;
    the ids stay distinct, and a schedule free of overlaps stays so. *)
Theorem clearHistory_effect :
  forall st,
    tableOk st ->
    let answer := clearHistory st in
    tableOk (snd answer)
    /\ st_seq (snd answer) = st_seq st
    /\ (forall b, In b (st_bookings (snd answer))
                  <-> In b (st_bookings st)
                      /\ b_status b <> "confirmed" /\ b_status b <> "declined")
    /\ fst answer + Z.of_nat (List.length (st_bookings (snd answer)))
       = Z.of_nat (List.length (st_bookings st))
    /\ (forall b, In b (st_bookings st) -> b_id b < st_seq (snd answer) + 1)
    /\ (scheduleOk st -> scheduleOk (snd answer))
    /\ st_bookings (snd answer)
       = filter (fun b => negb (String.eqb (b_status b) "confirmed")
                          && negb (String.eqb (b_status b) "declined"))
           (st_bookings st).
Proof.
  intros st [Hnodup Hrows]. cbv zeta. unfold clearHistory. cbn [fst snd st_bookings st_seq].
  split; [|split; [reflexivity|split; [|split; [|split; [|split]]]]].
  - split; cbn [st_bookings st_seq].
    + now apply NoDup_map_filter.
    + apply Forall_forall. intros b Hb. apply filter_In in Hb.
      rewrite Forall_forall in Hrows. now apply Hrows.
  - intro b. rewrite filter_In, negb_true_iff. split.
    + intros [Hin Hinc]. split; [exact Hin|].
      split; intro Hs; rewrite Hs in Hinc; discriminate.
    + intros [Hin [Hc Hd]]. split; [exact Hin|].
      apply not_true_is_false. intro Hinc. apply includes_In in Hinc.
      simpl in Hinc. intuition congruence.
  - pose proof (filter_split_length
                  (fun b => includes ["confirmed"; "declined"] (b_status b))
                  (st_bookings st)). lia.
  - intros b Hb. rewrite Forall_forall in Hrows. specialize (Hrows b Hb). lia.
  - intros Hsched date. rewrite activeRows_rowsOn. cbn [st_bookings].
    rewrite flat_map_filter.
    apply FOP_flat_map_shrink with (h := rowsOn date); [|exact (Hsched date)].
    intros b _. destruct (negb _); [now left|now right].
  - apply filter_ext. intro b. unfold includes. cbn [existsb].
    rewrite orb_false_r, negb_orb. reflexivity.
Qed.

Lemma clearHistory_effect_scenario :
  clearHistory scenarioStore = (1, {| st_bookings := []; st_seq := 7 |})
  /\ tableOk (snd (clearHistory scenarioStore)).
Proof.
  pose proof (clearHistory_effect scenarioStore (proj1 scenarioStore_ok)) as Hrun.
  cbv zeta in Hrun. split; [vm_compute; reflexivity|exact (proj1 Hrun)].
Defined.

(* ------------------------------------------------------------------ *)
(** ** Reading a number back *)

Lemma digitsValue_uint a d :
  digitsValue (Some a) (NilEmpty.string_of_uint d) = Some (uintValue a d).
Proof.
  revert a. induction d; intro a; simpl; try reflexivity; apply IHd.
Qed.

Lemma uintValue_pos d p : uintValue (Z.pos p) d = Z.pos (Pos.of_uint_acc d p).
Proof.
  revert p. induction d; intro p; cbn [uintValue Pos.of_uint_acc]; [reflexivity|..];
    match goal with
    | |- uintValue ?a d = Z.pos (Pos.of_uint_acc d ?q) =>
        replace a with (Z.pos q) by lia; apply IHd
    end.
Qed.

Lemma uintValue_zero d : uintValue 0 d = Z.of_N (Pos.of_uint d).
Proof.
  induction d; simpl; try reflexivity; try exact IHd; apply uintValue_pos.
Qed.

Lemma digits_uint d : allChars isDigit (NilEmpty.string_of_uint d) = true.
Proof. induction d; simpl; auto. Qed.

Lemma numberText_pos p :
  TimeFormat.numberText (Z.pos p) = NilEmpty.string_of_uint (Pos.to_uint p).
Proof.
  unfold TimeFormat.numberText, NilZero.string_of_int, NilZero.string_of_uint. simpl.
  destruct (Pos.to_uint p) eqn:E; try reflexivity.
  exfalso. exact (DecimalPos.Unsigned.to_uint_nonnil p E).
Qed.

Lemma numberText_digits n :
  0 <= n ->
  allChars isDigit (TimeFormat.numberText n) = true
  /\ TimeFormat.numberText n <> ""
  /\ digitsValue (Some 0) (TimeFormat.numberText n) = Some n.
Proof.
  intro H. destruct n as [|p|p]; [repeat split; discriminate| |lia].
  rewrite numberText_pos. split; [apply digits_uint|]. split.
  - destruct (Pos.to_uint p) eqn:E; try discriminate.
    exfalso. exact (DecimalPos.Unsigned.to_uint_nonnil p E).
  - rewrite digitsValue_uint, uintValue_zero, DecimalPos.Unsigned.of_to. reflexivity.
Qed.

Lemma digitsValue_start s :
  allChars isDigit s = true -> s <> "" ->
  digitsValue None s = digitsValue (Some 0) s.
Proof.
  destruct s as [|c r]; [congruence|]. simpl. intros H _.
  apply andb_true_iff in H. destruct H as [Hc _]. now rewrite Hc.
Qed.

Lemma digitsValue_zeros k s :
  digitsValue (Some 0) (TimeFormat.zeros k ++ s) = digitsValue (Some 0) s.
Proof. induction k as [|k IH]; simpl; [reflexivity|exact IH]. Qed.

Lemma digits_zeros k : allChars isDigit (TimeFormat.zeros k) = true.
Proof. induction k as [|k IH]; simpl; auto. Qed.

Lemma allChars_app test a b :
  allChars test (a ++ b) = allChars test a && allChars test b.
Proof.
  induction a as [|c a IH]; simpl; [reflexivity|]. now rewrite IH, andb_assoc.
Qed.

Lemma allChars_impl (p q : ascii -> bool) s :
  (forall c, p c = true -> q c = true) -> allChars p s = true -> allChars q s = true.
Proof.
  intro H. induction s as [|c r IH]; simpl; [reflexivity|].
  intro Hs. apply andb_true_iff in Hs. destruct Hs as [Hc Hr].
  now rewrite (H c Hc), IH.
Qed.

(** A number written with [padStart] reads back as it was. *)
Lemma padded_number width n :
  0 <= n ->
  let text := TimeFormat.padStart width (TimeFormat.numberText n) in
  allChars isDigit text = true /\ text <> "" /\ digitsValue None text = Some n.
Proof.
  intro H. cbv zeta. unfold TimeFormat.padStart.
  destruct (numberText_digits n H) as (Hdigits & Hne & Hvalue).
  set (k := (width - String.length (TimeFormat.numberText n))%nat). clearbody k.
  split; [now rewrite allChars_app, digits_zeros, Hdigits|]. split.
  - destruct k; simpl; [exact Hne|discriminate].
  - rewrite digitsValue_start.
    + now rewrite digitsValue_zeros.
    + now rewrite allChars_app, digits_zeros, Hdigits.
    + destruct k; simpl; [exact Hne|discriminate].
Qed.

Lemma parseInt10_digits s :
  allChars isDigit s = true -> parseInt10 s = digitsValue None s.
Proof.
  destruct s as [|c r]; [reflexivity|]. simpl. intro H.
  apply andb_true_iff in H. destruct H as [Hc _].
  destruct c as [[] [] [] [] [] [] [] []]; try discriminate; reflexivity.
Qed.

(* ------------------------------------------------------------------ *)
(** ** Trimming *)

Lemma trimStart_spaces pre s :
  allChars JsString.isSpace pre = true ->
  JsString.trimStart (pre ++ s) = JsString.trimStart s.
Proof.
  induction pre as [|c pre IH]; simpl; [reflexivity|].
  intro H. apply andb_true_iff in H. destruct H as [Hc Hpre]. now rewrite Hc, IH.
Qed.

Lemma trimEnd_all_spaces post :
  allChars JsString.isSpace post = true -> JsString.trimEnd post = "".
Proof.
  induction post as [|c post IH]; simpl; [reflexivity|].
  intro H. apply andb_true_iff in H. destruct H as [Hc Hpost]. now rewrite IH, Hc.
Qed.

Lemma trimEnd_spaces s post :
  allChars JsString.isSpace post = true ->
  JsString.trimEnd (s ++ post) = JsString.trimEnd s.
Proof.
  intro H. induction s as [|c s IH]; simpl; [now apply trimEnd_all_spaces|].
  now rewrite IH.
Qed.

Lemma trim_no_spaces s :
  allChars (fun c => negb (JsString.isSpace c)) s = true -> JsString.trim s = s.
Proof.
  intro H. unfold JsString.trim.
  assert (Hstart : JsString.trimStart s = s).
  { destruct s as [|c r]; [reflexivity|]. simpl in *.
    apply andb_true_iff in H. destruct H as [Hc _].
    apply negb_true_iff in Hc. now rewrite Hc. }
  rewrite Hstart. induction s as [|c r IH]; simpl; [reflexivity|].
  simpl in H. apply andb_true_iff in H. destruct H as [Hc Hr].
  apply negb_true_iff in Hc. rewrite IH.
  - destruct r; [now rewrite Hc|reflexivity].
  - exact Hr.
  - destruct r as [|c' r']; [reflexivity|]. simpl in *.
    apply andb_true_iff in Hr. destruct Hr as [Hc' _].
    apply negb_true_iff in Hc'. now rewrite Hc'.
Qed.

Lemma trim_surrounded pre s post :
  allChars JsString.isSpace pre = true -> allChars JsString.isSpace post = true ->
  allChars (fun c => negb (JsString.isSpace c)) s = true ->
  JsString.trim (pre ++ s ++ post) = s.
Proof.
  intros Hpre Hpost Hs.
  pose proof (trim_no_spaces s Hs) as Htrim. unfold JsString.trim in *.
  rewrite trimStart_spaces by exact Hpre.
  assert (Hstart : forall t, JsString.trimStart (s ++ t)
                             = (JsString.trimStart s ++ if JsString.isEmpty s
                                                        then JsString.trimStart t
                                                        else t)%string).
  { intro t. destruct s as [|c r]; [reflexivity|]. simpl in *.
    apply andb_true_iff in Hs. destruct Hs as [Hc _].
    apply negb_true_iff in Hc. now rewrite Hc. }
  rewrite Hstart. destruct s as [|c r].
  - simpl. clear - Hpost. induction post as [|c post IH]; [reflexivity|].
    simpl in *. apply andb_true_iff in Hpost. destruct Hpost as [Hc Hpost].
    rewrite Hc. now apply IH.
  - cbn [JsString.isEmpty]. rewrite trimEnd_spaces by exact Hpost.
    assert (Hs' : JsString.trimStart (String c r) = String c r).
    { simpl in *. apply andb_true_iff in Hs. destruct Hs as [Hc _].
      apply negb_true_iff in Hc. now rewrite Hc. }
    rewrite Hs' in *. exact Htrim.
Qed.

Lemma digit_facts c :
  isDigit c = true ->
  JsString.isSpace c = false /\ JsString.upperChar c = c /\ JsString.lowerChar c = c.
Proof. destruct c as [[] [] [] [] [] [] [] []]; try discriminate; now repeat split. Qed.

Lemma mapChars_digits f s :
  (forall c, isDigit c = true -> f c = c) ->
  allChars isDigit s = true -> JsString.mapChars f s = s.
Proof.
  intro Hf. induction s as [|c r IH]; simpl; [reflexivity|].
  intro H. apply andb_true_iff in H. destruct H as [Hc Hr].
  now rewrite (Hf c Hc), IH.
Qed.

Lemma reference_parts digits :
  startsWith "GL-" ("GL-" ++ digits) = true
  /\ sliceFrom 3 ("GL-" ++ digits) = digits.
Proof. split; reflexivity. Qed.

Lemma referencedId_of_number id pre post :
  0 < id ->
  allChars JsString.isSpace pre = true -> allChars JsString.isSpace post = true ->
  referencedId (pre ++ bookingNumber id ++ post) = Some id
  /\ referencedId (pre ++ JsString.toLowerCase (bookingNumber id) ++ post) = Some id.
Proof.
  intros Hid Hpre Hpost.
  destruct (padded_number 5 id ltac:(lia)) as (Hdigits & Hne & Hvalue).
  set (digits := TimeFormat.padStart 5 (TimeFormat.numberText id)) in *.
  assert (Hnospace : allChars (fun c => negb (JsString.isSpace c)) digits = true).
  { apply (allChars_impl isDigit); [|exact Hdigits].
    intros c Hc. destruct (digit_facts c Hc) as [-> _]. reflexivity. }
  assert (Hupper : JsString.toUpperCase digits = digits).
  { apply mapChars_digits; [|exact Hdigits]. intros c Hc. apply digit_facts, Hc. }
  assert (Hlower : JsString.toLowerCase digits = digits).
  { apply mapChars_digits; [|exact Hdigits]. intros c Hc. apply digit_facts, Hc. }
  assert (Hfound : (if id >? 0 then Some id else @None Z) = Some id).
  { destruct (Z.gtb_spec id 0); [reflexivity|lia]. }
  split; unfold referencedId, bookingNumber; fold digits.
  - rewrite trim_surrounded; [|exact Hpre|exact Hpost|exact Hnospace].
    change (JsString.toUpperCase ("GL-" ++ digits))
      with ("GL-" ++ JsString.toUpperCase digits)%string.
    rewrite Hupper. destruct (reference_parts digits) as [-> ->].
    rewrite parseInt10_digits, Hvalue by exact Hdigits. exact Hfound.
  - change (JsString.toLowerCase ("GL-" ++ digits))
      with ("gl-" ++ JsString.toLowerCase digits)%string.
    rewrite Hlower.
    rewrite trim_surrounded; [|exact Hpre|exact Hpost|exact Hnospace].
    change (JsString.toUpperCase ("gl-" ++ digits))
      with ("GL-" ++ JsString.toUpperCase digits)%string.
    rewrite Hupper. destruct (reference_parts digits) as [-> ->].
    rewrite parseInt10_digits, Hvalue by exact Hdigits. exact Hfound.
Qed.

(* ------------------------------------------------------------------ *)
(** ** Requests to amend or cancel *)

Lemma find_by_id (bookings : list booking) idNum :
  match find (fun b => b_id b =? idNum) bookings with
  | Some booking => In booking bookings /\ b_id booking = idNum
  | None => forall b, In b bookings -> b_id b <> idNum
  end.
Proof.
  destruct (find _ bookings) as [booking|] eqn:Hfind.
  - apply find_some in Hfind. destruct Hfind as [Hin Hid].
    split; [exact Hin|now apply Z.eqb_eq].
  - intros b Hin Hid. apply (find_none _ _ Hfind) in Hin.
    apply Z.eqb_neq in Hin. contradiction.
Qed.

Lemma amendBooking_spec bookings table req :
  let answer := amendBooking bookings table req in
  match fst answer with
  | AmendReceived id =>
      id = at_seq table + 1
      /\ exists reference email action row,
           am_booking_reference req = Some reference /\ am_email req = Some email
           /\ am_action req = Some action
           /\ reference <> "" /\ email <> ""
           /\ In (JsString.toLowerCase action) ["amend"; "cancel"]
           /\ snd answer = {| at_rows := at_rows table ++ [row]; at_seq := id |}
           /\ ar_id row = id /\ ar_status row = "pending"
           /\ ar_action row = JsString.toLowerCase action
           /\ ar_booking_reference row = reference /\ ar_email row = email
           /\ ar_processed_at row = None
           /\ forall i,
                ar_booking_id row = Some i
                <-> referencedId reference = Some i
                    /\ exists b, In b bookings /\ b_id b = i
  | AmendMissingFields =>
      snd answer = table
      /\ (JsString.truthy (am_booking_reference req) = false
          \/ JsString.truthy (am_email req) = false
          \/ JsString.truthy (am_action req) = false)
  | AmendInvalidAction =>
      snd answer = table
      /\ exists action,
           am_action req = Some action
           /\ ~ In (JsString.toLowerCase action) ["amend"; "cancel"]
  end.
Proof.
  cbv zeta. unfold amendBooking.
  destruct (am_booking_reference req) as [reference|];
    [|cbn; split; [reflexivity|now left]].
  destruct (am_email req) as [email|]; [|cbn; split; [reflexivity|now right; left]].
  destruct (am_action req) as [action|]; [|cbn; split; [reflexivity|now right; right]].
  destruct (JsString.isEmpty reference) eqn:Hr;
    [cbn; split; [reflexivity|left; unfold JsString.truthy; now rewrite Hr]|].
  destruct (JsString.isEmpty email) eqn:He;
    [cbn; split; [reflexivity|right; left; unfold JsString.truthy; now rewrite He]|].
  destruct (JsString.isEmpty action) eqn:Ha;
    [cbn; split; [reflexivity|right; right; unfold JsString.truthy; now rewrite Ha]|].
  cbn [orb]. cbv zeta.
  destruct (includes ["amend"; "cancel"] (JsString.toLowerCase action)) eqn:Hinc;
    cbn [negb fst snd].
  2:{ split; [reflexivity|]. exists action. split; [reflexivity|].
      intro Hin. apply includes_In in Hin. congruence. }
  split; [reflexivity|].
  exists reference, email, action. eexists. split; [reflexivity|].
  split; [reflexivity|]. split; [reflexivity|].
  split; [intros ->; discriminate|]. split; [intros ->; discriminate|].
  split; [now apply includes_In|]. split; [reflexivity|].
  cbn [ar_id ar_status ar_action ar_booking_reference ar_email ar_booking_id
         ar_processed_at].
  repeat (split; [reflexivity|]).
  intro i. destruct (referencedId reference) as [idNum|].
  - pose proof (find_by_id bookings idNum) as Hfind.
    destruct (find _ bookings) as [booking|].
    + destruct Hfind as [Hin Hid]. split.
      * intros [= <-]. split; [now rewrite Hid|]. now exists booking.
      * intros [[= <-] _]. now rewrite Hid.
    + split; [discriminate|]. intros [[= <-] [b [Hin Hid]]].
      exfalso. exact (Hfind b Hin Hid).
  - split; [discriminate|]. intros [Hnone _]. discriminate.
Qed.

(** X25: a request to amend or cancel is stored, as pending and
    with the action in lower case, exactly when reference, email and
    action are given and the action is amend or cancel in any case of
    letters; nothing is stored otherwise.  The stored request is linked
    to a booking exactly when the reference names the id of a booking of
    the table.  The booking number that the mails show for a booking
    (GL- and the id padded to five digits) names that booking again:
    typed in upper or in lower case, with white space before or behind
    it, it is read back as the id. *)
Theorem amendBooking_links_reference :
  forall bookings table req,
    let answer := amendBooking bookings table req in
    match fst answer with
    | AmendReceived id =>
        id = at_seq table + 1
        /\ exists reference email action row,
             am_booking_reference req = Some reference /\ am_email req = Some email
             /\ am_action req = Some action
             /\ reference <> "" /\ email <> ""
             /\ In (JsString.toLowerCase action) ["amend"; "cancel"]
             /\ snd answer = {| at_rows := at_rows table ++ [row]; at_seq := id |}
             /\ ar_id row = id /\ ar_status row = "pending"
             /\ ar_action row = JsString.toLowerCase action
             /\ ar_booking_reference row = reference /\ ar_email row = email
             /\ ar_processed_at row = None
             /\ forall i,
                  ar_booking_id row = Some i
                  <-> referencedId reference = Some i
                      /\ exists b, In b bookings /\ b_id b = i
    | AmendMissingFields =>
        snd answer = table
        /\ (JsString.truthy (am_booking_reference req) = false
            \/ JsString.truthy (am_email req) = false
            \/ JsString.truthy (am_action req) = false)
    | AmendInvalidAction =>
        snd answer = table
        /\ exists action,
             am_action req = Some action
             /\ ~ In (JsString.toLowerCase action) ["amend"; "cancel"]
    end
    /\ forall id pre post,
         0 < id ->
         allChars JsString.isSpace pre = true -> allChars JsString.isSpace post = true ->
         referencedId (pre ++ bookingNumber id ++ post) = Some id
         /\ referencedId (pre ++ JsString.toLowerCase (bookingNumber id) ++ post) = Some id.
Proof.
  intros bookings table req. cbv zeta. split.
  - apply amendBooking_spec.
  - apply referencedId_of_number.
Qed.

Example cancel_request_linked :
  amendBooking [confirmedAtNine] {| at_rows := []; at_seq := 0 |} cancelRequest
  = (AmendReceived 1,
     {| at_rows := [{| ar_id := 1;
                       ar_booking_id := Some 7;
                       ar_booking_reference := "gl-00007 ";
                       ar_email := "ada@example.org";
                       ar_action := "cancel";
                       ar_message := None;
                       ar_status := "pending";
                       ar_processed_at := None |}];
        at_seq := 1 |}).
Proof. reflexivity. Qed.

(* ------------------------------------------------------------------ *)
(** ** The status of a request to amend *)

Lemma amendStep_invariant table op :
  let ok := fun t : amendTable =>
    NoDup (map ar_id (at_rows t))
    /\ Forall (fun r =>
                 0 < ar_id r <= at_seq t
                 /\ In (ar_status r) ["pending"; "processed"]
                 /\ (ar_processed_at r <> None <-> ar_status r = "processed"))
         (at_rows t) in
  0 <= at_seq table -> ok table ->
  0 <= at_seq (amendStep table op) /\ ok (amendStep table op).
Proof.
  cbv zeta. intros Hseq [Hnodup Hrows].
  destruct op as [bookings req|now id status]; cbn [amendStep].
  - pose proof (amendBooking_spec bookings table req) as Hspec. cbv zeta in Hspec.
    destruct (fst (amendBooking bookings table req)) as [| |newId].
    + destruct Hspec as [-> _]. now repeat split.
    + destruct Hspec as [-> _]. now repeat split.
    + destruct Hspec as (Hid & reference & email & action & row & _ & _ & _ & _ & _ & _
                         & -> & Hrid & Hstatus & _ & _ & _ & Hnone & _).
      cbn [at_rows at_seq]. split; [lia|]. split.
      * rewrite map_app. cbn [map]. rewrite Hrid.
        assert (Hfresh : ~ In newId (map ar_id (at_rows table))).
        { intro Hin. apply in_map_iff in Hin. destruct Hin as [r [Hr Hin]].
          rewrite Forall_forall in Hrows. specialize (Hrows r Hin). lia. }
        clear - Hnodup Hfresh.
        induction (map ar_id (at_rows table)) as [|x l IH]; simpl.
        -- constructor; [intros []|constructor].
        -- inversion Hnodup; subst. constructor.
           ++ intro Hin. apply in_app_or in Hin. destruct Hin as [Hin|[Hin|[]]].
              ** contradiction.
              ** apply Hfresh. now left.
           ++ apply IH; [assumption|]. intro Hin. apply Hfresh. now right.
      * apply Forall_app. split.
        -- eapply Forall_impl; [|exact Hrows]. intros r (Hr & Hs & Hp).
           split; [lia|]. now split.
        -- constructor; [|constructor]. rewrite Hrid, Hstatus. split; [lia|].
           split; [now left|].
           rewrite Hnone. split; [congruence|discriminate].
  - unfold updateAmendStatus. destruct status as [status|]; [|now repeat split].
    destruct (includes ["pending"; "processed"] status) eqn:Hinc; cbn [negb];
      [|now repeat split].
    destruct (existsb _ (at_rows table)); cbn [negb]; [|now repeat split].
    cbv zeta. cbn [snd at_rows at_seq]. split; [exact Hseq|]. split.
    + rewrite map_map. erewrite map_ext; [exact Hnodup|].
      intro r. now destruct (ar_id r =? id).
    + apply Forall_forall. intros r Hr. apply in_map_iff in Hr.
      destruct Hr as [old [Hr Hold]]. rewrite Forall_forall in Hrows.
      specialize (Hrows old Hold).
      destruct (ar_id old =? id); [|now subst r].
      subst r. cbn. destruct Hrows as (Hid & _ & _). split; [exact Hid|].
      apply includes_In in Hinc. split; [exact Hinc|].
      destruct (String.eqb_spec status "processed") as [->|Hne].
      * split; [reflexivity|discriminate].
      * split; [congruence|contradiction].
Qed.

Lemma amend_run_invariant ops :
  forall table,
    0 <= at_seq table ->
    NoDup (map ar_id (at_rows table))
    /\ Forall (fun r =>
                 0 < ar_id r <= at_seq table
                 /\ In (ar_status r) ["pending"; "processed"]
                 /\ (ar_processed_at r <> None <-> ar_status r = "processed"))
         (at_rows table) ->
    let final := fold_left amendStep ops table in
    NoDup (map ar_id (at_rows final))
    /\ Forall (fun r =>
                 0 < ar_id r <= at_seq final
                 /\ In (ar_status r) ["pending"; "processed"]
                 /\ (ar_processed_at r <> None <-> ar_status r = "processed"))
         (at_rows final).
Proof.
  induction ops as [|op ops IH]; intros table Hseq Hok; cbn [fold_left]; [exact Hok|].
  destruct (amendStep_invariant table op Hseq Hok) as [Hseq' Hok'].
  exact (IH _ Hseq' Hok').
Qed.

(** X30: in the table of the requests to amend, whatever requests
    are submitted and whatever status changes are made, one after the
    other from the empty table on, a request has a time of processing
    exactly when its status is processed; its status is pending or
    processed, as the text was sent, and the ids are distinct and lie
    within the counter. *)
Theorem amend_requests_stamped_iff_processed :
  forall ops,
    let final := fold_left amendStep ops emptyAmendTable in
    NoDup (map ar_id (at_rows final))
    /\ Forall (fun r =>
                 0 < ar_id r <= at_seq final
                 /\ In (ar_status r) ["pending"; "processed"]
                 /\ (ar_processed_at r <> None <-> ar_status r = "processed"))
         (at_rows final).
Proof.
  intro ops. apply amend_run_invariant.
  - simpl. lia.
  - split; constructor.
Qed.

(* ------------------------------------------------------------------ *)
(** ** The generated ids of the earlier server *)

Lemma idText_inj a b : 0 <= a -> 0 <= b -> Legacy.idText a = Legacy.idText b -> a = b.
Proof.
  intros Ha Hb H. unfold Legacy.idText in H. injection H as H.
  destruct (padded_number 6 a Ha) as (_ & _ & Hva).
  destruct (padded_number 6 b Hb) as (_ & _ & Hvb).
  rewrite H in Hva. congruence.
Qed.

Lemma legacy_update_ids bookingId change table :
  (forall r, Legacy.id (change r) = Legacy.id r) ->
  map Legacy.id (Legacy.update bookingId change table) = map Legacy.id table.
Proof.
  intro H. unfold Legacy.update. rewrite map_map. apply map_ext. intro r.
  destruct (String.eqb _ _); [apply H|reflexivity].
Qed.

Lemma legacy_update_length bookingId change table :
  List.length (Legacy.update bookingId change table) = List.length table.
Proof. unfold Legacy.update. apply length_map. Qed.

Lemma legacy_ids_step table req :
  map Legacy.id table
  = map (fun k => Legacy.idText (Z.of_nat k)) (seq 1 (List.length table)) ->
  let answer := Legacy.handle table req in
  fst answer <> Legacy.SaveFailed
  /\ map Legacy.id (snd answer)
     = map (fun k => Legacy.idText (Z.of_nat k)) (seq 1 (List.length (snd answer)))
  /\ List.length (snd answer)
     = (List.length table + if Legacy.isCreated (fst answer) then 1 else 0)%nat
  /\ (forall bookingId, fst answer = Legacy.CreatedAs bookingId ->
        bookingId = Legacy.idText (Z.of_nat (List.length table) + 1)
        /\ ~ In bookingId (map Legacy.id table)).
Proof.
  intro Hids. cbv zeta. destruct req as [body|bookingId mail action details|bookingId|bookingId reason];
    cbn [Legacy.handle].
  - destruct (_ && _); cbn [fst snd Legacy.isCreated];
      [|split; [discriminate|]; split; [exact Hids|]; split; [lia|discriminate]].
    assert (Hfresh : ~ In (Legacy.generateBookingId table) (map Legacy.id table)).
    { rewrite Hids. intro Hin. apply in_map_iff in Hin. destruct Hin as [k [Hk Hin]].
      apply in_seq in Hin. unfold Legacy.generateBookingId in Hk.
      apply idText_inj in Hk; lia. }
    destruct (existsb _ table) eqn:Hex.
    { exfalso. apply Hfresh. apply existsb_exists in Hex. destruct Hex as [r [Hr Heq]].
      apply String.eqb_eq in Heq. rewrite <- Heq. now apply in_map. }
    cbn [fst snd Legacy.isCreated]. split; [discriminate|]. split; [|split].
    + rewrite length_app, map_app, Hids. cbn [List.length map Legacy.id].
      rewrite Nat.add_1_r, seq_S, map_app. cbn [map]. f_equal. f_equal.
      unfold Legacy.generateBookingId. f_equal. lia.
    + rewrite length_app. reflexivity.
    + intros bookingId [= <-]. split; [reflexivity|exact Hfresh].
  - destruct (_ && _); cbn [fst snd Legacy.isCreated];
      [|split; [discriminate|]; split; [exact Hids|]; split; [lia|discriminate]].
    destruct (find _ table); cbn [fst snd Legacy.isCreated];
      [|split; [discriminate|]; split; [exact Hids|]; split; [lia|discriminate]].
    split; [discriminate|]. rewrite legacy_update_length, legacy_update_ids by reflexivity.
    split; [exact Hids|]. split; [lia|discriminate].
  - cbn [fst snd Legacy.isCreated]. split; [discriminate|].
    rewrite legacy_update_length, legacy_update_ids by reflexivity.
    split; [exact Hids|]. split; [lia|discriminate].
  - cbn [fst snd Legacy.isCreated]. split; [discriminate|].
    rewrite legacy_update_length, legacy_update_ids by reflexivity.
    split; [exact Hids|]. split; [lia|discriminate].
Qed.

Lemma legacy_ids_run reqs :
  forall table,
    map Legacy.id table
    = map (fun k => Legacy.idText (Z.of_nat k)) (seq 1 (List.length table)) ->
    let outcome := Legacy.run table reqs in
    ~ In Legacy.SaveFailed (fst outcome)
    /\ map Legacy.id (snd outcome)
       = map (fun k => Legacy.idText (Z.of_nat k)) (seq 1 (List.length (snd outcome)))
    /\ List.length (snd outcome)
       = (List.length table + List.length (filter Legacy.isCreated (fst outcome)))%nat.
Proof.
  induction reqs as [|req reqs IH]; intros table Hids; cbn [Legacy.run].
  - cbn. split; [intros []|]. split; [exact Hids|lia].
  - destruct (legacy_ids_step table req Hids) as (Hok & Hids' & Hlen & _).
    destruct (Legacy.handle table req) as [answer table'] eqn:Hstep.
    cbn [fst snd] in *. specialize (IH table' Hids').
    destruct (Legacy.run table' reqs) as [answers final]. cbn [fst snd] in *.
    destruct IH as (IHok & IHids & IHlen). split.
    + intros [Hin|Hin]; [now apply Hok|now apply IHok].
    + split; [exact IHids|]. cbn [filter].
      destruct (Legacy.isCreated answer); cbn [List.length]; lia.
Qed.

Lemma idTexts_distinct n :
  NoDup (map (fun k => Legacy.idText (Z.of_nat k)) (seq 1 n)).
Proof.
  apply Finite.Injective_map_NoDup_in; [|apply seq_NoDup].
  intros a b _ _ H. apply idText_inj in H; lia.
Qed.

(** X26: in the earlier server, whatever requests are handled one
    after the other from the empty table on, no insert is ever refused
    for its id: the n-th booking stored has the id GLSTN- followed by n
    in six digits, the ids of the table are distinct, and the table has
    as many rows as bookings were created (no handler removes a row or
    changes an id).  Numbers that differ are never written as the same
    id. *)
Theorem legacy_ids_never_clash :
  forall reqs,
    let outcome := Legacy.run [] reqs in
    ~ In Legacy.SaveFailed (fst outcome)
    /\ map Legacy.id (snd outcome)
       = map (fun k => Legacy.idText (Z.of_nat k)) (seq 1 (List.length (snd outcome)))
    /\ NoDup (map Legacy.id (snd outcome))
    /\ List.length (snd outcome) = List.length (filter Legacy.isCreated (fst outcome))
    /\ (forall a b, 0 <= a -> 0 <= b -> Legacy.idText a = Legacy.idText b -> a = b).
Proof.
  intro reqs. cbv zeta.
  destruct (legacy_ids_run reqs [] eq_refl) as (Hok & Hids & Hlen).
  split; [exact Hok|]. split; [exact Hids|]. split.
  - rewrite Hids. apply idTexts_distinct.
  - split; [exact Hlen|exact idText_inj].
Qed.

(* ------------------------------------------------------------------ *)
(** ** Reminders *)

Section ReminderFacts.
Variable tz : Z.

Lemma markReminded_ids id table : map rr_id (markReminded id table) = map rr_id table.
Proof.
  unfold markReminded. rewrite map_map. apply map_ext. intro r.
  now destruct (rr_id r =? id).
Qed.

Lemma same_id_same_reminder (table : list reminderRow) r r' :
  NoDup (map rr_id table) -> In r table -> In r' table -> rr_id r = rr_id r' -> r = r'.
Proof.
  induction table as [|x table IH]; simpl; [intros _ []|].
  intros Hnodup Hr Hr' Hid. inversion Hnodup as [|? ? Hnotin Hrest]; subst.
  destruct Hr as [<-|Hr], Hr' as [<-|Hr'].
  - reflexivity.
  - exfalso. apply Hnotin. rewrite Hid. now apply in_map.
  - exfalso. apply Hnotin. rewrite <- Hid. now apply in_map.
  - now apply IH.
Qed.

Lemma reminderLoop_spec now rows :
  forall table mailed,
    NoDup (map rr_id table) -> NoDup (map rr_id rows) -> incl rows table ->
    reminderLoop now rows table mailed
    = (map (fun r => if existsb (fun x => (rr_id x =? rr_id r) && reminderDue now x) rows
                     then remindedRow r else r) table,
       mailed ++ map rr_id (filter (reminderDue now) rows)).
Proof.
  induction rows as [|row rows IH]; intros table mailed Htable Hrows Hincl.
  - simpl. now rewrite map_id, app_nil_r.
  - cbn [reminderLoop]. inversion Hrows as [|? ? Hnotin Hrest]; subst.
    assert (Hrow : In row table) by (apply Hincl; now left).
    assert (Hother : forall r, In r rows -> rr_id r <> rr_id row).
    { intros r Hr Heq. apply Hnotin. rewrite <- Heq. now apply in_map. }
    assert (Hfresh : existsb (fun x => (rr_id x =? rr_id row) && reminderDue now x) rows
                     = false).
    { apply not_true_is_false. intro H. apply existsb_exists in H.
      destruct H as [x [Hx Hid]]. apply andb_true_iff in Hid. destruct Hid as [Hid _].
      apply Z.eqb_eq in Hid. exact (Hother x Hx Hid). }
    destruct (reminderDue now row) eqn:Hdue.
    + rewrite IH.
      * f_equal.
        -- unfold markReminded. rewrite map_map. apply map_ext_in.
           intros r Hr. cbn [existsb filter].
           destruct (Z.eqb_spec (rr_id r) (rr_id row)) as [Hid|Hid].
           ++ assert (r = row) by (now apply (same_id_same_reminder table)). subst r.
              cbn [rr_id]. rewrite Z.eqb_refl, Hdue, Hfresh. reflexivity.
           ++ destruct (Z.eqb_spec (rr_id row) (rr_id r)) as [Hid'|_];
                [congruence|reflexivity].
        -- cbn [filter]. rewrite Hdue. cbn [map]. now rewrite <- app_assoc.
      * now rewrite markReminded_ids.
      * exact Hrest.
      * intros r Hr. unfold markReminded. apply in_map_iff. exists r.
        split; [|apply Hincl; now right].
        destruct (Z.eqb_spec (rr_id r) (rr_id row)) as [Hid|_]; [|reflexivity].
        exfalso. exact (Hother r Hr Hid).
    + rewrite IH.
      * f_equal.
        -- apply map_ext_in. intros r Hr. cbn [existsb].
           rewrite Hdue, andb_false_r. reflexivity.
        -- cbn [filter]. now rewrite Hdue.
      * exact Htable.
      * exact Hrest.
      * intros r Hr. apply Hincl. now right.
Qed.

Lemma process_spec now table :
  NoDup (map rr_id table) ->
  processBookingReminders tz now table
  = (map (fun r => if reminded tz now r then remindedRow r else r) table,
     map rr_id (filter (reminded tz now) table)).
Proof.
  intro Hnodup. unfold processBookingReminders. cbv zeta.
  rewrite reminderLoop_spec.
  - f_equal.
    + apply map_ext_in. intros r Hr. unfold reminded.
      destruct (reminderSelected (tomorrowStr tz now) r) eqn:Hsel.
      * destruct (reminderDue now r) eqn:Hdue; cbn [andb].
        -- replace (existsb _ _) with true; [reflexivity|].
           symmetry. apply existsb_exists. exists r. split.
           ++ apply filter_In. now split.
           ++ now rewrite Z.eqb_refl, Hdue.
        -- replace (existsb _ _) with false; [reflexivity|].
           symmetry. apply not_true_is_false. intro H. apply existsb_exists in H.
           destruct H as [x [Hx Hid]]. apply filter_In in Hx. destruct Hx as [Hx _].
           apply andb_true_iff in Hid. destruct Hid as [Hid Hduex].
           apply Z.eqb_eq in Hid.
           assert (x = r) by (apply (same_id_same_reminder table); auto). subst x.
           congruence.
      * cbn [andb]. replace (existsb _ _) with false; [reflexivity|].
        symmetry. apply not_true_is_false. intro H. apply existsb_exists in H.
        destruct H as [x [Hx Hid]]. apply filter_In in Hx. destruct Hx as [Hx Hselx].
        apply andb_true_iff in Hid. destruct Hid as [Hid _]. apply Z.eqb_eq in Hid.
        assert (x = r) by (apply (same_id_same_reminder table); auto). subst x.
        congruence.
    + cbn [app]. f_equal. unfold reminded.
      induction table as [|r table' IH]; [reflexivity|]. simpl.
      inversion Hnodup; subst.
      destruct (reminderSelected (tomorrowStr tz now) r); simpl.
      * destruct (reminderDue now r); simpl; now rewrite IH.
      * now apply IH.
  - exact Hnodup.
  - now apply NoDup_map_filter.
  - intros r Hr. apply filter_In in Hr. tauto.
Qed.

Lemma remindedRow_not_selected tomorrow r :
  reminderSelected tomorrow (remindedRow r) = false.
Proof. unfold reminderSelected, remindedRow. cbn. apply andb_false_r. Qed.

Lemma process_facts now later table :
  NoDup (map rr_id table) ->
  let first := processBookingReminders tz now table in
  let second := processBookingReminders tz later (fst first) in
  (forall id, In id (snd first) -> ~ In id (snd second))
  /\ NoDup (snd first)
  /\ processBookingReminders tz now (fst first) = (fst first, [])
  /\ (forall id,
        In id (snd first)
        <-> exists r,
              In r table /\ rr_id r = id
              /\ rr_preferred_date r = tomorrowStr tz now
              /\ rr_status r = "confirmed"
              /\ JsString.truthy (rr_email r) = true
              /\ (rr_reminder_sent r = None \/ rr_reminder_sent r = Some 0)
              /\ exists createdAt,
                   rr_createdAt r = Some createdAt
                   /\ forall bookingStart,
                        rr_bookingStart r = Some bookingStart ->
                        now < bookingStart /\ msPerDay < bookingStart - createdAt)
  /\ (forall r, In r (fst first) ->
        In r table \/ exists old, In old table /\ r = remindedRow old
                                  /\ In (rr_id old) (snd first)).
Proof.
  intro Hnodup. cbv zeta. rewrite (process_spec now table Hnodup). cbn [fst snd].
  set (t1 := map (fun r => if reminded tz now r then remindedRow r else r) table).
  assert (Hids1 : map rr_id t1 = map rr_id table).
  { unfold t1. rewrite map_map. apply map_ext. intro r.
    now destruct (reminded tz now r). }
  assert (Hnodup1 : NoDup (map rr_id t1)) by now rewrite Hids1.
  split; [|split; [|split; [|split]]].
  - intros id Hin1 Hin2. rewrite (process_spec later t1 Hnodup1) in Hin2. cbn [snd] in Hin2.
    apply in_map_iff in Hin1. destruct Hin1 as [r [Hid Hr]].
    apply filter_In in Hr. destruct Hr as [Hr Hrem].
    apply in_map_iff in Hin2. destruct Hin2 as [r2 [Hid2 Hr2]].
    apply filter_In in Hr2. destruct Hr2 as [Hr2 Hrem2].
    assert (Hmarked : In (remindedRow r) t1).
    { unfold t1. apply in_map_iff. exists r. now rewrite Hrem. }
    assert (r2 = remindedRow r).
    { apply (same_id_same_reminder t1); auto. cbn. congruence. }
    subst r2. unfold reminded in Hrem2. rewrite remindedRow_not_selected in Hrem2.
    discriminate.
  - apply NoDup_map_filter. exact Hnodup.
  - rewrite (process_spec now t1 Hnodup1). f_equal.
    + unfold t1. rewrite map_map. rewrite <- (map_id (map _ table)) at 1.
      rewrite map_map. apply map_ext. intro r.
      destruct (reminded tz now r) eqn:Hrem.
      * unfold reminded at 1. now rewrite remindedRow_not_selected.
      * now rewrite Hrem.
    + replace (filter (reminded tz now) t1) with (@nil reminderRow); [reflexivity|].
      symmetry. unfold t1. clear. induction table as [|r table IH]; [reflexivity|].
      simpl. destruct (reminded tz now r) eqn:Hrem.
      * unfold reminded at 1. rewrite remindedRow_not_selected. exact IH.
      * rewrite Hrem. exact IH.
  - intro id. rewrite in_map_iff. split.
    + intros [r [Hid Hr]]. apply filter_In in Hr. destruct Hr as [Hr Hrem].
      exists r. split; [exact Hr|]. split; [exact Hid|].
      unfold reminded, reminderSelected in Hrem.
      repeat (apply andb_true_iff in Hrem; destruct Hrem as [Hrem ?]).
      split; [now apply dateText_eqb_eq|]. split; [now apply String.eqb_eq|].
      split; [assumption|]. split.
      { destruct (rr_reminder_sent r) as [flag|]; [|now left].
        right. f_equal. now apply Z.eqb_eq. }
      unfold reminderDue in *.
      destruct (rr_createdAt r) as [createdAt|]; [|discriminate].
      exists createdAt. split; [reflexivity|]. intros bookingStart Hstart.
      rewrite Hstart in *.
      destruct (Z.leb_spec bookingStart now); [discriminate|].
      cbv zeta in *. unfold msPerDay.
      destruct (Z.leb_spec (bookingStart - createdAt) (24 * (1000 * 60 * 60)));
        [discriminate|lia].
    + intros [r (Hr & Hid & Hdate & Hstatus & Hmail & Hflag & createdAt & Hcreated & Hstart)].
      exists r. split; [exact Hid|]. apply filter_In. split; [exact Hr|].
      unfold reminded, reminderSelected, reminderDue.
      rewrite Hdate, dateText_eqb_refl, Hstatus, Hmail, Hcreated. cbn [andb String.eqb].
      replace (String.eqb "confirmed" "confirmed") with true by reflexivity.
      replace (match rr_reminder_sent r with
               | Some flag => flag =? 0
               | None => true
               end) with true by (destruct Hflag as [-> | ->]; reflexivity).
      cbn [andb]. destruct (rr_bookingStart r) as [bookingStart|]; [|reflexivity].
      destruct (Hstart bookingStart eq_refl) as [Hnow Hdiff]. unfold msPerDay in Hdiff.
      destruct (Z.leb_spec bookingStart now); [lia|]. cbv zeta.
      destruct (Z.leb_spec (bookingStart - createdAt) (24 * (1000 * 60 * 60)));
        [lia|reflexivity].
  - intros r Hr. unfold t1 in Hr. apply in_map_iff in Hr. destruct Hr as [old [Hr Hold]].
    destruct (reminded tz now old) eqn:Hrem.
    + right. exists old. split; [exact Hold|]. split; [now symmetry|].
      apply in_map. apply filter_In. now split.
    + left. now subst r.
Qed.

End ReminderFacts.

(** Every row a mail was made for carries the mark afterwards. *)
Lemma process_marks tz now table :
  NoDup (map rr_id table) ->
  forall r,
    In r (fst (processBookingReminders tz now table)) ->
    In (rr_id r) (snd (processBookingReminders tz now table)) ->
    rr_reminder_sent r = Some 1.
Proof.
  intros Hnodup r. rewrite (process_spec tz now table Hnodup). cbn [fst snd].
  intros Hr Hid. apply in_map_iff in Hr. destruct Hr as [old [Hr Hold]].
  apply in_map_iff in Hid. destruct Hid as [mailed [Hid Hmailed]].
  apply filter_In in Hmailed. destruct Hmailed as [Hmailed Hrem].
  assert (Hsame : rr_id r = rr_id old)
    by (subst r; now destruct (reminded tz now old)).
  assert (mailed = old)
    by (apply (same_id_same_reminder table); auto; congruence).
  subst mailed. rewrite Hrem in Hr. now subst r.
Qed.

(** X27: on a table whose ids are distinct, no booking is reminded
    twice: a booking that [processBookingReminders] has made a mail for
    is marked, and no later run, at whatever time, makes a mail for it
    again; a second run at the same instant mails nobody.  A run mails
    exactly the confirmed bookings dated tomorrow on the local clock
    that have an email address, are not marked yet and have a readable
    time of creation, unless the start can be read and lies in the past
    or at most 24 hours after the creation; every row of the table
    stays as it is but for the mark, and the row of every booking that
    was mailed has [reminder_sent = 1] afterwards. *)
Theorem reminders_at_most_once :
  forall tz now later table,
    NoDup (map rr_id table) ->
    let first := processBookingReminders tz now table in
    let second := processBookingReminders tz later (fst first) in
    (forall id, In id (snd first) -> ~ In id (snd second))
    /\ NoDup (snd first)
    /\ processBookingReminders tz now (fst first) = (fst first, [])
    /\ (forall id,
          In id (snd first)
          <-> exists r,
                In r table /\ rr_id r = id
                /\ rr_preferred_date r = tomorrowStr tz now
                /\ rr_status r = "confirmed"
                /\ JsString.truthy (rr_email r) = true
                /\ (rr_reminder_sent r = None \/ rr_reminder_sent r = Some 0)
                /\ exists createdAt,
                     rr_createdAt r = Some createdAt
                     /\ forall bookingStart,
                          rr_bookingStart r = Some bookingStart ->
                          now < bookingStart /\ msPerDay < bookingStart - createdAt)
    /\ (forall r, In r (fst first) ->
          In r table \/ exists old, In old table /\ r = remindedRow old
                                    /\ In (rr_id old) (snd first))
    /\ (forall r, In r (fst first) -> In (rr_id r) (snd first) ->
          rr_reminder_sent r = Some 1).
Proof.
  intros tz now later table Hnodup.
  pose proof (process_facts tz now later table Hnodup) as Hfacts.
  cbv zeta in Hfacts |- *. destruct Hfacts as (H1 & H2 & H3 & H4 & H5).
  split; [exact H1|]. split; [exact H2|]. split; [exact H3|]. split; [exact H4|].
  split; [exact H5|]. exact (process_marks tz now table Hnodup).
Qed.

Lemma reminders_at_most_once_monday :
  snd (processBookingReminders 60 sundayMorning reminderTable) = [7]
  /\ forall id,
       In id (snd (processBookingReminders 60 sundayMorning reminderTable)) ->
       ~ In id (snd (processBookingReminders 60 (sundayMorning + 60000)
                       (fst (processBookingReminders 60 sundayMorning reminderTable)))).
Proof.
  assert (Hids : NoDup (map rr_id reminderTable)).
  { repeat constructor. intros []. }
  pose proof (reminders_at_most_once 60 sundayMorning (sundayMorning + 60000)
                reminderTable Hids) as Hrun.
  cbv zeta in Hrun. split; [vm_compute; reflexivity|exact (proj1 Hrun)].
Defined.

(* ------------------------------------------------------------------ *)
(** ** The slots offered and the requests accepted *)

Lemma offered_iff_accepted w date postcode services slots time :
  result (findSlots w {| av_date := Some date; av_postcode := postcode;
                         av_services := services |})
  = AvailabilitySlots date slots ->
  onGrid (timeStringToMinutes time) ->
  result (validateBooking w {| req_date := Some date; req_postcode := postcode;
                               req_services := services;
                               req_preferred_time := Some time |}) = Accepted
  <-> In (minutesToTimeString (timeStringToMinutes time)) slots.
Proof.
  intros Hres Hgrid. rewrite validateBooking_accepted_spec.
  cbn [req_date req_postcode req_services req_preferred_time].
  set (s := timeStringToMinutes time) in *.
  set (duration := estimateBookingDurationMinutes (toServicesArray services)
                   + BUFFER_AFTER_JOB_MIN).
  split.
  - intros (date' & time' & [= <-] & [= <-] & Hp & Hwork & Hrest). cbv zeta in Hrest.
    fold s duration in Hrest.
    destruct Hrest as (Hstart & Hend & Hgate & Hfree & Hprev & Hnext).
    pose proof (findSlots_result w {| av_date := Some date; av_postcode := postcode;
                                      av_services := services |} date eq_refl Hp) as Hslots.
    cbv zeta in Hslots. cbn [av_postcode av_services] in Hslots.
    rewrite Hres, Hwork, Hgate in Hslots. cbn [negb] in Hslots.
    injection Hslots as ->. fold duration.
    apply possibleSlots_spec. exists s. split; [exact Hgrid|]. split; [exact Hend|].
    split; [|reflexivity].
    rewrite candidateOk_result, Hprev, Hnext.
    destruct (existsb _ (dayIntervals w date)) eqn:Hov; [|reflexivity].
    exfalso. apply Hfree. apply overlap_test_occupied. exact Hov.
  - intro Hin.
    destruct (findSlots_slot_inv _ _ _ _ _ Hres Hin)
      as (_ & Hp & Hwork & Hgate & c & Hc & Hend & Hok & Heq).
    cbn [av_postcode av_services] in Hp, Hgate, Hend, Hok. fold duration in Hend, Hok.
    apply minutesToTimeString_inj in Heq. subst c.
    rewrite candidateOk_result in Hok. apply andb_true_iff in Hok.
    destruct Hok as [Hfree Htravel].
    apply negb_true_iff in Hfree. apply negb_true_iff, orb_false_elim in Htravel.
    destruct Htravel as [Hprev Hnext].
    exists date, time. split; [reflexivity|]. split; [reflexivity|].
    split; [exact Hp|]. split; [exact Hwork|]. cbv zeta. fold s duration.
    destruct Hgrid as (k & Hk & Hs).
    split; [rewrite Hs; unfold SLOT_STEP_MIN; lia|]. split; [exact Hend|].
    split; [exact Hgate|]. split; [|split; assumption].
    intro Hocc. apply overlap_test_occupied in Hocc. unfold dayIntervals in Hfree.
    congruence.
Qed.

(** X28: [POST /api/availability] offers exactly what
    [validateBooking] accepts, for services with texts (or nothing) for
    [serviceId] and [size] and integers (or nothing) for [quantity], a
    time text of two integer numerals and a table of such rows: for the
    same date, postcode and services in the same world, a time on the
    quarter-hour grid from 08:30 is among the slots if and only if a
    booking request for that time is accepted.  With a quantity that is
    no number the two part: the duration is [NaN], the slot loop is left
    at once and no slot is offered, while [validateBooking] lets the
    request through its working-hours and overlap tests; in the
    scenario it accepts 09:00, which is taken. *)
Theorem slots_are_the_accepted_grid_times :
  (forall w date postcode services slots time,
     result (Untyped.findSlots w (Lift.rowsOf w)
               (Lift.ofAvailability {| av_date := Some date; av_postcode := postcode;
                                       av_services := services |}))
     = Untyped.Returns (AvailabilitySlots date slots) ->
     onGrid (timeStringToMinutes time) ->
     result (Untyped.validateBooking w (Lift.rowsOf w)
               (Lift.ofRequest {| req_date := Some date; req_postcode := postcode;
                                  req_services := services;
                                  req_preferred_time := Some time |}))
     = Untyped.Returns Accepted
     <-> In (minutesToTimeString (timeStringToMinutes time)) slots)
  /\ (forall w rowsFor req date slots,
        Untyped.estimateBookingDurationMinutes
          (Untyped.toServicesArray (Untyped.av_services req))
        = Untyped.Returns Untyped.NaN ->
        result (Untyped.findSlots w rowsFor req)
        = Untyped.Returns (AvailabilitySlots date slots) ->
        slots = [])
  /\ result (Untyped.findSlots scenarioWorld (Lift.rowsOf scenarioWorld) textQuantitySlots)
     = Untyped.Returns (AvailabilitySlots monday [])
  /\ result (Untyped.validateBooking scenarioWorld (Lift.rowsOf scenarioWorld)
               textQuantityAtNine)
     = Untyped.Returns Accepted.
Proof.
  split; [|split; [|split]].
  - intros w date postcode services slots time Hres Hgrid.
    rewrite untyped_findSlots_typed in Hres. rewrite untyped_validateBooking_typed.
    unfold Lift.returning, result in *. cbn [fst] in *.
    injection Hres as Hres.
    rewrite <- (offered_iff_accepted w date postcode services slots time Hres Hgrid).
    unfold result. split.
    + now intros [= ->].
    + now intros ->.
  - exact findSlots_duration_not_a_number.
  - vm_compute. reflexivity.
  - vm_compute. reflexivity.
Qed.

(** In the scenario 15:00 is offered, and a request for it accepted. *)
Lemma slots_are_the_accepted_grid_times_scenario :
  result (Untyped.validateBooking scenarioWorld (Lift.rowsOf scenarioWorld)
            (Lift.ofRequest {| req_date := Some monday; req_postcode := Some "AB1";
                               req_services := ServiceArray [basicWash];
                               req_preferred_time := Some (HM 15 0) |}))
  = Untyped.Returns Accepted
  <-> In "15:00" scenarioSlots.
Proof.
  apply (proj1 slots_are_the_accepted_grid_times scenarioWorld monday (Some "AB1")
           (ServiceArray [basicWash]) scenarioSlots (HM 15 0)).
  - vm_compute. reflexivity.
  - exists 26. vm_compute. split; [discriminate|reflexivity].
Defined.

(* ------------------------------------------------------------------ *)
(** ** The days of a range and the slots of a day *)

Lemma gate_same_rows w postcode rows rows' :
  (forall row, In row rows <-> In row rows') ->
  result (outOfAreaForDay w (Some postcode) rows)
  = result (outOfAreaForDay w (Some postcode) rows').
Proof.
  intro Hsame.
  pose proof (in_area_near w postcode rows) as H.
  pose proof (in_area_near w postcode rows') as H'.
  assert (Hiff : negb (result (outOfAreaForDay w (Some postcode) rows)) = true
                 <-> negb (result (outOfAreaForDay w (Some postcode) rows')) = true).
  { rewrite H, H'. split.
    - intros [->|[row [Hin Hnear]]].
      + left. destruct rows' as [|r rows']; [reflexivity|].
        exfalso. apply (Hsame r). now left.
      + right. exists row. split; [now apply Hsame|exact Hnear].
    - intros [->|[row [Hin Hnear]]].
      + left. destruct rows as [|r rows]; [reflexivity|].
        exfalso. apply (Hsame r). now left.
      + right. exists row. split; [now apply Hsame|exact Hnear]. }
  destruct (result (outOfAreaForDay w (Some postcode) rows)),
    (result (outOfAreaForDay w (Some postcode) rows')); try reflexivity;
    cbn in Hiff; destruct Hiff as [H1 H2];
    [specialize (H2 eq_refl)|specialize (H1 eq_refl)]; discriminate.
Qed.

Lemma range_entry_and_slots w p s e dates entry services :
  result (rangeAvailability w {| da_postcode := Some p;
                                 da_start_date := Some s;
                                 da_end_date := Some e |})
  = DateAvailabilityDates p s e dates ->
  In entry dates ->
  (forall row,
     In row (rowsOfDate (day_date entry) (bookingsBetween w s e))
     <-> In row (bookingsForDate w (day_date entry))) ->
  result (findSlots w {| av_date := Some (day_date entry);
                         av_postcode := Some p;
                         av_services := services |})
  = AvailabilitySlots (day_date entry)
      (if in_area entry
       then result (possibleSlots w (Some p) (dayIntervals w (day_date entry))
                      (estimateBookingDurationMinutes (toServicesArray services)
                       + BUFFER_AFTER_JOB_MIN))
       else []).
Proof.
  intros Hres Hin Hsame.
  assert (Hp : JsString.truthy (Some p) = true).
  { unfold rangeAvailability in Hres. cbn [da_postcode da_start_date da_end_date] in Hres.
    destruct (JsString.truthy (Some p)); [reflexivity|discriminate]. }
  assert (Hnorm : normalizePostcode (Some p) = p).
  { unfold rangeAvailability in Hres. cbn [da_postcode da_start_date da_end_date] in Hres.
    rewrite Hp in Hres. cbn [negb] in Hres. rewrite result_bind, result_ret in Hres.
    now injection Hres. }
  assert (Harea : in_area entry
                  = isWorkingDay w (day_date entry)
                    && negb (result (outOfAreaForDay w (Some p)
                               (rowsOfDate (day_date entry) (bookingsBetween w s e))))).
  { unfold rangeAvailability in Hres. cbn [da_postcode da_start_date da_end_date] in Hres.
    rewrite Hp in Hres. cbn [negb] in Hres. rewrite result_bind, result_ret in Hres.
    rewrite Hnorm in Hres. injection Hres as Hdates.
    destruct (Clock.localMidnight (tzOffsetMin w) s) as [start|];
      [|rewrite result_ret in Hdates; subst dates; destruct Hin].
    destruct (Clock.localMidnight (tzOffsetMin w) e) as [end_|];
      [|rewrite result_ret in Hdates; subst dates; destruct Hin].
    pose proof (dayLoop_in_area w p (bookingsBetween w s e) end_
                  (dayTurns end_ start) start) as Hall.
    rewrite Hdates in Hall. rewrite Forall_forall in Hall. exact (Hall entry Hin). }
  pose proof (findSlots_result w {| av_date := Some (day_date entry);
                                    av_postcode := Some p;
                                    av_services := services |}
                (day_date entry) eq_refl Hp) as Hslots.
  cbv zeta in Hslots. cbn [av_postcode av_services] in Hslots. rewrite Hslots.
  rewrite Harea, (gate_same_rows w p _ _ Hsame).
  destruct (isWorkingDay w (day_date entry)); [|reflexivity].
  cbn [negb andb].
  destruct (result (outOfAreaForDay w (Some p) (bookingsForDate w (day_date entry))));
    reflexivity.
Qed.

(** X29: the days that [POST /api/date-availability] greys out have
    no slots.  For a postcode that is sent in its normalised form, and
    a day of the answer for which the range query and the day query
    return the same bookings, [POST /api/availability] for that date
    returns no slot when the day is marked as not in the area, and the
    slots of the grid, with neither the working-day check nor the area
    gate in the way, when it is marked as in the area. *)
Theorem greyed_day_has_no_slots :
  forall w p s e dates entry services,
    result (rangeAvailability w {| da_postcode := Some p;
                                   da_start_date := Some s;
                                   da_end_date := Some e |})
    = DateAvailabilityDates p s e dates ->
    In entry dates ->
    (forall row,
       In row (rowsOfDate (day_date entry) (bookingsBetween w s e))
       <-> In row (bookingsForDate w (day_date entry))) ->
    result (findSlots w {| av_date := Some (day_date entry);
                           av_postcode := Some p;
                           av_services := services |})
    = AvailabilitySlots (day_date entry)
        (if in_area entry
         then result (possibleSlots w (Some p) (dayIntervals w (day_date entry))
                        (estimateBookingDurationMinutes (toServicesArray services)
                         + BUFFER_AFTER_JOB_MIN))
         else []).
Proof. exact range_entry_and_slots. Qed.

Lemma greyed_day_has_no_slots_saturday :
  result (findSlots emptyWorld {| av_date := Some saturday;
                                  av_postcode := Some "AB1";
                                  av_services := ServiceArray [basicWash] |})
  = AvailabilitySlots saturday [].
Proof.
  apply (greyed_day_has_no_slots emptyWorld "AB1" saturday sunday
           [{| day_date := saturday; in_area := false |};
            {| day_date := sunday; in_area := false |}]
           {| day_date := saturday; in_area := false |} (ServiceArray [basicWash])).
  - vm_compute. reflexivity.
  - left. reflexivity.
  - intro row. split; intros [].
Defined.
